(** * Sprite / Rabbit: the animated actor of the terminal page

    A shallow embedding of [src/components/Sprite.js],
    [src/components/Rabbit.js] and the part of [src/config/animations.js]
    they read, followed by the properties of the actor's life cycle,
    its jump-direction choice and its glow arithmetic.  The terminal
    and [main] of [src/main.js] and the flicker of [src/config/crt.js]
    follow the actor, each with its own conventions.

    Conventions of the embedding.
    - A JavaScript number is a rational ([Q]); equality of numbers is
      [Qeq].  [Infinity], which [getDistanceToBottomCenter] returns for
      an actor without element, is the extra constructor of [Dist].
    - [this] is the record [Rabbit]; the part of the browser the two
      classes talk to ([document], [window], timers, animation frames,
      the promises returned by [jump]) is the record [Host].  A method
      is a function on [World], the pair of the two.
    - A closure that the source registers as a listener is a
      constructor carrying a fresh identity and the variables it
      captures.
    - [Math.sqrt] and [Math.pow] belong to the JavaScript runtime and are
      a parameter ([JSMath]); [Math.random] and the rectangle returned by
      [getBoundingClientRect] are inputs of the event that needs them. *)

From Stdlib Require Import QArith Qminmax Qpower Qround Qreduction.
From Stdlib Require Import ZArith List String Ascii Bool Lia Lqa.
Import ListNotations.

Open Scope Q_scope.

(** ** JavaScript numbers *)

(** [a < b] on numbers, as a boolean. *)
Definition Qlt_bool (a b : Q) : bool := negb (Qle_bool b a).

(** A distance: a number, or the [Infinity] that
    [getDistanceToBottomCenter] answers when there is no element. *)
Inductive Dist : Type :=
| Finite (d : Q)
| Infinity.

(** [distance < bound] for a finite bound. *)
Definition Dist_lt (distance : Dist) (bound : Q) : bool :=
  match distance with
  | Finite d => Qlt_bool d bound
  | Infinity => false
  end.

(** The two functions of the runtime's [Math] object that the actor
    calls on numbers. *)
Record JSMath : Type := mkJSMath {
  Math_sqrt : Q -> Q;
  Math_pow : Q -> Q -> Q
}.

(** What the proofs use of them: both respect equality of numbers,
    [sqrt 0 = 0] and [pow 1 e = 1]. *)
Record JSMath_ok (M : JSMath) : Prop := mkJSMath_ok {
  Math_sqrt_compat : forall a b, a == b -> Math_sqrt M a == Math_sqrt M b;
  Math_sqrt_0 : Math_sqrt M 0 == 0;
  Math_pow_compat :
    forall a b e, a == b -> Math_pow M a e == Math_pow M b e;
  Math_pow_1 : forall e, Math_pow M 1 e == 1
}.

(** ** Configuration ([src/config/animations.js]) *)

(** The fields of [RABBIT_CONFIG] that [Rabbit.js] reads. *)
Record RabbitConfig : Type := mkRabbitConfig {
  width : Q;
  height : Q;
  cfg_scale : Q;
  jumpCooldownMs : Q;
  jumpDistance : Q;
  mouseThreshold : Q;
  glowRange : Q;
  maxProximityGlow : Q;
  maxProximitySpread : Q;
  glowExponent : Q;
  clickRadius : Q;
  glowBoostPerClick : Q;
  maxPermanentGlow : Q
}.

(** The glow and click constants are read by [Rabbit.js] but are not
    among the fields of the [RABBIT_CONFIG] literal of
    [animations.js]; they are a parameter of the configuration. *)
Record GlowConfig : Type := mkGlowConfig {
  g_glowRange : Q;
  g_maxProximityGlow : Q;
  g_maxProximitySpread : Q;
  g_glowExponent : Q;
  g_clickRadius : Q;
  g_glowBoostPerClick : Q;
  g_maxPermanentGlow : Q
}.

(** [RABBIT_CONFIG], with the values of the source for the fields it
    lists. *)
Definition RABBIT_CONFIG (g : GlowConfig) : RabbitConfig :=
  {| width := 32;
     height := 64;
     cfg_scale := 4;
     jumpCooldownMs := 100;
     jumpDistance := 300;
     mouseThreshold := 150;
     glowRange := g_glowRange g;
     maxProximityGlow := g_maxProximityGlow g;
     maxProximitySpread := g_maxProximitySpread g;
     glowExponent := g_glowExponent g;
     clickRadius := g_clickRadius g;
     glowBoostPerClick := g_glowBoostPerClick g;
     maxPermanentGlow := g_maxPermanentGlow g |}.

(** [const edgeMargin = 20] of [jump]. *)
Definition edgeMargin : Q := 20.

(** ** The DOM as the actor sees it *)

(** What [getBoundingClientRect] reports of the rendered element; the
    source reads [left], [width] and [bottom]. *)
Record Rect : Type := mkRect {
  rect_left : Q;
  rect_width : Q;
  rect_bottom : Q
}.

(** The listeners that the actor puts on [document].  Each is a closure
    of [spawnAndDrop] or [enableMouseReaction]; [h_id] is its identity as
    a function object and [MouseHandler] carries the [threshold] it
    captures. *)
Inductive HandlerKind : Type :=
| EarlyMouseHandler
| MouseHandler (threshold : Q)
| ClickHandler.

Record Handler : Type := mkHandler {
  h_id : nat;
  h_kind : HandlerKind
}.

(** [h1 === h2] on function objects. *)
Definition Handler_same (h1 h2 : Handler) : bool :=
  Nat.eqb (h_id h1) (h_id h2).

(** The listeners that the actor puts on its own element, both for
    [animationend].  [OnJumpEnd] captures the [direction] and the
    [isFirstJump] of its call to [jump] and the [resolve] of the promise
    that call returns (named by [promise]). *)
Inductive ElementListenerKind : Type :=
| OnSpawnEnd
| OnJumpEnd (direction : Z) (isFirstJump : bool) (promise : nat).

Record ElementListener : Type := mkElementListener {
  el_id : nat;
  el_kind : ElementListenerKind
}.

(** The inline style properties that the two classes write. *)
Record Style : Type := mkStyle {
  position : option string;
  style_left : option Q;             (* [left], in px *)
  style_top : option Q;              (* [top], in px *)
  jump_direction : option Z;         (* [--jump-direction] *)
  crt_glow_intensity : option Q;     (* [--crt-glow-intensity] *)
  crt_glow_spread : option Q         (* [--crt-glow-spread] *)
}.

(** The element: its class list, its style, its [animationend]
    listeners, and whether it is attached to the page. *)
Record Element : Type := mkElement {
  classList : list string;
  style : Style;
  listeners : list ElementListener;
  isConnected : bool
}.

(** An entry of [this.eventHandlers]: [{ target, event, handler }]. *)
Inductive EventTarget : Type := document.

Record Tracked : Type := mkTracked {
  tr_target : EventTarget;
  tr_event : string;
  tr_handler : Handler
}.

(** ** [this] *)

(** The fields of a [Rabbit], in the order the two constructors assign
    them; [earlyMouseHandler] is first assigned by [spawnAndDrop] and is
    [undefined] ([None]) before. *)
Record Rabbit : Type := mkRabbit {
  element : option Element;
  x : Q;
  y : Q;
  scale : Q;
  eventHandlers : list Tracked;
  timers : list nat;
  isDestroyed : bool;
  isSpawning : bool;
  isJumping : bool;
  jumpCooldown : bool;
  isFirstJump : bool;
  colorRevealed : bool;
  lastDirection : Z;
  permanentGlowBonus : Q;
  lastMouseX : option Q;
  lastMouseY : option Q;
  glowAnimationId : option nat;
  mouseHandler : option Handler;
  clickHandler : option Handler;
  earlyMouseHandler : option Handler
}.

(** ** The host *)

(** A listener registered on [document]. *)
Record DocListener : Type := mkDocListener {
  l_event : string;
  l_handler : Handler;
  l_once : bool
}.

(** The callbacks the actor hands to [setTimeout]: the only one is the
    arrow function of the mouse handler that clears [jumpCooldown]. *)
Inductive TimerCallback : Type := ClearCooldown.

Record PendingTimeout : Type := mkTimeout {
  t_id : nat;
  t_callback : TimerCallback;
  t_delay : Q
}.

(** A pending promise returned by [jump]; [p_then] tells whether the
    mouse handler has attached its [then] callback to it. *)
Record JumpPromise : Type := mkJumpPromise {
  p_id : nat;
  p_then : bool
}.

Record Host : Type := mkHost {
  documentListeners : list DocListener;
  pendingTimeouts : list PendingTimeout;
  animationFrameRequests : list nat;
  jumpPromises : list JumpPromise;
  innerWidth : Q;
  innerHeight : Q;
  console : list string;
  nextId : nat
}.

Record World : Type := mkWorld {
  this : Rabbit;
  host : Host
}.

(** *** Field updates *)

Definition set_position v (s : Style) : Style :=
    mkStyle v (style_left s) (style_top s) (jump_direction s) (crt_glow_intensity s)
    (crt_glow_spread s).
Definition set_left v (s : Style) : Style :=
    mkStyle (position s) v (style_top s) (jump_direction s) (crt_glow_intensity s)
    (crt_glow_spread s).
Definition set_top v (s : Style) : Style :=
    mkStyle (position s) (style_left s) v (jump_direction s) (crt_glow_intensity
    s) (crt_glow_spread s).
Definition set_jump_direction v (s : Style) : Style :=
    mkStyle (position s) (style_left s) (style_top s) v (crt_glow_intensity s)
    (crt_glow_spread s).
Definition set_crt_glow_intensity v (s : Style) : Style :=
    mkStyle (position s) (style_left s) (style_top s) (jump_direction s) v
    (crt_glow_spread s).
Definition set_crt_glow_spread v (s : Style) : Style :=
    mkStyle (position s) (style_left s) (style_top s) (jump_direction s)
    (crt_glow_intensity s) v.

Definition set_classList v (el : Element) : Element :=
    mkElement v (style el) (listeners el) (isConnected el).
Definition set_style v (el : Element) : Element :=
    mkElement (classList el) v (listeners el) (isConnected el).
Definition set_listeners v (el : Element) : Element :=
    mkElement (classList el) (style el) v (isConnected el).
Definition set_isConnected v (el : Element) : Element :=
    mkElement (classList el) (style el) (listeners el) v.

Definition set_element v (r : Rabbit) : Rabbit :=
    mkRabbit v (x r) (y r) (scale r) (eventHandlers r) (timers r)
    (isDestroyed r) (isSpawning r) (isJumping r) (jumpCooldown r)
    (isFirstJump r) (colorRevealed r) (lastDirection r) (permanentGlowBonus
    r) (lastMouseX r) (lastMouseY r) (glowAnimationId r) (mouseHandler r)
    (clickHandler r) (earlyMouseHandler r).
Definition set_x v (r : Rabbit) : Rabbit :=
    mkRabbit (element r) v (y r) (scale r) (eventHandlers r) (timers r)
    (isDestroyed r) (isSpawning r) (isJumping r) (jumpCooldown r)
    (isFirstJump r) (colorRevealed r) (lastDirection r) (permanentGlowBonus
    r) (lastMouseX r) (lastMouseY r) (glowAnimationId r) (mouseHandler r)
    (clickHandler r) (earlyMouseHandler r).
Definition set_y v (r : Rabbit) : Rabbit :=
    mkRabbit (element r) (x r) v (scale r) (eventHandlers r) (timers r)
    (isDestroyed r) (isSpawning r) (isJumping r) (jumpCooldown r)
    (isFirstJump r) (colorRevealed r) (lastDirection r) (permanentGlowBonus
    r) (lastMouseX r) (lastMouseY r) (glowAnimationId r) (mouseHandler r)
    (clickHandler r) (earlyMouseHandler r).
Definition set_scale v (r : Rabbit) : Rabbit :=
    mkRabbit (element r) (x r) (y r) v (eventHandlers r) (timers r)
    (isDestroyed r) (isSpawning r) (isJumping r) (jumpCooldown r)
    (isFirstJump r) (colorRevealed r) (lastDirection r) (permanentGlowBonus
    r) (lastMouseX r) (lastMouseY r) (glowAnimationId r) (mouseHandler r)
    (clickHandler r) (earlyMouseHandler r).
Definition set_eventHandlers v (r : Rabbit) : Rabbit :=
    mkRabbit (element r) (x r) (y r) (scale r) v (timers r) (isDestroyed r)
    (isSpawning r) (isJumping r) (jumpCooldown r) (isFirstJump r)
    (colorRevealed r) (lastDirection r) (permanentGlowBonus r) (lastMouseX
    r) (lastMouseY r) (glowAnimationId r) (mouseHandler r) (clickHandler r)
    (earlyMouseHandler r).
Definition set_timers v (r : Rabbit) : Rabbit :=
    mkRabbit (element r) (x r) (y r) (scale r) (eventHandlers r) v
    (isDestroyed r) (isSpawning r) (isJumping r) (jumpCooldown r)
    (isFirstJump r) (colorRevealed r) (lastDirection r) (permanentGlowBonus
    r) (lastMouseX r) (lastMouseY r) (glowAnimationId r) (mouseHandler r)
    (clickHandler r) (earlyMouseHandler r).
Definition set_isDestroyed v (r : Rabbit) : Rabbit :=
    mkRabbit (element r) (x r) (y r) (scale r) (eventHandlers r) (timers r)
    v (isSpawning r) (isJumping r) (jumpCooldown r) (isFirstJump r)
    (colorRevealed r) (lastDirection r) (permanentGlowBonus r) (lastMouseX
    r) (lastMouseY r) (glowAnimationId r) (mouseHandler r) (clickHandler r)
    (earlyMouseHandler r).
Definition set_isSpawning v (r : Rabbit) : Rabbit :=
    mkRabbit (element r) (x r) (y r) (scale r) (eventHandlers r) (timers r)
    (isDestroyed r) v (isJumping r) (jumpCooldown r) (isFirstJump r)
    (colorRevealed r) (lastDirection r) (permanentGlowBonus r) (lastMouseX
    r) (lastMouseY r) (glowAnimationId r) (mouseHandler r) (clickHandler r)
    (earlyMouseHandler r).
Definition set_isJumping v (r : Rabbit) : Rabbit :=
    mkRabbit (element r) (x r) (y r) (scale r) (eventHandlers r) (timers r)
    (isDestroyed r) (isSpawning r) v (jumpCooldown r) (isFirstJump r)
    (colorRevealed r) (lastDirection r) (permanentGlowBonus r) (lastMouseX
    r) (lastMouseY r) (glowAnimationId r) (mouseHandler r) (clickHandler r)
    (earlyMouseHandler r).
Definition set_jumpCooldown v (r : Rabbit) : Rabbit :=
    mkRabbit (element r) (x r) (y r) (scale r) (eventHandlers r) (timers r)
    (isDestroyed r) (isSpawning r) (isJumping r) v (isFirstJump r)
    (colorRevealed r) (lastDirection r) (permanentGlowBonus r) (lastMouseX
    r) (lastMouseY r) (glowAnimationId r) (mouseHandler r) (clickHandler r)
    (earlyMouseHandler r).
Definition set_isFirstJump v (r : Rabbit) : Rabbit :=
    mkRabbit (element r) (x r) (y r) (scale r) (eventHandlers r) (timers r)
    (isDestroyed r) (isSpawning r) (isJumping r) (jumpCooldown r) v
    (colorRevealed r) (lastDirection r) (permanentGlowBonus r) (lastMouseX
    r) (lastMouseY r) (glowAnimationId r) (mouseHandler r) (clickHandler r)
    (earlyMouseHandler r).
Definition set_colorRevealed v (r : Rabbit) : Rabbit :=
    mkRabbit (element r) (x r) (y r) (scale r) (eventHandlers r) (timers r)
    (isDestroyed r) (isSpawning r) (isJumping r) (jumpCooldown r)
    (isFirstJump r) v (lastDirection r) (permanentGlowBonus r) (lastMouseX
    r) (lastMouseY r) (glowAnimationId r) (mouseHandler r) (clickHandler r)
    (earlyMouseHandler r).
Definition set_lastDirection v (r : Rabbit) : Rabbit :=
    mkRabbit (element r) (x r) (y r) (scale r) (eventHandlers r) (timers r)
    (isDestroyed r) (isSpawning r) (isJumping r) (jumpCooldown r)
    (isFirstJump r) (colorRevealed r) v (permanentGlowBonus r) (lastMouseX
    r) (lastMouseY r) (glowAnimationId r) (mouseHandler r) (clickHandler r)
    (earlyMouseHandler r).
Definition set_permanentGlowBonus v (r : Rabbit) : Rabbit :=
    mkRabbit (element r) (x r) (y r) (scale r) (eventHandlers r) (timers r)
    (isDestroyed r) (isSpawning r) (isJumping r) (jumpCooldown r)
    (isFirstJump r) (colorRevealed r) (lastDirection r) v (lastMouseX r)
    (lastMouseY r) (glowAnimationId r) (mouseHandler r) (clickHandler r)
    (earlyMouseHandler r).
Definition set_lastMouseX v (r : Rabbit) : Rabbit :=
    mkRabbit (element r) (x r) (y r) (scale r) (eventHandlers r) (timers r)
    (isDestroyed r) (isSpawning r) (isJumping r) (jumpCooldown r)
    (isFirstJump r) (colorRevealed r) (lastDirection r) (permanentGlowBonus
    r) v (lastMouseY r) (glowAnimationId r) (mouseHandler r) (clickHandler
    r) (earlyMouseHandler r).
Definition set_lastMouseY v (r : Rabbit) : Rabbit :=
    mkRabbit (element r) (x r) (y r) (scale r) (eventHandlers r) (timers r)
    (isDestroyed r) (isSpawning r) (isJumping r) (jumpCooldown r)
    (isFirstJump r) (colorRevealed r) (lastDirection r) (permanentGlowBonus
    r) (lastMouseX r) v (glowAnimationId r) (mouseHandler r) (clickHandler
    r) (earlyMouseHandler r).
Definition set_glowAnimationId v (r : Rabbit) : Rabbit :=
    mkRabbit (element r) (x r) (y r) (scale r) (eventHandlers r) (timers r)
    (isDestroyed r) (isSpawning r) (isJumping r) (jumpCooldown r)
    (isFirstJump r) (colorRevealed r) (lastDirection r) (permanentGlowBonus
    r) (lastMouseX r) (lastMouseY r) v (mouseHandler r) (clickHandler r)
    (earlyMouseHandler r).
Definition set_mouseHandler v (r : Rabbit) : Rabbit :=
    mkRabbit (element r) (x r) (y r) (scale r) (eventHandlers r) (timers r)
    (isDestroyed r) (isSpawning r) (isJumping r) (jumpCooldown r)
    (isFirstJump r) (colorRevealed r) (lastDirection r) (permanentGlowBonus
    r) (lastMouseX r) (lastMouseY r) (glowAnimationId r) v (clickHandler r)
    (earlyMouseHandler r).
Definition set_clickHandler v (r : Rabbit) : Rabbit :=
    mkRabbit (element r) (x r) (y r) (scale r) (eventHandlers r) (timers r)
    (isDestroyed r) (isSpawning r) (isJumping r) (jumpCooldown r)
    (isFirstJump r) (colorRevealed r) (lastDirection r) (permanentGlowBonus
    r) (lastMouseX r) (lastMouseY r) (glowAnimationId r) (mouseHandler r) v
    (earlyMouseHandler r).
Definition set_earlyMouseHandler v (r : Rabbit) : Rabbit :=
    mkRabbit (element r) (x r) (y r) (scale r) (eventHandlers r) (timers r)
    (isDestroyed r) (isSpawning r) (isJumping r) (jumpCooldown r)
    (isFirstJump r) (colorRevealed r) (lastDirection r) (permanentGlowBonus
    r) (lastMouseX r) (lastMouseY r) (glowAnimationId r) (mouseHandler r)
    (clickHandler r) v.

Definition set_documentListeners v (h : Host) : Host :=
    mkHost v (pendingTimeouts h) (animationFrameRequests h) (jumpPromises h)
    (innerWidth h) (innerHeight h) (console h) (nextId h).
Definition set_pendingTimeouts v (h : Host) : Host :=
    mkHost (documentListeners h) v (animationFrameRequests h) (jumpPromises
    h) (innerWidth h) (innerHeight h) (console h) (nextId h).
Definition set_animationFrameRequests v (h : Host) : Host :=
    mkHost (documentListeners h) (pendingTimeouts h) v (jumpPromises h)
    (innerWidth h) (innerHeight h) (console h) (nextId h).
Definition set_jumpPromises v (h : Host) : Host :=
    mkHost (documentListeners h) (pendingTimeouts h) (animationFrameRequests
    h) v (innerWidth h) (innerHeight h) (console h) (nextId h).
Definition set_innerWidth v (h : Host) : Host :=
    mkHost (documentListeners h) (pendingTimeouts h) (animationFrameRequests
    h) (jumpPromises h) v (innerHeight h) (console h) (nextId h).
Definition set_innerHeight v (h : Host) : Host :=
    mkHost (documentListeners h) (pendingTimeouts h) (animationFrameRequests
    h) (jumpPromises h) (innerWidth h) v (console h) (nextId h).
Definition set_console v (h : Host) : Host :=
    mkHost (documentListeners h) (pendingTimeouts h) (animationFrameRequests
    h) (jumpPromises h) (innerWidth h) (innerHeight h) v (nextId h).
Definition set_nextId v (h : Host) : Host :=
    mkHost (documentListeners h) (pendingTimeouts h) (animationFrameRequests
    h) (jumpPromises h) (innerWidth h) (innerHeight h) (console h) v.

Definition on_this (f : Rabbit -> Rabbit) (w : World) : World :=
  mkWorld (f (this w)) (host w).

Definition on_host (f : Host -> Host) (w : World) : World :=
  mkWorld (this w) (f (host w)).

(** Runs [f] on the element when there is one. *)
Definition on_element (f : Element -> Element) (r : Rabbit) : Rabbit :=
  match element r with
  | Some el => set_element (Some (f el)) r
  | None => r
  end.

(** A fresh identity (a function object, or an id handed out by
    [setTimeout] and [requestAnimationFrame]); identities start at 1, so
    an id is truthy. *)
Definition fresh (w : World) : nat * World :=
  (nextId (host w), on_host (set_nextId (S (nextId (host w)))) w).

(** ** Host primitives *)

Definition same_listener (event : string) (handler : Handler)
  (l : DocListener) : bool :=
  String.eqb (l_event l) event && Handler_same (l_handler l) handler.

(** [document.addEventListener(event, handler, { once })]: a listener
    already registered for the event is not registered twice. *)
Definition document_addEventListener (event : string) (handler : Handler)
  (once : bool) (h : Host) : Host :=
  if existsb (same_listener event handler) (documentListeners h) then h
  else set_documentListeners
         (documentListeners h ++ [mkDocListener event handler once]) h.

(** [document.removeEventListener(event, handler)]. *)
Definition document_removeEventListener (event : string) (handler : Handler)
  (h : Host) : Host :=
  set_documentListeners
    (filter (fun l => negb (same_listener event handler l))
            (documentListeners h)) h.

(** [clearTimeout(id)]. *)
Definition clearTimeout (id : nat) (h : Host) : Host :=
  set_pendingTimeouts
    (filter (fun t => negb (Nat.eqb (t_id t) id)) (pendingTimeouts h)) h.

(** [requestAnimationFrame(animate)], [animate] being the callback of
    [startGlowAnimation], the only one the actor requests frames for. *)
Definition requestAnimationFrame (w : World) : nat * World :=
  let (id, w) := fresh w in
  (id, on_host (fun h => set_animationFrameRequests
                           (animationFrameRequests h ++ [id]) h) w).

(** [cancelAnimationFrame(id)]. *)
Definition cancelAnimationFrame (id : nat) (h : Host) : Host :=
  set_animationFrameRequests
    (filter (fun i => negb (Nat.eqb i id)) (animationFrameRequests h)) h.

(** [element.classList]: [add], [remove], [contains]. *)
Definition classList_contains (c : string) (el : Element) : bool :=
  existsb (String.eqb c) (classList el).

Definition classList_add (c : string) (el : Element) : Element :=
  if classList_contains c el then el
  else set_classList (classList el ++ [c]) el.

Definition classList_remove (c : string) (el : Element) : Element :=
  set_classList (filter (fun c' => negb (String.eqb c c')) (classList el)) el.

(** [element.addEventListener('animationend', l)] and its inverse, for
    the closures [l] of the actor, each registered once. *)
Definition element_addEventListener (l : ElementListener) (el : Element)
  : Element :=
  set_listeners (listeners el ++ [l]) el.

Definition element_removeEventListener (id : nat) (el : Element) : Element :=
  set_listeners
    (filter (fun l => negb (Nat.eqb (el_id l) id)) (listeners el)) el.

(** ** [Sprite.js] *)

(** The [options] object of the constructors. *)
Record Options : Type := mkOptions {
  opt_x : option Q;
  opt_y : option Q;
  opt_scale : option Q
}.

Definition no_options : Options := mkOptions None None None.

(** [a ?? b]. *)
Definition nullish (a : option Q) (b : Q) : Q :=
  match a with
  | Some v => v
  | None => b
  end.

Module Sprite.

(** [createElement()] of the base class: a [div] of class [sprite]. *)
Definition createElement : Element :=
  mkElement ["sprite"%string]
            (mkStyle None None None None None None) [] false.

(** [updatePosition()]. *)
Definition updatePosition (r : Rabbit) : Rabbit :=
  on_element
    (fun el => set_style
                 (set_top (Some (y r)) (set_left (Some (x r)) (style el)))
                 el) r.

(** [spawn(parent)]; [create] is [this.createElement()], which a
    subclass overrides, and appending to [parent] connects the
    element. *)
Definition spawn (create : Element) (w : World) : World :=
  match element (this w) with
  | Some _ =>
      on_host (fun h => set_console
                          (console h ++ ["Sprite already spawned"%string])
                          h) w
  | None =>
      let w := on_this (set_element (Some create)) w in
      let w := on_this updatePosition w in
      on_this (on_element (set_isConnected true)) w
  end.

(** [setPosition(x, y)]. *)
Definition setPosition (x' y' : Q) (r : Rabbit) : Rabbit :=
  updatePosition (set_y y' (set_x x' r)).

(** [addEventListener(target, event, handler, options)], [once] being
    [options?.once]. *)
Definition addEventListener (target : EventTarget) (event : string)
  (handler : Handler) (once : bool) (w : World) : World :=
  let w := on_host (document_addEventListener event handler once) w in
  if once then w
  else on_this (fun r => set_eventHandlers
                           (eventHandlers r ++
                              [mkTracked target event handler]) r) w.

(** [setTimeout(callback, delay)]: returns the id. *)
Definition setTimeout (callback : TimerCallback) (delay : Q) (w : World)
  : nat * World :=
  let (id, w) := fresh w in
  let w := on_host (fun h => set_pendingTimeouts
                               (pendingTimeouts h ++
                                  [mkTimeout id callback delay]) h) w in
  (id, on_this (fun r => set_timers (timers r ++ [id]) r) w).

(** [destroy()]. *)
Definition destroy (w : World) : World :=
  if isDestroyed (this w) then w
  else
    let w := on_this (set_isDestroyed true) w in
    let w :=
      fold_left
        (fun w t =>
           on_host (document_removeEventListener (tr_event t)
                      (tr_handler t)) w)
        (eventHandlers (this w)) w in
    let w := on_this (set_eventHandlers []) w in
    let w :=
      fold_left (fun w id => on_host (clearTimeout id) w)
                (timers (this w)) w in
    let w := on_this (set_timers []) w in
    match element (this w) with
    | Some _ => on_this (set_element None) w
    | None => w
    end.

End Sprite.

(** ** [Rabbit.js] *)

(** A mouse event, of which the handlers read [clientX] and [clientY]. *)
Record MouseEvent : Type := mkMouseEvent {
  clientX : Q;
  clientY : Q
}.

(** What the host answers while one event is handled: the rendered
    rectangle of the element and the next draw of [Math.random()]. *)
Record Ambient : Type := mkAmbient {
  rect : Rect;
  random : Q
}.

(** The result of [getDistanceToBottomCenter]. *)
Record DistanceInfo : Type := mkDistanceInfo {
  distance : Dist;
  rabbitBottomX : Q;
  rabbitBottomY : Q
}.

(** How a call to [jump] leaves its promise: already resolved, or
    pending until the [OnJumpEnd] listener resolves it. *)
Inductive JumpResult : Type :=
| Resolved
| Pending (promise : nat).

Section RabbitMethods.

Variable cfg : RabbitConfig.
Variable M : JSMath.

(** [new Rabbit(options)]: the constructor of [Sprite] on
    [{ scale: RABBIT_CONFIG.scale, ...options }], then the fields of
    [Rabbit]. *)
Definition new_Rabbit (options : Options) : Rabbit :=
  {| element := None;
     x := nullish (opt_x options) 0;
     y := nullish (opt_y options) 0;
     scale := nullish (opt_scale options) (cfg_scale cfg);
     eventHandlers := [];
     timers := [];
     isDestroyed := false;
     isSpawning := true;
     isJumping := false;
     jumpCooldown := false;
     isFirstJump := true;
     colorRevealed := false;
     lastDirection := (-1)%Z;
     permanentGlowBonus := 0;
     lastMouseX := None;
     lastMouseY := None;
     glowAnimationId := None;
     mouseHandler := None;
     clickHandler := None;
     earlyMouseHandler := None |}.

(** [createElement()]. *)
Definition createElement : Element :=
  mkElement ["rabbit"%string; "spawning"%string; "flipped"%string]
            (mkStyle (Some "fixed"%string) None None None None None)
            [] false.

(** [getDistanceToBottomCenter(clientX, clientY)]. *)
Definition getDistanceToBottomCenter (rc : Rect) (cx cy : Q) (r : Rabbit)
  : DistanceInfo :=
  match element r with
  | None => mkDistanceInfo Infinity 0 0
  | Some _ =>
      let rabbitBottomX := rect_left rc + rect_width rc / 2 in
      let rabbitBottomY := rect_bottom rc in
      let dx := cx - rabbitBottomX in
      let dy := cy - rabbitBottomY in
      mkDistanceInfo (Finite (Math_sqrt M (dx * dx + dy * dy)))
                     rabbitBottomX rabbitBottomY
  end.

(** The [proximityFactor] of [updateGlow]. *)
Definition proximityFactor (d : Dist) : Q :=
  match d with
  | Finite d =>
      if Qlt_bool d (glowRange cfg) then
        let t := 1 - d / glowRange cfg in
        Math_pow M t (glowExponent cfg)
      else 0
  | Infinity => 0   (* [Infinity < glowRange] is false *)
  end.

(** The [totalGlow] and [totalSpread] of [updateGlow]. *)
Definition totalGlow (d : Dist) (r : Rabbit) : Q :=
  1 + proximityFactor d * maxProximityGlow cfg + permanentGlowBonus r.

Definition totalSpread (d : Dist) : Q :=
  1 + proximityFactor d * maxProximitySpread cfg.

(** [updateGlow(distance)]. *)
Definition updateGlow (d : Dist) (r : Rabbit) : Rabbit :=
  on_element
    (fun el =>
       set_style
         (set_crt_glow_spread (Some (totalSpread d))
            (set_crt_glow_intensity (Some (totalGlow d r)) (style el)))
         el) r.

(** [updateGlowFromStoredPosition()]. *)
Definition updateGlowFromStoredPosition (rc : Rect) (r : Rabbit) : Rabbit :=
  match lastMouseX r, lastMouseY r with
  | Some mx, Some my =>
      updateGlow (distance (getDistanceToBottomCenter rc mx my r)) r
  | _, _ => r
  end.

(** [startGlowAnimation()]. *)
Definition startGlowAnimation (w : World) : World :=
  match glowAnimationId (this w) with
  | Some _ => w
  | None =>
      let (id, w) := requestAnimationFrame w in
      on_this (set_glowAnimationId (Some id)) w
  end.

(** The [animate] callback of [startGlowAnimation], run by the host
    for a frame it was requested for. *)
Definition animate (rc : Rect) (w : World) : World :=
  let w := on_this (updateGlowFromStoredPosition rc) w in
  let (id, w) := requestAnimationFrame w in
  on_this (set_glowAnimationId (Some id)) w.

(** [stopGlowAnimation()]. *)
Definition stopGlowAnimation (w : World) : World :=
  match glowAnimationId (this w) with
  | Some id =>
      let w := on_host (cancelAnimationFrame id) w in
      on_this (set_glowAnimationId None) w
  | None => w
  end.

(** [spawnAndDrop(x, y, container)]. *)
Definition spawnAndDrop (x' y' : Q) (w : World) : World :=
  let w := on_this (fun r => set_y y' (set_x x' r)) w in
  let w := Sprite.spawn createElement w in
  let w := on_this (on_element (classList_add "crt-effects")) w in
  let w := on_this Sprite.updatePosition w in
  let (hid, w) := fresh w in
  let early := mkHandler hid EarlyMouseHandler in
  let w := on_this (set_earlyMouseHandler (Some early)) w in
  let w := on_host (document_addEventListener "mousemove" early false) w in
  let w := startGlowAnimation w in
  let (lid, w) := fresh w in
  on_this (on_element
             (element_addEventListener (mkElementListener lid OnSpawnEnd)))
          w.

(** The closure [onSpawnEnd] of [spawnAndDrop]; [self] is its own
    identity, by which it removes itself. *)
Definition onSpawnEnd (self : nat) (animationName : string) (w : World)
  : World :=
  if negb (String.eqb animationName "rabbit-spawn-drop") then w
  else
    let w := on_this (on_element (element_removeEventListener self)) w in
    let w := stopGlowAnimation w in
    let w := on_this (set_isSpawning false) w in
    let w := on_this (on_element (classList_remove "spawning")) w in
    let visualHeight := height cfg * scale (this w) in
    let w := on_this (set_y (innerHeight (host w) - visualHeight)) w in
    on_this Sprite.updatePosition w.

(** The two feasibility tests of [jump]. *)
Definition visualWidth (r : Rabbit) : Q := width cfg * scale r.

Definition canGoLeft (r : Rabbit) : bool :=
  Qle_bool edgeMargin (x r - jumpDistance cfg).

Definition canGoRight (W : Q) (r : Rabbit) : bool :=
  Qle_bool (x r + jumpDistance cfg + visualWidth r) (W - edgeMargin).

(** The direction that [jump] determines: [1] is left, [-1] is right,
    and [None] is the branch that returns without jumping. *)
Definition chooseDirection (rnd : Q) (W : Q) (r : Rabbit) : option Z :=
  if isFirstJump r then
    Some (if canGoRight W r then (-1)%Z else 1%Z)
  else if negb (canGoLeft r) && negb (canGoRight W r) then None
  else if negb (canGoLeft r) then Some (-1)%Z
  else if negb (canGoRight W r) then Some 1%Z
  else Some (if Qlt_bool rnd (1 # 3) then (- lastDirection r)%Z
             else lastDirection r).

(** [jump()]: the new world and the state of the promise returned. *)
Definition jump (rnd : Q) (w : World) : World * JumpResult :=
  match element (this w) with
  | None => (w, Resolved)
  | Some _ =>
      if isSpawning (this w) then (w, Resolved)
      else
        let first := isFirstJump (this w) in
        match chooseDirection rnd (innerWidth (host w)) (this w) with
        | None => (on_this (set_isJumping false) w, Resolved)
        | Some direction =>
            let w :=
              if first then
                let w := on_this (set_isFirstJump false) w in
                on_this (on_element (classList_add "color-fade")) w
              else w in
            let w := on_this (set_lastDirection direction) w in
            let w :=
              on_this (on_element
                         (fun el => set_style
                                      (set_jump_direction (Some direction)
                                         (style el)) el)) w in
            let w :=
              if Z.eqb direction (-1) then
                on_this (on_element (classList_add "flipped")) w
              else on_this (on_element (classList_remove "flipped")) w in
            let w := on_this (on_element (classList_remove "jumping")) w in
            let w := on_this (on_element (classList_add "jumping")) w in
            let w := startGlowAnimation w in
            let (p, w) := fresh w in
            let w :=
              on_host (fun h => set_jumpPromises
                                  (jumpPromises h ++
                                     [mkJumpPromise p false]) h) w in
            let (lid, w) := fresh w in
            let w :=
              on_this (on_element
                         (element_addEventListener
                            (mkElementListener lid
                               (OnJumpEnd direction first p)))) w in
            (w, Pending p)
        end
  end.

(** The [then] callback of the mouse handler: start the cooldown and
    schedule its end. *)
Definition startCooldown (w : World) : World :=
  let w := on_this (set_jumpCooldown true) w in
  snd (Sprite.setTimeout ClearCooldown (jumpCooldownMs cfg) w).

(** [resolve()] of the promise [p]: the promise is settled and, when
    the mouse handler attached its callback, the callback runs as soon
    as the current listener has returned. *)
Definition resolve (p : nat) (w : World) : World :=
  let attached :=
    existsb (fun q => Nat.eqb (p_id q) p && p_then q)
            (jumpPromises (host w)) in
  let w :=
    on_host (fun h => set_jumpPromises
                        (filter (fun q => negb (Nat.eqb (p_id q) p))
                                (jumpPromises h)) h) w in
  if attached then startCooldown w else w.

(** [promise.then(callback)] for the callback of the mouse handler. *)
Definition then_startCooldown (res : JumpResult) (w : World) : World :=
  match res with
  | Resolved => startCooldown w
  | Pending p =>
      on_host (fun h => set_jumpPromises
                          (map (fun q => if Nat.eqb (p_id q) p
                                         then mkJumpPromise p true else q)
                               (jumpPromises h)) h) w
  end.

(** The closure [onJumpEnd] of [jump]. *)
Definition onJumpEnd (self : nat) (direction : Z) (first : bool)
  (p : nat) (animationName : string) (w : World) : World :=
  if negb (String.eqb animationName "rabbit-jump-sprite") then w
  else
    let w := on_this (on_element (element_removeEventListener self)) w in
    let offset := jumpDistance cfg * inject_Z direction in
    let w := on_this (fun r => set_x (x r - offset) r) w in
    let w := on_this Sprite.updatePosition w in
    let w := on_this (on_element (classList_remove "jumping")) w in
    let w := stopGlowAnimation w in
    let w :=
      if first then
        let w := on_this (on_element (classList_remove "color-fade")) w in
        let w := on_this (on_element (classList_add "color-revealed")) w in
        on_this (set_colorRevealed true) w
      else w in
    let w := on_this (set_isJumping false) w in
    resolve p w.

(** The closure [earlyMouseHandler] of [spawnAndDrop]. *)
Definition run_earlyMouseHandler (e : MouseEvent) (r : Rabbit) : Rabbit :=
  set_lastMouseY (Some (clientY e)) (set_lastMouseX (Some (clientX e)) r).

(** The closure [mouseHandler] of [enableMouseReaction], [threshold]
    being the parameter it captures. *)
Definition run_mouseHandler (threshold : Q) (e : MouseEvent)
  (env : Ambient) (w : World) : World :=
  let w := on_this (run_earlyMouseHandler e) w in
  let d :=
    distance (getDistanceToBottomCenter (rect env) (clientX e) (clientY e)
                (this w)) in
  let w :=
    match glowAnimationId (this w) with
    | None => on_this (updateGlow d) w
    | Some _ => w
    end in
  if isSpawning (this w) || isJumping (this w) || jumpCooldown (this w)
  then w
  else if Dist_lt d threshold then
    let w := on_this (set_isJumping true) w in
    let (w, res) := jump (random env) w in
    then_startCooldown res w
  else w.

(** The closure [clickHandler] of [enableMouseReaction]. *)
Definition run_clickHandler (e : MouseEvent) (env : Ambient) (r : Rabbit)
  : Rabbit :=
  let d :=
    distance (getDistanceToBottomCenter (rect env) (clientX e) (clientY e)
                r) in
  if Dist_lt d (clickRadius cfg) then
    let r :=
      set_permanentGlowBonus
        (Qmin (permanentGlowBonus r + glowBoostPerClick cfg)
              (maxPermanentGlow cfg)) r in
    updateGlow d r
  else r.

(** [enableMouseReaction(threshold)]; [None] is the call without
    argument, for which the default is [RABBIT_CONFIG.mouseThreshold]. *)
Definition enableMouseReaction (threshold : option Q) (w : World) : World :=
  match element (this w) with
  | None => w
  | Some _ =>
      let threshold := nullish threshold (mouseThreshold cfg) in
      let w :=
        match earlyMouseHandler (this w) with
        | Some early =>
            let w :=
              on_host (document_removeEventListener "mousemove" early) w in
            on_this (set_earlyMouseHandler None) w
        | None => w
        end in
      let (mid, w) := fresh w in
      let mh := mkHandler mid (MouseHandler threshold) in
      let w := on_this (set_mouseHandler (Some mh)) w in
      let (cid, w) := fresh w in
      let ch := mkHandler cid ClickHandler in
      let w := on_this (set_clickHandler (Some ch)) w in
      let w := Sprite.addEventListener document "mousemove" mh false w in
      Sprite.addEventListener document "click" ch false w
  end.

(** [this.eventHandlers.filter(h => h.handler !== handler)]. *)
Definition untrack (handler : Handler) (r : Rabbit) : Rabbit :=
  set_eventHandlers
    (filter (fun t => negb (Handler_same (tr_handler t) handler))
            (eventHandlers r)) r.

(** [disableMouseReaction()]. *)
Definition disableMouseReaction (w : World) : World :=
  let w := stopGlowAnimation w in
  let w :=
    match earlyMouseHandler (this w) with
    | Some early =>
        let w :=
          on_host (document_removeEventListener "mousemove" early) w in
        on_this (set_earlyMouseHandler None) w
    | None => w
    end in
  let w :=
    match mouseHandler (this w) with
    | Some mh =>
        let w := on_host (document_removeEventListener "mousemove" mh) w in
        let w := on_this (untrack mh) w in
        on_this (set_mouseHandler None) w
    | None => w
    end in
  match clickHandler (this w) with
  | Some ch =>
      let w := on_host (document_removeEventListener "click" ch) w in
      let w := on_this (untrack ch) w in
      on_this (set_clickHandler None) w
  | None => w
  end.

(** [destroy()]: [disableMouseReaction()], then [super.destroy()]. *)
Definition destroy (w : World) : World :=
  Sprite.destroy (disableMouseReaction w).

(** ** Events *)

(** What the host delivers to the actor. *)
Inductive Event : Type :=
| MouseMove (e : MouseEvent) (env : Ambient)
| Click (e : MouseEvent) (env : Ambient)
| AnimationEnd (animationName : string)
| TimeoutFires (id : nat)
| AnimationFrame (env : Ambient)
| Resize (W H : Q).

(** One listener of [document] called with a mouse event. *)
Definition run_handler (h : Handler) (e : MouseEvent) (env : Ambient)
  (w : World) : World :=
  match h_kind h with
  | EarlyMouseHandler => on_this (run_earlyMouseHandler e) w
  | MouseHandler threshold => run_mouseHandler threshold e env w
  | ClickHandler => on_this (run_clickHandler e env) w
  end.

(** Dispatch of a mouse event of type [event] on [document]: the
    listeners registered for it when the dispatch starts are called in
    order, each only if it is still registered at its turn; a [once]
    listener is removed before it is called. *)
Fixpoint dispatch_document (event : string) (ls : list DocListener)
  (e : MouseEvent) (env : Ambient) (w : World) : World :=
  match ls with
  | [] => w
  | l :: ls =>
      let w :=
        if String.eqb (l_event l) event
           && existsb (same_listener event (l_handler l))
                      (documentListeners (host w))
        then
          let w :=
            if l_once l then
              on_host (document_removeEventListener event (l_handler l)) w
            else w in
          run_handler (l_handler l) e env w
        else w in
      dispatch_document event ls e env w
  end.

(** One [animationend] listener of the element called. *)
Definition run_elementListener (l : ElementListener)
  (animationName : string) (w : World) : World :=
  match el_kind l with
  | OnSpawnEnd => onSpawnEnd (el_id l) animationName w
  | OnJumpEnd direction first p =>
      onJumpEnd (el_id l) direction first p animationName w
  end.

Definition still_listening (id : nat) (w : World) : bool :=
  match element (this w) with
  | Some el => existsb (fun l => Nat.eqb (el_id l) id) (listeners el)
  | None => false
  end.

(** Dispatch of [animationend] on the element, with the same rule. *)
Fixpoint dispatch_element (ls : list ElementListener)
  (animationName : string) (w : World) : World :=
  match ls with
  | [] => w
  | l :: ls =>
      let w :=
        if still_listening (el_id l) w
        then run_elementListener l animationName w
        else w in
      dispatch_element ls animationName w
  end.

(** The wrapper that [Sprite.setTimeout] hands to the host, run when
    the timeout [id] fires. *)
Definition run_timeout (t : PendingTimeout) (w : World) : World :=
  let w :=
    on_this (fun r => set_timers
                        (filter (fun i => negb (Nat.eqb i (t_id t)))
                                (timers r)) r) w in
  match t_callback t with
  | ClearCooldown => on_this (set_jumpCooldown false) w
  end.

(** One event.  An element that is not attached runs no animation, so
    [animationend] reaches the listeners of the current element only;
    a timeout fires once; a frame runs the callbacks requested before
    it. *)
Definition handle (ev : Event) (w : World) : World :=
  match ev with
  | MouseMove e env =>
      dispatch_document "mousemove" (documentListeners (host w)) e env w
  | Click e env =>
      dispatch_document "click" (documentListeners (host w)) e env w
  | AnimationEnd animationName =>
      match element (this w) with
      | Some el => dispatch_element (listeners el) animationName w
      | None => w
      end
  | TimeoutFires id =>
      match find (fun t => Nat.eqb (t_id t) id) (pendingTimeouts (host w))
      with
      | Some t => run_timeout t (on_host (clearTimeout id) w)
      | None => w
      end
  | AnimationFrame env =>
      let requested := animationFrameRequests (host w) in
      let w := on_host (set_animationFrameRequests []) w in
      fold_left (fun w _ => animate (rect env) w) requested w
  | Resize W H =>
      on_host (fun h => set_innerHeight H (set_innerWidth W h)) w
  end.

(** The methods a caller of the class can invoke. *)
Inductive Call : Type :=
| CallSpawn
| CallSetPosition (x' y' : Q)
| CallSpawnAndDrop (x' y' : Q)
| CallJump (rnd : Q)
| CallUpdateGlow (d : Dist)
| CallUpdateGlowFromStoredPosition (rc : Rect)
| CallStartGlowAnimation
| CallStopGlowAnimation
| CallEnableMouseReaction (threshold : option Q)
| CallDisableMouseReaction
| CallDestroy.

Definition invoke (c : Call) (w : World) : World :=
  match c with
  | CallSpawn => Sprite.spawn createElement w
  | CallSetPosition x' y' => on_this (Sprite.setPosition x' y') w
  | CallSpawnAndDrop x' y' => spawnAndDrop x' y' w
  | CallJump rnd => fst (jump rnd w)
  | CallUpdateGlow d => on_this (updateGlow d) w
  | CallUpdateGlowFromStoredPosition rc =>
      on_this (updateGlowFromStoredPosition rc) w
  | CallStartGlowAnimation => startGlowAnimation w
  | CallStopGlowAnimation => stopGlowAnimation w
  | CallEnableMouseReaction threshold => enableMouseReaction threshold w
  | CallDisableMouseReaction => disableMouseReaction w
  | CallDestroy => destroy w
  end.

(** A step of the actor's life: a call or an event. *)
Inductive Action : Type :=
| Do (c : Call)
| On (ev : Event).

Definition step (a : Action) (w : World) : World :=
  match a with
  | Do c => invoke c w
  | On ev => handle ev w
  end.

Definition run (tr : list Action) (w : World) : World :=
  fold_left (fun w a => step a w) tr w.

(** The page before the actor exists, for a viewport [W] by [H]. *)
Definition initial_host (W H : Q) : Host :=
  mkHost [] [] [] [] W H [] 1.

(** [new Rabbit(options)] on that page. *)
Definition initial_world (options : Options) (W H : Q) : World :=
  mkWorld (new_Rabbit options) (initial_host W H).

End RabbitMethods.

(** ** A runtime and a configuration to evaluate with *)

(** A [Math] to run the definitions with: the square root rounded down
    to the denominator of its argument, exact on squares, and the power
    for the integer part of the exponent, exact for an integer one. *)
Definition example_sqrt (q : Q) : Q :=
  let q' := Qred q in
  Z.sqrt (Qnum q' * Zpos (Qden q')) # Qden q'.

Definition example_pow (t e : Q) : Q := Qpower t (Qfloor e).

Definition exampleMath : JSMath := mkJSMath example_sqrt example_pow.

(** The glow constants of the scenarios: a click radius of 50, a boost
    of 0.2 for each click and a permanent glow of at most 1.0; a range of
    300 with exponent 2 for the proximity glow. *)
Definition exampleGlow : GlowConfig :=
  mkGlowConfig 300 1 1 2 50 (2 # 10) 1.

Definition exampleConfig : RabbitConfig := RABBIT_CONFIG exampleGlow.

(** The actor of [main.js] once it stands idle: constructed without
    options in a viewport 1000 wide and 800 high, dropped from
    [(100, 0)], made reactive, and its drop animation ended. *)
Definition exampleStart : World :=
  enableMouseReaction exampleConfig None
    (spawnAndDrop 100 0
       (initial_world exampleConfig no_options 1000 800)).

Definition exampleIdle : World :=
  handle exampleConfig exampleMath (AnimationEnd "rabbit-spawn-drop")
    exampleStart.

(** The same actor after its first jump has completed: it stands at
    [x = 400], both directions feasible. *)
Definition exampleLater : World :=
  handle exampleConfig exampleMath (AnimationEnd "rabbit-jump-sprite")
    (fst (jump exampleConfig 0 exampleIdle)).

(** [exampleLater] moved back to [x = 100], where a jump to the left
    would leave the viewport. *)
Definition exampleLeftEdge : World :=
  on_this (Sprite.setPosition 100 544) exampleLater.

(** An idle actor that has not jumped yet, in a viewport 300 wide, too
    narrow for a jump in either direction. *)
Definition exampleTrapped : World :=
  handle exampleConfig exampleMath (AnimationEnd "rabbit-spawn-drop")
    (spawnAndDrop 100 0 (initial_world exampleConfig no_options 300 800)).

(** The [animationend] listeners of the actor's element. *)
Definition listeners_of (w : World) : list ElementListener :=
  match element (this w) with
  | Some el => listeners el
  | None => []
  end.

(** What [jump] leaves behind when, called in [w], it starts a jump in
    [direction]: a pending promise, the direction recorded in
    [lastDirection] and in [--jump-direction], the class [jumping] set,
    and one more [animationend] listener, an [OnJumpEnd] holding the
    direction, the [first] flag and the promise. *)
Definition jump_started (direction : Z) (first : bool) (w : World)
  (out : World * JumpResult) : Prop :=
  exists p lid el',
    snd out = Pending p
    /\ lastDirection (this (fst out)) = direction
    /\ isFirstJump (this (fst out)) = false
    /\ element (this (fst out)) = Some el'
    /\ jump_direction (style el') = Some direction
    /\ classList_contains "jumping" el' = true
    /\ listeners el'
       = listeners_of w ++ [mkElementListener lid (OnJumpEnd direction first p)]
    /\ In (mkJumpPromise p false) (jumpPromises (host (fst out))).

(** ** What a step leaves alone *)

(** The actor has an element. *)
Definition spawned (w : World) : bool :=
  match element (this w) with
  | Some _ => true
  | None => false
  end.

(** [w'] has the element and the destroyed flag of [w]; identities are
    only ever handed out. *)
Definition kept (w w' : World) : Prop :=
  isDestroyed (this w') = isDestroyed (this w)
  /\ spawned w' = spawned w
  /\ (nextId (host w) <= nextId (host w'))%nat.

(** [w'] differs from [w] in nothing that concerns the jumps. *)
Definition settled (w w' : World) : Prop :=
  isFirstJump (this w') = isFirstJump (this w)
  /\ isJumping (this w') = isJumping (this w)
  /\ listeners_of w' = listeners_of w
  /\ jumpPromises (host w') = jumpPromises (host w).

(** [w'] has the jump flags and the pending promises of [w]. *)
Definition settled_flags (w w' : World) : Prop :=
  isFirstJump (this w') = isFirstJump (this w)
  /\ isJumping (this w') = isJumping (this w)
  /\ jumpPromises (host w') = jumpPromises (host w).

(** [w'] has the permanent glow and the colour latch of [w]. *)
Definition same_look (w w' : World) : Prop :=
  permanentGlowBonus (this w') = permanentGlowBonus (this w)
  /\ colorRevealed (this w') = colorRevealed (this w).

(** [w'] has the listeners of [w] on [document]. *)
Definition same_wiring (w w' : World) : Prop :=
  documentListeners (host w') = documentListeners (host w).

Definition inert (w w' : World) : Prop :=
  kept w w' /\ settled w w' /\ same_look w w' /\ same_wiring w w'.

(** Marks the promise [p] as having its [then] callback. *)
Definition mark_then (p : nat) (q : JumpPromise) : JumpPromise :=
  if Nat.eqb (p_id q) p then mkJumpPromise p true else q.

(** The subscription [t] is among the listeners of [document]. *)
Definition subscribed (h : Host) (t : Tracked) : bool :=
  existsb (same_listener (tr_event t) (tr_handler t)) (documentListeners h).

(** The timeout [id] is still pending. *)
Definition pending (h : Host) (id : nat) : bool :=
  existsb (fun t => Nat.eqb (t_id t) id) (pendingTimeouts h).

(** No glow loop and no mouse reaction: what [disableMouseReaction]
    leaves. *)
Definition quiet (r : Rabbit) : Prop :=
  glowAnimationId r = None
  /\ earlyMouseHandler r = None
  /\ mouseHandler r = None
  /\ clickHandler r = None.

(** [w'] differs from [w] at most in the listeners of [document]. *)
Definition calm (w w' : World) : Prop :=
  kept w w' /\ settled w w' /\ same_look w w'.

(** The step is a call of [spawn] or of [spawnAndDrop]. *)
Definition is_spawn (a : Action) : bool :=
  match a with
  | Do CallSpawn => true
  | Do (CallSpawnAndDrop _ _) => true
  | _ => false
  end.

(** The event is the end of an animation of the element. *)
Definition is_animationend (ev : Event) : bool :=
  match ev with
  | AnimationEnd _ => true
  | _ => false
  end.

(** The listener is the [onJumpEnd] of a first jump. *)
Definition is_first (l : ElementListener) : bool :=
  match el_kind l with
  | OnJumpEnd _ first _ => first
  | OnSpawnEnd => false
  end.

(** The listener is an [onJumpEnd]. *)
Definition is_jump (l : ElementListener) : bool :=
  match el_kind l with
  | OnJumpEnd _ _ _ => true
  | OnSpawnEnd => false
  end.

(** The listeners of the element have distinct identities, all handed
    out already. *)
Definition fresh_listeners (w : World) : Prop :=
  NoDup (map el_id (listeners_of w))
  /\ forall l, In l (listeners_of w) -> (el_id l < nextId (host w))%nat.

(** The worlds that a sequence of calls and events leads to from a
    newly constructed actor. *)
Definition reachable (cfg : RabbitConfig) (M : JSMath) (w : World) : Prop :=
  exists options W H tr, w = run cfg M tr (initial_world cfg options W H).

(** The invariant of the first jump: the listeners have distinct
    identities, none is a first jump's while [isFirstJump] is set, and at
    most one is afterwards. *)
Definition first_jump_inv (w : World) : Prop :=
  fresh_listeners w
  /\ (List.length (filter is_first (listeners_of w))
      <= if isFirstJump (this w) then 0 else 1)%nat.

(** The step is a call of [jump] by the page itself, as opposed to the
    call made by the mouse handler. *)
Definition is_direct_jump (a : Action) : bool :=
  match a with
  | Do (CallJump _) => true
  | _ => false
  end.

(** The invariant of the jumps started by the pointer: at most one
    promise of [jump] is pending; while one is, the jumping flag is set;
    the element has at most one [onJumpEnd] listener, and it resolves the
    pending promise. *)
Definition one_jump_inv (w : World) : Prop :=
  fresh_listeners w
  /\ (List.length (jumpPromises (host w)) <= 1)%nat
  /\ (isJumping (this w) = false -> jumpPromises (host w) = [])
  /\ (List.length (filter is_jump (listeners_of w))
      <= List.length (jumpPromises (host w)))%nat
  /\ (forall l q,
        In l (listeners_of w) -> In q (jumpPromises (host w)) ->
        is_jump l = true ->
        exists d first, el_kind l = OnJumpEnd d first (p_id q)).

(** The event is a click at a distance below [clickRadius] of the
    bottom centre of the rendered element. *)
Definition qualifying (cfg : RabbitConfig) (M : JSMath) (ev : Event) : bool :=
  match ev with
  | Click e env =>
      let dx := clientX e - (rect_left (rect env) + rect_width (rect env) / 2) in
      let dy := clientY e - rect_bottom (rect env) in
      Qlt_bool (Math_sqrt M (dx * dx + dy * dy)) (clickRadius cfg)
  | _ => false
  end.

(** The page after [enableMouseReaction] on a spawned actor: [document]
    has the mouse handler for [mousemove] and the click handler for
    [click], and nothing else. *)
Definition wired (w : World) : Prop :=
  spawned w = true
  /\ exists mh ch thr,
       documentListeners (host w)
       = [mkDocListener "mousemove" (mkHandler mh (MouseHandler thr)) false;
          mkDocListener "click" (mkHandler ch ClickHandler) false].

(** [w'] has the element, the listeners on [document] and the permanent
    glow of [w]. *)
Definition plain (w w' : World) : Prop :=
  spawned w' = spawned w
  /\ documentListeners (host w') = documentListeners (host w)
  /\ permanentGlowBonus (this w') = permanentGlowBonus (this w).

(** ** Invariants of the actor's life *)

(** What a property of worlds must survive to hold after every event:
    the closures that the host calls and the methods they call in
    turn.  (The dispatch on [document] also removes a listener
    registered with [once]; the lemmas that need it ask for that
    separately.) *)
Record kept_by_events (cfg : RabbitConfig) (M : JSMath)
  (P : World -> Prop) : Prop := mk_kept_by_events {
  by_earlyMouseHandler :
    forall e w, P w -> P (on_this (run_earlyMouseHandler e) w);
  by_updateGlow :
    forall d w, P w -> P (on_this (updateGlow cfg M d) w);
  by_set_isJumping :
    forall b w, P w -> P (on_this (set_isJumping b) w);
  by_jump :
    forall rnd w, P w -> P (fst (jump cfg rnd w));
  by_then :
    forall res w, P w -> P (then_startCooldown cfg res w);
  by_clickHandler :
    forall e env w, P w -> P (on_this (run_clickHandler cfg M e env) w);
  by_onSpawnEnd :
    forall self w, P w -> P (onSpawnEnd cfg self "rabbit-spawn-drop" w);
  by_onJumpEnd :
    forall self d first p w,
      P w -> P (onJumpEnd cfg self d first p "rabbit-jump-sprite" w);
  by_timeout :
    forall id w, P w -> P (handle cfg M (TimeoutFires id) w);
  by_frame :
    forall env w, P w -> P (handle cfg M (AnimationFrame env) w);
  by_resize :
    forall W H w, P w -> P (handle cfg M (Resize W H) w)
}.

(** And to hold after every call of a method by the page. *)
Record kept_by_calls (cfg : RabbitConfig) (P : World -> Prop) : Prop :=
  mk_kept_by_calls {
  by_spawn :
    forall w, P w -> P (Sprite.spawn createElement w);
  by_setPosition :
    forall x' y' w, P w -> P (on_this (Sprite.setPosition x' y') w);
  by_spawnAndDrop :
    forall x' y' w, P w -> P (spawnAndDrop x' y' w);
  by_startGlowAnimation :
    forall w, P w -> P (startGlowAnimation w);
  by_stopGlowAnimation :
    forall w, P w -> P (stopGlowAnimation w);
  by_enableMouseReaction :
    forall threshold w, P w -> P (enableMouseReaction cfg threshold w);
  by_disableMouseReaction :
    forall w, P w -> P (disableMouseReaction w);
  by_Sprite_destroy :
    forall w, P w -> P (Sprite.destroy w)
}.

(** The frames requested from the host are the one that
    [glowAnimationId] names, if any. *)
Definition glow_loop_ok (w : World) : Prop :=
  animationFrameRequests (host w)
  = match glowAnimationId (this w) with
    | Some id => [id]
    | None => []
    end.

(** The timers that [this] tracks are the pending timeouts. *)
Definition timers_ok (w : World) : Prop :=
  timers (this w) = map t_id (pendingTimeouts (host w)).

(** A cooldown in force on a living actor has a timeout pending. *)
Definition cooldown_ok (w : World) : Prop :=
  isDestroyed (this w) = false ->
  jumpCooldown (this w) = true ->
  pendingTimeouts (host w) <> [].

(** The inline [left] and [top] of the element are the stored
    position. *)
Definition position_ok (w : World) : Prop :=
  match element (this w) with
  | Some el =>
      style_left (style el) = Some (x (this w))
      /\ style_top (style el) = Some (y (this w))
  | None => True
  end.

(** [lastDirection] is left or right, and [--jump-direction], once
    written, repeats it. *)
Definition direction_ok (w : World) : Prop :=
  (lastDirection (this w) = 1%Z \/ lastDirection (this w) = (-1)%Z)
  /\ match element (this w) with
     | Some el =>
         jump_direction (style el) = None
         \/ jump_direction (style el) = Some (lastDirection (this w))
     | None => True
     end.

(** The listener answers the end of the animation [name]: the test
    with which [onSpawnEnd] and [onJumpEnd] begin. *)
Definition responds (name : string) (l : ElementListener) : bool :=
  match el_kind l with
  | OnSpawnEnd => String.eqb name "rabbit-spawn-drop"
  | OnJumpEnd _ _ _ => String.eqb name "rabbit-jump-sprite"
  end.

(** What the mouse handler finds true of the actor when it looks at the
    flags, and the branch of [jump] that returns without jumping. *)
Definition busy (r : Rabbit) : bool :=
  isSpawning r || isJumping r || jumpCooldown r.

Definition trapped (cfg : RabbitConfig) (W : Q) (r : Rabbit) : bool :=
  negb (isFirstJump r) && negb (canGoLeft cfg r)
  && negb (canGoRight cfg W r).

(** What [this] and [document] record of the mouse reaction. *)
Record Wiring : Type := mkWiring {
  on_document : list DocListener;
  the_mouseHandler : option Handler;
  the_clickHandler : option Handler;
  the_earlyMouseHandler : option Handler;
  tracked : list Tracked
}.

Definition wiring (w : World) : Wiring :=
  mkWiring (documentListeners (host w)) (mouseHandler (this w))
    (clickHandler (this w)) (earlyMouseHandler (this w))
    (eventHandlers (this w)).

(** The wiring that one call of [enableMouseReaction] leaves on a page
    that had none: the mouse handler [mh] and the click handler [ch]
    on [document], recorded in [this] and tracked for cleanup. *)
Definition hooked_with (mh ch : Handler) (w : World) : Prop :=
  wiring w
  = mkWiring [mkDocListener "mousemove" mh false;
              mkDocListener "click" ch false]
             (Some mh) (Some ch) None
             [mkTracked document "mousemove" mh;
              mkTracked document "click" ch].

Definition hooked (w : World) : Prop :=
  spawned w = true
  /\ exists mid cid thr,
       mid <> cid
       /\ (mid < nextId (host w))%nat
       /\ (cid < nextId (host w))%nat
       /\ hooked_with (mkHandler mid (MouseHandler thr))
            (mkHandler cid ClickHandler) w.

(** Where the drop ends: the actor is no longer spawning, stands at
    height [Y] with its element moved there, has lost the class
    [spawning], and its glow loop is stopped. *)
Definition landed (Y : Q) (w : World) : Prop :=
  isSpawning (this w) = false
  /\ y (this w) = Y
  /\ glowAnimationId (this w) = None
  /\ exists el,
       element (this w) = Some el
       /\ classList_contains "spawning" el = false
       /\ style_top (style el) = Some Y.

(** What the drop's listener reads and leaves as it is. *)
Definition drop_frame (w0 w : World) : Prop :=
  scale (this w) = scale (this w0)
  /\ innerHeight (host w) = innerHeight (host w0)
  /\ x (this w) = x (this w0)
  /\ spawned w = true.

(** ** More of the example page *)

(** A pointer at the bottom centre of the actor as it is rendered at
    [x = 100]: the rectangle is 128 wide and ends at the bottom of the
    viewport. *)
Definition exampleNear : Event :=
  MouseMove (mkMouseEvent 164 800) (mkAmbient (mkRect 100 128 800) (1 # 2)).

(** The life of the actor of [main.js] up to the end of its first
    jump, which the pointer starts. *)
Definition exampleLife : list Action :=
  [Do (CallSpawnAndDrop 100 0);
   Do (CallEnableMouseReaction None);
   On (AnimationEnd "rabbit-spawn-drop");
   On exampleNear;
   On (AnimationEnd "rabbit-jump-sprite")].

(** The actor at the end of that jump: it stands at [x = 400] and its
    cooldown has begun. *)
Abbreviation exampleCooling :=
  (run exampleConfig exampleMath exampleLife
     (initial_world exampleConfig no_options 1000 800)).

(** * The terminal ([src/main.js]) *)

(** ** Typing delays *)

(** [TYPING_CONFIG] of [src/config/animations.js]. *)
Record TypingConfig : Type := mkTypingConfig {
  baseSpeed : Q;
  variance : Q;
  spacePause : Q;
  linePause : Q
}.

Definition TYPING_CONFIG : TypingConfig :=
  mkTypingConfig 90 (33 # 100) 130 500.

(** [getRandomDelay(base, varianceAmount)], [rnd] being the draw of
    [Math.random()].  The numbers are rationals here; the source
    rounds each operation to binary64, so that its result is one
    below this one where the exact product is an integer and the
    rounded one falls short of it ([linePause] at the draw [0]: 334
    for 335). *)
Definition getRandomDelay (rnd base varianceAmount : Q) : Z :=
  let randomFactor := 1 + (rnd - (1 # 2)) * 2 * varianceAmount in
  Qfloor (base * randomFactor).

(** ** The DOM of the terminal *)

Module Terminal.

(** The children of a line: the prompt [span] with its text, a text
    node holding one character, and the cursor [span], of which there
    is one. *)
Inductive Node : Type :=
| Prompt (textContent : string)
| Text (char : ascii)
| Cursor.

(** A [div.terminal-line]; [line_id] is its identity as a node. *)
Record Line : Type := mkLine {
  line_id : nat;
  children : list Node
}.

(** The fields of a [Terminal] and the part of the document under its
    wrapper.  [lines] holds every line created, by identity, in or out
    of the document; [history] and [activeContainer] are the children
    of [.terminal-history] and [.terminal-active], and [currentLine] is
    [this.currentLine], each naming lines by identity.  [cursor_display]
    is the inline [display] of the cursor, empty when it has none, and [wrapper_attached] tells
    whether the wrapper is in the container. *)
Record Terminal : Type := mkTerminal {
  lines : list Line;
  history : list nat;
  activeContainer : list nat;
  currentLine : option nat;
  cursor_display : string;
  wrapper_attached : bool;
  next_line : nat
}.

Definition is_cursor (n : Node) : bool :=
  match n with
  | Cursor => true
  | _ => false
  end.

(** The line [id]. *)
Definition line (id : nat) (t : Terminal) : option Line :=
  find (fun l => Nat.eqb (line_id l) id) (lines t).

(** The children of the line [id] replaced by [f] of them. *)
Definition on_line (id : nat) (f : list Node -> list Node)
  (ls : list Line) : list Line :=
  map (fun l => if Nat.eqb (line_id l) id
                then mkLine (line_id l) (f (children l)) else l) ls.

(** [this.cursor.remove()], and the first step of appending the
    cursor to a line: the cursor leaves the line it is in. *)
Definition detach_cursor (ls : list Line) : list Line :=
  map (fun l => mkLine (line_id l)
                  (filter (fun n => negb (is_cursor n)) (children l)))
      ls.

(** [createPrompt()]; [createCursor()] returns [Cursor]. *)
Definition createPrompt : Node := Prompt ">".

(** [newLine()]: a new line with a prompt; the cursor is moved into
    it; the active container is emptied and receives the line, which
    becomes the current line. *)
Definition newLine (t : Terminal) : Terminal :=
  let id := next_line t in
  mkTerminal (detach_cursor (lines t) ++ [mkLine id [createPrompt; Cursor]])
    (history t) [id] (Some id) (cursor_display t) (wrapper_attached t)
    (S id).

(** [new Terminal(containerElement)]. *)
Definition new_Terminal : Terminal :=
  newLine (mkTerminal [] [] [] None ""%string true 1).

(** [line.insertBefore(textNode, this.cursor)] on the children of a
    line: [None] is the [NotFoundError] thrown when the cursor is not
    a child of the line. *)
Fixpoint insertBefore_cursor (n : Node) (ns : list Node)
  : option (list Node) :=
  match ns with
  | [] => None
  | Cursor :: rest => Some (n :: Cursor :: rest)
  | m :: rest =>
      match insertBefore_cursor n rest with
      | Some rest' => Some (m :: rest')
      | None => None
      end
  end.

(** [addChar(char)]; [None] when the call throws, for want of a
    current line or of the cursor in it. *)
Definition addChar (char : ascii) (t : Terminal) : option Terminal :=
  match currentLine t with
  | None => None
  | Some id =>
      match line id t with
      | None => None
      | Some l =>
          match insertBefore_cursor (Text char) (children l) with
          | None => None
          | Some ns =>
              Some (mkTerminal (on_line id (fun _ => ns) (lines t))
                      (history t) (activeContainer t) (currentLine t)
                      (cursor_display t) (wrapper_attached t) (next_line t))
          end
      end
  end.

(** [querySelector('.prompt')] followed by [textContent = ' ']: the
    first prompt of the line is blanked. *)
Fixpoint blank_prompt (ns : list Node) : list Node :=
  match ns with
  | [] => []
  | Prompt _ :: rest => Prompt " " :: rest
  | n :: rest => n :: blank_prompt rest
  end.

(** [parent.appendChild(line)] on the children of the parent and of
    the other container: the line leaves where it was. *)
Definition without (id : nat) (ids : list nat) : list nat :=
  filter (fun i => negb (Nat.eqb i id)) ids.

(** [submitLine()]: the prompt of the current line is blanked, the
    cursor removed, the line moved to the end of the history, and a
    new line started. *)
Definition submitLine (t : Terminal) : option Terminal :=
  match currentLine t with
  | None => None
  | Some id =>
      let ls := on_line id blank_prompt (lines t) in
      let ls := detach_cursor ls in
      Some (newLine
              (mkTerminal ls (without id (history t) ++ [id])
                 (without id (activeContainer t)) (currentLine t)
                 (cursor_display t) (wrapper_attached t) (next_line t)))
  end.

(** [hideCursor()], [showCursor()] and [destroy()]. *)
Definition hideCursor (t : Terminal) : Terminal :=
  mkTerminal (lines t) (history t) (activeContainer t) (currentLine t)
    "none"%string (wrapper_attached t) (next_line t).

Definition showCursor (t : Terminal) : Terminal :=
  mkTerminal (lines t) (history t) (activeContainer t) (currentLine t)
    ""%string (wrapper_attached t) (next_line t).

Definition destroy (t : Terminal) : Terminal :=
  mkTerminal (lines t) (history t) (activeContainer t) (currentLine t)
    (cursor_display t) false (next_line t).

(** *** Typing, with its pauses

    An [async] method runs between its [await]s without interruption
    and nothing else touches the terminal, so it is a function of the
    state: the terminal, the pauses slept so far, and the number of
    draws of [Math.random()] taken from the sequence [rand]. *)
Record Typist : Type := mkTypist {
  term : Terminal;
  slept : list Z;
  draws : nat
}.

Section Typing.

Variable config : TypingConfig.
Variable rand : nat -> Q.

(** [await sleep(getRandomDelay(base, config.variance))]. *)
Definition pause (base : Q) (s : Typist) : Typist :=
  mkTypist (term s)
    (slept s ++ [getRandomDelay (rand (draws s)) base (variance config)])
    (S (draws s)).

(** [await sleep(ms)]. *)
Definition sleep (ms : Z) (s : Typist) : Typist :=
  mkTypist (term s) (slept s ++ [ms]) (draws s).

Definition space : ascii := " "%char.

Definition is_space (c : ascii) : bool := Ascii.eqb c space.

(** The body of the loop of [type], for the character [char] followed
    by [next] ([text[i + 1]], [undefined] after the last). *)
Definition type_char (char : ascii) (next : option ascii) (s : Typist)
  : option Typist :=
  let s := if is_space char then pause (spacePause config) s else s in
  match addChar char (term s) with
  | None => None
  | Some t =>
      let s := mkTypist t (slept s) (draws s) in
      let s := pause (baseSpeed config) s in
      Some (match next with
            | Some c =>
                if is_space c then pause (spacePause config * (1 # 2)) s
                else s
            | None => s
            end)
  end.

(** [type(text)], on the characters of [text]. *)
Fixpoint type (text : list ascii) (s : Typist) : option Typist :=
  match text with
  | [] => Some s
  | char :: rest =>
      match type_char char (hd_error rest) s with
      | None => None
      | Some s => type rest s
      end
  end.

(** [typeLine(text)]. *)
Definition typeLine (text : list ascii) (s : Typist) : option Typist :=
  match type text s with
  | None => None
  | Some s =>
      let s := pause (linePause config) s in
      match submitLine (term s) with
      | None => None
      | Some t => Some (pause (linePause config)
                          (mkTypist t (slept s) (draws s)))
      end
  end.

(** A command of [run]: [{ text, submit }]. *)
Record Command : Type := mkCommand {
  cmd_text : list ascii;
  cmd_submit : bool
}.

(** [run(commands)]. *)
Fixpoint run (commands : list Command) (s : Typist) : option Typist :=
  match commands with
  | [] => Some s
  | cmd :: rest =>
      match (if cmd_submit cmd then typeLine (cmd_text cmd) s
             else type (cmd_text cmd) s) with
      | None => None
      | Some s => run rest s
      end
  end.

End Typing.

(** What a line shows: its characters, without prompt and cursor;
    and its prompt. *)
Definition chars_of (ns : list Node) : list ascii :=
  flat_map (fun n => match n with
                     | Text c => [c]
                     | _ => []
                     end) ns.

Definition shown (id : nat) (t : Terminal) : option (list Node) :=
  match line id t with
  | Some l => Some (children l)
  | None => None
  end.

(** What [run] is to leave on the screen: the lines submitted, and the
    text typed since the last submission. *)
Fixpoint screen (commands : list Command) (pending : list ascii)
  : list (list ascii) * list ascii :=
  match commands with
  | [] => ([], pending)
  | cmd :: rest =>
      if cmd_submit cmd then
        let (submitted, last) := screen rest [] in
        ((pending ++ cmd_text cmd) :: submitted, last)
      else screen rest (pending ++ cmd_text cmd)
  end.

(** The terminal as its methods leave it: the current line is the one
    line of the active container and is not in the history; it is a
    prompt, the characters [typed], and the cursor; the lines of the
    history are a blank prompt and the characters of [submitted], in
    order; the lines created are those of the history and the current
    one, in the order of their creation; every line has its own
    identity, below [next_line]. *)
Definition showing (submitted : list (list ascii)) (typed : list ascii)
  (t : Terminal) : Prop :=
  exists id,
    currentLine t = Some id
    /\ activeContainer t = [id]
    /\ shown id t = Some (Prompt ">" :: map Text typed ++ [Cursor])
    /\ ~ In id (history t)
    /\ map (fun h => shown h t) (history t)
       = map (fun text => Some (Prompt " " :: map Text text)) submitted
    /\ map line_id (lines t) = history t ++ [id]
    /\ NoDup (map line_id (lines t))
    /\ NoDup (history t)
    /\ (forall l, In l (lines t) -> (line_id l < next_line t)%nat).

End Terminal.

(** The spaces of a text, and the sum of a list of pauses. *)
Definition spaces (text : list ascii) : nat :=
  List.length (filter Terminal.is_space text).

(** Whether a character, or [undefined], is a space: 1 or 0. *)
Definition space_count (c : option ascii) : nat :=
  match c with
  | Some c => if Terminal.is_space c then 1 else 0
  | None => 0
  end.

Definition total (pauses : list Z) : Z := fold_right Z.add 0%Z pauses.

(** ** The page *)

(** [wakeUpText], for the [name] of the query string: [null] when
    there is none, and an empty name is as good as none. *)
Definition wakeUpText (username : option string) : string :=
  match username with
  | Some name =>
      if String.eqb name "" then "Wake up..."%string
      else ("Wake up, " ++ name ++ "...")%string
  | None => "Wake up..."%string
  end.

Definition introSequence (username : option string)
  : list Terminal.Command :=
  [Terminal.mkCommand (list_ascii_of_string (wakeUpText username)) true;
   Terminal.mkCommand (list_ascii_of_string "Follow the white rabbit.")
     false].

(** How [main()] ends: with the text typed and the rabbit on the page,
    or in its [catch], which logs the error and replaces the content of
    the terminal element by the message [System error]. *)
Inductive Outcome : Type :=
| Started (typist : Terminal.Typist) (rabbit : World)
| SystemError.

(** [main()], on a page that has its [#terminal] and [#crt-screen]
    elements.  [loaded] tells whether the spritesheet loads, on which
    the promise of [preloadImage] resolves or rejects; [rect] is the
    rectangle of the cursor when [getCursorPosition] reads it, and
    [W] and [H] the viewport in which the rabbit is constructed. *)
Definition main (cfg : RabbitConfig) (config : TypingConfig)
  (rand : nat -> Q) (username : option string) (loaded : bool)
  (rect : Rect) (W H : Q) (terminal : Terminal.Terminal) : Outcome :=
  if loaded then
    match Terminal.run config rand (introSequence username)
            (Terminal.mkTypist terminal [] 0) with
    | Some s =>
        let cursorPos := (rect_left rect, rect_bottom rect) in
        let s := Terminal.sleep 1500 s in
        let s := Terminal.mkTypist (Terminal.hideCursor (Terminal.term s))
                   (Terminal.slept s) (Terminal.draws s) in
        let rabbit := initial_world cfg no_options W H in
        let rabbit := spawnAndDrop (fst cursorPos) (snd cursorPos)
                        rabbit in
        let rabbit := enableMouseReaction cfg None rabbit in
        Started s rabbit
    | None => SystemError
    end
  else SystemError.

(** * The CRT effects ([src/config/crt.js]) *)

Module Crt.

(** [CRT_CONFIG.mobile]. *)
Record MobileConfig : Type := mkMobileConfig {
  mobile_enabled : bool;
  mobile_scanlineOpacity : Q;
  mobile_rgbOffset : Q;
  mobile_flickerIntensity : Q;
  mobile_vignetteIntensity : Q;
  mobile_blur : Q
}.

Record Config : Type := mkConfig {
  scanlineOpacity : Q;
  scanlineSpacing : Q;
  scanlineSize : Q;
  glowSpread : Q;
  glowIntensity : Q;
  glowColor : string;
  blur : Q;
  rgbOffset : Q;
  rgbIntensity : Q;
  vignetteIntensity : Q;
  vignetteSize : Q;
  flickerIntensity : Q;
  flickerSpeed : Q;
  flickerSpikeChance : Q;
  flickerSpikeIntensity : Q;
  flickerSpikeDuration : Q;
  mobile : MobileConfig
}.

Definition CRT_CONFIG : Config :=
  {| scanlineOpacity := 5 # 10;
     scanlineSpacing := 2;
     scanlineSize := 2;
     glowSpread := 1;
     glowIntensity := 1;
     glowColor := "var(--terminal-green)";
     blur := 15 # 10;
     rgbOffset := 2;
     rgbIntensity := 75 # 100;
     vignetteIntensity := 3 # 10;
     vignetteSize := 40;
     flickerIntensity := 1 # 100;
     flickerSpeed := 8 # 100;
     flickerSpikeChance := 1 # 10;
     flickerSpikeIntensity := 1;
     flickerSpikeDuration := 50000;
     mobile := {| mobile_enabled := true;
                  mobile_scanlineOpacity := 4 # 100;
                  mobile_rgbOffset := 0;
                  mobile_flickerIntensity := 0;
                  mobile_vignetteIntensity := 2 # 10;
                  mobile_blur := 0 |} |}.

(** What the module reads of [window]: its width, and whether it has
    the property [ontouchstart]. *)
Record Window : Type := mkWindow {
  innerWidth : Q;
  ontouchstart : bool
}.

(** [isMobile()]. *)
Definition isMobile (window : Window) : bool :=
  Qle_bool (innerWidth window) 768
  || (ontouchstart window && Qle_bool (innerWidth window) 1024).

(** [getActiveConfig()]. *)
Definition getActiveConfig (window : Window) : Config :=
  if isMobile window && mobile_enabled (mobile CRT_CONFIG) then
    {| scanlineOpacity := mobile_scanlineOpacity (mobile CRT_CONFIG);
       scanlineSpacing := scanlineSpacing CRT_CONFIG;
       scanlineSize := scanlineSize CRT_CONFIG;
       glowSpread := glowSpread CRT_CONFIG;
       glowIntensity := glowIntensity CRT_CONFIG;
       glowColor := glowColor CRT_CONFIG;
       blur := mobile_blur (mobile CRT_CONFIG);
       rgbOffset := mobile_rgbOffset (mobile CRT_CONFIG);
       rgbIntensity := rgbIntensity CRT_CONFIG;
       vignetteIntensity := mobile_vignetteIntensity (mobile CRT_CONFIG);
       vignetteSize := vignetteSize CRT_CONFIG;
       flickerIntensity := mobile_flickerIntensity (mobile CRT_CONFIG);
       flickerSpeed := flickerSpeed CRT_CONFIG;
       flickerSpikeChance := flickerSpikeChance CRT_CONFIG;
       flickerSpikeIntensity := flickerSpikeIntensity CRT_CONFIG;
       flickerSpikeDuration := flickerSpikeDuration CRT_CONFIG;
       mobile := mobile CRT_CONFIG |}
  else CRT_CONFIG.

(** ** The flicker *)

(** A timer of [setInterval] started by [startFlicker]: its handle,
    and the [screenElement] and [config] that its callback captures.
    Elements are named by identity. *)
Record Interval : Type := mkInterval {
  i_id : nat;
  i_element : nat;
  i_config : Config
}.

(** A pending timer of [setTimeout] set by a spike: its handle, the
    element whose opacity it resets, and its delay. *)
Record Reset : Type := mkReset {
  r_id : nat;
  r_element : nat;
  r_delay : Q
}.

(** The module variable [flickerInterval] ([None] is [null]), the
    timers alive, the inline [opacity] of each element ([None] when
    it has none) and the next handle; handles are numbers from 1 on,
    shared by the two kinds of timer. *)
Record Page : Type := mkPage {
  flickerInterval : option nat;
  intervals : list Interval;
  resets : list Reset;
  opacity : nat -> option Q;
  nextId : nat
}.

Definition initial : Page := mkPage None [] [] (fun _ => None) 1.

(** Whether [flickerInterval] is truthy: neither [null] nor [0]. *)
Definition truthy (handle : option nat) : bool :=
  match handle with
  | Some (S _) => true
  | _ => false
  end.

(** [element.style.opacity = value]. *)
Definition set_opacity (element : nat) (value : option Q)
  (style : nat -> option Q) : nat -> option Q :=
  fun e => if Nat.eqb e element then value else style e.

(** [clearInterval(id)]: the timer of that handle, of either kind, is
    cancelled. *)
Definition clearInterval (id : nat) (p : Page) : Page :=
  mkPage (flickerInterval p)
    (filter (fun i => negb (Nat.eqb (i_id i) id)) (intervals p))
    (filter (fun r => negb (Nat.eqb (r_id r) id)) (resets p))
    (opacity p) (nextId p).

(** [startFlicker(screenElement)], with what it returns: the handle,
    or [undefined] ([None]) when it returns early. *)
Definition startFlicker (screenElement : option nat) (window : Window)
  (p : Page) : Page * option nat :=
  match screenElement with
  | None => (p, None)
  | Some element =>
      if truthy (flickerInterval p) then (p, None)
      else
        let config := getActiveConfig window in
        if Qeq_bool (flickerIntensity config) 0 then (p, None)
        else
          let id := nextId p in
          (mkPage (Some id)
             (intervals p ++ [mkInterval id element config])
             (resets p) (opacity p) (S id),
           Some id)
  end.

(** [stopFlicker()]. *)
Definition stopFlicker (p : Page) : Page :=
  if truthy (flickerInterval p) then
    match flickerInterval p with
    | Some id =>
        let p := clearInterval id p in
        mkPage None (intervals p) (resets p) (opacity p) (nextId p)
    | None => p
    end
  else p.

(** The callback of the interval [i], for the draws [chance] and
    [extra] of [Math.random()]; the second is drawn in a spike only.
    The delay is a rational here, below [flickerSpikeDuration + 100];
    the sum of the source, rounded to binary64, reaches that bound
    for the draws nearest to 1. *)
Definition spike (i : Interval) (chance extra : Q) (p : Page) : Page :=
  let config := i_config i in
  if Qlt_bool chance (flickerSpikeChance config) then
    let id := nextId p in
    mkPage (flickerInterval p) (intervals p)
      (resets p
       ++ [mkReset id (i_element i)
             (flickerSpikeDuration config + extra * 100)])
      (set_opacity (i_element i) (Some (1 - flickerSpikeIntensity config))
         (opacity p))
      (S id)
  else p.

(** The callback of the timeout [r]. *)
Definition reset (r : Reset) (p : Page) : Page :=
  mkPage (flickerInterval p) (intervals p) (resets p)
    (set_opacity (r_element r) None (opacity p)) (nextId p).

(** What happens to the page: the two functions are called, an
    interval ticks, a timeout fires.  A timer that is not alive does
    neither; a timeout that fires is no longer pending. *)
Inductive Event : Type :=
| StartFlicker (screenElement : option nat) (window : Window)
| StopFlicker
| Tick (id : nat) (chance extra : Q)
| Fire (id : nat).

Definition step (ev : Event) (p : Page) : Page :=
  match ev with
  | StartFlicker screenElement window =>
      fst (startFlicker screenElement window p)
  | StopFlicker => stopFlicker p
  | Tick id chance extra =>
      match find (fun i => Nat.eqb (i_id i) id) (intervals p) with
      | Some i => spike i chance extra p
      | None => p
      end
  | Fire id =>
      match find (fun r => Nat.eqb (r_id r) id) (resets p) with
      | Some r =>
          reset r
            (mkPage (flickerInterval p) (intervals p)
               (filter (fun r' => negb (Nat.eqb (r_id r') id)) (resets p))
               (opacity p) (nextId p))
      | None => p
      end
  end.

Definition run (evs : list Event) (p : Page) : Page :=
  fold_left (fun p ev => step ev p) evs p.

(** The draws of an event are those of [Math.random()]. *)
Definition draws_ok (ev : Event) : Prop :=
  match ev with
  | Tick _ chance extra => 0 <= chance /\ chance < 1 /\ 0 <= extra /\ extra < 1
  | _ => True
  end.

(** The timers are told apart by their handles, which are positive
    and below the next one; the intervals alive are the one that
    [flickerInterval] names, if any, and it runs with [CRT_CONFIG]. *)
Definition flicker_ok (p : Page) : Prop :=
  map i_id (intervals p)
  = match flickerInterval p with
    | Some id => [id]
    | None => []
    end
  /\ NoDup (map i_id (intervals p) ++ map r_id (resets p))
  /\ (forall id, In id (map i_id (intervals p) ++ map r_id (resets p)) ->
        (1 <= id < nextId p)%nat)
  /\ (1 <= nextId p)%nat
  /\ (forall i, In i (intervals p) -> i_config i = CRT_CONFIG).

(** A dimmed element is as dark as a spike makes it and has a reset
    pending. *)
Definition dimmed_ok (p : Page) : Prop :=
  forall element value,
    opacity p element = Some value ->
    value == 1 - flickerSpikeIntensity CRT_CONFIG
    /\ exists r, In r (resets p) /\ r_element r = element.

(** The resets pending last as long as a spike of [CRT_CONFIG]: its
    duration and at most 100 ms more.  The bound is not strict: the
    source adds in binary64, where the sum is rounded and reaches
    [flickerSpikeDuration + 100] for the draws nearest to 1. *)
Definition resets_ok (p : Page) : Prop :=
  forall r, In r (resets p) ->
    flickerSpikeDuration CRT_CONFIG <= r_delay r
    /\ r_delay r <= flickerSpikeDuration CRT_CONFIG + 100.

(** A page to evaluate with: the flicker started for the element 7
    in a window 1280 wide without touch, and its first tick a spike. *)
Definition exampleFlicker : list Event :=
  [StartFlicker (Some 7%nat) (mkWindow 1280 false); Tick 1 0 (1 # 2)].

End Crt.

(** The subscriptions tracked name handlers handed out already, and
    the one that has the identity of the mouse handler is a
    subscription to [mousemove], the one that has the identity of the
    click handler a subscription to [click]: what
    [disableMouseReaction] takes off the tracked list it has taken off
    [document]. *)
Definition tracked_ok (w : World) : Prop :=
  (forall t, In t (eventHandlers (this w)) ->
     (h_id (tr_handler t) < nextId (host w))%nat)
  /\ (forall mh t,
        mouseHandler (this w) = Some mh ->
        In t (eventHandlers (this w)) ->
        Handler_same (tr_handler t) mh = true ->
        tr_event t = "mousemove"%string)
  /\ (forall ch t,
        clickHandler (this w) = Some ch ->
        In t (eventHandlers (this w)) ->
        Handler_same (tr_handler t) ch = true ->
        tr_event t = "click"%string).

(** * Properties *)

(** ** Comparisons of numbers *)

Lemma Qlt_bool_iff (a b : Q) : Qlt_bool a b = true <-> a < b.
Proof.
  unfold Qlt_bool. rewrite negb_true_iff.
  split; intro H.
  - apply Qnot_le_lt. intro Hle. apply Qle_bool_iff in Hle. congruence.
  - destruct (Qle_bool b a) eqn:E; [| reflexivity].
    apply Qle_bool_iff in E. exfalso. apply (Qlt_not_le _ _ H E).
Qed.

Lemma Qlt_bool_false_iff (a b : Q) : Qlt_bool a b = false <-> b <= a.
Proof.
  unfold Qlt_bool. rewrite negb_false_iff. apply Qle_bool_iff.
Qed.

Lemma Qle_bool_false_iff (a b : Q) : Qle_bool a b = false <-> b < a.
Proof.
  rewrite <- Qlt_bool_iff. unfold Qlt_bool.
  destruct (Qle_bool a b); simpl; intuition congruence.
Qed.

Lemma exampleMath_ok : JSMath_ok exampleMath.
Proof.
  constructor; simpl.
  - intros a b Hab. unfold example_sqrt.
    rewrite (Qred_complete a b Hab). reflexivity.
  - reflexivity.
  - intros a b e Hab. unfold example_pow. rewrite Hab. reflexivity.
  - intro e. unfold example_pow. apply Qpower_1.
Qed.

(** ** The glow *)

Section Glow.

Variable cfg : RabbitConfig.
Variable M : JSMath.

Lemma proximityFactor_far (d : Q) :
  glowRange cfg <= d -> proximityFactor cfg M (Finite d) = 0.
Proof.
  intro H. unfold proximityFactor.
  apply Qlt_bool_false_iff in H. rewrite H. reflexivity.
Qed.

Lemma proximityFactor_near (d : Q) :
  d < glowRange cfg ->
  proximityFactor cfg M (Finite d)
  = Math_pow M (1 - d / glowRange cfg) (glowExponent cfg).
Proof.
  intro H. unfold proximityFactor.
  apply Qlt_bool_iff in H. rewrite H. reflexivity.
Qed.

Lemma updateGlow_writes (d : Dist) (r : Rabbit) (el : Element) :
  element r = Some el ->
  exists el',
    element (updateGlow cfg M d r) = Some el'
    /\ crt_glow_intensity (style el') = Some (totalGlow cfg M d r)
    /\ crt_glow_spread (style el') = Some (totalSpread cfg M d).
Proof.
  intro Hel. unfold updateGlow, on_element. rewrite Hel.
  eexists. split; [reflexivity |]. split; reflexivity.
Qed.

(** The formula of [updateGlow], for a configuration that has the
    glow constants.  For a distance [d] given to [updateGlow], the
    proximity factor is [0] when [d >= glowRange] and
    [(1 - d/glowRange) ^ glowExponent] otherwise, and the intensity
    written on the element is
    [1 + t * maxProximityGlow + permanentGlowBonus]; so [d >= glowRange]
    writes [1 + permanentGlowBonus], and [d = 0] writes
    [1 + maxProximityGlow + permanentGlowBonus] (for a positive
    [glowRange], and a [Math.pow] for which [1 ^ e = 1]).  Claim C4
    states this of the configuration in [RABBIT_CONFIG], whose literal
    has none of the glow constants: there [updateGlow] reads
    [undefined] for each, compares and multiplies with it, and the
    intensity it writes is not a number at any distance. *)
Theorem updateGlow_intensity
  (M_ok : JSMath_ok M) (range_pos : 0 < glowRange cfg)
  (d : Q) (r : Rabbit) (el : Element) (spawned : element r = Some el) :
  let t := proximityFactor cfg M (Finite d) in
  (glowRange cfg <= d -> t = 0)
  /\ (d < glowRange cfg ->
      t = Math_pow M (1 - d / glowRange cfg) (glowExponent cfg))
  /\ (exists el' v,
        element (updateGlow cfg M (Finite d) r) = Some el'
        /\ crt_glow_intensity (style el') = Some v
        /\ v = 1 + t * maxProximityGlow cfg + permanentGlowBonus r
        /\ (glowRange cfg <= d -> v == 1 + permanentGlowBonus r)
        /\ (d == 0 ->
            v == 1 + maxProximityGlow cfg + permanentGlowBonus r)).
Proof.
  intro t. split; [apply proximityFactor_far |].
  split; [apply proximityFactor_near |].
  destruct (updateGlow_writes (Finite d) r el spawned)
    as (el' & Hel' & Hint & _).
  exists el', (totalGlow cfg M (Finite d) r).
  split; [exact Hel' |]. split; [exact Hint |].
  split; [reflexivity |]. unfold totalGlow. fold t. split.
  - intro Hfar. unfold t. rewrite (proximityFactor_far d Hfar). ring.
  - intro Hd0.
    assert (Hnear : d < glowRange cfg) by (rewrite Hd0; exact range_pos).
    unfold t. rewrite (proximityFactor_near d Hnear).
    assert (H1 : 1 - d / glowRange cfg == 1).
    { rewrite Hd0. unfold Qdiv. ring. }
    rewrite (Math_pow_compat M M_ok _ _ (glowExponent cfg) H1).
    rewrite (Math_pow_1 M M_ok). ring.
Qed.

End Glow.

(** ** The class list *)

Create Rewrite HintDb dom.

Section ClassList.

Variables (c c' : string) (el : Element).

Lemma classList_contains_add_same :
  classList_contains c (classList_add c el) = true.
Proof.
  unfold classList_add.
  destruct (classList_contains c el) eqn:E; [exact E |].
  unfold classList_contains. simpl. rewrite existsb_app. simpl.
  rewrite String.eqb_refl, orb_true_r. reflexivity.
Qed.

Lemma classList_contains_add_other :
  classList_contains c el = true ->
  classList_contains c (classList_add c' el) = true.
Proof.
  intro H. unfold classList_add.
  destruct (classList_contains c' el); [exact H |].
  unfold classList_contains in *. simpl. rewrite existsb_app, H.
  reflexivity.
Qed.

Lemma classList_contains_remove_other :
  c <> c' ->
  classList_contains c (classList_remove c' el) = classList_contains c el.
Proof.
  intro Hne. unfold classList_contains, classList_remove. simpl.
  induction (classList el) as [| a l IH]; [reflexivity |].
  simpl. destruct (String.eqb c' a) eqn:E; simpl.
  - apply String.eqb_eq in E. subst a.
    destruct (String.eqb c c') eqn:E'; [| exact IH].
    apply String.eqb_eq in E'. contradiction.
  - rewrite IH. reflexivity.
Qed.

Lemma classList_contains_remove_same :
  classList_contains c (classList_remove c el) = false.
Proof.
  unfold classList_contains, classList_remove. simpl.
  induction (classList el) as [| a l IH]; [reflexivity |].
  simpl. destruct (String.eqb c a) eqn:E; simpl; [exact IH |].
  rewrite E. exact IH.
Qed.

Lemma style_classList_add : style (classList_add c el) = style el.
Proof.
  unfold classList_add. destruct (classList_contains c el); reflexivity.
Qed.

Lemma listeners_classList_add :
  listeners (classList_add c el) = listeners el.
Proof.
  unfold classList_add. destruct (classList_contains c el); reflexivity.
Qed.

Lemma isConnected_classList_add :
  isConnected (classList_add c el) = isConnected el.
Proof.
  unfold classList_add. destruct (classList_contains c el); reflexivity.
Qed.

Lemma style_classList_remove : style (classList_remove c el) = style el.
Proof. reflexivity. Qed.

Lemma listeners_classList_remove :
  listeners (classList_remove c el) = listeners el.
Proof. reflexivity. Qed.

Lemma isConnected_classList_remove :
  isConnected (classList_remove c el) = isConnected el.
Proof. reflexivity. Qed.

End ClassList.

#[global] Hint Rewrite
  classList_contains_add_same classList_contains_remove_same
  style_classList_add listeners_classList_add isConnected_classList_add
  style_classList_remove listeners_classList_remove
  isConnected_classList_remove : dom.

Section ElementListeners.

Variables (l : ElementListener) (id : nat) (c : string) (s : Style)
          (el : Element).

Lemma classList_contains_addEventListener :
  classList_contains c (element_addEventListener l el)
  = classList_contains c el.
Proof. reflexivity. Qed.

Lemma classList_contains_removeEventListener :
  classList_contains c (element_removeEventListener id el)
  = classList_contains c el.
Proof. reflexivity. Qed.

Lemma classList_contains_set_style :
  classList_contains c (set_style s el) = classList_contains c el.
Proof. reflexivity. Qed.

Lemma style_addEventListener :
  style (element_addEventListener l el) = style el.
Proof. reflexivity. Qed.

Lemma style_removeEventListener :
  style (element_removeEventListener id el) = style el.
Proof. reflexivity. Qed.

Lemma listeners_addEventListener :
  listeners (element_addEventListener l el) = listeners el ++ [l].
Proof. reflexivity. Qed.

Lemma listeners_removeEventListener :
  listeners (element_removeEventListener id el)
  = filter (fun l => negb (Nat.eqb (el_id l) id)) (listeners el).
Proof. reflexivity. Qed.

Lemma isConnected_addEventListener :
  isConnected (element_addEventListener l el) = isConnected el.
Proof. reflexivity. Qed.

Lemma isConnected_removeEventListener :
  isConnected (element_removeEventListener id el) = isConnected el.
Proof. reflexivity. Qed.

End ElementListeners.

#[global] Hint Rewrite
  classList_contains_addEventListener classList_contains_removeEventListener
  classList_contains_set_style style_addEventListener
  style_removeEventListener listeners_addEventListener
  listeners_removeEventListener isConnected_addEventListener
  isConnected_removeEventListener : dom.

Arguments classList_contains : simpl never.
Arguments classList_add : simpl never.
Arguments element_addEventListener : simpl never.
Arguments element_removeEventListener : simpl never.
Arguments classList_remove : simpl never.

(** Normal form of a goal about the fields of a world: compute, and
    push the projections through the class-list operations. *)
Ltac dom_simpl := repeat (progress (cbn; autorewrite with dom)).

(** A class is in the list: it was added last, or was there before an
    operation that does not remove it. *)
Ltac contains_solve :=
  repeat first
    [ rewrite classList_contains_addEventListener
    | rewrite classList_contains_removeEventListener
    | rewrite classList_contains_set_style
    | apply classList_contains_add_same
    | apply classList_contains_add_other
    | rewrite classList_contains_remove_other by discriminate ].

(** Case analysis on the first test that blocks the computation. *)
Ltac break_test :=
  match goal with
  | |- context [match ?t with _ => _ end] =>
      first [ is_var t; destruct t | destruct t eqn:? ]
  end.

Ltac break_tests := repeat (cbn; break_test).

(** A world taken apart into its fields. *)
Ltac destruct_rabbit r :=
  destruct r as
    [r_element r_x r_y r_scale r_eventHandlers r_timers r_isDestroyed
     r_isSpawning r_isJumping r_jumpCooldown r_isFirstJump r_colorRevealed
     r_lastDirection r_permanentGlowBonus r_lastMouseX r_lastMouseY
     r_glowAnimationId r_mouseHandler r_clickHandler r_earlyMouseHandler].

Ltac destruct_host h :=
  destruct h as
    [h_documentListeners h_pendingTimeouts h_animationFrameRequests
     h_jumpPromises h_innerWidth h_innerHeight h_console h_nextId].

Ltac destruct_world w :=
  let r := fresh "r" in
  let h := fresh "h" in
  destruct w as [r h]; destruct_rabbit r; destruct_host h.

(** ** The jump *)

Section Jump.

Variable cfg : RabbitConfig.
Variable M : JSMath.

Lemma canGoLeft_true (r : Rabbit) :
  canGoLeft cfg r = true <-> edgeMargin <= x r - jumpDistance cfg.
Proof. apply Qle_bool_iff. Qed.

Lemma canGoLeft_false (r : Rabbit) :
  canGoLeft cfg r = false <-> x r - jumpDistance cfg < edgeMargin.
Proof. apply Qle_bool_false_iff. Qed.

Lemma canGoRight_true (W : Q) (r : Rabbit) :
  canGoRight cfg W r = true
  <-> x r + jumpDistance cfg + width cfg * scale r <= W - edgeMargin.
Proof. apply Qle_bool_iff. Qed.

Lemma canGoRight_false (W : Q) (r : Rabbit) :
  canGoRight cfg W r = false
  <-> W - edgeMargin < x r + jumpDistance cfg + width cfg * scale r.
Proof. apply Qle_bool_false_iff. Qed.

(** [jump] on an actor that has no element or is still spawning. *)
Lemma jump_not_ready (rnd : Q) (w : World) :
  element (this w) = None \/ isSpawning (this w) = true ->
  jump cfg rnd w = (w, Resolved).
Proof.
  intros [H | H]; unfold jump; [rewrite H; reflexivity |].
  destruct (element (this w)); [rewrite H |]; reflexivity.
Qed.

(** [jump] when no direction is determined: the trapped branch. *)
Lemma jump_aborts (rnd : Q) (w : World) (el : Element) :
  element (this w) = Some el ->
  isSpawning (this w) = false ->
  chooseDirection cfg rnd (innerWidth (host w)) (this w) = None ->
  jump cfg rnd w = (on_this (set_isJumping false) w, Resolved).
Proof.
  intros Hel Hsp Hdir. unfold jump. rewrite Hel, Hsp, Hdir. reflexivity.
Qed.

(** [jump] when a direction is determined. *)
Lemma jump_proceeds (rnd : Q) (w : World) (el : Element) (direction : Z) :
  element (this w) = Some el ->
  isSpawning (this w) = false ->
  chooseDirection cfg rnd (innerWidth (host w)) (this w) = Some direction ->
  jump_started direction (isFirstJump (this w)) w (jump cfg rnd w)
  /\ x (this (fst (jump cfg rnd w))) = x (this w)
  /\ colorRevealed (this (fst (jump cfg rnd w))) = colorRevealed (this w)
  /\ isJumping (this (fst (jump cfg rnd w))) = isJumping (this w)
  /\ (isFirstJump (this w) = true ->
      exists el',
        element (this (fst (jump cfg rnd w))) = Some el'
        /\ classList_contains "color-fade" el' = true).
Proof.
  intros Hel Hsp Hdir. unfold jump, jump_started, listeners_of.
  rewrite Hel, Hsp, Hdir. clear Hdir.
  destruct_world w. cbn in Hel, Hsp. subst r_element r_isSpawning.
  destruct r_isFirstJump, (direction =? -1)%Z, r_glowAnimationId; cbn.
  all: split;
    [do 3 eexists; repeat split; try reflexivity; dom_simpl;
     try reflexivity; apply in_or_app; right; left; reflexivity |].
  all: repeat split; try reflexivity; try discriminate.
  all: intros _; eexists; split; [reflexivity |]; contains_solve.
Qed.

Lemma dispatch_element_app (ls1 ls2 : list ElementListener)
  (name : string) (w : World) :
  dispatch_element cfg (ls1 ++ ls2) name w
  = dispatch_element cfg ls2 name (dispatch_element cfg ls1 name w).
Proof.
  revert w. induction ls1 as [| l ls1 IH]; intro w; [reflexivity |].
  simpl. apply IH.
Qed.

(** The end of the jump animation leaves the listeners of the drop
    alone. *)
Lemma dispatch_element_spawn_listeners (ls : list ElementListener)
  (w : World) :
  (forall l, In l ls -> el_kind l = OnSpawnEnd) ->
  dispatch_element cfg ls "rabbit-jump-sprite" w = w.
Proof.
  revert w. induction ls as [| l ls IH]; intros w Hall; [reflexivity |].
  simpl. rewrite IH by (intros l' Hl'; apply Hall; right; exact Hl').
  unfold run_elementListener. rewrite (Hall l (or_introl eq_refl)).
  destruct (still_listening (el_id l) w); reflexivity.
Qed.

(** What [onJumpEnd] does to the fields of [this] when the animation
    is the jump's. *)
Lemma onJumpEnd_fields (self : nat) (direction : Z) (first : bool)
  (p : nat) (w : World) :
  let w' := onJumpEnd cfg self direction first p "rabbit-jump-sprite" w in
  x (this w') = x (this w) - jumpDistance cfg * inject_Z direction
  /\ colorRevealed (this w') = first || colorRevealed (this w)
  /\ isJumping (this w') = false
  /\ isFirstJump (this w') = isFirstJump (this w).
Proof.
  destruct_world w. unfold onJumpEnd. cbn.
  destruct r_element, first, r_glowAnimationId; cbn; unfold resolve; cbn;
    break_tests; cbn; repeat split; reflexivity.
Qed.

(** The completion signal of a jump that is the only one in flight. *)
Lemma jump_completes (w : World) (el : Element)
  (ls : list ElementListener) (lid : nat) (direction : Z) (first : bool)
  (p : nat) :
  element (this w) = Some el ->
  listeners el = ls ++ [mkElementListener lid (OnJumpEnd direction first p)] ->
  (forall l, In l ls -> el_kind l = OnSpawnEnd) ->
  let w' := handle cfg M (AnimationEnd "rabbit-jump-sprite") w in
  x (this w') = x (this w) - jumpDistance cfg * inject_Z direction
  /\ colorRevealed (this w') = first || colorRevealed (this w)
  /\ isJumping (this w') = false.
Proof.
  intros Hel Hls Hall. cbn. rewrite Hel, Hls, dispatch_element_app.
  rewrite (dispatch_element_spawn_listeners ls w Hall).
  cbn [dispatch_element].
  assert (Hstill : still_listening lid w = true).
  { unfold still_listening. rewrite Hel, Hls, existsb_app. cbn.
    rewrite Nat.eqb_refl, orb_true_r. reflexivity. }
  cbn [el_id]. rewrite Hstill. unfold run_elementListener. cbn [el_kind el_id].
  destruct (onJumpEnd_fields lid direction first p w) as (Hx & Hc & Hj & _).
  auto.
Qed.

End Jump.

(** ** The direction of a jump *)

Section JumpDirection.

Variable cfg : RabbitConfig.
Variable M : JSMath.

Lemma jump_started_direction (d d' : Z) (first first' : bool)
  (w : World) (out : World * JumpResult) :
  jump_started d first w out -> jump_started d' first' w out -> d = d'.
Proof.
  intros (p & lid & el' & _ & Hd & _) (p' & lid' & el'' & _ & Hd' & _).
  congruence.
Qed.

Lemma jump_started_pending (d : Z) (first : bool) (w w' : World) :
  ~ jump_started d first w (w', Resolved).
Proof. intros (p & lid & el' & Hp & _). discriminate Hp. Qed.

(** Claim C1.  On a call to [jump] after the first jump, by a spawned
    actor that is not spawning, at stored position [p]: if [p - J < 20]
    any direction chosen is right ([-1]), and it is chosen when the
    right is feasible; if [p + J + Vw > W - 20] any direction chosen is
    left ([1]), and it is chosen when the left is feasible; if both
    hold, [jump] resolves at once, changes nothing but the jumping
    flag, which it clears, and leaves the position as it was. *)
Theorem jump_forced_at_edges (rnd : Q) (w : World) (el : Element)
  (spawned : element (this w) = Some el)
  (idle : isSpawning (this w) = false)
  (later : isFirstJump (this w) = false) :
  let p := x (this w) in
  let J := jumpDistance cfg in
  let Vw := width cfg * scale (this w) in
  let W := innerWidth (host w) in
  let out := jump cfg rnd w in
  (p - J < 20 ->
   forall d first, jump_started d first w out -> d = (-1)%Z)
  /\ (p - J < 20 -> p + J + Vw <= W - 20 ->
      jump_started (-1) false w out)
  /\ (p + J + Vw > W - 20 ->
      forall d first, jump_started d first w out -> d = 1%Z)
  /\ (p + J + Vw > W - 20 -> 20 <= p - J ->
      jump_started 1 false w out)
  /\ (p - J < 20 -> p + J + Vw > W - 20 ->
      out = (on_this (set_isJumping false) w, Resolved)
      /\ x (this (fst out)) = p
      /\ isJumping (this (fst out)) = false
      /\ isSpawning (this (fst out)) = false
      /\ element (this (fst out)) = Some el
      /\ host (fst out) = host w).
Proof.
  intros p J Vw W out. subst p J Vw W out.
  set (p := x (this w)). set (J := jumpDistance cfg).
  set (Vw := width cfg * scale (this w)). set (W := innerWidth (host w)).
  set (out := jump cfg rnd w).
  assert (Hright : p - J < 20 -> p + J + Vw <= W - 20 ->
                   jump_started (-1) false w out).
  { intros HL HR.
    apply canGoLeft_false in HL. apply canGoRight_true in HR.
    assert (Hdir : chooseDirection cfg rnd W (this w) = Some (-1)%Z).
    { unfold chooseDirection. rewrite later, HL, HR. reflexivity. }
    destruct (jump_proceeds cfg rnd w el (-1) spawned idle Hdir) as [H _].
    rewrite later in H. exact H. }
  assert (Hleft : p + J + Vw > W - 20 -> 20 <= p - J ->
                  jump_started 1 false w out).
  { intros HR HL.
    apply canGoLeft_true in HL. apply canGoRight_false in HR.
    assert (Hdir : chooseDirection cfg rnd W (this w) = Some 1%Z).
    { unfold chooseDirection. rewrite later, HL, HR. reflexivity. }
    destruct (jump_proceeds cfg rnd w el 1 spawned idle Hdir) as [H _].
    rewrite later in H. exact H. }
  assert (Hboth : p - J < 20 -> p + J + Vw > W - 20 ->
                  out = (on_this (set_isJumping false) w, Resolved)).
  { intros HL HR.
    apply canGoLeft_false in HL. apply canGoRight_false in HR.
    apply (jump_aborts cfg rnd w el spawned idle).
    unfold chooseDirection. fold W. rewrite later, HL, HR. reflexivity. }
  split; [| split; [exact Hright | split; [| split; [exact Hleft |]]]].
  - intros HL d first Hst.
    destruct (Qlt_le_dec (W - 20) (p + J + Vw)) as [HR | HR].
    + rewrite (Hboth HL HR) in Hst.
      destruct (jump_started_pending _ _ _ _ Hst).
    + exact (jump_started_direction _ _ _ _ _ _ Hst (Hright HL HR)).
  - intros HR d first Hst.
    destruct (Qlt_le_dec (p - J) 20) as [HL | HL].
    + rewrite (Hboth HL HR) in Hst.
      destruct (jump_started_pending _ _ _ _ Hst).
    + exact (jump_started_direction _ _ _ _ _ _ Hst (Hleft HR HL)).
  - intros HL HR. rewrite (Hboth HL HR). cbn.
    repeat split; assumption.
Qed.

(** The draws [k / m] for [k < m] that are below [n / m]. *)
Lemma count_below (n m : nat) :
  List.length (filter (fun k => Nat.ltb k n) (seq 0 m)) = Nat.min n m.
Proof.
  induction m as [| m IH]; [rewrite Nat.min_0_r; reflexivity |].
  rewrite seq_S, filter_app, length_app, IH. cbn [Nat.add filter].
  destruct (Nat.ltb m n) eqn:E; cbn [List.length].
  - apply Nat.ltb_lt in E. lia.
  - apply Nat.ltb_ge in E. lia.
Qed.

Lemma filter_map_swap {A B : Type} (f : B -> bool) (g : A -> B)
  (h : A -> bool) (l : list A) :
  (forall a, f (g a) = h a) ->
  filter f (map g l) = map g (filter h l).
Proof.
  intro Hfg. induction l as [| a l IH]; [reflexivity |].
  cbn [map filter]. rewrite Hfg.
  destruct (h a); cbn [map]; rewrite IH; reflexivity.
Qed.

Lemma filter_complement_length {A : Type} (h : A -> bool) (l : list A) :
  (List.length (filter (fun a => negb (h a)) l)
   + List.length (filter h l) = List.length l)%nat.
Proof.
  induction l as [| a l IH]; [reflexivity |].
  cbn [filter]. destruct (h a); cbn; lia.
Qed.

Lemma grid_draw_below_third (k n : nat) :
  (0 < n)%nat ->
  Qlt_bool (Z.of_nat k # Pos.of_nat (3 * n)) (1 # 3) = Nat.ltb k n.
Proof.
  intro Hn.
  assert (Hden : Z.pos (Pos.of_nat (3 * n)) = Z.of_nat (3 * n)).
  { rewrite <- positive_nat_Z, Nat2Pos.id by lia. reflexivity. }
  destruct (Nat.ltb k n) eqn:E.
  - apply Nat.ltb_lt in E. apply Qlt_bool_iff.
    unfold Qlt. cbn [Qnum Qden]. rewrite Hden. lia.
  - apply Nat.ltb_ge in E. apply Qlt_bool_false_iff.
    unfold Qle. cbn [Qnum Qden]. rewrite Hden. lia.
Qed.

(** Claim C9.  On a jump that is not the first and for which both
    directions are feasible, the draw [r] decides: below [1/3] the
    direction is the opposite of [lastDirection], otherwise it is
    [lastDirection]; the direction chosen is recorded in
    [lastDirection].  So when the last direction is right, left is
    chosen exactly for the draws below [1/3]: of the [3n] evenly
    spaced draws [k/(3n)], [n] choose left and [2n] choose right. *)
Theorem jump_direction_draw (w : World) (el : Element)
  (spawned : element (this w) = Some el)
  (idle : isSpawning (this w) = false)
  (later : isFirstJump (this w) = false)
  (left_ok : 20 <= x (this w) - jumpDistance cfg)
  (right_ok :
     x (this w) + jumpDistance cfg + width cfg * scale (this w)
     <= innerWidth (host w) - 20) :
  let last := lastDirection (this w) in
  let chosen r := lastDirection (this (fst (jump cfg r w))) in
  (forall r, r < 1 # 3 -> jump_started (- last) false w (jump cfg r w))
  /\ (forall r, 1 # 3 <= r -> jump_started last false w (jump cfg r w))
  /\ (forall r, chosen r = if Qlt_bool r (1 # 3) then (- last)%Z else last)
  /\ (last = (-1)%Z ->
      (forall r, chosen r = 1%Z <-> r < 1 # 3)
      /\ forall n, (0 < n)%nat ->
           let draws :=
             map (fun k => Z.of_nat k # Pos.of_nat (3 * n))
                 (seq 0 (3 * n)) in
           List.length (filter (fun r => Z.eqb (chosen r) 1) draws) = n
           /\ List.length (filter (fun r => Z.eqb (chosen r) (-1)) draws)
              = (2 * n)%nat).
Proof.
  intros last chosen.
  apply canGoLeft_true in left_ok. apply canGoRight_true in right_ok.
  assert (Hdir : forall r,
             chooseDirection cfg r (innerWidth (host w)) (this w)
             = Some (if Qlt_bool r (1 # 3) then (- last)%Z else last)).
  { intro r. unfold chooseDirection.
    rewrite later, left_ok, right_ok. reflexivity. }
  assert (Hst : forall r,
             jump_started (if Qlt_bool r (1 # 3) then (- last)%Z else last)
               false w (jump cfg r w)).
  { intro r.
    destruct (jump_proceeds cfg r w el _ spawned idle (Hdir r)) as [H _].
    rewrite later in H. exact H. }
  assert (Hchosen : forall r,
             chosen r = if Qlt_bool r (1 # 3) then (- last)%Z else last).
  { intro r. destruct (Hst r) as (p & lid & el' & _ & Hd & _). exact Hd. }
  split; [| split; [| split; [exact Hchosen |]]].
  - intros r Hr. apply Qlt_bool_iff in Hr. specialize (Hst r).
    rewrite Hr in Hst. exact Hst.
  - intros r Hr. apply Qlt_bool_false_iff in Hr. specialize (Hst r).
    rewrite Hr in Hst. exact Hst.
  - intro Hlast. split.
    + intro r. rewrite Hchosen, Hlast, <- Qlt_bool_iff.
      destruct (Qlt_bool r (1 # 3)); cbn; intuition discriminate.
    + intros n Hn draws. unfold draws.
      assert (Hl : forall k,
                 Z.eqb (chosen (Z.of_nat k # Pos.of_nat (3 * n))) 1
                 = Nat.ltb k n).
      { intro k. rewrite Hchosen, Hlast, (grid_draw_below_third k n Hn).
        destruct (Nat.ltb k n); reflexivity. }
      assert (Hr : forall k,
                 Z.eqb (chosen (Z.of_nat k # Pos.of_nat (3 * n))) (-1)
                 = negb (Nat.ltb k n)).
      { intro k. rewrite Hchosen, Hlast, (grid_draw_below_third k n Hn).
        destruct (Nat.ltb k n); reflexivity. }
      assert (Hcount :
                List.length (filter (fun k => Nat.ltb k n) (seq 0 (3 * n))) = n).
      { rewrite count_below. lia. }
      split.
      * rewrite (filter_map_swap _ _ _ _ Hl), length_map. exact Hcount.
      * rewrite (filter_map_swap _ _ _ _ Hr), length_map.
        pose proof (filter_complement_length (fun k => Nat.ltb k n)
                      (seq 0 (3 * n))) as Hsplit.
        rewrite Hcount, length_seq in Hsplit. lia.
Qed.

End JumpDirection.

(** ** The first jump *)

Section FirstJump.

Variable cfg : RabbitConfig.
Variable M : JSMath.

Lemma first_jump_direction (rnd : Q) (w : World) (el : Element) :
  element (this w) = Some el ->
  isSpawning (this w) = false ->
  isFirstJump (this w) = true ->
  let d := if canGoRight cfg (innerWidth (host w)) (this w)
           then (-1)%Z else 1%Z in
  jump_started d true w (jump cfg rnd w)
  /\ x (this (fst (jump cfg rnd w))) = x (this w)
  /\ colorRevealed (this (fst (jump cfg rnd w))) = colorRevealed (this w)
  /\ exists el',
       element (this (fst (jump cfg rnd w))) = Some el'
       /\ classList_contains "color-fade" el' = true.
Proof.
  intros Hel Hsp Hfirst d.
  assert (Hdir : chooseDirection cfg rnd (innerWidth (host w)) (this w)
                 = Some d).
  { unfold chooseDirection. rewrite Hfirst. reflexivity. }
  destruct (jump_proceeds cfg rnd w el d Hel Hsp Hdir)
    as (Hst & Hx & Hc & _ & Hfade).
  rewrite Hfirst in Hst. auto.
Qed.

(** The first jump, from its start to its completion signal, when no
    other listener is on the element. *)
Lemma first_jump_completes (rnd : Q) (w : World) (el : Element) :
  element (this w) = Some el ->
  listeners el = [] ->
  isSpawning (this w) = false ->
  isFirstJump (this w) = true ->
  jump_started
    (if canGoRight cfg (innerWidth (host w)) (this w) then (-1)%Z else 1%Z)
    true w (jump cfg rnd w)
  /\ x (this (fst (jump cfg rnd w))) = x (this w)
  /\ colorRevealed (this (fst (jump cfg rnd w))) = colorRevealed (this w)
  /\ x (this (handle cfg M (AnimationEnd "rabbit-jump-sprite")
                (fst (jump cfg rnd w))))
     = x (this w)
       - jumpDistance cfg
         * inject_Z (if canGoRight cfg (innerWidth (host w)) (this w)
                     then (-1)%Z else 1%Z)
  /\ colorRevealed (this (handle cfg M (AnimationEnd "rabbit-jump-sprite")
                            (fst (jump cfg rnd w))))
     = true.
Proof.
  intros Hel Hls Hsp Hfirst.
  destruct (first_jump_direction rnd w el Hel Hsp Hfirst)
    as (Hst & Hx & Hc & _).
  cbv zeta in Hst.
  split; [exact Hst |]. split; [exact Hx |]. split; [exact Hc |].
  destruct Hst as (p & lid & el' & _ & _ & _ & Hel' & _ & _ & Hls' & _).
  unfold listeners_of in Hls'. rewrite Hel, Hls in Hls'.
  destruct (jump_completes cfg M (fst (jump cfg rnd w)) el' [] lid _ true p
              Hel' Hls' (fun l (F : In l []) => match F with end))
    as (Hx' & Hc' & _).
  rewrite Hx', Hc', Hx. split; reflexivity.
Qed.

(** Claim C10.  The first jump is not aborted when neither direction
    is feasible: it goes left, the jump animation starts, and its
    completion signal moves the stored position by the jump distance
    (no other jump being in flight, as is the case before the first
    jump). *)
Theorem first_jump_ignores_trap (rnd : Q) (w : World) (el : Element)
  (spawned : element (this w) = Some el)
  (idle : isSpawning (this w) = false)
  (first : isFirstJump (this w) = true)
  (none_in_flight : forall l, In l (listeners el) -> el_kind l = OnSpawnEnd)
  (left_blocked : x (this w) - jumpDistance cfg < 20)
  (right_blocked :
     x (this w) + jumpDistance cfg + width cfg * scale (this w)
     > innerWidth (host w) - 20) :
  let out := jump cfg rnd w in
  let done := handle cfg M (AnimationEnd "rabbit-jump-sprite") (fst out) in
  jump_started 1 true w out
  /\ x (this (fst out)) = x (this w)
  /\ x (this done) == x (this w) - jumpDistance cfg.
Proof.
  intros out done.
  apply canGoRight_false in right_blocked.
  destruct (first_jump_direction rnd w el spawned idle first)
    as (Hst & Hx & _).
  rewrite right_blocked in Hst. fold out in Hst, Hx.
  split; [exact Hst |]. split; [exact Hx |].
  destruct Hst as (p & lid & el' & _ & _ & _ & Hel' & _ & _ & Hls & _).
  unfold listeners_of in Hls. rewrite spawned in Hls.
  destruct (jump_completes cfg M (fst out) el' (listeners el) lid 1 true p
              Hel' Hls none_in_flight) as (Hdone & _).
  unfold done. rewrite Hdone, Hx. cbn. ring.
Qed.

End FirstJump.

(** Claim C2.  The first jump of a spawned, idle actor goes right when
    the right is feasible and left otherwise, and sets the class
    [color-fade] as it starts.  For the actor dropped at [x = 100] in a
    viewport 1000 wide, the jump distance being 300 and the margin 20:
    the first jump goes right, the position is still 100 and
    [colorRevealed] still false once it has started, and after its
    completion signal the position is 400 and [colorRevealed] is
    true. *)
Theorem first_jump_prefers_right (cfg : RabbitConfig) (M : JSMath)
  (rnd : Q) (w : World) (el : Element)
  (spawned : element (this w) = Some el)
  (idle : isSpawning (this w) = false)
  (first : isFirstJump (this w) = true) :
  let p := x (this w) in
  let J := jumpDistance cfg in
  let Vw := width cfg * scale (this w) in
  let W := innerWidth (host w) in
  let out := jump cfg rnd w in
  (p + J + Vw <= W - 20 -> jump_started (-1) true w out)
  /\ (p + J + Vw > W - 20 -> jump_started 1 true w out)
  /\ (exists el',
        element (this (fst out)) = Some el'
        /\ classList_contains "color-fade" el' = true)
  /\ forall (g : GlowConfig) (H : Q),
       let c := RABBIT_CONFIG g in
       let idle :=
         handle c M (AnimationEnd "rabbit-spawn-drop")
           (spawnAndDrop 100 0 (initial_world c no_options 1000 H)) in
       let started := jump c rnd idle in
       let done :=
         handle c M (AnimationEnd "rabbit-jump-sprite") (fst started) in
       jumpDistance c = 300
       /\ colorRevealed (this idle) = false
       /\ jump_started (-1) true idle started
       /\ x (this (fst started)) = 100
       /\ colorRevealed (this (fst started)) = false
       /\ x (this done) == 400
       /\ colorRevealed (this done) = true.
Proof.
  intros p J Vw W out.
  destruct (first_jump_direction cfg rnd w el spawned idle first)
    as (Hst & _ & _ & Hfade).
  split; [| split; [| split; [exact Hfade |]]].
  - intro HR. apply canGoRight_true in HR. fold W in Hst.
    rewrite HR in Hst. exact Hst.
  - intro HR. apply canGoRight_false in HR. fold W in Hst.
    rewrite HR in Hst. exact Hst.
  - intros g H c idle0 started done.
    split; [reflexivity |].
    assert (Hc : colorRevealed (this idle0) = false)
      by (vm_compute; reflexivity).
    split; [exact Hc |].
    assert (Hel : exists el0,
               element (this idle0) = Some el0 /\ listeners el0 = []).
    { vm_compute. eexists. split; reflexivity. }
    destruct Hel as (el0 & Hel0 & Hls0).
    assert (Hsp : isSpawning (this idle0) = false)
      by (vm_compute; reflexivity).
    assert (Hf : isFirstJump (this idle0) = true)
      by (vm_compute; reflexivity).
    assert (HR : canGoRight c (innerWidth (host idle0)) (this idle0)
                 = true) by (vm_compute; reflexivity).
    assert (Hx100 : x (this idle0) = 100) by (vm_compute; reflexivity).
    destruct (first_jump_completes c M rnd idle0 el0 Hel0 Hls0 Hsp Hf)
      as (Hst0 & Hx0 & Hc0 & Hx1 & Hc1).
    fold started in Hst0, Hx0, Hc0, Hx1, Hc1. fold done in Hx1, Hc1.
    rewrite HR in Hst0, Hx1. rewrite Hx0, Hc0, Hx1, Hc1, Hx100, Hc.
    repeat split; try assumption; reflexivity.
Qed.

(** *** The theorems above at the example actor *)

Ltac by_computation :=
  vm_compute;
  first [ reflexivity | discriminate | intro; discriminate
        | eexists; split; reflexivity ].

(** [updateGlow_intensity] for a pointer at distance [0] of
    [exampleIdle]: the intensity written is [1 + 1 + 0]. *)
Lemma updateGlow_intensity_witness :
  exists el' v,
    element (updateGlow exampleConfig exampleMath (Finite 0)
               (this exampleIdle)) = Some el'
    /\ crt_glow_intensity (style el') = Some v
    /\ v == 2.
Proof.
  assert (range_pos : 0 < glowRange exampleConfig) by by_computation.
  assert (spawned : exists el, element (this exampleIdle) = Some el).
  { vm_compute. eexists. reflexivity. }
  destruct spawned as (el & spawned).
  destruct (updateGlow_intensity exampleConfig exampleMath exampleMath_ok
              range_pos 0 (this exampleIdle) el spawned)
    as (_ & _ & el' & v & Hel & Hv & _ & _ & H0).
  exists el', v. split; [exact Hel |]. split; [exact Hv |].
  rewrite (H0 (Qeq_refl 0)). by_computation.
Defined.

(** [jump_forced_at_edges] at [exampleLeftEdge]: at [x = 100] the left is
    not feasible and the right is, so the jump goes right. *)
Lemma jump_forced_at_edges_witness :
  jump_started (-1) false exampleLeftEdge (jump exampleConfig 0 exampleLeftEdge).
Proof.
  refine (proj1 (proj2 (jump_forced_at_edges exampleConfig 0 exampleLeftEdge
                          (match element (this exampleLeftEdge) with
                           | Some el => el
                           | None => createElement
                           end) _ _ _)) _ _);
    by_computation.
Defined.

(** [jump_direction_draw] at [exampleLater], whose last direction is
    right: the draw [1/4] turns the actor left. *)
Lemma jump_direction_draw_witness :
  jump_started 1 false exampleLater (jump exampleConfig (1 # 4) exampleLater).
Proof.
  refine (proj1 (jump_direction_draw exampleConfig exampleLater
                   (match element (this exampleLater) with
                    | Some el => el
                    | None => createElement
                    end) _ _ _ _ _) (1 # 4) _);
    by_computation.
Defined.

(** [first_jump_ignores_trap] at [exampleTrapped]: the first jump goes
    left and ends at [x = 100 - 300]. *)
Lemma first_jump_ignores_trap_witness :
  jump_started 1 true exampleTrapped (jump exampleConfig 0 exampleTrapped)
  /\ x (this (handle exampleConfig exampleMath
                (AnimationEnd "rabbit-jump-sprite")
                (fst (jump exampleConfig 0 exampleTrapped))))
     == -200.
Proof.
  assert (spawned : exists el,
             element (this exampleTrapped) = Some el /\ listeners el = []).
  { vm_compute. eexists. split; reflexivity. }
  destruct spawned as (el & spawned & Hls).
  assert (none : forall l, In l (listeners el) -> el_kind l = OnSpawnEnd).
  { intros l F. rewrite Hls in F. destruct F. }
  assert (idle : isSpawning (this exampleTrapped) = false)
    by by_computation.
  assert (first : isFirstJump (this exampleTrapped) = true)
    by by_computation.
  assert (lb : x (this exampleTrapped) - jumpDistance exampleConfig < 20)
    by by_computation.
  assert (rb : x (this exampleTrapped) + jumpDistance exampleConfig
               + width exampleConfig * scale (this exampleTrapped)
               > innerWidth (host exampleTrapped) - 20)
    by by_computation.
  destruct (first_jump_ignores_trap exampleConfig exampleMath 0
              exampleTrapped el spawned idle first none lb rb)
    as (Hst & Hx0 & Hx).
  split; [exact Hst |]. rewrite Hx. by_computation.
Defined.

(** [first_jump_prefers_right] at [exampleIdle]: at [x = 100] in a
    viewport 1000 wide the first jump goes right. *)
Lemma first_jump_prefers_right_witness :
  jump_started (-1) true exampleIdle (jump exampleConfig 0 exampleIdle).
Proof.
  refine (proj1 (first_jump_prefers_right exampleConfig exampleMath 0
                   exampleIdle
                   (match element (this exampleIdle) with
                    | Some el => el
                    | None => createElement
                    end) _ _ _) _);
    by_computation.
Defined.

(** ** Destruction *)

Section Destroy.

Lemma fold_on_host {A : Type} (f : A -> Host -> Host) (l : list A)
  (w : World) :
  fold_left (fun w a => on_host (f a) w) l w
  = mkWorld (this w) (fold_left (fun h a => f a h) l (host w)).
Proof.
  revert w. induction l as [| a l IH]; intro w; [destruct w; reflexivity |].
  cbn [fold_left]. rewrite IH. reflexivity.
Qed.

Lemma existsb_filter_false {A : Type} (P Q : A -> bool) (l : list A) :
  existsb P l = false -> existsb P (filter Q l) = false.
Proof.
  induction l as [| a l IH]; [reflexivity |].
  cbn [existsb filter]. intro H. apply orb_false_iff in H as [Ha Hl].
  destruct (Q a); cbn [existsb]; [rewrite Ha |]; auto.
Qed.

Lemma existsb_filter_negb {A : Type} (P : A -> bool) (l : list A) :
  existsb P (filter (fun a => negb (P a)) l) = false.
Proof.
  induction l as [| a l IH]; [reflexivity |].
  cbn [filter]. destruct (P a) eqn:E; cbn [negb existsb]; [exact IH |].
  rewrite E, IH. reflexivity.
Qed.

(** Removing the tracked subscriptions one by one removes each. *)
Lemma remove_all_subscriptions (ts : list Tracked) (h : Host) (t : Tracked) :
  In t ts \/ subscribed h t = false ->
  subscribed
    (fold_left
       (fun h t => document_removeEventListener (tr_event t) (tr_handler t) h)
       ts h) t = false.
Proof.
  revert h. induction ts as [| t' ts IH]; intros h H.
  - destruct H as [[] | H]. exact H.
  - cbn [fold_left]. apply IH. destruct H as [[Heq | Hin] | H].
    + right. subst t'. unfold subscribed, document_removeEventListener.
      cbn. apply existsb_filter_negb.
    + left. exact Hin.
    + right. unfold subscribed, document_removeEventListener in *. cbn.
      apply existsb_filter_false. exact H.
Qed.

Lemma clear_all_timeouts (ids : list nat) (h : Host) (id : nat) :
  In id ids \/ pending h id = false ->
  pending (fold_left (fun h id => clearTimeout id h) ids h) id = false.
Proof.
  revert h. induction ids as [| id' ids IH]; intros h H.
  - destruct H as [[] | H]. exact H.
  - cbn [fold_left]. apply IH. destruct H as [[Heq | Hin] | H].
    + right. subst id'. unfold pending, clearTimeout. cbn.
      apply (existsb_filter_negb (fun t => Nat.eqb (t_id t) id)).
    + left. exact Hin.
    + right. unfold pending, clearTimeout in *. cbn.
      apply existsb_filter_false. exact H.
Qed.

Lemma clear_timeouts_documentListeners (ids : list nat) (h : Host) :
  documentListeners (fold_left (fun h id => clearTimeout id h) ids h)
  = documentListeners h.
Proof.
  revert h. induction ids as [| id ids IH]; intro h; [reflexivity |].
  cbn [fold_left]. rewrite IH. reflexivity.
Qed.

Lemma remove_subscriptions_pendingTimeouts (ts : list Tracked) (h : Host) :
  pendingTimeouts
    (fold_left
       (fun h t => document_removeEventListener (tr_event t) (tr_handler t) h)
       ts h)
  = pendingTimeouts h.
Proof.
  revert h. induction ts as [| t ts IH]; intro h; [reflexivity |].
  cbn [fold_left]. rewrite IH. reflexivity.
Qed.

(** [Sprite.destroy] on the fields of [this] and on the host. *)
Lemma Sprite_destroy_unfold (w : World) :
  Sprite.destroy w
  = if isDestroyed (this w) then w
    else
      mkWorld
        (set_element None
           (set_timers [] (set_eventHandlers [] (set_isDestroyed true (this w)))))
        (fold_left (fun h id => clearTimeout id h) (timers (this w))
           (fold_left
              (fun h t =>
                 document_removeEventListener (tr_event t) (tr_handler t) h)
              (eventHandlers (this w)) (host w))).
Proof.
  unfold Sprite.destroy. destruct (isDestroyed (this w)) eqn:E;
    [reflexivity |].
  destruct_world w. cbn.
  rewrite (fold_on_host
             (fun t => document_removeEventListener (tr_event t)
                         (tr_handler t))).
  cbn. rewrite (fold_on_host clearTimeout). cbn.
  destruct r_element; reflexivity.
Qed.

Lemma Sprite_destroy_destroyed (w : World) :
  isDestroyed (this w) = true -> Sprite.destroy w = w.
Proof. intro H. unfold Sprite.destroy. rewrite H. reflexivity. Qed.

Lemma Sprite_destroy_isDestroyed (w : World) :
  isDestroyed (this (Sprite.destroy w)) = true.
Proof.
  rewrite Sprite_destroy_unfold.
  destruct (isDestroyed (this w)) eqn:E; [exact E | reflexivity].
Qed.

Lemma Sprite_destroy_quiet (w : World) :
  quiet (this w) -> quiet (this (Sprite.destroy w)).
Proof.
  rewrite Sprite_destroy_unfold.
  destruct (isDestroyed (this w)); [auto |].
  destruct_world w. cbn. auto.
Qed.

Lemma disableMouseReaction_quiet (w : World) :
  quiet (this (disableMouseReaction w)).
Proof.
  destruct_world w. unfold disableMouseReaction, stopGlowAnimation, quiet.
  destruct r_glowAnimationId, r_earlyMouseHandler, r_mouseHandler,
    r_clickHandler; cbn; auto.
Qed.

Lemma disableMouseReaction_isDestroyed (w : World) :
  isDestroyed (this (disableMouseReaction w)) = isDestroyed (this w).
Proof.
  destruct_world w. unfold disableMouseReaction, stopGlowAnimation.
  destruct r_glowAnimationId, r_earlyMouseHandler, r_mouseHandler,
    r_clickHandler; reflexivity.
Qed.

Lemma disableMouseReaction_when_quiet (w : World) :
  quiet (this w) -> disableMouseReaction w = w.
Proof.
  destruct_world w. unfold quiet. cbn. intros (Hg & He & Hm & Hc).
  subst. reflexivity.
Qed.

End Destroy.

(** ** What each method leaves alone *)

Create HintDb rabbit.
#[global] Hint Unfold
  startCooldown startGlowAnimation stopGlowAnimation on_element
  requestAnimationFrame fresh Sprite.setTimeout Sprite.updatePosition
  Sprite.setPosition updateGlow updateGlowFromStoredPosition
  run_earlyMouseHandler resolve animate run_timeout untrack
  getDistanceToBottomCenter spawned listeners_of kept settled settled_flags
  same_look
  same_wiring inert : rabbit.

(** Computation on a world taken apart: the updates of the fields of
    [this] and of the host are carried out, with sharing; the element,
    lists and numbers are left as they are. *)
Ltac world_red :=
  lazy beta iota zeta delta
    [
      element x y scale eventHandlers timers isDestroyed isSpawning
      isJumping jumpCooldown isFirstJump colorRevealed lastDirection
      permanentGlowBonus lastMouseX lastMouseY glowAnimationId
      mouseHandler clickHandler earlyMouseHandler documentListeners
      pendingTimeouts animationFrameRequests jumpPromises innerWidth
      innerHeight console nextId this host fst snd set_element set_x
      set_y set_scale set_eventHandlers set_timers set_isDestroyed
      set_isSpawning set_isJumping set_jumpCooldown set_isFirstJump
      set_colorRevealed set_lastDirection set_permanentGlowBonus
      set_lastMouseX set_lastMouseY set_glowAnimationId set_mouseHandler
      set_clickHandler set_earlyMouseHandler set_documentListeners
      set_pendingTimeouts set_animationFrameRequests set_jumpPromises
      set_innerWidth set_innerHeight set_console set_nextId on_this
      on_host on_element fresh requestAnimationFrame startGlowAnimation
      stopGlowAnimation startCooldown Sprite.setTimeout
      cancelAnimationFrame clearTimeout Sprite.updatePosition
      Sprite.setPosition updateGlow updateGlowFromStoredPosition
      run_earlyMouseHandler animate run_timeout untrack
      document_removeEventListener
    ].

(** Goals about the fields of a world after a method: unfold, split the
    cases, compute. *)
Ltac fields :=
  autounfold with rabbit;
  repeat (cbn; break_test);
  dom_simpl; repeat split; auto; try lia.

Section Frames.

Variable cfg : RabbitConfig.
Variable M : JSMath.

Lemma inert_refl (w : World) : inert w w.
Proof. fields. Qed.

Lemma kept_trans (w1 w2 w3 : World) :
  kept w1 w2 -> kept w2 w3 -> kept w1 w3.
Proof. unfold kept. intuition (try congruence; try lia). Qed.

Lemma settled_trans (w1 w2 w3 : World) :
  settled w1 w2 -> settled w2 w3 -> settled w1 w3.
Proof. unfold settled. intuition congruence. Qed.

Lemma same_look_trans (w1 w2 w3 : World) :
  same_look w1 w2 -> same_look w2 w3 -> same_look w1 w3.
Proof. unfold same_look. intuition congruence. Qed.

Lemma same_wiring_trans (w1 w2 w3 : World) :
  same_wiring w1 w2 -> same_wiring w2 w3 -> same_wiring w1 w3.
Proof. unfold same_wiring. intuition congruence. Qed.

Lemma inert_trans (w1 w2 w3 : World) :
  inert w1 w2 -> inert w2 w3 -> inert w1 w3.
Proof.
  intros (K1 & S1 & L1 & W1) (K2 & S2 & L2 & W2).
  split; [eapply kept_trans; eauto |].
  split; [eapply settled_trans; eauto |].
  split; [eapply same_look_trans; eauto | eapply same_wiring_trans; eauto].
Qed.

Lemma inert_updateGlow (d : Dist) (w : World) :
  inert w (on_this (updateGlow cfg M d) w).
Proof. destruct_world w. fields. Qed.

Lemma inert_updateGlowFromStoredPosition (rc : Rect) (w : World) :
  inert w (on_this (updateGlowFromStoredPosition cfg M rc) w).
Proof. destruct_world w. fields. Qed.

Lemma inert_startGlowAnimation (w : World) : inert w (startGlowAnimation w).
Proof. destruct_world w. fields. Qed.

Lemma inert_stopGlowAnimation (w : World) : inert w (stopGlowAnimation w).
Proof. destruct_world w. fields. Qed.

Lemma inert_animate (rc : Rect) (w : World) : inert w (animate cfg M rc w).
Proof. destruct_world w. fields. Qed.

Lemma inert_run_timeout (t : PendingTimeout) (w : World) :
  inert w (run_timeout t w).
Proof. destruct_world w. fields. Qed.

Lemma inert_clearTimeout (id : nat) (w : World) :
  inert w (on_host (clearTimeout id) w).
Proof. destruct_world w. fields. Qed.

Lemma inert_earlyMouseHandler (e : MouseEvent) (w : World) :
  inert w (on_this (run_earlyMouseHandler e) w).
Proof. destruct_world w. fields. Qed.

Lemma inert_setPosition (x' y' : Q) (w : World) :
  inert w (on_this (Sprite.setPosition x' y') w).
Proof. destruct_world w. fields. Qed.

Lemma inert_startCooldown (w : World) : inert w (startCooldown cfg w).
Proof. destruct_world w. fields. Qed.

Lemma inert_resize (W H : Q) (w : World) :
  inert w (on_host (fun h => set_innerHeight H (set_innerWidth W h)) w).
Proof. destruct_world w. fields. Qed.

(** [jump]: it either resolves at once, changing at most the jumping
    flag, or starts a jump, with a fresh promise and a fresh listener. *)
Lemma jump_summary (rnd : Q) (w : World) :
  let w' := fst (jump cfg rnd w) in
  kept w w' /\ same_look w w' /\ same_wiring w w'
  /\ ((snd (jump cfg rnd w) = Resolved
       /\ (w' = w
           \/ (w' = on_this (set_isJumping false) w /\ spawned w = true)))
      \/ exists p lid d,
           snd (jump cfg rnd w) = Pending p
           /\ spawned w = true
           /\ listeners_of w'
              = listeners_of w
                ++ [mkElementListener lid
                      (OnJumpEnd d (isFirstJump (this w)) p)]
           /\ jumpPromises (host w')
              = jumpPromises (host w) ++ [mkJumpPromise p false]
           /\ isJumping (this w') = isJumping (this w)
           /\ isFirstJump (this w') = false
           /\ (nextId (host w) <= lid)%nat
           /\ (lid < nextId (host w'))%nat).
Proof.
  destruct_world w. intro w'. subst w'.
  destruct r_element as [el |]; [| unfold jump; fields].
  destruct r_isSpawning; [unfold jump; fields |].
  unfold jump.
  match goal with
  | |- context [chooseDirection ?c ?r ?W ?rb] =>
      destruct (chooseDirection c r W rb) as [d |]
  end; [| fields].
  destruct r_isFirstJump, (d =? -1)%Z, r_glowAnimationId; world_red.
  all: split; [fields |]; split; [fields |]; split; [fields |].
  all: right; do 3 eexists; unfold listeners_of.
  all: repeat split; dom_simpl; first [reflexivity | lia].
Qed.

End Frames.

Section Handlers.

Variable cfg : RabbitConfig.
Variable M : JSMath.

Lemma set_isJumping_summary (b : bool) (w : World) :
  let w' := on_this (set_isJumping b) w in
  kept w w' /\ same_look w w' /\ same_wiring w w'
  /\ isFirstJump (this w') = isFirstJump (this w)
  /\ listeners_of w' = listeners_of w
  /\ jumpPromises (host w') = jumpPromises (host w)
  /\ isJumping (this w') = b.
Proof. destruct_world w. fields. Qed.

Lemma then_startCooldown_pending (p : nat) (w : World) :
  let w' := then_startCooldown cfg (Pending p) w in
  kept w w' /\ same_look w w' /\ same_wiring w w'
  /\ isFirstJump (this w') = isFirstJump (this w)
  /\ isJumping (this w') = isJumping (this w)
  /\ listeners_of w' = listeners_of w
  /\ jumpPromises (host w') = map (mark_then p) (jumpPromises (host w)).
Proof. destruct_world w. fields. Qed.

(** The mouse handler: it leaves the jumps alone, or it found the actor
    not jumping and either had its jump resolved at once or started
    one. *)
Lemma run_mouseHandler_summary (thr : Q) (e : MouseEvent) (env : Ambient)
  (w : World) :
  let w' := run_mouseHandler cfg M thr e env w in
  kept w w' /\ same_look w w' /\ same_wiring w w'
  /\ (settled w w'
      \/ (isJumping (this w) = false
          /\ ((isFirstJump (this w') = isFirstJump (this w)
               /\ listeners_of w' = listeners_of w
               /\ jumpPromises (host w') = jumpPromises (host w))
              \/ exists p lid d,
                   listeners_of w'
                   = listeners_of w
                     ++ [mkElementListener lid
                           (OnJumpEnd d (isFirstJump (this w)) p)]
                   /\ jumpPromises (host w')
                      = map (mark_then p) (jumpPromises (host w))
                        ++ [mkJumpPromise p true]
                   /\ isJumping (this w') = true
                   /\ isFirstJump (this w') = false
                   /\ (nextId (host w) <= lid)%nat
                   /\ (lid < nextId (host w'))%nat))).
Proof.
  unfold run_mouseHandler. cbv zeta.
  set (w1 := on_this (run_earlyMouseHandler e) w).
  set (d := distance (getDistanceToBottomCenter M (rect env) (clientX e)
                        (clientY e) (this w1))).
  set (w2 := match glowAnimationId (this w1) with
             | Some _ => w1
             | None => on_this (updateGlow cfg M d) w1
             end).
  assert (H2 : inert w w2).
  { apply (inert_trans _ w1); [apply inert_earlyMouseHandler |].
    unfold w2. destruct (glowAnimationId (this w1));
      [apply inert_refl | apply inert_updateGlow]. }
  destruct H2 as (K2 & S2 & L2 & W2).
  destruct (isSpawning (this w2) || isJumping (this w2)
            || jumpCooldown (this w2)) eqn:Hblocked; [auto |].
  destruct (Dist_lt d thr); [| auto].
  apply orb_false_iff in Hblocked as [Hblocked _].
  apply orb_false_iff in Hblocked as [_ Hj2].
  destruct S2 as (Sf & Sj & Sl & Sp).
  set (w3 := on_this (set_isJumping true) w2).
  destruct (set_isJumping_summary true w2)
    as (K3 & L3 & W3 & F3 & Ls3 & P3 & J3). fold w3 in K3, L3, W3, F3, Ls3, P3, J3.
  pose proof (jump_summary cfg (random env) w3) as Hjump. cbv zeta in Hjump.
  destruct (jump cfg (random env) w3) as [w4 res]. cbn [fst snd] in Hjump.
  destruct Hjump as (K4 & L4 & W4 & Hcases).
  assert (K24 : kept w w4)
    by exact (kept_trans _ _ _ K2 (kept_trans _ _ _ K3 K4)).
  assert (L24 : same_look w w4)
    by exact (same_look_trans _ _ _ L2 (same_look_trans _ _ _ L3 L4)).
  assert (W24 : same_wiring w w4)
    by exact (same_wiring_trans _ _ _ W2 (same_wiring_trans _ _ _ W3 W4)).
  destruct Hcases as [(Hres & Hw4) | (p & lid & dir & Hres & _ & Hls & Hps
                                      & Hj & Hf & Hlo & Hhi)];
    subst res.
  - cbn [then_startCooldown].
    destruct (inert_startCooldown cfg w4) as (K5 & S5 & L5 & W5).
    split; [eapply kept_trans; eauto |].
    split; [eapply same_look_trans; eauto |].
    split; [eapply same_wiring_trans; eauto |].
    right. split; [congruence |]. left.
    destruct S5 as (Sf5 & Sj5 & Sl5 & Sp5).
    assert (H43 : isFirstJump (this w4) = isFirstJump (this w3)
                  /\ listeners_of w4 = listeners_of w3
                  /\ jumpPromises (host w4) = jumpPromises (host w3)).
    { destruct Hw4 as [-> | [-> _]]; [auto |].
      destruct (set_isJumping_summary false w3) as (_ & _ & _ & A & B & C & _).
      auto. }
    destruct H43 as (A & B & C).
    repeat split; congruence.
  - destruct (then_startCooldown_pending p w4)
      as (K5 & L5 & W5 & F5 & J5 & Ls5 & P5).
    split; [eapply kept_trans; eauto |].
    split; [eapply same_look_trans; eauto |].
    split; [eapply same_wiring_trans; eauto |].
    right. split; [congruence |]. right. exists p, lid, dir.
    destruct K2 as (_ & _ & Kn2). destruct K3 as (_ & _ & Kn3).
    destruct K5 as (_ & _ & Kn5).
    repeat split.
    + rewrite Ls5, Hls, Ls3, Sl, F3, Sf. reflexivity.
    + rewrite P5, Hps, map_app, P3, Sp. cbn [map]. unfold mark_then at 2.
      cbn [p_id]. rewrite Nat.eqb_refl. reflexivity.
    + rewrite J5, Hj. exact J3.
    + rewrite F5. exact Hf.
    + lia.
    + lia.
Qed.

(** The click handler writes the permanent glow and nothing else of
    note. *)
Lemma run_clickHandler_summary (e : MouseEvent) (env : Ambient) (w : World) :
  let w' := on_this (run_clickHandler cfg M e env) w in
  let d := distance (getDistanceToBottomCenter M (rect env) (clientX e)
                       (clientY e) (this w)) in
  kept w w' /\ settled w w' /\ same_wiring w w'
  /\ colorRevealed (this w') = colorRevealed (this w)
  /\ permanentGlowBonus (this w')
     = if Dist_lt d (clickRadius cfg)
       then Qmin (permanentGlowBonus (this w) + glowBoostPerClick cfg)
                 (maxPermanentGlow cfg)
       else permanentGlowBonus (this w).
Proof.
  destruct_world w. intros w' d. subst w' d.
  unfold on_this, run_clickHandler. cbn [this host]. cbv zeta.
  match goal with
  | |- context [Dist_lt ?a ?b] => destruct (Dist_lt a b)
  end; fields.
Qed.

(** The listener of the drop. *)
Lemma onSpawnEnd_other (self : nat) (name : string) (w : World) :
  name <> "rabbit-spawn-drop"%string -> onSpawnEnd cfg self name w = w.
Proof.
  intro H. unfold onSpawnEnd. apply String.eqb_neq in H. rewrite H.
  reflexivity.
Qed.

Lemma onSpawnEnd_summary (self : nat) (w : World) :
  let w' := onSpawnEnd cfg self "rabbit-spawn-drop" w in
  kept w w' /\ same_look w w' /\ same_wiring w w'
  /\ isFirstJump (this w') = isFirstJump (this w)
  /\ isJumping (this w') = isJumping (this w)
  /\ jumpPromises (host w') = jumpPromises (host w)
  /\ listeners_of w'
     = filter (fun l => negb (Nat.eqb (el_id l) self)) (listeners_of w).
Proof.
  destruct_world w. unfold onSpawnEnd.
  change (negb ("rabbit-spawn-drop" =? "rabbit-spawn-drop")%string)
    with false.
  cbv iota zeta.
  destruct r_element, r_glowAnimationId; world_red; fields.
Qed.

(** The listener of a jump. *)
Lemma onJumpEnd_other (self : nat) (d : Z) (first : bool) (p : nat)
  (name : string) (w : World) :
  name <> "rabbit-jump-sprite"%string ->
  onJumpEnd cfg self d first p name w = w.
Proof.
  intro H. unfold onJumpEnd. apply String.eqb_neq in H. rewrite H.
  reflexivity.
Qed.

Lemma onJumpEnd_summary (self : nat) (d : Z) (first : bool) (p : nat)
  (w : World) :
  let w' := onJumpEnd cfg self d first p "rabbit-jump-sprite" w in
  kept w w' /\ same_wiring w w'
  /\ permanentGlowBonus (this w') = permanentGlowBonus (this w)
  /\ colorRevealed (this w') = first || colorRevealed (this w)
  /\ isFirstJump (this w') = isFirstJump (this w)
  /\ isJumping (this w') = false
  /\ jumpPromises (host w')
     = filter (fun q => negb (Nat.eqb (p_id q) p)) (jumpPromises (host w))
  /\ listeners_of w'
     = filter (fun l => negb (Nat.eqb (el_id l) self)) (listeners_of w).
Proof.
  destruct_world w. unfold onJumpEnd.
  change (negb ("rabbit-jump-sprite" =? "rabbit-jump-sprite")%string)
    with false.
  cbv iota zeta. unfold resolve. cbv zeta.
  match goal with
  | |- context [existsb ?f ?l] => destruct (existsb f l)
  end.
  all: destruct r_element, first, r_glowAnimationId; world_red; fields.
Qed.

End Handlers.

(** ** The life-cycle methods *)

Section LifeCycle.

Variable cfg : RabbitConfig.
Variable M : JSMath.

(** Case analysis on the tests of [document.addEventListener]. *)
Ltac split_existsb :=
  repeat match goal with
         | |- context [existsb ?f ?l] => destruct (existsb f l)
         end.

(** [spawn] gives the actor an element if it has none. *)
Lemma spawn_summary (create : Element) (w : World) :
  let w' := Sprite.spawn create w in
  settled_flags w w' /\ same_look w w' /\ same_wiring w w'
  /\ isDestroyed (this w') = isDestroyed (this w)
  /\ nextId (host w') = nextId (host w)
  /\ spawned w' = true
  /\ listeners_of w'
     = if spawned w then listeners_of w else listeners create.
Proof.
  destruct_world w. unfold Sprite.spawn. destruct r_element; fields.
Qed.

(** [spawnAndDrop] gives it an element if it has none, and one more
    listener, for the end of the drop. *)
Lemma spawnAndDrop_summary (x' y' : Q) (w : World) :
  let w' := spawnAndDrop x' y' w in
  settled_flags w w' /\ same_look w w'
  /\ isDestroyed (this w') = isDestroyed (this w)
  /\ spawned w' = true
  /\ exists lid,
       listeners_of w'
       = (if spawned w then listeners_of w else [])
         ++ [mkElementListener lid OnSpawnEnd]
       /\ (nextId (host w) <= lid)%nat
       /\ (lid < nextId (host w'))%nat.
Proof.
  destruct_world w.
  unfold spawnAndDrop, Sprite.spawn, document_addEventListener, fresh.
  cbv beta iota zeta.
  destruct r_element, r_glowAnimationId; world_red; split_existsb;
    world_red.
  all: repeat split; try reflexivity.
  all: eexists; unfold listeners_of; repeat split; dom_simpl;
    first [reflexivity | lia].
Qed.

(** [enableMouseReaction] and [disableMouseReaction] change the
    listeners of [document] and what [this] records of them. *)
Lemma enableMouseReaction_summary (threshold : option Q) (w : World) :
  let w' := enableMouseReaction cfg threshold w in
  kept w w' /\ settled w w' /\ same_look w w'.
Proof.
  destruct_world w.
  unfold enableMouseReaction, Sprite.addEventListener,
    document_addEventListener, fresh.
  cbv beta iota zeta.
  destruct r_element, r_earlyMouseHandler; world_red; split_existsb;
    world_red; fields.
Qed.

Lemma disableMouseReaction_summary (w : World) :
  let w' := disableMouseReaction w in
  kept w w' /\ settled w w' /\ same_look w w'.
Proof.
  destruct_world w. unfold disableMouseReaction.
  destruct r_glowAnimationId, r_earlyMouseHandler, r_mouseHandler,
    r_clickHandler; world_red; fields.
Qed.

Lemma fold_host_field {A B : Type} (proj : Host -> B)
  (f : A -> Host -> Host) (l : list A) (h : Host) :
  (forall a h, proj (f a h) = proj h) ->
  proj (fold_left (fun h a => f a h) l h) = proj h.
Proof.
  intro Hf. revert h. induction l as [| a l IH]; intro h; [reflexivity |].
  cbn [fold_left]. rewrite IH. apply Hf.
Qed.

(** [Sprite.destroy] forgets the element of an actor not yet destroyed
    and changes nothing of one already destroyed. *)
Lemma Sprite_destroy_summary (w : World) :
  let w' := Sprite.destroy w in
  settled_flags w w' /\ same_look w w'
  /\ isDestroyed (this w') = true
  /\ nextId (host w') = nextId (host w)
  /\ (if isDestroyed (this w) then w' = w
      else element (this w') = None).
Proof.
  cbv zeta. rewrite Sprite_destroy_unfold.
  destruct (isDestroyed (this w)) eqn:E.
  - unfold settled_flags, same_look. auto.
  - destruct_world w. unfold settled_flags, same_look.
    cbn [this host isFirstJump isJumping permanentGlowBonus colorRevealed
         isDestroyed element set_element set_timers set_eventHandlers
         set_isDestroyed eventHandlers timers].
    repeat split.
    + rewrite (fold_host_field jumpPromises clearTimeout)
        by reflexivity.
      rewrite (fold_host_field jumpPromises
                 (fun t => document_removeEventListener (tr_event t)
                             (tr_handler t))) by reflexivity.
      reflexivity.
    + rewrite (fold_host_field nextId clearTimeout) by reflexivity.
      rewrite (fold_host_field nextId
                 (fun t => document_removeEventListener (tr_event t)
                             (tr_handler t))) by reflexivity.
      reflexivity.
Qed.

(** [destroy]. *)
Lemma destroy_summary (w : World) :
  let w' := destroy w in
  settled_flags w w' /\ same_look w w'
  /\ isDestroyed (this w') = true
  /\ (nextId (host w) <= nextId (host w'))%nat
  /\ (if isDestroyed (this w)
      then spawned w' = spawned w /\ listeners_of w' = listeners_of w
      else element (this w') = None).
Proof.
  cbv zeta. unfold destroy.
  destruct (disableMouseReaction_summary w) as (K1 & S1 & L1).
  destruct (Sprite_destroy_summary (disableMouseReaction w))
    as (F2 & L2 & D2 & N2 & E2).
  destruct K1 as (Kd & Ks & Kn). destruct S1 as (Sf & Sj & Sl & Sp).
  destruct F2 as (Ff & Fj & Fp).
  split; [unfold settled_flags; repeat split; congruence |].
  split; [eapply same_look_trans; eauto |].
  split; [exact D2 |]. split; [lia |].
  rewrite Kd in E2. destruct (isDestroyed (this w)); [| exact E2].
  rewrite E2. auto.
Qed.

End LifeCycle.

(** ** Invariants of a step *)

Section Steps.

Variable cfg : RabbitConfig.
Variable M : JSMath.

Lemma inert_calm (w w' : World) : inert w w' -> calm w w'.
Proof. intros (K & S & L & _). exact (conj K (conj S L)). Qed.

Lemma calm_refl (w : World) : calm w w.
Proof. apply inert_calm, inert_refl. Qed.

Lemma calm_trans (w1 w2 w3 : World) :
  calm w1 w2 -> calm w2 w3 -> calm w1 w3.
Proof.
  intros (K1 & S1 & L1) (K2 & S2 & L2).
  split; [eapply kept_trans; eauto |].
  split; [eapply settled_trans; eauto | eapply same_look_trans; eauto].
Qed.

Lemma calm_removeEventListener (event : string) (h : Handler) (w : World) :
  calm w (on_host (document_removeEventListener event h) w).
Proof. destruct_world w. unfold calm. fields. Qed.

Lemma calm_cancel_frames (w : World) :
  calm w (on_host (set_animationFrameRequests []) w).
Proof. destruct_world w. unfold calm. fields. Qed.

Section Preservation.

(** A property of worlds that no calm change breaks. *)
Variable P : World -> Prop.
Hypothesis P_calm : forall w w', calm w w' -> P w -> P w'.

Lemma dispatch_document_preserves (event : string) (e : MouseEvent)
  (env : Ambient) :
  (forall h w, P w -> P (run_handler cfg M h e env w)) ->
  forall ls w, P w -> P (dispatch_document cfg M event ls e env w).
Proof.
  intros Hrun ls. induction ls as [| l ls IH]; intros w Hw; [exact Hw |].
  cbn [dispatch_document]. apply IH.
  destruct (String.eqb (l_event l) event
            && existsb (same_listener event (l_handler l))
                 (documentListeners (host w))); [| exact Hw].
  apply Hrun. destruct (l_once l); [| exact Hw].
  exact (P_calm _ _ (calm_removeEventListener _ _ _) Hw).
Qed.

Lemma run_handler_preserves (e : MouseEvent) (env : Ambient) :
  (forall thr w, P w -> P (run_mouseHandler cfg M thr e env w)) ->
  (forall w, P w -> P (on_this (run_clickHandler cfg M e env) w)) ->
  forall h w, P w -> P (run_handler cfg M h e env w).
Proof.
  intros Hm Hc h w Hw. unfold run_handler. destruct (h_kind h).
  - exact (P_calm _ _ (inert_calm _ _ (inert_earlyMouseHandler e w)) Hw).
  - apply Hm, Hw.
  - apply Hc, Hw.
Qed.

Lemma animation_frame_preserves (rc : Rect) (ids : list nat) (w : World) :
  P w -> P (fold_left (fun w _ => animate cfg M rc w) ids w).
Proof.
  revert w. induction ids as [| id ids IH]; intros w Hw; [exact Hw |].
  cbn [fold_left]. apply IH.
  exact (P_calm _ _ (inert_calm _ _ (inert_animate cfg M rc w)) Hw).
Qed.

(** An event other than [animationend] preserves [P] if the mouse
    handler and the click handler do. *)
Lemma handle_preserves_unless_animationend :
  (forall thr e env w, P w -> P (run_mouseHandler cfg M thr e env w)) ->
  (forall e env w, P w -> P (on_this (run_clickHandler cfg M e env) w)) ->
  forall ev w, is_animationend ev = false -> P w -> P (handle cfg M ev w).
Proof.
  intros Hm Hc ev w Hev Hw.
  destruct ev as [e env | e env | name | id | env | W H];
    try discriminate Hev.
  - apply dispatch_document_preserves; [| exact Hw].
    apply run_handler_preserves; [intros; apply Hm | intros; apply Hc];
      assumption.
  - apply dispatch_document_preserves; [| exact Hw].
    apply run_handler_preserves; [intros; apply Hm | intros; apply Hc];
      assumption.
  - cbn [handle].
    destruct (find (fun t => Nat.eqb (t_id t) id) (pendingTimeouts (host w)))
      as [t |]; [| exact Hw].
    refine (P_calm _ _ (inert_calm _ _ (inert_run_timeout t _)) _).
    exact (P_calm _ _ (inert_calm _ _ (inert_clearTimeout id w)) Hw).
  - cbn [handle]. apply animation_frame_preserves.
    exact (P_calm _ _ (calm_cancel_frames w) Hw).
  - exact (P_calm _ _ (inert_calm _ _ (inert_resize W H w)) Hw).
Qed.

(** An event preserves [P] if moreover the dispatch of [animationend]
    does. *)
Lemma handle_preserves :
  (forall thr e env w, P w -> P (run_mouseHandler cfg M thr e env w)) ->
  (forall e env w, P w -> P (on_this (run_clickHandler cfg M e env) w)) ->
  (forall name w, P w -> P (handle cfg M (AnimationEnd name) w)) ->
  forall ev w, P w -> P (handle cfg M ev w).
Proof.
  intros Hm Hc Ha ev w Hw.
  destruct (is_animationend ev) eqn:Hev;
    [| apply handle_preserves_unless_animationend; assumption].
  destruct ev; try discriminate Hev. apply Ha, Hw.
Qed.

(** A call other than [spawn] and [spawnAndDrop] preserves [P] if
    [jump] and [destroy] do. *)
Lemma invoke_preserves_unless_spawn :
  (forall rnd w, P w -> P (fst (jump cfg rnd w))) ->
  (forall w, P w -> P (destroy w)) ->
  forall c w, is_spawn (Do c) = false -> P w -> P (invoke cfg M c w).
Proof.
  intros Hj Hx c w Hc Hw. destruct c; cbn [invoke]; try discriminate Hc.
  - exact (P_calm _ _ (inert_calm _ _ (inert_setPosition _ _ w)) Hw).
  - apply Hj, Hw.
  - exact (P_calm _ _ (inert_calm _ _ (inert_updateGlow cfg M d w)) Hw).
  - exact (P_calm _ _
             (inert_calm _ _ (inert_updateGlowFromStoredPosition cfg M rc w))
             Hw).
  - exact (P_calm _ _ (inert_calm _ _ (inert_startGlowAnimation w)) Hw).
  - exact (P_calm _ _ (inert_calm _ _ (inert_stopGlowAnimation w)) Hw).
  - exact (P_calm _ _ (enableMouseReaction_summary cfg threshold w) Hw).
  - exact (P_calm _ _ (disableMouseReaction_summary w) Hw).
  - apply Hx, Hw.
Qed.

(** A call preserves [P] if [spawn], [spawnAndDrop], [jump] and
    [destroy] do. *)
Lemma invoke_preserves :
  (forall w, P w -> P (Sprite.spawn createElement w)) ->
  (forall x' y' w, P w -> P (spawnAndDrop x' y' w)) ->
  (forall rnd w, P w -> P (fst (jump cfg rnd w))) ->
  (forall w, P w -> P (destroy w)) ->
  forall c w, P w -> P (invoke cfg M c w).
Proof.
  intros Hs Hd Hj Hx c w Hw.
  destruct (is_spawn (Do c)) eqn:Hc;
    [| apply invoke_preserves_unless_spawn; assumption].
  destruct c; try discriminate Hc; cbn [invoke]; [apply Hs | apply Hd];
    exact Hw.
Qed.

(** The dispatch of [animationend] preserves [P] if each listener of the
    element does at its turn. *)
Lemma dispatch_element_preserves (name : string) (ls : list ElementListener) :
  (forall l w,
     In l ls -> still_listening (el_id l) w = true -> P w ->
     P (run_elementListener cfg l name w)) ->
  forall w, P w -> P (dispatch_element cfg ls name w).
Proof.
  induction ls as [| l ls IH]; intros Hrun w Hw; [exact Hw |].
  cbn [dispatch_element]. apply IH.
  - intros l' w' Hin. apply Hrun. right. exact Hin.
  - destruct (still_listening (el_id l) w) eqn:Hs; [| exact Hw].
    apply Hrun; [left; reflexivity | exact Hs | exact Hw].
Qed.

End Preservation.

End Steps.

(** ** After [destroy] *)

Section Teardown.

Variable cfg : RabbitConfig.
Variable M : JSMath.

(** A listener of the element changes neither the element's presence
    nor the destroyed flag. *)
Lemma run_elementListener_kept (l : ElementListener) (name : string)
  (w : World) :
  kept w (run_elementListener cfg l name w).
Proof.
  unfold run_elementListener. destruct (el_kind l) as [| d first p].
  - destruct (String.eqb_spec name "rabbit-spawn-drop") as [-> | Hne].
    + apply onSpawnEnd_summary.
    + rewrite onSpawnEnd_other by exact Hne. apply inert_refl.
  - destruct (String.eqb_spec name "rabbit-jump-sprite") as [-> | Hne].
    + apply onJumpEnd_summary.
    + rewrite onJumpEnd_other by exact Hne. apply inert_refl.
Qed.

Lemma handle_kept (ev : Event) (w : World) : kept w (handle cfg M ev w).
Proof.
  apply (handle_preserves cfg M (kept w)).
  - intros w1 w2 (K & _) H. exact (kept_trans _ _ _ H K).
  - intros thr e env w1 H.
    exact (kept_trans _ _ _ H
             (proj1 (run_mouseHandler_summary cfg M thr e env w1))).
  - intros e env w1 H.
    exact (kept_trans _ _ _ H
             (proj1 (run_clickHandler_summary cfg M e env w1))).
  - intros name w1 H. cbn [handle].
    destruct (element (this w1)) as [el |]; [| exact H].
    apply dispatch_element_preserves; [| exact H].
    intros l w2 _ _ H2.
    exact (kept_trans _ _ _ H2 (run_elementListener_kept l name w2)).
  - apply inert_refl.
Qed.

(** Once set, [isDestroyed] stays set. *)
Lemma step_isDestroyed (a : Action) (w : World) :
  isDestroyed (this w) = true -> isDestroyed (this (step cfg M a w)) = true.
Proof.
  intro H. destruct a as [c | ev]; cbn [step].
  - revert c w H.
    apply (invoke_preserves cfg M (fun w => isDestroyed (this w) = true)).
    + intros w w' ((K & _) & _) H. congruence.
    + intros w H.
      destruct (spawn_summary createElement w) as (_ & _ & _ & D & _).
      congruence.
    + intros x' y' w H.
      destruct (spawnAndDrop_summary x' y' w) as (_ & _ & D & _).
      congruence.
    + intros rnd w H.
      destruct (jump_summary cfg rnd w) as ((D & _) & _). congruence.
    + intros w _. apply destroy_summary.
  - destruct (handle_kept ev w) as (D & _). congruence.
Qed.

(** An actor without element gets none from a step that is not a call
    of [spawn] or [spawnAndDrop]. *)
Lemma step_detached (a : Action) (w : World) :
  is_spawn a = false ->
  isDestroyed (this w) = true ->
  element (this w) = None ->
  element (this (step cfg M a w)) = None.
Proof.
  intros Ha Hd H.
  assert (Hs : forall w', spawned w' = spawned w -> element (this w') = None).
  { intros w' E. unfold spawned in E. rewrite H in E.
    destruct (element (this w')); [discriminate | reflexivity]. }
  destruct a as [c | ev]; cbn [step].
  - destruct c; try discriminate Ha; cbn [invoke]; apply Hs.
    + apply inert_setPosition.
    + apply jump_summary.
    + apply (inert_updateGlow cfg M).
    + apply (inert_updateGlowFromStoredPosition cfg M).
    + apply inert_startGlowAnimation.
    + apply inert_stopGlowAnimation.
    + apply enableMouseReaction_summary.
    + apply disableMouseReaction_summary.
    + destruct (destroy_summary w) as (_ & _ & _ & _ & E).
      rewrite Hd in E. apply E.
  - apply Hs, handle_kept.
Qed.

Lemma run_isDestroyed (tr : list Action) (w : World) :
  isDestroyed (this w) = true -> isDestroyed (this (run cfg M tr w)) = true.
Proof.
  revert w. induction tr as [| a tr IH]; intros w H; [exact H |].
  cbn [run fold_left]. apply IH, step_isDestroyed, H.
Qed.

Lemma run_detached (tr : list Action) (w : World) :
  Forall (fun a => is_spawn a = false) tr ->
  isDestroyed (this w) = true ->
  element (this w) = None ->
  element (this (run cfg M tr w)) = None.
Proof.
  revert w. induction tr as [| a tr IH]; intros w Htr Hd H; [exact H |].
  inversion Htr as [| a' tr' Ha Htr' E]; subst.
  cbn [run fold_left]. apply IH; [exact Htr' | |].
  - apply step_isDestroyed, Hd.
  - apply step_detached; assumption.
Qed.

(** Claim C8, as amended.  Once [destroy] has been called, the actor is
    marked destroyed for good.  When the call was the first, the actor
    has no element after it and gets none from any sequence of calls
    and events without a call of [spawn] or [spawnAndDrop]; in that
    state [enableMouseReaction] registers nothing and [jump] resolves at
    once. *)
Theorem destroyed_stays_detached (w : World) :
  (forall tr, isDestroyed (this (run cfg M tr (destroy w))) = true)
  /\ (isDestroyed (this w) = false ->
      forall tr,
        Forall (fun a => is_spawn a = false) tr ->
        let w' := run cfg M tr (destroy w) in
        element (this w') = None
        /\ (forall threshold, enableMouseReaction cfg threshold w' = w')
        /\ (forall rnd, jump cfg rnd w' = (w', Resolved))).
Proof.
  assert (Hd : isDestroyed (this (destroy w)) = true)
    by apply destroy_summary.
  split; [intro tr; apply run_isDestroyed, Hd |].
  intros Hlive tr Htr w'.
  assert (Hnone : element (this w') = None).
  { apply run_detached; [exact Htr | exact Hd |].
    destruct (destroy_summary w) as (_ & _ & _ & _ & E).
    rewrite Hlive in E. exact E. }
  split; [exact Hnone |]. split.
  - intro threshold. unfold enableMouseReaction. rewrite Hnone. reflexivity.
  - intro rnd. apply jump_not_ready. left. exact Hnone.
Qed.

End Teardown.

(** Claim C8, as stated, fails: [spawnAndDrop] after [destroy] gives the
    destroyed actor a new element, attached to the page, and
    [enableMouseReaction] then puts its listeners on [document]. *)
Lemma destroy_then_spawn_reattaches :
  let w :=
    run exampleConfig exampleMath
      [Do CallDestroy; Do (CallSpawnAndDrop 100 0);
       Do (CallEnableMouseReaction None)] exampleIdle in
  isDestroyed (this w) = true
  /\ (exists el, element (this w) = Some el /\ isConnected el = true)
  /\ List.length (documentListeners (host w)) = 2%nat.
Proof.
  vm_compute. split; [reflexivity |].
  split; [eexists; split; reflexivity | reflexivity].
Qed.

(** [destroyed_stays_detached] at [exampleIdle], followed by a pointer
    move and a call of [enableMouseReaction]. *)
Lemma destroyed_stays_detached_witness :
  element
    (this
       (run exampleConfig exampleMath
          [On (MouseMove (mkMouseEvent 110 800)
                 (mkAmbient (mkRect 100 128 800) 0));
           Do (CallEnableMouseReaction None)]
          (destroy exampleIdle)))
  = None.
Proof.
  refine (proj1 (proj2 (destroyed_stays_detached exampleConfig exampleMath
                          exampleIdle) _ _ _)).
  - vm_compute. reflexivity.
  - repeat constructor.
Defined.

(** ** The colour latch *)

Section ColorReveal.

Variable cfg : RabbitConfig.
Variable M : JSMath.

(** What a listener of the element does to the latch and to the
    listeners. *)
Lemma run_elementListener_summary (l : ElementListener) (name : string)
  (w : World) :
  let w' := run_elementListener cfg l name w in
  kept w w'
  /\ isFirstJump (this w') = isFirstJump (this w)
  /\ colorRevealed (this w')
     = (String.eqb name "rabbit-jump-sprite" && is_first l)
       || colorRevealed (this w)
  /\ (listeners_of w' = listeners_of w
      \/ listeners_of w'
         = filter (fun l' => negb (Nat.eqb (el_id l') (el_id l)))
                  (listeners_of w)).
Proof.
  unfold run_elementListener, is_first.
  destruct (el_kind l) as [| d first p]; cbv zeta.
  - rewrite andb_false_r. cbn [orb].
    destruct (String.eqb_spec name "rabbit-spawn-drop") as [-> | Hne].
    + destruct (onSpawnEnd_summary cfg (el_id l) w)
        as (K & (_ & Hc) & _ & Hf & _ & _ & Hl). auto.
    + rewrite onSpawnEnd_other by exact Hne.
      repeat split; auto.
  - destruct (String.eqb_spec name "rabbit-jump-sprite") as [-> | Hne].
    + destruct (onJumpEnd_summary cfg (el_id l) d first p w)
        as (K & _ & _ & Hc & Hf & _ & _ & Hl). cbn [andb]. auto.
    + rewrite onJumpEnd_other by exact Hne. cbn [andb orb].
      repeat split; auto.
Qed.

(** Between a world and a later one, the latch has not moved. *)
Definition latch_kept (w w' : World) : Prop :=
  colorRevealed (this w') = colorRevealed (this w).

Lemma latch_kept_calm (w0 w w' : World) :
  calm w w' -> latch_kept w0 w -> latch_kept w0 w'.
Proof. intros (_ & _ & _ & Hc) H. unfold latch_kept in *. congruence. Qed.

Lemma latch_kept_mouseHandler (w0 : World) (thr : Q) (e : MouseEvent)
  (env : Ambient) (w : World) :
  latch_kept w0 w -> latch_kept w0 (run_mouseHandler cfg M thr e env w).
Proof.
  intro H.
  destruct (run_mouseHandler_summary cfg M thr e env w)
    as (_ & (_ & Hc) & _).
  unfold latch_kept in *. congruence.
Qed.

Lemma latch_kept_clickHandler (w0 : World) (e : MouseEvent) (env : Ambient)
  (w : World) :
  latch_kept w0 w -> latch_kept w0 (on_this (run_clickHandler cfg M e env) w).
Proof.
  intro H.
  destruct (run_clickHandler_summary cfg M e env w) as (_ & _ & _ & Hc & _).
  unfold latch_kept in *. congruence.
Qed.

(** A step that is not the end of an animation leaves the latch. *)
Lemma step_latch_kept (a : Action) (w : World) :
  (forall name, a <> On (AnimationEnd name)) ->
  latch_kept w (step cfg M a w).
Proof.
  intro Ha. destruct a as [c | ev]; cbn [step].
  - apply (invoke_preserves cfg M (latch_kept w) (latch_kept_calm w)).
    + intros w1 H.
      destruct (spawn_summary createElement w1) as (_ & (_ & Hc) & _).
      unfold latch_kept in *. congruence.
    + intros x' y' w1 H.
      destruct (spawnAndDrop_summary x' y' w1) as (_ & (_ & Hc) & _).
      unfold latch_kept in *. congruence.
    + intros rnd w1 H.
      destruct (jump_summary cfg rnd w1) as (_ & (_ & Hc) & _).
      unfold latch_kept in *. congruence.
    + intros w1 H.
      destruct (destroy_summary w1) as (_ & (_ & Hc) & _).
      unfold latch_kept in *. congruence.
    + reflexivity.
  - apply (handle_preserves_unless_animationend cfg M (latch_kept w)
             (latch_kept_calm w) (latch_kept_mouseHandler w)
             (latch_kept_clickHandler w)); [| reflexivity].
    destruct ev; try reflexivity. destruct (Ha animationName eq_refl).
Qed.

(** The end of an animation sets the latch only if it is the jump's and a
    listener of a first jump is among those dispatched to. *)
Lemma dispatch_element_latch (name : string) (ls : list ElementListener)
  (w : World) :
  let w' := dispatch_element cfg ls name w in
  colorRevealed (this w') = colorRevealed (this w)
  \/ (colorRevealed (this w') = true
      /\ name = "rabbit-jump-sprite"%string
      /\ exists l, In l ls /\ is_first l = true).
Proof.
  cbv zeta.
  apply (dispatch_element_preserves cfg
           (fun w' =>
              colorRevealed (this w') = colorRevealed (this w)
              \/ (colorRevealed (this w') = true
                  /\ name = "rabbit-jump-sprite"%string
                  /\ exists l, In l ls /\ is_first l = true)));
    [| left; reflexivity].
  intros l w1 Hin _ H.
  destruct (run_elementListener_summary l name w1) as (_ & _ & Hc & _).
  destruct (String.eqb_spec name "rabbit-jump-sprite") as [Hn | Hn];
    destruct (is_first l) eqn:Hf; cbn [andb orb] in Hc.
  - right. split; [exact Hc |]. split; [exact Hn |]. exists l. auto.
  - destruct H as [H | (H & Hrest)]; [left; congruence |].
    right. split; [congruence | exact Hrest].
  - destruct H as [H | (H & Hrest)]; [left; congruence |].
    right. split; [congruence | exact Hrest].
  - destruct H as [H | (H & Hrest)]; [left; congruence |].
    right. split; [congruence | exact Hrest].
Qed.

Lemma dispatch_element_latch_stays (name : string)
  (ls : list ElementListener) (w : World) :
  colorRevealed (this w) = true ->
  colorRevealed (this (dispatch_element cfg ls name w)) = true.
Proof.
  intro H. destruct (dispatch_element_latch name ls w) as [E | (E & _)];
    congruence.
Qed.

(** The listener of a first jump, still on the element when its turn
    comes, sets the latch. *)
Lemma dispatch_element_first (ls : list ElementListener) (w : World) :
  NoDup (map el_id ls) ->
  colorRevealed (this w) = true
  \/ (exists l, In l ls /\ is_first l = true /\ In l (listeners_of w)) ->
  colorRevealed (this (dispatch_element cfg ls "rabbit-jump-sprite" w))
  = true.
Proof.
  revert w. induction ls as [| a ls IH]; intros w Hnd H.
  - destruct H as [H | (l & [] & _)]. exact H.
  - cbn [dispatch_element]. cbn [map] in Hnd.
    apply NoDup_cons_iff in Hnd as [Ha Hnd]. apply IH; [exact Hnd |].
    destruct (run_elementListener_summary a "rabbit-jump-sprite" w)
      as (_ & _ & Hc & Hl).
    destruct H as [H | (l & Hin & Hf & Hw)].
    + left. destruct (still_listening (el_id a) w); [| exact H].
      rewrite Hc, H. apply orb_true_r.
    + destruct Hin as [<- | Hin].
      * left.
        assert (Hs : still_listening (el_id a) w = true).
        { unfold still_listening. unfold listeners_of in Hw.
          destruct (element (this w)) as [el |]; [| destruct Hw].
          apply existsb_exists. exists a. split; [exact Hw |].
          apply Nat.eqb_refl. }
        rewrite Hs, Hc, Hf. reflexivity.
      * destruct (still_listening (el_id a) w); [| right; eauto].
        right. exists l. split; [exact Hin |]. split; [exact Hf |].
        destruct Hl as [-> | ->]; [exact Hw |].
        apply filter_In. split; [exact Hw |].
        apply negb_true_iff, Nat.eqb_neq. intro E. apply Ha.
        rewrite <- E. apply in_map, Hin.
Qed.

End ColorReveal.

(** ** The listeners of the element *)

Section Listeners.

Variable cfg : RabbitConfig.
Variable M : JSMath.

Lemma NoDup_map_filter {A B : Type} (f : A -> B) (g : A -> bool)
  (l : list A) :
  NoDup (map f l) -> NoDup (map f (filter g l)).
Proof.
  induction l as [| a l IH]; [intro H; exact H |].
  cbn [map filter]. intro H. apply NoDup_cons_iff in H as [Ha Hl].
  destruct (g a); [| exact (IH Hl)].
  cbn [map]. apply NoDup_cons; [| exact (IH Hl)].
  intro Hin. apply Ha. apply in_map_iff in Hin as (b & Hb & Hin).
  apply filter_In in Hin as [Hin _]. rewrite <- Hb. apply in_map, Hin.
Qed.

Lemma filter_filter_length {A : Type} (f g : A -> bool) (l : list A) :
  (List.length (filter f (filter g l)) <= List.length (filter f l))%nat.
Proof.
  induction l as [| a l IH]; [reflexivity |].
  cbn [filter]. destruct (g a), (f a) eqn:E; cbn [filter List.length];
    try rewrite E; cbn [List.length]; lia.
Qed.

Lemma listeners_of_unspawned (w : World) :
  spawned w = false -> listeners_of w = [].
Proof.
  unfold spawned, listeners_of.
  destruct (element (this w)); [discriminate | reflexivity].
Qed.

Lemma listeners_of_none (w : World) :
  element (this w) = None -> listeners_of w = [].
Proof. unfold listeners_of. intros ->. reflexivity. Qed.

(** The identities stay distinct when the listeners stay or some are
    removed. *)
Lemma fresh_listeners_filter (g : ElementListener -> bool) (w w' : World) :
  listeners_of w' = listeners_of w
  \/ listeners_of w' = filter g (listeners_of w) ->
  (nextId (host w) <= nextId (host w'))%nat ->
  fresh_listeners w -> fresh_listeners w'.
Proof.
  intros Hl Hn (Hnd & Hlt). unfold fresh_listeners.
  destruct Hl as [-> | ->].
  - split; [exact Hnd |]. intros l Hin. specialize (Hlt l Hin). lia.
  - split; [apply NoDup_map_filter, Hnd |].
    intros l Hin. apply filter_In in Hin as [Hin _].
    specialize (Hlt l Hin). lia.
Qed.

(** They stay distinct when a listener of a new identity is added. *)
Lemma fresh_listeners_add (l : ElementListener) (w w' : World) :
  listeners_of w' = listeners_of w ++ [l] ->
  (nextId (host w) <= el_id l)%nat ->
  (el_id l < nextId (host w'))%nat ->
  fresh_listeners w -> fresh_listeners w'.
Proof.
  intros Hl Hlo Hhi (Hnd & Hlt). unfold fresh_listeners. rewrite Hl. split.
  - rewrite map_app. cbn [map].
    apply NoDup_app; [exact Hnd | repeat constructor; intros [] |].
    intros id Hin [<- | []].
    apply in_map_iff in Hin as (l' & E & Hin).
    specialize (Hlt l' Hin). lia.
  - intros l' Hin. apply in_app_or in Hin as [Hin | [<- | []]];
      [specialize (Hlt l' Hin); lia | exact Hhi].
Qed.

(** The invariant is kept when the listeners stay or some are removed. *)
Lemma first_jump_inv_filter (g : ElementListener -> bool) (w w' : World) :
  listeners_of w' = listeners_of w
  \/ listeners_of w' = filter g (listeners_of w) ->
  isFirstJump (this w') = isFirstJump (this w) ->
  (nextId (host w) <= nextId (host w'))%nat ->
  first_jump_inv w -> first_jump_inv w'.
Proof.
  intros Hl Hf Hn (Hfresh & Hcount).
  split; [exact (fresh_listeners_filter g w w' Hl Hn Hfresh) |].
  rewrite Hf. destruct Hl as [-> | ->]; [exact Hcount |].
  pose proof (filter_filter_length is_first g (listeners_of w)). lia.
Qed.

Lemma first_jump_inv_calm (w w' : World) :
  calm w w' -> first_jump_inv w -> first_jump_inv w'.
Proof.
  intros ((_ & _ & Hn) & (Hf & _ & Hl & _) & _).
  apply (first_jump_inv_filter (fun _ => true)); auto.
Qed.

(** The invariant is kept when a listener with a new identity is added:
    the listener of the drop, or the listener of a jump, which is the
    first jump's exactly when [isFirstJump] was set. *)
Lemma first_jump_inv_add (l : ElementListener) (w w' : World) :
  listeners_of w' = listeners_of w ++ [l] ->
  (nextId (host w) <= el_id l)%nat ->
  (el_id l < nextId (host w'))%nat ->
  (is_first l = false /\ isFirstJump (this w') = isFirstJump (this w))
  \/ (is_first l = isFirstJump (this w) /\ isFirstJump (this w') = false) ->
  first_jump_inv w -> first_jump_inv w'.
Proof.
  intros Hl Hlo Hhi Hfirst (Hfresh & Hcount).
  split; [exact (fresh_listeners_add l w w' Hl Hlo Hhi Hfresh) |].
  rewrite Hl, filter_app, length_app. cbn [filter].
  destruct Hfirst as [(E & ->) | (E & ->)].
  - rewrite E. cbn [List.length]. lia.
  - rewrite E. destruct (isFirstJump (this w)); cbn [List.length]; lia.
Qed.

Lemma first_jump_inv_mouseHandler (thr : Q) (e : MouseEvent) (env : Ambient)
  (w : World) :
  first_jump_inv w -> first_jump_inv (run_mouseHandler cfg M thr e env w).
Proof.
  intro H.
  destruct (run_mouseHandler_summary cfg M thr e env w)
    as ((_ & _ & Hn) & _ & _ & Hcases).
  destruct Hcases as [(Hf & _ & Hl & _) | (_ & [(Hf & Hl & _) | Hstart])].
  - apply (first_jump_inv_filter (fun _ => true) w); auto.
  - apply (first_jump_inv_filter (fun _ => true) w); auto.
  - destruct Hstart as (p & lid & d & Hl & _ & _ & Hf & Hlo & Hhi).
    apply (first_jump_inv_add _ w _ Hl); auto.
Qed.

Lemma first_jump_inv_jump (rnd : Q) (w : World) :
  first_jump_inv w -> first_jump_inv (fst (jump cfg rnd w)).
Proof.
  intro H.
  destruct (jump_summary cfg rnd w) as ((_ & _ & Hn) & _ & _ & Hcases).
  destruct Hcases as [(_ & [-> | (-> & _)]) | Hstart].
  - exact H.
  - destruct (set_isJumping_summary false w)
      as ((_ & _ & Hn') & _ & _ & Hf & Hl & _).
    apply (first_jump_inv_filter (fun _ => true) w); auto.
  - destruct Hstart as (p & lid & d & _ & _ & Hl & _ & _ & Hf & Hlo & Hhi).
    apply (first_jump_inv_add _ w _ Hl); auto.
Qed.

Lemma first_jump_inv_elementListener (l : ElementListener) (name : string)
  (w : World) :
  first_jump_inv w -> first_jump_inv (run_elementListener cfg l name w).
Proof.
  intro H.
  destruct (run_elementListener_summary cfg l name w)
    as ((_ & _ & Hn) & Hf & _ & Hl).
  exact (first_jump_inv_filter _ w _ Hl Hf Hn H).
Qed.

Lemma first_jump_inv_step (a : Action) (w : World) :
  first_jump_inv w -> first_jump_inv (step cfg M a w).
Proof.
  destruct a as [c | ev]; cbn [step].
  - revert c w.
    apply (invoke_preserves cfg M first_jump_inv first_jump_inv_calm).
    + intros w H.
      destruct (spawn_summary createElement w)
        as ((Hf & _) & _ & _ & _ & Hn & _ & Hl).
      apply (first_jump_inv_filter (fun _ => true) w); auto; [| lia].
      left. rewrite Hl. destruct (spawned w) eqn:E; [reflexivity |].
      rewrite (listeners_of_unspawned w E). reflexivity.
    + intros x' y' w H.
      destruct (spawnAndDrop_summary x' y' w)
        as ((Hf & _) & _ & _ & _ & lid & Hl & Hlo & Hhi).
      apply (first_jump_inv_add (mkElementListener lid OnSpawnEnd) w);
        auto.
      rewrite Hl. destruct (spawned w) eqn:E; [reflexivity |].
      rewrite (listeners_of_unspawned w E). reflexivity.
    + exact first_jump_inv_jump.
    + intros w H.
      destruct (destroy_summary w) as ((Hf & _) & _ & _ & Hn & Hcases).
      destruct (isDestroyed (this w)).
      * destruct Hcases as (_ & Hl).
        apply (first_jump_inv_filter (fun _ => true) w); auto.
      * apply (first_jump_inv_filter (fun _ => false) w); auto.
        right. rewrite (listeners_of_none _ Hcases).
        induction (listeners_of w); [reflexivity | assumption].
  - revert ev w.
    apply (handle_preserves cfg M first_jump_inv first_jump_inv_calm).
    + exact first_jump_inv_mouseHandler.
    + intros e env w H.
      destruct (run_clickHandler_summary cfg M e env w)
        as ((_ & _ & Hn) & (Hf & _ & Hl & _) & _).
      apply (first_jump_inv_filter (fun _ => true) w); auto.
    + intros name w H. cbn [handle].
      destruct (element (this w)) as [el |]; [| exact H].
      apply dispatch_element_preserves; [| exact H].
      intros l w' _ _. apply first_jump_inv_elementListener.
Qed.

Lemma first_jump_inv_run (tr : list Action) (w : World) :
  first_jump_inv w -> first_jump_inv (run cfg M tr w).
Proof.
  revert w. induction tr as [| a tr IH]; intros w H; [exact H |].
  cbn [run fold_left]. apply IH, first_jump_inv_step, H.
Qed.

Lemma first_jump_inv_reachable (w : World) :
  reachable cfg M w -> first_jump_inv w.
Proof.
  intros (options & W & H & tr & ->). apply first_jump_inv_run.
  unfold first_jump_inv, fresh_listeners. cbn.
  repeat split; [constructor | intros l [] | lia].
Qed.

(** Once cleared, [isFirstJump] stays cleared. *)
Lemma step_isFirstJump (a : Action) (w : World) :
  isFirstJump (this w) = false ->
  isFirstJump (this (step cfg M a w)) = false.
Proof.
  destruct a as [c | ev]; cbn [step].
  - revert c w.
    apply (invoke_preserves cfg M (fun w => isFirstJump (this w) = false)).
    + intros w w' (_ & (Hf & _) & _) H. congruence.
    + intros w H.
      destruct (spawn_summary createElement w) as ((Hf & _) & _).
      congruence.
    + intros x' y' w H.
      destruct (spawnAndDrop_summary x' y' w) as ((Hf & _) & _).
      congruence.
    + intros rnd w H.
      destruct (jump_summary cfg rnd w) as (_ & _ & _ & Hcases).
      destruct Hcases as [(_ & [-> | (-> & _)]) | Hstart];
        [exact H | exact H |].
      destruct Hstart as (p & lid & d & _ & _ & _ & _ & _ & Hf & _).
      exact Hf.
    + intros w H. destruct (destroy_summary w) as ((Hf & _) & _).
      congruence.
  - revert ev w.
    apply (handle_preserves cfg M (fun w => isFirstJump (this w) = false)).
    + intros w w' (_ & (Hf & _) & _) H. congruence.
    + intros thr e env w H.
      destruct (run_mouseHandler_summary cfg M thr e env w)
        as (_ & _ & _ & Hcases).
      destruct Hcases as [(Hf & _) | (_ & [(Hf & _) | Hstart])];
        [congruence | congruence |].
      destruct Hstart as (p & lid & d & _ & _ & _ & Hf & _). exact Hf.
    + intros e env w H.
      destruct (run_clickHandler_summary cfg M e env w)
        as (_ & (Hf & _) & _).
      congruence.
    + intros name w H. cbn [handle].
      destruct (element (this w)) as [el |]; [| exact H].
      apply dispatch_element_preserves; [| exact H].
      intros l w' _ _ H'.
      destruct (run_elementListener_summary cfg l name w') as (_ & Hf & _).
      congruence.
Qed.

End Listeners.

(** Claim C5.  [colorRevealed] is false at construction; a step never
    clears it; a step sets it only if it is the completion signal of the
    jump animation, received while the listener of a first jump is on the
    element; and in every world reached from a new actor that signal
    does set it when such a listener is there.  That listener is the
    first jump's: a jump registers it exactly when it finds [isFirstJump]
    set, [isFirstJump] is then cleared and stays cleared, and at most one
    such listener is ever on the element. *)
Theorem colorRevealed_latch (cfg : RabbitConfig) (M : JSMath) :
  (forall options W H,
     colorRevealed (this (initial_world cfg options W H)) = false)
  /\ (forall a w,
        colorRevealed (this w) = true ->
        colorRevealed (this (step cfg M a w)) = true)
  /\ (forall a w,
        colorRevealed (this w) = false ->
        colorRevealed (this (step cfg M a w)) = true ->
        a = On (AnimationEnd "rabbit-jump-sprite")
        /\ exists l, In l (listeners_of w) /\ is_first l = true)
  /\ (forall w,
        reachable cfg M w ->
        (exists l, In l (listeners_of w) /\ is_first l = true) ->
        colorRevealed
          (this (step cfg M (On (AnimationEnd "rabbit-jump-sprite")) w))
        = true)
  /\ (forall rnd w p,
        snd (jump cfg rnd w) = Pending p ->
        isFirstJump (this (fst (jump cfg rnd w))) = false
        /\ exists l,
             listeners_of (fst (jump cfg rnd w)) = listeners_of w ++ [l]
             /\ is_first l = isFirstJump (this w))
  /\ (forall a w,
        isFirstJump (this w) = false ->
        isFirstJump (this (step cfg M a w)) = false)
  /\ (forall w,
        reachable cfg M w ->
        (List.length (filter is_first (listeners_of w))
         <= if isFirstJump (this w) then 0 else 1)%nat).
Proof.
  split; [reflexivity |]. split; [| split; [| split; [| split; [| split]]]].
  - intros a w H.
    destruct a as [c | [e env | e env | name | id | env | W H']];
      try (rewrite (step_latch_kept cfg M _ w); [exact H | discriminate]).
    cbn [step handle]. destruct (element (this w)); [| exact H].
    apply dispatch_element_latch_stays, H.
  - intros a w H H'.
    destruct a as [c | [e env | e env | name | id | env | W Hh]];
      try (rewrite (step_latch_kept cfg M _ w) in H';
           [congruence | discriminate]).
    cbn [step handle] in H'. unfold listeners_of.
    destruct (element (this w)) as [el |]; [| congruence].
    destruct (dispatch_element_latch cfg name (listeners el) w)
      as [E | (_ & -> & Hl)]; [congruence |].
    split; [reflexivity | exact Hl].
  - intros w Hr (l & Hin & Hf). cbn [step handle].
    destruct (first_jump_inv_reachable cfg M w Hr) as ((Hnd & _) & _).
    unfold listeners_of in Hin, Hnd.
    destruct (element (this w)) as [el |] eqn:Hel; [| destruct Hin].
    apply dispatch_element_first; [exact Hnd |].
    right. exists l. unfold listeners_of. rewrite Hel. auto.
  - intros rnd w p Hp.
    destruct (jump_summary cfg rnd w) as (_ & _ & _ & Hcases).
    destruct Hcases as [(Hres & _) | Hstart]; [congruence |].
    destruct Hstart as (p' & lid & d & _ & _ & Hl & _ & _ & Hf & _).
    split; [exact Hf |]. eexists. split; [exact Hl | reflexivity].
  - apply step_isFirstJump.
  - intros w Hr. apply (first_jump_inv_reachable cfg M w Hr).
Qed.

(** [colorRevealed_latch] at the example actor: the completion signal of
    its first jump sets the latch. *)
Lemma colorRevealed_latch_witness :
  colorRevealed
    (this
       (step exampleConfig exampleMath (On (AnimationEnd "rabbit-jump-sprite"))
          (fst (jump exampleConfig 0 exampleIdle))))
  = true.
Proof.
  refine (proj1 (proj2 (proj2 (proj2
            (colorRevealed_latch exampleConfig exampleMath)))) _ _ _).
  - exists no_options, 1000, 800,
      [Do (CallSpawnAndDrop 100 0); Do (CallEnableMouseReaction None);
       On (AnimationEnd "rabbit-spawn-drop"); Do (CallJump 0)].
    vm_compute. reflexivity.
  - vm_compute. eexists. split; [left; reflexivity | reflexivity].
Defined.

(** ** One jump at a time *)

Section OneJump.

Variable cfg : RabbitConfig.
Variable M : JSMath.

Lemma filter_nil_length {A : Type} (f : A -> bool) (l : list A) :
  (List.length (filter f l) <= 0)%nat -> forall a, In a l -> f a = false.
Proof.
  intros H a Hin. destruct (f a) eqn:E; [| reflexivity].
  assert (Hf : In a (filter f l)) by (apply filter_In; auto).
  destruct (filter f l); [destruct Hf | cbn in H; lia].
Qed.

Lemma filter_one {A : Type} (f : A -> bool) (l : list A) (a b : A) :
  (List.length (filter f l) <= 1)%nat ->
  In a l -> f a = true -> In b l -> f b = true -> a = b.
Proof.
  intros H Ha Hfa Hb Hfb.
  assert (Ha' : In a (filter f l)) by (apply filter_In; auto).
  assert (Hb' : In b (filter f l)) by (apply filter_In; auto).
  destruct (filter f l) as [| c [| c' r]]; [destruct Ha' | | cbn in H; lia].
  destruct Ha' as [<- | []], Hb' as [<- | []]. reflexivity.
Qed.

Lemma filter_none {A : Type} (f : A -> bool) (l : list A) :
  (forall a, In a l -> f a = false) -> filter f l = [].
Proof.
  induction l as [| a l IH]; [reflexivity |]. intro H.
  cbn [filter]. rewrite (H a (or_introl eq_refl)).
  apply IH. intros b Hb. apply H. right. exact Hb.
Qed.

(** The listeners stay or some are removed; the promises and the jumping
    flag stay. *)
Lemma one_jump_inv_filter (g : ElementListener -> bool) (w w' : World) :
  listeners_of w' = listeners_of w
  \/ listeners_of w' = filter g (listeners_of w) ->
  jumpPromises (host w') = jumpPromises (host w) ->
  isJumping (this w') = isJumping (this w) ->
  (nextId (host w) <= nextId (host w'))%nat ->
  one_jump_inv w -> one_jump_inv w'.
Proof.
  intros Hl Hp Hj Hn (Hfresh & Hlen & Hidle & Hcount & Hprom).
  split; [exact (fresh_listeners_filter g w w' Hl Hn Hfresh) |].
  rewrite Hp, Hj. split; [exact Hlen |]. split; [exact Hidle |].
  destruct Hl as [-> | ->]; [auto |]. split.
  - pose proof (filter_filter_length is_jump g (listeners_of w)). lia.
  - intros l q Hin. apply filter_In in Hin as [Hin _]. apply Hprom, Hin.
Qed.

Lemma one_jump_inv_calm (w w' : World) :
  calm w w' -> one_jump_inv w -> one_jump_inv w'.
Proof.
  intros ((_ & _ & Hn) & (_ & Hj & Hl & Hp) & _).
  apply (one_jump_inv_filter (fun _ => true)); auto.
Qed.

(** The actor is not jumping: the jumping flag may change, the rest
    stays. *)
Lemma one_jump_inv_idle (w w' : World) :
  isJumping (this w) = false ->
  listeners_of w' = listeners_of w ->
  jumpPromises (host w') = jumpPromises (host w) ->
  (nextId (host w) <= nextId (host w'))%nat ->
  one_jump_inv w -> one_jump_inv w'.
Proof.
  intros Hidle Hl Hp Hn (Hfresh & Hlen & Hnone & Hcount & Hprom).
  split; [exact (fresh_listeners_filter (fun _ => true) w w'
                   (or_introl Hl) Hn Hfresh) |].
  rewrite Hp, Hl. repeat split; auto.
Qed.

(** The listener of the drop is added. *)
Lemma one_jump_inv_spawn_listener (lid : nat) (w w' : World) :
  listeners_of w' = listeners_of w ++ [mkElementListener lid OnSpawnEnd] ->
  (nextId (host w) <= lid)%nat ->
  (lid < nextId (host w'))%nat ->
  jumpPromises (host w') = jumpPromises (host w) ->
  isJumping (this w') = isJumping (this w) ->
  one_jump_inv w -> one_jump_inv w'.
Proof.
  intros Hl Hlo Hhi Hp Hj (Hfresh & Hlen & Hidle & Hcount & Hprom).
  split; [exact (fresh_listeners_add _ w w' Hl Hlo Hhi Hfresh) |].
  rewrite Hp, Hj, Hl. split; [exact Hlen |]. split; [exact Hidle |]. split.
  - rewrite filter_app. cbn [filter is_jump el_kind]. rewrite app_nil_r.
    exact Hcount.
  - intros l q Hin. apply in_app_or in Hin as [Hin | [<- | []]];
      [apply Hprom, Hin | discriminate].
Qed.

(** The mouse handler starts a jump. *)
Lemma one_jump_inv_start (lid p : nat) (d : Z) (first : bool)
  (w w' : World) :
  isJumping (this w) = false ->
  listeners_of w'
  = listeners_of w ++ [mkElementListener lid (OnJumpEnd d first p)] ->
  jumpPromises (host w')
  = map (mark_then p) (jumpPromises (host w)) ++ [mkJumpPromise p true] ->
  isJumping (this w') = true ->
  (nextId (host w) <= lid)%nat ->
  (lid < nextId (host w'))%nat ->
  one_jump_inv w -> one_jump_inv w'.
Proof.
  intros Hidle Hl Hp Hj Hlo Hhi (Hfresh & Hlen & Hnone & Hcount & Hprom).
  split; [exact (fresh_listeners_add _ w w' Hl Hlo Hhi Hfresh) |].
  rewrite (Hnone Hidle) in Hp, Hcount. cbn [map app] in Hp.
  rewrite Hp, Hj, Hl. split; [cbn; lia |]. split; [discriminate |].
  pose proof (filter_nil_length is_jump _ Hcount) as Hnojump. split.
  - rewrite filter_app, (filter_none _ _ Hnojump). cbn. lia.
  - intros l q Hin [<- | []] Hjump.
    apply in_app_or in Hin as [Hin | [<- | []]].
    + rewrite (Hnojump l Hin) in Hjump. discriminate.
    + cbn. eauto.
Qed.

(** The listener of the jump in flight runs. *)
Lemma one_jump_inv_end (self p : nat) (d : Z) (first : bool)
  (w w' : World) :
  In (mkElementListener self (OnJumpEnd d first p)) (listeners_of w) ->
  listeners_of w'
  = filter (fun l => negb (Nat.eqb (el_id l) self)) (listeners_of w) ->
  jumpPromises (host w')
  = filter (fun q => negb (Nat.eqb (p_id q) p)) (jumpPromises (host w)) ->
  (nextId (host w) <= nextId (host w'))%nat ->
  one_jump_inv w -> one_jump_inv w'.
Proof.
  intros Hin Hl Hp Hn (Hfresh & Hlen & Hnone & Hcount & Hprom).
  split; [exact (fresh_listeners_filter _ w w' (or_intror Hl) Hn Hfresh) |].
  set (l0 := mkElementListener self (OnJumpEnd d first p)) in *.
  assert (Hin' : In l0 (filter is_jump (listeners_of w)))
    by (apply filter_In; split; [exact Hin | reflexivity]).
  destruct (jumpPromises (host w)) as [| q [| q' r]] eqn:Hq;
    [destruct (filter is_jump (listeners_of w)); [destruct Hin' | cbn in Hcount; lia]
    | | cbn in Hlen; lia].
  destruct (Hprom l0 q Hin (or_introl eq_refl) eq_refl) as (d' & f' & E).
  cbn in E. injection E as _ _ Ep. subst p.
  assert (Hp' : jumpPromises (host w') = []).
  { rewrite Hp. cbn. rewrite Nat.eqb_refl. reflexivity. }
  rewrite Hp'. split; [cbn; lia |]. split; [reflexivity |]. split.
  - rewrite Hl. rewrite filter_none; [cbn; lia |].
    intros l Hl'. apply filter_In in Hl' as [Hl' Hid].
    destruct (is_jump l) eqn:Hj; [| reflexivity].
    cbn [List.length] in Hcount.
    rewrite <- (filter_one is_jump _ l0 l Hcount Hin eq_refl Hl' Hj) in Hid.
    cbn in Hid. rewrite Nat.eqb_refl in Hid. discriminate.
  - intros l q' _ [].
Qed.

Lemma one_jump_inv_mouseHandler (thr : Q) (e : MouseEvent) (env : Ambient)
  (w : World) :
  one_jump_inv w -> one_jump_inv (run_mouseHandler cfg M thr e env w).
Proof.
  intro H.
  destruct (run_mouseHandler_summary cfg M thr e env w)
    as ((_ & _ & Hn) & _ & _ & Hcases).
  destruct Hcases
    as [(_ & Hj & Hl & Hp) | (Hidle & [(_ & Hl & Hp) | Hstart])].
  - apply (one_jump_inv_filter (fun _ => true) w); auto.
  - apply (one_jump_inv_idle w); auto.
  - destruct Hstart as (p & lid & d & Hl & Hp & Hj & _ & Hlo & Hhi).
    exact (one_jump_inv_start lid p d _ w _ Hidle Hl Hp Hj Hlo Hhi H).
Qed.

Lemma NoDup_map_inj {A B : Type} (f : A -> B) (l : list A) (a b : A) :
  NoDup (map f l) -> In a l -> In b l -> f a = f b -> a = b.
Proof.
  induction l as [| c l IH]; [intros _ []|].
  cbn [map]. intros Hnd Ha Hb E. apply NoDup_cons_iff in Hnd as [Hc Hnd].
  destruct Ha as [-> | Ha], Hb as [-> | Hb].
  - reflexivity.
  - destruct Hc. rewrite E. apply in_map, Hb.
  - destruct Hc. rewrite <- E. apply in_map, Ha.
  - exact (IH Hnd Ha Hb E).
Qed.

(** A listener of the element, run at its turn in a dispatch to the
    listeners [ls], keeps the invariant; the listeners on the element
    remain among [ls]. *)
Lemma one_jump_inv_elementListener (ls : list ElementListener)
  (l : ElementListener) (name : string) (w : World) :
  NoDup (map el_id ls) ->
  In l ls ->
  still_listening (el_id l) w = true ->
  one_jump_inv w /\ incl (listeners_of w) ls ->
  one_jump_inv (run_elementListener cfg l name w)
  /\ incl (listeners_of (run_elementListener cfg l name w)) ls.
Proof.
  intros Hnd Hin Hstill (H & Hincl).
  assert (Hl : In l (listeners_of w)).
  { unfold still_listening in Hstill. unfold listeners_of in *.
    destruct (element (this w)) as [el |]; [| discriminate].
    apply existsb_exists in Hstill as (l' & Hl' & E).
    apply Nat.eqb_eq in E.
    rewrite (NoDup_map_inj el_id ls l l' Hnd Hin (Hincl l' Hl') (eq_sym E)).
    exact Hl'. }
  assert (Hsub : forall w',
             listeners_of w' = listeners_of w
             \/ listeners_of w'
                = filter (fun l' => negb (Nat.eqb (el_id l') (el_id l)))
                         (listeners_of w) ->
             incl (listeners_of w') ls).
  { intros w' [-> | ->]; [exact Hincl |].
    intros l' Hl'. apply filter_In in Hl' as [Hl' _]. apply Hincl, Hl'. }
  unfold run_elementListener.
  destruct l as [self [| d first p]]; cbn [el_kind el_id] in *.
  - destruct (String.eqb_spec name "rabbit-spawn-drop") as [-> | Hne].
    + destruct (onSpawnEnd_summary cfg self w)
        as ((_ & _ & Hn) & _ & _ & _ & Hj & Hp & Hl').
      split; [| apply Hsub; right; exact Hl'].
      exact (one_jump_inv_filter _ w _ (or_intror Hl') Hp Hj Hn H).
    + rewrite onSpawnEnd_other by exact Hne. auto.
  - destruct (String.eqb_spec name "rabbit-jump-sprite") as [-> | Hne].
    + destruct (onJumpEnd_summary cfg self d first p w)
        as ((_ & _ & Hn) & _ & _ & _ & _ & _ & Hp & Hl').
      split; [| apply Hsub; right; exact Hl'].
      exact (one_jump_inv_end self p d first w _ Hl Hl' Hp Hn H).
    + rewrite onJumpEnd_other by exact Hne. auto.
Qed.

(** A step that is not a direct call of [jump] keeps the invariant. *)
Lemma one_jump_inv_step (a : Action) (w : World) :
  is_direct_jump a = false ->
  one_jump_inv w -> one_jump_inv (step cfg M a w).
Proof.
  intros Ha H. destruct a as [c | ev]; cbn [step].
  - destruct c; try discriminate Ha; cbn [invoke].
    + destruct (spawn_summary createElement w)
        as ((_ & Hj & Hp) & _ & _ & _ & Hn & _ & Hl).
      apply (one_jump_inv_filter (fun _ => true) w); auto; [| lia].
      left. rewrite Hl. destruct (spawned w) eqn:E; [reflexivity |].
      rewrite (listeners_of_unspawned w E). reflexivity.
    + exact (one_jump_inv_calm _ _
               (inert_calm _ _ (inert_setPosition x' y' w)) H).
    + destruct (spawnAndDrop_summary x' y' w)
        as ((_ & Hj & Hp) & _ & _ & _ & lid & Hl & Hlo & Hhi).
      apply (one_jump_inv_spawn_listener lid w); auto.
      rewrite Hl. destruct (spawned w) eqn:E; [reflexivity |].
      rewrite (listeners_of_unspawned w E). reflexivity.
    + exact (one_jump_inv_calm _ _
               (inert_calm _ _ (inert_updateGlow cfg M d w)) H).
    + exact (one_jump_inv_calm _ _
               (inert_calm _ _
                  (inert_updateGlowFromStoredPosition cfg M rc w)) H).
    + exact (one_jump_inv_calm _ _
               (inert_calm _ _ (inert_startGlowAnimation w)) H).
    + exact (one_jump_inv_calm _ _
               (inert_calm _ _ (inert_stopGlowAnimation w)) H).
    + exact (one_jump_inv_calm _ _
               (enableMouseReaction_summary cfg threshold w) H).
    + exact (one_jump_inv_calm _ _ (disableMouseReaction_summary w) H).
    + destruct (destroy_summary w) as ((_ & Hj & Hp) & _ & _ & Hn & Hcases).
      destruct (isDestroyed (this w)).
      * destruct Hcases as (_ & Hl).
        apply (one_jump_inv_filter (fun _ => true) w); auto.
      * apply (one_jump_inv_filter (fun _ => false) w); auto.
        right. rewrite (listeners_of_none _ Hcases).
        induction (listeners_of w); [reflexivity | assumption].
  - revert ev w H Ha.
    intros ev w H _. revert ev w H.
    apply (handle_preserves cfg M one_jump_inv one_jump_inv_calm).
    + exact one_jump_inv_mouseHandler.
    + intros e env w H.
      destruct (run_clickHandler_summary cfg M e env w)
        as ((_ & _ & Hn) & (_ & Hj & Hl & Hp) & _).
      apply (one_jump_inv_filter (fun _ => true) w); auto.
    + intros name w H. cbn [handle].
      destruct (element (this w)) as [el |] eqn:Hel; [| exact H].
      assert (Hls : listeners_of w = listeners el)
        by (unfold listeners_of; rewrite Hel; reflexivity).
      apply (dispatch_element_preserves cfg
               (fun w' => one_jump_inv w' /\ incl (listeners_of w')
                                                 (listeners el))).
      * intros l w' Hin Hstill. apply one_jump_inv_elementListener; auto.
        destruct H as ((Hnd & _) & _). rewrite Hls in Hnd. exact Hnd.
      * split; [exact H |]. rewrite Hls. apply incl_refl.
Qed.

Lemma one_jump_inv_run (tr : list Action) (w : World) :
  Forall (fun a => is_direct_jump a = false) tr ->
  one_jump_inv w -> one_jump_inv (run cfg M tr w).
Proof.
  revert w. induction tr as [| a tr IH]; intros w Htr H; [exact H |].
  inversion Htr as [| a' tr' Ha Htr' E]; subst.
  cbn [run fold_left]. apply IH; [exact Htr' |].
  apply one_jump_inv_step; assumption.
Qed.

Lemma one_jump_inv_initial (options : Options) (W H : Q) :
  one_jump_inv (initial_world cfg options W H).
Proof.
  unfold one_jump_inv, fresh_listeners. cbn.
  repeat split; try constructor; try lia; intros l [].
Qed.

(** While the jumping flag is set, the mouse handler leaves the jumps
    alone. *)
Lemma run_mouseHandler_blocked (thr : Q) (e : MouseEvent) (env : Ambient)
  (w : World) :
  isJumping (this w) = true ->
  settled w (run_mouseHandler cfg M thr e env w).
Proof.
  intro H.
  destruct (run_mouseHandler_summary cfg M thr e env w)
    as (_ & _ & _ & [S | (Hidle & _)]); [exact S | congruence].
Qed.

(** While the jumping flag is set, a pointer move leaves the jumps
    alone, whatever listeners [document] has. *)
Lemma mousemove_blocked (e : MouseEvent) (env : Ambient) (w : World) :
  isJumping (this w) = true ->
  settled w (handle cfg M (MouseMove e env) w).
Proof.
  intro H. cbn [handle].
  assert (Hgoal : settled w
                    (dispatch_document cfg M "mousemove"
                       (documentListeners (host w)) e env w)
                  /\ isJumping
                       (this (dispatch_document cfg M "mousemove"
                                (documentListeners (host w)) e env w))
                     = true).
  { apply (dispatch_document_preserves cfg M
             (fun w' => settled w w' /\ isJumping (this w') = true)).
    - intros w1 w2 (_ & S & _) (S1 & J1).
      split; [exact (settled_trans _ _ _ S1 S) |].
      destruct S as (_ & -> & _). exact J1.
    - intros h w1 (S1 & J1). unfold run_handler. destruct (h_kind h).
      + destruct (inert_earlyMouseHandler e w1) as (_ & S & _).
        split; [exact (settled_trans _ _ _ S1 S) |].
        destruct S as (_ & -> & _). exact J1.
      + pose proof (run_mouseHandler_blocked threshold e env w1 J1) as S.
        split; [exact (settled_trans _ _ _ S1 S) |].
        destruct S as (_ & -> & _). exact J1.
      + destruct (run_clickHandler_summary cfg M e env w1) as (_ & S & _).
        split; [exact (settled_trans _ _ _ S1 S) |].
        destruct S as (_ & -> & _). exact J1.
    - split; [apply inert_refl | exact H]. }
  exact (proj1 Hgoal).
Qed.

End OneJump.

(** Claim C6, as amended.  While the jumping flag is set the mouse
    handler starts no jump: it adds no promise and no listener and leaves the flag set;
    the handler sets the flag before it calls [jump], so the flag is set
    whenever it has started one.  So, from a new actor and through any
    calls and events among which the page does not itself call [jump],
    at most one promise of [jump] is pending and at most one [onJumpEnd]
    listener is registered, the flag is set while a promise is pending,
    and a pointer move delivered while one is pending, as the second of
    two in the same tick would be, adds none. *)
Theorem one_jump_in_flight (cfg : RabbitConfig) (M : JSMath) :
  (forall thr e env w,
     isJumping (this w) = true ->
     let w' := run_mouseHandler cfg M thr e env w in
     jumpPromises (host w') = jumpPromises (host w)
     /\ listeners_of w' = listeners_of w
     /\ isJumping (this w') = true)
  /\ (forall thr e env w,
        let w' := run_mouseHandler cfg M thr e env w in
        jumpPromises (host w') <> jumpPromises (host w) ->
        isJumping (this w) = false /\ isJumping (this w') = true)
  /\ (forall options W H tr,
        Forall (fun a => is_direct_jump a = false) tr ->
        let w := run cfg M tr (initial_world cfg options W H) in
        (List.length (jumpPromises (host w)) <= 1)%nat
        /\ (List.length (filter is_jump (listeners_of w)) <= 1)%nat
        /\ (jumpPromises (host w) <> [] -> isJumping (this w) = true)
        /\ forall e1 env1 e2 env2,
             let w1 := handle cfg M (MouseMove e1 env1) w in
             let w2 := handle cfg M (MouseMove e2 env2) w1 in
             jumpPromises (host w1) <> [] ->
             jumpPromises (host w2) = jumpPromises (host w1)).
Proof.
  split; [| split].
  - intros thr e env w H w'.
    destruct (run_mouseHandler_blocked cfg M thr e env w H)
      as (_ & Hj & Hl & Hp).
    split; [exact Hp |]. split; [exact Hl |]. unfold w'. congruence.
  - intros thr e env w w' Hne.
    destruct (run_mouseHandler_summary cfg M thr e env w)
      as (_ & _ & _ & [(_ & _ & _ & Hp) | (Hidle & [(_ & _ & Hp) | Hstart])]);
      [destruct (Hne Hp) | destruct (Hne Hp) |].
    destruct Hstart as (p & lid & d & _ & _ & Hj & _).
    split; [exact Hidle | exact Hj].
  - intros options W H tr Htr w.
    assert (Hinv : forall tr',
               Forall (fun a => is_direct_jump a = false) tr' ->
               one_jump_inv (run cfg M tr' (initial_world cfg options W H))).
    { intros tr' Htr'. apply one_jump_inv_run; [exact Htr' |].
      apply one_jump_inv_initial. }
    destruct (Hinv tr Htr) as (_ & Hlen & Hidle & Hcount & _).
    fold w in Hlen, Hidle, Hcount.
    split; [exact Hlen |]. split; [lia |]. split.
    + intro Hne. destruct (isJumping (this w)); [reflexivity |].
      destruct (Hne (Hidle eq_refl)).
    + intros e1 env1 e2 env2 w1 w2 Hne.
      assert (H1 : one_jump_inv w1).
      { unfold w1, w.
        change (one_jump_inv
                  (run cfg M [On (MouseMove e1 env1)]
                     (run cfg M tr (initial_world cfg options W H)))).
        unfold run. rewrite <- fold_left_app. apply Hinv.
        apply Forall_app. split; [exact Htr | repeat constructor]. }
      destruct H1 as (_ & _ & Hidle1 & _).
      assert (Hj1 : isJumping (this w1) = true).
      { destruct (isJumping (this w1)); [reflexivity |].
        destruct (Hne (Hidle1 eq_refl)). }
      apply (mousemove_blocked cfg M e2 env2 w1 Hj1).
Qed.

(** [one_jump_in_flight] for the page of [main.js] and two pointer moves
    next to the idle actor. *)
Lemma one_jump_in_flight_witness :
  (List.length
     (jumpPromises
        (host
           (run exampleConfig exampleMath
              [Do (CallSpawnAndDrop 100 0); Do (CallEnableMouseReaction None);
               On (AnimationEnd "rabbit-spawn-drop");
               On (MouseMove (mkMouseEvent 164 800)
                     (mkAmbient (mkRect 100 128 800) 0));
               On (MouseMove (mkMouseEvent 165 800)
                     (mkAmbient (mkRect 100 128 800) 0))]
              (initial_world exampleConfig no_options 1000 800))))
   <= 1)%nat.
Proof.
  refine (proj1 (proj2 (proj2 (one_jump_in_flight exampleConfig exampleMath))
                   no_options 1000 800 _ _)).
  repeat constructor.
Defined.

(** ** The permanent glow *)

Section PermanentGlow.

Variable cfg : RabbitConfig.
Variable M : JSMath.

Lemma plain_trans (w1 w2 w3 : World) :
  plain w1 w2 -> plain w2 w3 -> plain w1 w3.
Proof. unfold plain. intuition congruence. Qed.

Lemma inert_plain (w w' : World) : inert w w' -> plain w w'.
Proof.
  intros ((_ & Hs & _) & _ & (Hb & _) & Hw). exact (conj Hs (conj Hw Hb)).
Qed.

Lemma plain_elementListener (l : ElementListener) (name : string)
  (w : World) :
  plain w (run_elementListener cfg l name w).
Proof.
  unfold run_elementListener. destruct (el_kind l) as [| d first p].
  - destruct (String.eqb_spec name "rabbit-spawn-drop") as [-> | Hne].
    + destruct (onSpawnEnd_summary cfg (el_id l) w)
        as ((_ & Hs & _) & (Hb & _) & Hw & _).
      exact (conj Hs (conj Hw Hb)).
    + rewrite onSpawnEnd_other by exact Hne. apply inert_plain, inert_refl.
  - destruct (String.eqb_spec name "rabbit-jump-sprite") as [-> | Hne].
    + destruct (onJumpEnd_summary cfg (el_id l) d first p w)
        as ((_ & Hs & _) & Hw & Hb & _).
      exact (conj Hs (conj Hw Hb)).
    + rewrite onJumpEnd_other by exact Hne. apply inert_plain, inert_refl.
Qed.

(** The events that are neither from the pointer nor the end of an
    animation. *)
Lemma plain_handle_timers (ev : Event) (w : World) :
  match ev with
  | TimeoutFires _ | AnimationFrame _ | Resize _ _ => True
  | _ => False
  end ->
  plain w (handle cfg M ev w).
Proof.
  destruct ev as [e env | e env | name | id | env | W H]; intros []; cbn [handle].
  - destruct (find (fun t => Nat.eqb (t_id t) id) (pendingTimeouts (host w)))
      as [t |]; [| apply inert_plain, inert_refl].
    apply inert_plain.
    exact (inert_trans _ _ _ (inert_clearTimeout id w)
             (inert_run_timeout t _)).
  - assert (Hc : plain w (on_host (set_animationFrameRequests []) w)).
    { destruct_world w. unfold plain. fields. }
    revert Hc. generalize (on_host (set_animationFrameRequests []) w).
    induction (animationFrameRequests (host w)) as [| id ids IH];
      intros w1 H1; [exact H1 |].
    cbn [fold_left]. apply IH.
    exact (plain_trans _ _ _ H1 (inert_plain _ _ (inert_animate cfg M _ w1))).
  - apply inert_plain, inert_resize.
Qed.

Lemma plain_animationend (name : string) (w : World) :
  plain w (handle cfg M (AnimationEnd name) w).
Proof.
  cbn [handle].
  destruct (element (this w)) as [el |]; [| apply inert_plain, inert_refl].
  apply (dispatch_element_preserves cfg (plain w));
    [| apply inert_plain, inert_refl].
  intros l w1 _ _ H1.
  exact (plain_trans _ _ _ H1 (plain_elementListener l name w1)).
Qed.

Lemma same_listener_refl (event : string) (h : Handler) (once : bool) :
  same_listener event h (mkDocListener event h once) = true.
Proof.
  unfold same_listener, Handler_same. cbn.
  rewrite String.eqb_refl, Nat.eqb_refl. reflexivity.
Qed.

(** On the wired page a pointer move runs the mouse handler and a click
    runs the click handler. *)
Lemma handle_mousemove_wired (e : MouseEvent) (env : Ambient) (w : World) :
  wired w ->
  exists thr,
    handle cfg M (MouseMove e env) w = run_mouseHandler cfg M thr e env w.
Proof.
  intros (_ & mh & ch & thr & Hdoc). exists thr.
  cbn [handle]. rewrite Hdoc. cbn [dispatch_document l_event l_handler l_once].
  rewrite Hdoc.
  change (String.eqb "mousemove" "mousemove") with true.
  change (String.eqb "click" "mousemove") with false.
  cbn [andb existsb]. rewrite same_listener_refl.
  cbn [orb]. reflexivity.
Qed.

Lemma handle_click_wired (e : MouseEvent) (env : Ambient) (w : World) :
  wired w ->
  handle cfg M (Click e env) w = on_this (run_clickHandler cfg M e env) w.
Proof.
  intros (_ & mh & ch & thr & Hdoc).
  cbn [handle]. rewrite Hdoc. cbn [dispatch_document l_event l_handler l_once].
  rewrite Hdoc.
  change (String.eqb "mousemove" "click") with false.
  change (String.eqb "click" "click") with true.
  cbn [andb]. rewrite ?Hdoc. cbn [existsb].
  rewrite same_listener_refl, orb_true_r. reflexivity.
Qed.

Lemma qualifying_distance (e : MouseEvent) (env : Ambient) (w : World) :
  spawned w = true ->
  Dist_lt (distance (getDistanceToBottomCenter M (rect env) (clientX e)
                       (clientY e) (this w))) (clickRadius cfg)
  = qualifying cfg M (Click e env).
Proof.
  unfold spawned, getDistanceToBottomCenter.
  destruct (element (this w)); [reflexivity | discriminate].
Qed.

(** An event on the wired page: the page stays wired, and the permanent
    glow changes exactly when the event is a qualifying click. *)
Lemma handle_wired (ev : Event) (w : World) :
  wired w ->
  let w' := handle cfg M ev w in
  wired w'
  /\ permanentGlowBonus (this w')
     = if qualifying cfg M ev
       then Qmin (permanentGlowBonus (this w) + glowBoostPerClick cfg)
                 (maxPermanentGlow cfg)
       else permanentGlowBonus (this w).
Proof.
  intros Hw w'.
  assert (Hplain : plain w w' -> qualifying cfg M ev = false ->
                   wired w'
                   /\ permanentGlowBonus (this w')
                      = if qualifying cfg M ev
                        then Qmin (permanentGlowBonus (this w)
                                   + glowBoostPerClick cfg)
                                  (maxPermanentGlow cfg)
                        else permanentGlowBonus (this w)).
  { intros (Hs & Hd & Hb) ->. split; [| exact Hb].
    destruct Hw as (Hsp & Hdoc). unfold wired. rewrite Hs, Hd. auto. }
  destruct ev as [e env | e env | name | id | env | W H].
  - apply Hplain; [| reflexivity].
    destruct (handle_mousemove_wired e env w Hw) as (thr & E).
    unfold w'. rewrite E.
    destruct (run_mouseHandler_summary cfg M thr e env w)
      as ((_ & Hs & _) & (Hb & _) & Hd & _).
    exact (conj Hs (conj Hd Hb)).
  - unfold w'. rewrite (handle_click_wired e env w Hw).
    destruct (run_clickHandler_summary cfg M e env w)
      as ((_ & Hs & _) & _ & Hd & _ & Hb).
    rewrite (qualifying_distance e env w (proj1 Hw)) in Hb.
    split; [| exact Hb].
    destruct Hw as (Hsp & Hdoc). unfold wired. rewrite Hs, Hd. auto.
  - apply Hplain; [apply plain_animationend | reflexivity].
  - apply Hplain; [apply plain_handle_timers; exact I | reflexivity].
  - apply Hplain; [apply plain_handle_timers; exact I | reflexivity].
  - apply Hplain; [apply plain_handle_timers; exact I | reflexivity].
Qed.

Lemma wired_start (options : Options) (W H x0 y0 : Q)
  (threshold : option Q) :
  let w0 :=
    enableMouseReaction cfg threshold
      (spawnAndDrop x0 y0 (initial_world cfg options W H)) in
  wired w0 /\ permanentGlowBonus (this w0) = 0.
Proof.
  vm_compute. split; [split |].
  - reflexivity.
  - do 3 eexists. reflexivity.
  - reflexivity.
Qed.

Lemma clamp_bounds (b s m : Q) :
  0 <= s -> 0 <= m -> 0 <= b -> b <= m ->
  b <= Qmin (b + s) m /\ 0 <= Qmin (b + s) m /\ Qmin (b + s) m <= m.
Proof.
  intros Hs Hm Hb Hbm. split; [apply Q.min_glb; lra |].
  split; [apply Q.min_glb; lra | apply Q.le_min_r].
Qed.

(** Five boosts of [0.2] reach the maximum [1.0] from any permanent
    glow. *)
Lemma clamp_five (b s m : Q) :
  s == 2 # 10 -> m == 1 -> 0 <= b ->
  Qmin (Qmin (Qmin (Qmin (Qmin (b + s) m + s) m + s) m + s) m + s) m == 1.
Proof.
  intros Hs Hm Hb. apply Qle_antisym.
  - apply Qle_trans with m; [apply Q.le_min_r | lra].
  - assert (H1 : 2 # 10 <= Qmin (b + s) m) by (apply Q.min_glb; lra).
    assert (H2 : 4 # 10 <= Qmin (Qmin (b + s) m + s) m)
      by (apply Q.min_glb; lra).
    assert (H3 : 6 # 10 <= Qmin (Qmin (Qmin (b + s) m + s) m + s) m)
      by (apply Q.min_glb; lra).
    assert (H4 : 8 # 10
                 <= Qmin (Qmin (Qmin (Qmin (b + s) m + s) m + s) m + s) m)
      by (apply Q.min_glb; lra).
    apply Q.min_glb; lra.
Qed.

Lemma wired_run (evs : list Event) (w : World) :
  0 <= glowBoostPerClick cfg -> 0 <= maxPermanentGlow cfg ->
  wired w ->
  0 <= permanentGlowBonus (this w) ->
  permanentGlowBonus (this w) <= maxPermanentGlow cfg ->
  let w' := run cfg M (map On evs) w in
  wired w'
  /\ 0 <= permanentGlowBonus (this w')
  /\ permanentGlowBonus (this w') <= maxPermanentGlow cfg.
Proof.
  intros Hs Hm. revert w.
  induction evs as [| ev evs IH]; intros w Hw Hlo Hhi; [cbn; auto |].
  cbn [map run fold_left step]. apply IH.
  - apply (handle_wired ev w Hw).
  - destruct (handle_wired ev w Hw) as (_ & ->).
    destruct (qualifying cfg M ev); [| exact Hlo].
    apply (clamp_bounds _ _ _ Hs Hm Hlo Hhi).
  - destruct (handle_wired ev w Hw) as (_ & ->).
    destruct (qualifying cfg M ev); [| exact Hhi].
    apply (clamp_bounds _ _ _ Hs Hm Hlo Hhi).
Qed.

End PermanentGlow.

(** Claim C3.  After [enableMouseReaction] on the spawned actor, and
    through any sequence of events, the permanent glow starts at [0],
    stays between [0] and [maxPermanentGlow] and never decreases; an
    event changes it only if it is a click at a distance below
    [clickRadius] of the rendered bottom centre, and such a click adds
    [glowBoostPerClick], clamped at the maximum.  With a boost of [0.2]
    and a maximum of [1.0], five such clicks in a row leave it at
    [1.0]. *)
Theorem permanentGlowBonus_bounded (cfg : RabbitConfig) (M : JSMath)
  (boost_nonneg : 0 <= glowBoostPerClick cfg)
  (max_nonneg : 0 <= maxPermanentGlow cfg)
  (options : Options) (W H x0 y0 : Q) (threshold : option Q) :
  let w0 :=
    enableMouseReaction cfg threshold
      (spawnAndDrop x0 y0 (initial_world cfg options W H)) in
  permanentGlowBonus (this w0) = 0
  /\ forall evs : list Event,
       let w := run cfg M (map On evs) w0 in
       let bonus w := permanentGlowBonus (this w) in
       0 <= bonus w
       /\ bonus w <= maxPermanentGlow cfg
       /\ (forall ev,
             bonus w <= bonus (handle cfg M ev w)
             /\ (qualifying cfg M ev = true ->
                 bonus (handle cfg M ev w)
                 = Qmin (bonus w + glowBoostPerClick cfg)
                        (maxPermanentGlow cfg))
             /\ (qualifying cfg M ev = false ->
                 bonus (handle cfg M ev w) = bonus w))
       /\ (glowBoostPerClick cfg == 2 # 10 ->
           maxPermanentGlow cfg == 1 ->
           forall c1 c2 c3 c4 c5,
             Forall (fun c => qualifying cfg M c = true) [c1; c2; c3; c4; c5] ->
             bonus (run cfg M (map On [c1; c2; c3; c4; c5]) w) == 1).
Proof.
  intro w0.
  destruct (wired_start cfg options W H x0 y0 threshold) as (Hw0 & Hb0).
  fold w0 in Hw0, Hb0. split; [exact Hb0 |].
  intros evs w bonus.
  assert (H00 : 0 <= permanentGlowBonus (this w0)) by (rewrite Hb0; lra).
  assert (H0m : permanentGlowBonus (this w0) <= maxPermanentGlow cfg)
    by (rewrite Hb0; exact max_nonneg).
  destruct (wired_run cfg M evs w0 boost_nonneg max_nonneg Hw0 H00 H0m)
    as (Hw & Hlo & Hhi).
  fold w in Hw, Hlo, Hhi. unfold bonus.
  split; [exact Hlo |]. split; [exact Hhi |]. split.
  - intro ev. destruct (handle_wired cfg M ev w Hw) as (_ & E).
    rewrite E. destruct (qualifying cfg M ev).
    + split; [apply (clamp_bounds _ _ _ boost_nonneg max_nonneg Hlo Hhi) |].
      split; [reflexivity | discriminate].
    + split; [apply Qle_refl |]. split; [discriminate | reflexivity].
  - intros Hs Hm c1 c2 c3 c4 c5 Hq.
    inversion Hq as [| ? ? Q1 Hq1]; subst.
    inversion Hq1 as [| ? ? Q2 Hq2]; subst.
    inversion Hq2 as [| ? ? Q3 Hq3]; subst.
    inversion Hq3 as [| ? ? Q4 Hq4]; subst.
    inversion Hq4 as [| ? ? Q5 _]; subst.
    cbn [map run fold_left step].
    destruct (handle_wired cfg M c1 w Hw) as (Hw1 & E1).
    destruct (handle_wired cfg M c2 _ Hw1) as (Hw2 & E2).
    destruct (handle_wired cfg M c3 _ Hw2) as (Hw3 & E3).
    destruct (handle_wired cfg M c4 _ Hw3) as (Hw4 & E4).
    destruct (handle_wired cfg M c5 _ Hw4) as (_ & E5).
    rewrite Q1 in E1. rewrite Q2 in E2. rewrite Q3 in E3.
    rewrite Q4 in E4. rewrite Q5 in E5.
    rewrite E5, E4, E3, E2, E1.
    apply clamp_five; assumption.
Qed.

(** A click at the bottom centre of the rendered element qualifies, for
    a positive radius. *)
Lemma click_at_bottom_center_qualifies (cfg : RabbitConfig) (M : JSMath)
  (rc : Rect) (rnd : Q) :
  JSMath_ok M -> 0 < clickRadius cfg ->
  qualifying cfg M
    (Click (mkMouseEvent (rect_left rc + rect_width rc / 2) (rect_bottom rc))
       (mkAmbient rc rnd))
  = true.
Proof.
  intros M_ok Hr. cbn. apply Qlt_bool_iff.
  rewrite (Math_sqrt_compat M M_ok _ 0) by ring.
  rewrite (Math_sqrt_0 M M_ok). exact Hr.
Qed.

(** [permanentGlowBonus_bounded] for the page of [main.js]: once the
    drop has ended, five clicks at the bottom centre of the actor, with
    a radius of 50, a boost of [0.2] and a maximum of [1.0]. *)
Lemma permanentGlowBonus_bounded_witness :
  let click :=
    Click (mkMouseEvent 164 800) (mkAmbient (mkRect 100 128 800) 0) in
  permanentGlowBonus
    (this
       (run exampleConfig exampleMath
          (map On [click; click; click; click; click])
          (run exampleConfig exampleMath
             (map On [AnimationEnd "rabbit-spawn-drop"])
             (enableMouseReaction exampleConfig None
                (spawnAndDrop 100 0
                   (initial_world exampleConfig no_options 1000 800))))))
  == 1.
Proof.
  intro click.
  assert (boost : 0 <= glowBoostPerClick exampleConfig)
    by (vm_compute; discriminate).
  assert (top : 0 <= maxPermanentGlow exampleConfig)
    by (vm_compute; discriminate).
  assert (step : glowBoostPerClick exampleConfig == 2 # 10)
    by (vm_compute; reflexivity).
  assert (full : maxPermanentGlow exampleConfig == 1)
    by (vm_compute; reflexivity).
  assert (near : qualifying exampleConfig exampleMath click = true)
    by (vm_compute; reflexivity).
  exact (proj2 (proj2 (proj2
           (proj2 (permanentGlowBonus_bounded exampleConfig exampleMath
                     boost top no_options 1000 800 100 0 None)
              [AnimationEnd "rabbit-spawn-drop"])))
           step full click click click click click
           (Forall_cons _ near (Forall_cons _ near (Forall_cons _ near
              (Forall_cons _ near (Forall_cons _ near (Forall_nil _))))))).
Defined.

(** ** Invariants of the actor's life *)

Section Invariance.

Variable cfg : RabbitConfig.
Variable M : JSMath.
Variable P : World -> Prop.
Hypothesis by_events : kept_by_events cfg M P.

Lemma run_mouseHandler_keeps (thr : Q) (e : MouseEvent) (env : Ambient)
  (w : World) :
  P w -> P (run_mouseHandler cfg M thr e env w).
Proof.
  intro Hw. unfold run_mouseHandler. cbv zeta.
  set (w1 := on_this (run_earlyMouseHandler e) w).
  assert (H1 : P w1) by apply (by_earlyMouseHandler _ _ _ by_events), Hw.
  set (d := distance (getDistanceToBottomCenter M (rect env) (clientX e)
                        (clientY e) (this w1))).
  set (w2 := match glowAnimationId (this w1) with
             | Some _ => w1
             | None => on_this (updateGlow cfg M d) w1
             end).
  assert (H2 : P w2).
  { unfold w2. destruct (glowAnimationId (this w1)); [exact H1 |].
    apply (by_updateGlow _ _ _ by_events), H1. }
  destruct (isSpawning (this w2) || isJumping (this w2)
            || jumpCooldown (this w2)); [exact H2 |].
  destruct (Dist_lt d thr); [| exact H2].
  pose proof (by_jump _ _ _ by_events (random env) _
                (by_set_isJumping _ _ _ by_events true _ H2)) as H3.
  destruct (jump cfg (random env) (on_this (set_isJumping true) w2))
    as [w4 res].
  apply (by_then _ _ _ by_events), H3.
Qed.

Lemma run_handler_keeps (h : Handler) (e : MouseEvent) (env : Ambient)
  (w : World) :
  P w -> P (run_handler cfg M h e env w).
Proof.
  intro Hw. unfold run_handler. destruct (h_kind h).
  - apply (by_earlyMouseHandler _ _ _ by_events), Hw.
  - apply run_mouseHandler_keeps, Hw.
  - apply (by_clickHandler _ _ _ by_events), Hw.
Qed.

Lemma run_elementListener_keeps (l : ElementListener) (name : string)
  (w : World) :
  P w -> P (run_elementListener cfg l name w).
Proof.
  intro Hw. unfold run_elementListener. destruct (el_kind l) as [| d first p].
  - destruct (String.eqb_spec name "rabbit-spawn-drop") as [-> | Hne].
    + apply (by_onSpawnEnd _ _ _ by_events), Hw.
    + rewrite onSpawnEnd_other by exact Hne. exact Hw.
  - destruct (String.eqb_spec name "rabbit-jump-sprite") as [-> | Hne].
    + apply (by_onJumpEnd _ _ _ by_events), Hw.
    + rewrite onJumpEnd_other by exact Hne. exact Hw.
Qed.

Lemma dispatch_element_keeps (ls : list ElementListener) (name : string)
  (w : World) :
  P w -> P (dispatch_element cfg ls name w).
Proof.
  revert w. induction ls as [| l ls IH]; intros w Hw; [exact Hw |].
  cbn [dispatch_element]. apply IH.
  destruct (still_listening (el_id l) w); [| exact Hw].
  apply run_elementListener_keeps, Hw.
Qed.

Hypothesis by_once :
  forall event h w,
    P w -> P (on_host (document_removeEventListener event h) w).

Lemma dispatch_document_keeps (event : string) (ls : list DocListener)
  (e : MouseEvent) (env : Ambient) (w : World) :
  P w -> P (dispatch_document cfg M event ls e env w).
Proof.
  revert w. induction ls as [| l ls IH]; intros w Hw; [exact Hw |].
  cbn [dispatch_document]. apply IH.
  destruct (String.eqb (l_event l) event
            && existsb (same_listener event (l_handler l))
                 (documentListeners (host w))); [| exact Hw].
  apply run_handler_keeps. destruct (l_once l); [| exact Hw].
  apply by_once, Hw.
Qed.

(** Every event keeps a property that the closures keep. *)
Lemma handle_keeps (ev : Event) (w : World) : P w -> P (handle cfg M ev w).
Proof.
  intro Hw. destruct ev as [e env | e env | name | id | env | W H].
  - apply dispatch_document_keeps, Hw.
  - apply dispatch_document_keeps, Hw.
  - cbn [handle]. destruct (element (this w)); [| exact Hw].
    apply dispatch_element_keeps, Hw.
  - apply (by_timeout _ _ _ by_events), Hw.
  - apply (by_frame _ _ _ by_events), Hw.
  - apply (by_resize _ _ _ by_events), Hw.
Qed.

Lemma events_keep (evs : list Event) (w : World) :
  P w -> P (run cfg M (map On evs) w).
Proof.
  revert w. induction evs as [| ev evs IH]; intros w Hw; [exact Hw |].
  cbn [map run fold_left step]. apply IH, handle_keeps, Hw.
Qed.

Hypothesis by_calls : kept_by_calls cfg P.

Lemma invoke_keeps (c : Call) (w : World) : P w -> P (invoke cfg M c w).
Proof.
  intro Hw. destruct c; cbn [invoke].
  - apply (by_spawn _ _ by_calls), Hw.
  - apply (by_setPosition _ _ by_calls), Hw.
  - apply (by_spawnAndDrop _ _ by_calls), Hw.
  - apply (by_jump _ _ _ by_events), Hw.
  - apply (by_updateGlow _ _ _ by_events), Hw.
  - unfold on_this, updateGlowFromStoredPosition.
    destruct (lastMouseX (this w)) as [mx |], (lastMouseY (this w)) as [my |];
      try (destruct w; exact Hw).
    apply (by_updateGlow _ _ _ by_events _ w), Hw.
  - apply (by_startGlowAnimation _ _ by_calls), Hw.
  - apply (by_stopGlowAnimation _ _ by_calls), Hw.
  - apply (by_enableMouseReaction _ _ by_calls), Hw.
  - apply (by_disableMouseReaction _ _ by_calls), Hw.
  - unfold destroy. apply (by_Sprite_destroy _ _ by_calls).
    apply (by_disableMouseReaction _ _ by_calls), Hw.
Qed.

(** Every step keeps a property that the closures and the methods
    keep. *)
Lemma step_keeps (a : Action) (w : World) : P w -> P (step cfg M a w).
Proof.
  destruct a as [c | ev]; [apply invoke_keeps | apply handle_keeps].
Qed.

Lemma run_keeps (tr : list Action) (w : World) :
  P w -> P (run cfg M tr w).
Proof.
  revert w. induction tr as [| a tr IH]; intros w Hw; [exact Hw |].
  cbn [run fold_left]. apply IH, step_keeps, Hw.
Qed.

(** So it holds in every world reached from a new actor, if it holds
    for the new actor. *)
Lemma reachable_keeps :
  (forall options W H, P (initial_world cfg options W H)) ->
  forall w, reachable cfg M w -> P w.
Proof.
  intros H0 w (options & W & H & tr & ->). apply run_keeps, H0.
Qed.

End Invariance.

(** ** Case analyses of the methods

    Each tactic takes a goal about a method applied to a world taken
    apart by [destruct_world], splits the cases of the method's tests
    and computes the world it returns. *)

Ltac split_tests :=
  repeat match goal with
         | |- context [existsb ?f ?l] => destruct (existsb f l)
         end.

Ltac cases_updateGlow :=
  let el := ident:(r_element) in destruct el; world_red.

Ltac cases_jump :=
  let el := ident:(r_element) in
  let spawning := ident:(r_isSpawning) in
  let first := ident:(r_isFirstJump) in
  let glow := ident:(r_glowAnimationId) in
  unfold jump;
  destruct el;
  [destruct spawning;
   [| match goal with
      | |- context [chooseDirection ?c ?r ?W ?rb] =>
          let d := fresh "d" in
          destruct (chooseDirection c r W rb) as [d |];
          [destruct first, (d =? -1)%Z, glow |]
      end] |];
  world_red.

Ltac cases_then res :=
  destruct res; unfold then_startCooldown; world_red.

Ltac cases_clickHandler :=
  let el := ident:(r_element) in
  unfold on_this, run_clickHandler; cbn [this host]; cbv zeta;
  match goal with
  | |- context [Dist_lt ?a ?b] => destruct (Dist_lt a b)
  end;
  destruct el; world_red.

Ltac cases_onSpawnEnd :=
  let el := ident:(r_element) in
  let glow := ident:(r_glowAnimationId) in
  unfold onSpawnEnd;
  change (negb ("rabbit-spawn-drop" =? "rabbit-spawn-drop")%string)
    with false;
  cbv iota zeta;
  destruct el, glow;
  world_red.

Ltac cases_onJumpEnd first :=
  let el := ident:(r_element) in
  let glow := ident:(r_glowAnimationId) in
  unfold onJumpEnd;
  change (negb ("rabbit-jump-sprite" =? "rabbit-jump-sprite")%string)
    with false;
  cbv iota zeta; unfold resolve; cbv zeta;
  match goal with
  | |- context [existsb ?f ?l] => destruct (existsb f l)
  end;
  destruct el, first, glow;
  world_red.

Ltac cases_timeout :=
  cbn [handle];
  match goal with
  | |- context [find ?f ?l] =>
      let E := fresh "Hfind" in
      destruct (find f l) as [[fired [] delay] |] eqn:E;
      [apply find_some in E; destruct E as [_ E]; cbn [t_id] in E;
       apply Nat.eqb_eq in E; subst fired
      | clear E]
  end;
  unfold run_timeout; cbn [t_callback t_id]; world_red.

Ltac cases_spawn :=
  let el := ident:(r_element) in
  unfold Sprite.spawn; destruct el; world_red.

Ltac cases_spawnAndDrop :=
  let el := ident:(r_element) in
  let glow := ident:(r_glowAnimationId) in
  unfold spawnAndDrop, Sprite.spawn, document_addEventListener, fresh;
  cbv beta iota zeta;
  destruct el, glow;
  world_red; split_tests; world_red.

Ltac cases_enableMouseReaction :=
  let el := ident:(r_element) in
  let early := ident:(r_earlyMouseHandler) in
  unfold enableMouseReaction, Sprite.addEventListener,
    document_addEventListener, fresh;
  cbv beta iota zeta;
  destruct el, early;
  world_red; split_tests; world_red.

Ltac cases_disableMouseReaction :=
  let glow := ident:(r_glowAnimationId) in
  let early := ident:(r_earlyMouseHandler) in
  let mh := ident:(r_mouseHandler) in
  let ch := ident:(r_clickHandler) in
  unfold disableMouseReaction;
  destruct glow, early, mh, ch;
  world_red.

(** A property that [animate] keeps, and that does not depend on the
    frames requested, survives a frame. *)
Lemma frame_keeps (cfg : RabbitConfig) (M : JSMath) (P : World -> Prop) :
  (forall l w, P w -> P (on_host (set_animationFrameRequests l) w)) ->
  (forall rc w, P w -> P (animate cfg M rc w)) ->
  forall env w, P w -> P (handle cfg M (AnimationFrame env) w).
Proof.
  intros Hset Hanimate env w Hw. cbn [handle].
  generalize (animationFrameRequests (host w)). intro ids.
  pose proof (Hset [] w Hw) as H0. revert H0.
  generalize (on_host (set_animationFrameRequests []) w). clear w Hw.
  induction ids as [| id ids IH]; intros w Hw; [exact Hw |].
  cbn [fold_left]. apply IH, Hanimate, Hw.
Qed.

Section GlowLoop.

Variable cfg : RabbitConfig.
Variable M : JSMath.

Ltac loop_start w H :=
  destruct_world w; unfold glow_loop_ok in H |- *;
  cbn [this host animationFrameRequests glowAnimationId] in H.

Ltac loop_finish :=
  world_red; subst; cbn [filter app]; rewrite ?Nat.eqb_refl;
  cbn [negb filter app];
  try reflexivity; try congruence.


Lemma glow_loop_events : kept_by_events cfg M glow_loop_ok.
Proof.
  constructor.
  - intros e w H. loop_start w H. loop_finish.
  - intros d w H. loop_start w H. cases_updateGlow; loop_finish.
  - intros b w H. loop_start w H. loop_finish.
  - intros rnd w H. loop_start w H. cases_jump; loop_finish.
  - intros res w H. loop_start w H. cases_then res; loop_finish.
  - intros e env w H. loop_start w H. cases_clickHandler; loop_finish.
  - intros self w H. loop_start w H. cases_onSpawnEnd; loop_finish.
  - intros self d first p w H. loop_start w H. cases_onJumpEnd first;
      loop_finish.
  - intros id w H. loop_start w H. cases_timeout; loop_finish.
  - intros env w H. loop_start w H. cbn [handle]. world_red.
    destruct r_glowAnimationId as [id |]; subst; cbn [fold_left];
      [destruct r_lastMouseX, r_lastMouseY, r_element |]; loop_finish.
  - intros W H w Hw. loop_start w Hw. loop_finish.
Qed.

Lemma glow_loop_calls : kept_by_calls cfg glow_loop_ok.
Proof.
  constructor.
  - intros w H. loop_start w H. cases_spawn; loop_finish.
  - intros x' y' w H. loop_start w H. cases_updateGlow; loop_finish.
  - intros x' y' w H. loop_start w H. cases_spawnAndDrop; loop_finish.
  - intros w H. loop_start w H. destruct r_glowAnimationId; loop_finish.
  - intros w H. loop_start w H. destruct r_glowAnimationId; loop_finish.
  - intros thr w H. loop_start w H. cases_enableMouseReaction; loop_finish.
  - intros w H. loop_start w H. cases_disableMouseReaction; loop_finish.
  - intros w H. rewrite Sprite_destroy_unfold.
    destruct (isDestroyed (this w)); [exact H |].
    unfold glow_loop_ok in *. cbn [this host].
    rewrite (fold_host_field animationFrameRequests clearTimeout)
      by reflexivity.
    rewrite (fold_host_field animationFrameRequests
               (fun t => document_removeEventListener (tr_event t)
                           (tr_handler t))) by reflexivity.
    destruct_world w. exact H.
Qed.

Lemma glow_loop_run (tr : list Action) (w : World) :
  glow_loop_ok w -> glow_loop_ok (run cfg M tr w).
Proof.
  apply (run_keeps cfg M glow_loop_ok glow_loop_events); [| apply glow_loop_calls].
  intros event h w' H. loop_start w' H. loop_finish.
Qed.

End GlowLoop.

Section Timers.

Variable cfg : RabbitConfig.
Variable M : JSMath.

Lemma clearTimeout_fold (ids : list nat) (h : Host) :
  pendingTimeouts (fold_left (fun h id => clearTimeout id h) ids h)
  = filter (fun t => negb (existsb (Nat.eqb (t_id t)) ids))
           (pendingTimeouts h).
Proof.
  revert h. induction ids as [| id ids IH]; intro h.
  - cbn. induction (pendingTimeouts h) as [| t l IHl]; [reflexivity |].
    cbn. congruence.
  - cbn [fold_left]. rewrite IH. unfold clearTimeout.
    cbn [pendingTimeouts set_pendingTimeouts].
    induction (pendingTimeouts h) as [| t l IHl]; [reflexivity |].
    cbn [filter existsb].
    destruct (Nat.eqb (t_id t) id); cbn [negb orb filter]; [exact IHl |].
    destruct (existsb (Nat.eqb (t_id t)) ids); cbn [negb]; [exact IHl |].
    rewrite IHl. reflexivity.
Qed.

Lemma filter_own_ids (l : list PendingTimeout) :
  filter (fun t => negb (existsb (Nat.eqb (t_id t)) (map t_id l))) l = [].
Proof.
  assert (H : forall l' : list PendingTimeout,
             (forall t, In t l' -> In t l) ->
             filter (fun t => negb (existsb (Nat.eqb (t_id t)) (map t_id l)))
                    l' = []).
  { induction l' as [| t l' IH]; intro Hsub; [reflexivity |].
    cbn [filter].
    assert (E : existsb (Nat.eqb (t_id t)) (map t_id l) = true).
    { apply existsb_exists. exists (t_id t). split.
      - apply in_map, Hsub. left. reflexivity.
      - apply Nat.eqb_refl. }
    rewrite E. cbn [negb]. apply IH. intros t' Ht'. apply Hsub. right.
    exact Ht'. }
  apply H. auto.
Qed.

Ltac timers_start w H :=
  destruct_world w; unfold timers_ok in H |- *;
  cbn [this host timers pendingTimeouts] in H.

Ltac timers_finish :=
  world_red; subst; rewrite ?map_app; cbn [map t_id];
  try reflexivity; try congruence.

Lemma timers_events : kept_by_events cfg M timers_ok.
Proof.
  constructor.
  - intros e w H. timers_start w H. timers_finish.
  - intros d w H. timers_start w H. cases_updateGlow; timers_finish.
  - intros b w H. timers_start w H. timers_finish.
  - intros rnd w H. timers_start w H. cases_jump; timers_finish.
  - intros res w H. timers_start w H. cases_then res; timers_finish.
  - intros e env w H. timers_start w H. cases_clickHandler; timers_finish.
  - intros self w H. timers_start w H. cases_onSpawnEnd; timers_finish.
  - intros self d first p w H. timers_start w H. cases_onJumpEnd first;
      timers_finish.
  - intros id w H. timers_start w H. cases_timeout; timers_finish.
    apply filter_map_swap. reflexivity.
  - apply frame_keeps.
    + intros l w H. timers_start w H. timers_finish.
    + intros rc w H. timers_start w H.
      destruct r_lastMouseX, r_lastMouseY, r_element; timers_finish.
  - intros W H w Hw. timers_start w Hw. timers_finish.
Qed.

Lemma timers_calls : kept_by_calls cfg timers_ok.
Proof.
  constructor.
  - intros w H. timers_start w H. cases_spawn; timers_finish.
  - intros x' y' w H. timers_start w H. cases_updateGlow; timers_finish.
  - intros x' y' w H. timers_start w H. cases_spawnAndDrop; timers_finish.
  - intros w H. timers_start w H. destruct r_glowAnimationId; timers_finish.
  - intros w H. timers_start w H. destruct r_glowAnimationId; timers_finish.
  - intros thr w H. timers_start w H. cases_enableMouseReaction;
      timers_finish.
  - intros w H. timers_start w H. cases_disableMouseReaction; timers_finish.
  - intros w H. rewrite Sprite_destroy_unfold.
    destruct (isDestroyed (this w)); [exact H |].
    unfold timers_ok in *. cbn [this host].
    rewrite clearTimeout_fold, remove_subscriptions_pendingTimeouts, H.
    rewrite filter_own_ids. destruct_world w. reflexivity.
Qed.

Lemma timers_run (tr : list Action) (w : World) :
  timers_ok w -> timers_ok (run cfg M tr w).
Proof.
  apply (run_keeps cfg M timers_ok timers_events); [| apply timers_calls].
  intros event h w' H. timers_start w' H. timers_finish.
Qed.

Ltac cooldown_start w H :=
  destruct_world w; unfold cooldown_ok in H |- *;
  cbn [this host isDestroyed jumpCooldown pendingTimeouts] in H.

Ltac cooldown_finish :=
  world_red;
  first
    [ assumption
    | let E := fresh in intros _ E; discriminate E
    | let E := fresh in
      intros _ _ E; symmetry in E; exact (app_cons_not_nil _ _ _ E) ].

Lemma cooldown_events : kept_by_events cfg M cooldown_ok.
Proof.
  constructor.
  - intros e w H. cooldown_start w H. cooldown_finish.
  - intros d w H. cooldown_start w H. cases_updateGlow; cooldown_finish.
  - intros b w H. cooldown_start w H. cooldown_finish.
  - intros rnd w H. cooldown_start w H. cases_jump; cooldown_finish.
  - intros res w H. cooldown_start w H. cases_then res; cooldown_finish.
  - intros e env w H. cooldown_start w H. cases_clickHandler;
      cooldown_finish.
  - intros self w H. cooldown_start w H. cases_onSpawnEnd; cooldown_finish.
  - intros self d first p w H. cooldown_start w H. cases_onJumpEnd first;
      cooldown_finish.
  - intros id w H. cooldown_start w H. cases_timeout; cooldown_finish.
  - apply frame_keeps.
    + intros l w H. cooldown_start w H. cooldown_finish.
    + intros rc w H. cooldown_start w H.
      destruct r_lastMouseX, r_lastMouseY, r_element; cooldown_finish.
  - intros W H w Hw. cooldown_start w Hw. cooldown_finish.
Qed.

Lemma cooldown_calls : kept_by_calls cfg cooldown_ok.
Proof.
  constructor.
  - intros w H. cooldown_start w H. cases_spawn; cooldown_finish.
  - intros x' y' w H. cooldown_start w H. cases_updateGlow; cooldown_finish.
  - intros x' y' w H. cooldown_start w H. cases_spawnAndDrop;
      cooldown_finish.
  - intros w H. cooldown_start w H. destruct r_glowAnimationId;
      cooldown_finish.
  - intros w H. cooldown_start w H. destruct r_glowAnimationId;
      cooldown_finish.
  - intros thr w H. cooldown_start w H. cases_enableMouseReaction;
      cooldown_finish.
  - intros w H. cooldown_start w H. cases_disableMouseReaction;
      cooldown_finish.
  - intros w H. rewrite Sprite_destroy_unfold.
    destruct (isDestroyed (this w)) eqn:E; [exact H |].
    unfold cooldown_ok. cbn [this]. destruct_world w. discriminate.
Qed.

Lemma cooldown_run (tr : list Action) (w : World) :
  cooldown_ok w -> cooldown_ok (run cfg M tr w).
Proof.
  apply (run_keeps cfg M cooldown_ok cooldown_events); [| apply cooldown_calls].
  intros event h w' H. cooldown_start w' H. cooldown_finish.
Qed.

End Timers.

Section Position.

Variable cfg : RabbitConfig.
Variable M : JSMath.

Ltac position_start w H :=
  destruct_world w; unfold position_ok in H |- *;
  cbn [this host element x y] in H.

Ltac position_finish :=
  world_red; dom_simpl;
  first [ exact I | assumption | split; reflexivity | idtac ].

Lemma position_events : kept_by_events cfg M position_ok.
Proof.
  constructor.
  - intros e w H. position_start w H. position_finish.
  - intros d w H. position_start w H. cases_updateGlow; position_finish.
  - intros b w H. position_start w H. position_finish.
  - intros rnd w H. position_start w H. cases_jump; position_finish.
  - intros res w H. position_start w H. cases_then res; position_finish.
  - intros e env w H. position_start w H. cases_clickHandler;
      position_finish.
  - intros self w H. position_start w H. cases_onSpawnEnd; position_finish.
  - intros self d first p w H. position_start w H. cases_onJumpEnd first;
      position_finish.
  - intros id w H. position_start w H. cases_timeout; position_finish.
  - apply frame_keeps.
    + intros l w H. position_start w H. position_finish.
    + intros rc w H. position_start w H.
      destruct r_lastMouseX, r_lastMouseY, r_element; position_finish.
  - intros W H w Hw. position_start w Hw. position_finish.
Qed.

Lemma position_calls : kept_by_calls cfg position_ok.
Proof.
  constructor.
  - intros w H. position_start w H. cases_spawn; position_finish.
  - intros x' y' w H. position_start w H. cases_updateGlow; position_finish.
  - intros x' y' w H. position_start w H. cases_spawnAndDrop;
      position_finish.
  - intros w H. position_start w H. destruct r_glowAnimationId;
      position_finish.
  - intros w H. position_start w H. destruct r_glowAnimationId;
      position_finish.
  - intros thr w H. position_start w H. cases_enableMouseReaction;
      position_finish.
  - intros w H. position_start w H. cases_disableMouseReaction;
      position_finish.
  - intros w H. rewrite Sprite_destroy_unfold.
    destruct (isDestroyed (this w)) eqn:E; [exact H |].
    unfold position_ok. cbn [this]. destruct_world w. exact I.
Qed.

Lemma position_run (tr : list Action) (w : World) :
  position_ok w -> position_ok (run cfg M tr w).
Proof.
  apply (run_keeps cfg M position_ok position_events); [| apply position_calls].
  intros event h w' H. position_start w' H. position_finish.
Qed.

(** [jump] chooses left or right. *)
Lemma chooseDirection_unit (rnd W : Q) (r : Rabbit) (d : Z) :
  lastDirection r = 1%Z \/ lastDirection r = (-1)%Z ->
  chooseDirection cfg rnd W r = Some d ->
  d = 1%Z \/ d = (-1)%Z.
Proof.
  intros Hl. unfold chooseDirection.
  destruct (isFirstJump r), (canGoLeft cfg r), (canGoRight cfg W r),
    (Qlt_bool rnd (1 # 3)); cbn [negb andb];
    intro E; inversion E; subst; lia.
Qed.

Ltac direction_start w H :=
  destruct_world w; unfold direction_ok in H |- *;
  cbn [this host element lastDirection] in H.

Ltac direction_finish :=
  world_red; dom_simpl;
  first [ assumption | tauto | idtac ].

Lemma direction_events : kept_by_events cfg M direction_ok.
Proof.
  constructor.
  - intros e w H. direction_start w H. direction_finish.
  - intros d w H. direction_start w H. cases_updateGlow; direction_finish.
  - intros b w H. direction_start w H. direction_finish.
  - intros rnd w H.
    pose proof (chooseDirection_unit rnd (innerWidth (host w)) (this w))
      as Hd.
    direction_start w H. cbn [this host lastDirection innerWidth] in Hd.
    unfold jump. destruct r_element; [| exact H].
    destruct r_isSpawning; [exact H |].
    match goal with
    | |- context [chooseDirection ?c ?r ?W ?rb] =>
        destruct (chooseDirection c r W rb) as [d |] eqn:E
    end; [| world_red; exact H].
    specialize (Hd d (proj1 H) E). clear E.
    destruct r_isFirstJump, (d =? -1)%Z, r_glowAnimationId; world_red;
      dom_simpl; tauto.
  - intros res w H. direction_start w H. cases_then res; direction_finish.
  - intros e env w H. direction_start w H. cases_clickHandler;
      direction_finish.
  - intros self w H. direction_start w H. cases_onSpawnEnd; direction_finish.
  - intros self d first p w H. direction_start w H. cases_onJumpEnd first;
      direction_finish.
  - intros id w H. direction_start w H. cases_timeout; direction_finish.
  - apply frame_keeps.
    + intros l w H. direction_start w H. direction_finish.
    + intros rc w H. direction_start w H.
      destruct r_lastMouseX, r_lastMouseY, r_element; direction_finish.
  - intros W H w Hw. direction_start w Hw. direction_finish.
Qed.

Lemma direction_calls : kept_by_calls cfg direction_ok.
Proof.
  constructor.
  - intros w H. direction_start w H. cases_spawn; direction_finish.
  - intros x' y' w H. direction_start w H. cases_updateGlow;
      direction_finish.
  - intros x' y' w H. direction_start w H. cases_spawnAndDrop;
      direction_finish.
  - intros w H. direction_start w H. destruct r_glowAnimationId;
      direction_finish.
  - intros w H. direction_start w H. destruct r_glowAnimationId;
      direction_finish.
  - intros thr w H. direction_start w H. cases_enableMouseReaction;
      direction_finish.
  - intros w H. direction_start w H. cases_disableMouseReaction;
      direction_finish.
  - intros w H. rewrite Sprite_destroy_unfold.
    destruct (isDestroyed (this w)) eqn:E; [exact H |].
    unfold direction_ok in *. cbn [this]. destruct_world w.
    cbn in H |- *. tauto.
Qed.

Lemma direction_run (tr : list Action) (w : World) :
  direction_ok w -> direction_ok (run cfg M tr w).
Proof.
  apply (run_keeps cfg M direction_ok direction_events); [| apply direction_calls].
  intros event h w' H. direction_start w' H. direction_finish.
Qed.

End Position.

(** ** The invariants, for every world reached from a new actor *)

Lemma initial_invariants (cfg : RabbitConfig) (options : Options) (W H : Q) :
  let w := initial_world cfg options W H in
  glow_loop_ok w /\ timers_ok w /\ cooldown_ok w /\ position_ok w
  /\ direction_ok w.
Proof.
  cbv zeta. unfold glow_loop_ok, timers_ok, cooldown_ok, position_ok,
    direction_ok. cbn. repeat split; auto; discriminate.
Qed.

(** The glow loop never has more than one frame requested: through
    any calls and events, the frames that the host holds for the actor
    are the one named by [glowAnimationId], if any; so
    [stopGlowAnimation] leaves none requested, and neither does
    [destroy]. *)
Theorem glow_loop_one_frame (cfg : RabbitConfig) (M : JSMath)
  (options : Options) (W H : Q) (tr : list Action) :
  let w := run cfg M tr (initial_world cfg options W H) in
  animationFrameRequests (host w)
  = match glowAnimationId (this w) with
    | Some id => [id]
    | None => []
    end
  /\ (List.length (animationFrameRequests (host w)) <= 1)%nat
  /\ animationFrameRequests (host (stopGlowAnimation w)) = []
  /\ animationFrameRequests (host (destroy w)) = [].
Proof.
  intro w.
  assert (Hw : glow_loop_ok w).
  { apply glow_loop_run, initial_invariants. }
  split; [exact Hw |]. split; [| split].
  - rewrite Hw. destruct (glowAnimationId (this w)); cbn; lia.
  - pose proof (by_stopGlowAnimation _ _ (glow_loop_calls cfg) w Hw) as Hs.
    rewrite Hs. unfold stopGlowAnimation.
    destruct (glowAnimationId (this w)) eqn:E; [reflexivity |].
    rewrite E. reflexivity.
  - pose proof (glow_loop_run cfg M [Do CallDestroy] w Hw) as Hd.
    cbn [run fold_left step invoke] in Hd. rewrite Hd.
    destruct (Sprite_destroy_quiet _ (disableMouseReaction_quiet w))
      as (Hq & _).
    unfold destroy. rewrite Hq. reflexivity.
Qed.

Lemma run_invariants (cfg : RabbitConfig) (M : JSMath) (options : Options)
  (W H : Q) (tr : list Action) :
  let w := run cfg M tr (initial_world cfg options W H) in
  timers_ok w /\ cooldown_ok w /\ position_ok w /\ direction_ok w.
Proof.
  intro w. subst w.
  pose proof (initial_invariants cfg options W H) as (_ & T & C & X & D).
  split; [| split; [| split]].
  - apply timers_run, T.
  - apply cooldown_run, C.
  - apply position_run, X.
  - apply direction_run, D.
Qed.

Lemma disableMouseReaction_timeouts (w : World) :
  pendingTimeouts (host (disableMouseReaction w)) = pendingTimeouts (host w)
  /\ timers (this (disableMouseReaction w)) = timers (this w).
Proof.
  destruct_world w. cases_disableMouseReaction; split; reflexivity.
Qed.

(** The actor tracks its timeouts exactly: through any calls and
    events, the ids in [this.timers] are the ids of the timeouts pending
    with the host, in order.  So the first [destroy] leaves no timeout
    pending at all; a later one changes neither list. *)
Theorem timers_are_the_pending_timeouts (cfg : RabbitConfig) (M : JSMath)
  (options : Options) (W H : Q) (tr : list Action) :
  let w := run cfg M tr (initial_world cfg options W H) in
  timers (this w) = map t_id (pendingTimeouts (host w))
  /\ pendingTimeouts (host (destroy w))
     = (if isDestroyed (this w) then pendingTimeouts (host w) else [])
  /\ timers (this (destroy w))
     = (if isDestroyed (this w) then timers (this w) else []).
Proof.
  intro w. destruct (run_invariants cfg M options W H tr) as (Hw & _).
  fold w in Hw. split; [exact Hw |].
  destruct (disableMouseReaction_timeouts w) as (Hp & Ht).
  pose proof (disableMouseReaction_isDestroyed w) as Hd.
  unfold destroy. rewrite Sprite_destroy_unfold, Hd.
  destruct (isDestroyed (this w)); [split; assumption |].
  cbn [this host timers set_element set_timers]. split; [| reflexivity].
  rewrite clearTimeout_fold, remove_subscriptions_pendingTimeouts, Ht, Hp, Hw.
  apply filter_own_ids.
Qed.

Lemma existsb_find {A : Type} (f : A -> bool) (l : list A) :
  existsb f l = true -> exists a, find f l = Some a /\ f a = true.
Proof.
  induction l as [| a l IH]; [discriminate |].
  cbn [existsb find]. destruct (f a) eqn:E; [eauto |].
  cbn [orb]. exact IH.
Qed.

(** A timeout of the actor that fires ends the cooldown and is neither
    pending nor tracked afterwards. *)
Lemma timeout_fires (cfg : RabbitConfig) (M : JSMath) (id : nat)
  (w : World) :
  pending (host w) id = true ->
  let w' := handle cfg M (TimeoutFires id) w in
  jumpCooldown (this w') = false
  /\ pending (host w') id = false
  /\ ~ In id (timers (this w')).
Proof.
  intros Hp w'. subst w'. unfold pending in Hp.
  apply existsb_find in Hp as ([fired [] delay] & Hfind & Hid).
  cbn [t_id] in Hid. apply Nat.eqb_eq in Hid. subst fired.
  cbn [handle]. rewrite Hfind. destruct_world w.
  unfold run_timeout. cbn [t_callback t_id]. world_red.
  split; [reflexivity |]. split.
  - unfold pending. cbn [pendingTimeouts].
    apply (existsb_filter_negb (fun t => Nat.eqb (t_id t) id)).
  - intro Hin. apply filter_In in Hin as [_ Hne].
    rewrite Nat.eqb_refl in Hne. discriminate Hne.
Qed.

(** A cooldown always ends: through any calls and events, while the
    cooldown is in force on an actor that was not destroyed, a timeout
    is pending; every pending timeout is tracked by the actor, and when
    it fires the cooldown is over. *)
Theorem cooldown_always_ends (cfg : RabbitConfig) (M : JSMath)
  (options : Options) (W H : Q) (tr : list Action) :
  let w := run cfg M tr (initial_world cfg options W H) in
  (isDestroyed (this w) = false ->
   jumpCooldown (this w) = true ->
   exists id, pending (host w) id = true)
  /\ (forall id,
        pending (host w) id = true ->
        In id (timers (this w))
        /\ let w' := handle cfg M (TimeoutFires id) w in
           jumpCooldown (this w') = false
           /\ pending (host w') id = false
           /\ ~ In id (timers (this w'))).
Proof.
  intro w. destruct (run_invariants cfg M options W H tr) as (Ht & Hc & _).
  fold w in Ht, Hc. split.
  - intros Hd Hj. specialize (Hc Hd Hj).
    destruct (pendingTimeouts (host w)) as [| t l] eqn:E; [contradiction |].
    exists (t_id t). unfold pending. rewrite E. cbn.
    rewrite Nat.eqb_refl. reflexivity.
  - intros id Hp. split; [| apply timeout_fires, Hp].
    rewrite Ht. unfold pending in Hp. apply existsb_exists in Hp as (t & Hin & E).
    apply Nat.eqb_eq in E. subst id. apply in_map, Hin.
Qed.

(** The element is where the actor is: through any calls and events,
    the inline [left] and [top] of the element are the stored [x] and
    [y]. *)
Theorem element_at_stored_position (cfg : RabbitConfig) (M : JSMath)
  (options : Options) (W H : Q) (tr : list Action) :
  let w := run cfg M tr (initial_world cfg options W H) in
  forall el,
    element (this w) = Some el ->
    style_left (style el) = Some (x (this w))
    /\ style_top (style el) = Some (y (this w)).
Proof.
  intros w el Hel.
  destruct (run_invariants cfg M options W H tr) as (_ & _ & Hx & _).
  fold w in Hx. unfold position_ok in Hx. rewrite Hel in Hx. exact Hx.
Qed.

(** The direction is always left or right: through any calls and
    events, [lastDirection] is [1] or [-1], and the [--jump-direction]
    of the element, once a jump has written it, is [lastDirection]. *)
Theorem lastDirection_left_or_right (cfg : RabbitConfig) (M : JSMath)
  (options : Options) (W H : Q) (tr : list Action) :
  let w := run cfg M tr (initial_world cfg options W H) in
  (lastDirection (this w) = 1%Z \/ lastDirection (this w) = (-1)%Z)
  /\ forall el d,
       element (this w) = Some el ->
       jump_direction (style el) = Some d ->
       d = lastDirection (this w).
Proof.
  intro w.
  destruct (run_invariants cfg M options W H tr) as (_ & _ & _ & Hd & Hs).
  fold w in Hd, Hs. split; [exact Hd |].
  intros el d Hel Hj. rewrite Hel in Hs. destruct Hs as [Hs | Hs]; congruence.
Qed.

(** ** Where a jump lands *)

Section Landing.

Variable cfg : RabbitConfig.
Variable M : JSMath.

(** No listener, callback or method writes [scale]. *)
Lemma scale_events (s : Q) :
  kept_by_events cfg M (fun w => scale (this w) = s).
Proof.
  constructor.
  - intros e w H. destruct_world w. exact H.
  - intros d w H. destruct_world w. cases_updateGlow; exact H.
  - intros b w H. destruct_world w. exact H.
  - intros rnd w H. destruct_world w. cases_jump; exact H.
  - intros res w H. destruct_world w. cases_then res; exact H.
  - intros e env w H. destruct_world w. cases_clickHandler; exact H.
  - intros self w H. destruct_world w. cases_onSpawnEnd; exact H.
  - intros self d first p w H. destruct_world w. cases_onJumpEnd first;
      exact H.
  - intros id w H. destruct_world w. cases_timeout; exact H.
  - apply (frame_keeps cfg M (fun w => scale (this w) = s)).
    + intros l w H. destruct_world w. exact H.
    + intros rc w H. destruct_world w.
      destruct r_lastMouseX, r_lastMouseY, r_element; exact H.
  - intros W H w Hw. destruct_world w. exact Hw.
Qed.

(** The end of an animation keeps what the two listeners keep. *)
Lemma animationend_keeps (P : World -> Prop) :
  (forall self w, P w -> P (onSpawnEnd cfg self "rabbit-spawn-drop" w)) ->
  (forall self d first p w,
     P w -> P (onJumpEnd cfg self d first p "rabbit-jump-sprite" w)) ->
  forall name w, P w -> P (handle cfg M (AnimationEnd name) w).
Proof.
  intros Hs Hj name w Hw. cbn [handle].
  destruct (element (this w)) as [el |]; [| exact Hw].
  generalize (listeners el). intro ls. revert w Hw.
  induction ls as [| l ls IH]; intros w Hw; [exact Hw |].
  cbn [dispatch_element]. apply IH.
  destruct (still_listening (el_id l) w); [| exact Hw].
  unfold run_elementListener. destruct (el_kind l) as [| d first p].
  - destruct (String.eqb_spec name "rabbit-spawn-drop") as [-> | Hne].
    + apply Hs, Hw.
    + rewrite onSpawnEnd_other by exact Hne. exact Hw.
  - destruct (String.eqb_spec name "rabbit-jump-sprite") as [-> | Hne].
    + apply Hj, Hw.
    + rewrite onJumpEnd_other by exact Hne. exact Hw.
Qed.

(** Neither [jump] nor the end of an animation changes the width of
    the viewport. *)
Lemma jump_innerWidth (rnd : Q) (w : World) :
  innerWidth (host (fst (jump cfg rnd w))) = innerWidth (host w).
Proof. destruct_world w. cases_jump; reflexivity. Qed.

Lemma animationend_innerWidth (name : string) (w : World) :
  innerWidth (host (handle cfg M (AnimationEnd name) w))
  = innerWidth (host w).
Proof.
  apply (animationend_keeps
           (fun w' => innerWidth (host w') = innerWidth (host w)));
    [| | reflexivity].
  - intros self w' H. rewrite <- H. clear H. destruct_world w'.
    cases_onSpawnEnd; reflexivity.
  - intros self d first p w' H. rewrite <- H. clear H. destruct_world w'.
    cases_onJumpEnd first; reflexivity.
Qed.

Lemma scale_calls (s : Q) : kept_by_calls cfg (fun w => scale (this w) = s).
Proof.
  constructor.
  - intros w H. destruct_world w. cases_spawn; exact H.
  - intros x' y' w H. destruct_world w. cases_updateGlow; exact H.
  - intros x' y' w H. destruct_world w. cases_spawnAndDrop; exact H.
  - intros w H. destruct_world w. destruct r_glowAnimationId; exact H.
  - intros w H. destruct_world w. destruct r_glowAnimationId; exact H.
  - intros thr w H. destruct_world w. cases_enableMouseReaction; exact H.
  - intros w H. destruct_world w. cases_disableMouseReaction; exact H.
  - intros w H. rewrite Sprite_destroy_unfold.
    destruct (isDestroyed (this w)); [exact H |]. destruct_world w. exact H.
Qed.

Lemma jump_Pending_direction (rnd : Q) (w : World) (p : nat) :
  snd (jump cfg rnd w) = Pending p ->
  exists el d,
    element (this w) = Some el
    /\ isSpawning (this w) = false
    /\ chooseDirection cfg rnd (innerWidth (host w)) (this w) = Some d.
Proof.
  unfold jump. destruct (element (this w)) as [el |]; [| discriminate].
  destruct (isSpawning (this w)); [discriminate |].
  destruct (chooseDirection cfg rnd (innerWidth (host w)) (this w)) as [d |];
    [| discriminate].
  intros _. exists el, d. auto.
Qed.

(** What the direction chosen guarantees of the position. *)
Lemma chooseDirection_feasible (rnd W : Q) (r : Rabbit) (d : Z) :
  chooseDirection cfg rnd W r = Some d ->
  (d = (-1)%Z -> lastDirection r = 1%Z \/ lastDirection r = (-1)%Z ->
   x r + jumpDistance cfg + width cfg * scale r <= W - 20)
  /\ (d = 1%Z -> isFirstJump r = false ->
      lastDirection r = 1%Z \/ lastDirection r = (-1)%Z ->
      20 <= x r - jumpDistance cfg).
Proof.
  unfold chooseDirection.
  destruct (isFirstJump r) eqn:Hf.
  - destruct (canGoRight cfg W r) eqn:Hr; intro E; inversion E; subst.
    + split; [| discriminate]. intros _ _. apply canGoRight_true in Hr.
      exact Hr.
    + split; discriminate.
  - destruct (canGoLeft cfg r) eqn:Hl, (canGoRight cfg W r) eqn:Hr;
      cbn [negb andb]; intro E; try discriminate E.
    + apply canGoLeft_true in Hl. apply canGoRight_true in Hr.
      unfold edgeMargin in *. split; intros; assumption.
    + apply canGoLeft_true in Hl. unfold edgeMargin in *.
      inversion E; subst. split; [discriminate | intros; assumption].
    + apply canGoRight_true in Hr. unfold edgeMargin in *.
      inversion E; subst. split; [intros; assumption | discriminate].
Qed.

End Landing.

(** A jump lands inside the margins.  A jump started by an actor that
    faces left or right, no other jump being in flight, moves the
    stored position by the jump distance in the direction recorded when
    its completion signal arrives; a jump to the right ends with the
    right edge of the actor at least 20 px inside the viewport, and a
    jump to the left that is not the first ends at least 20 px from the
    left edge.  So an actor inside both margins is still inside them
    after any jump but its first. *)
Theorem jump_lands_inside (cfg : RabbitConfig) (M : JSMath)
  (rnd : Q) (w : World) (el : Element) (p : nat)
  (spawned : element (this w) = Some el)
  (facing : lastDirection (this w) = 1%Z \/ lastDirection (this w) = (-1)%Z)
  (none_in_flight : forall l, In l (listeners el) -> el_kind l = OnSpawnEnd)
  (begun : snd (jump cfg rnd w) = Pending p) :
  let W := innerWidth (host w) in
  let Vw := width cfg * scale (this w) in
  let J := jumpDistance cfg in
  let started := fst (jump cfg rnd w) in
  let d := lastDirection (this started) in
  let done := handle cfg M (AnimationEnd "rabbit-jump-sprite") started in
  (d = 1%Z \/ d = (-1)%Z)
  /\ x (this started) = x (this w)
  /\ x (this done) == x (this w) - J * inject_Z d
  /\ scale (this done) = scale (this w)
  /\ innerWidth (host done) = W
  /\ (d = (-1)%Z -> x (this done) + Vw <= W - 20)
  /\ (d = 1%Z -> isFirstJump (this w) = false -> 20 <= x (this done))
  /\ (isFirstJump (this w) = false -> 0 <= J ->
      20 <= x (this w) -> x (this w) + Vw <= W - 20 ->
      20 <= x (this done) /\ x (this done) + Vw <= W - 20).
Proof.
  intros W Vw J w1 d done.
  destruct (jump_Pending_direction cfg rnd w p begun)
    as (el0 & d0 & Hel0 & Hidle & Hdir).
  destruct (jump_proceeds cfg rnd w el d0 spawned Hidle Hdir)
    as (Hstarted & Hx1 & _).
  destruct Hstarted as (p1 & lid & el1 & _ & Hd1 & _ & Hel1 & _ & _ & Hls1 & _).
  fold w1 in Hd1, Hel1, Hls1, Hx1. unfold listeners_of in Hls1.
  rewrite spawned in Hls1.
  destruct (jump_completes cfg M w1 el1 (listeners el) lid d0
              (isFirstJump (this w)) p1 Hel1 Hls1 none_in_flight)
    as (Hx2 & _). fold done in Hx2.
  assert (Hd : d = d0) by exact Hd1.
  pose proof (chooseDirection_unit cfg rnd W (this w) d0 facing Hdir) as Hunit.
  destruct (chooseDirection_feasible cfg rnd W (this w) d0 Hdir)
    as (Hright & Hleft).
  assert (Hscale : scale (this done) = scale (this w)).
  { unfold done, w1.
    apply (animationend_keeps cfg M
             (fun w' => scale (this w') = scale (this w)));
      [apply (by_onSpawnEnd _ _ _ (scale_events cfg M (scale (this w))))
      | apply (by_onJumpEnd _ _ _ (scale_events cfg M (scale (this w)))) |].
    apply (by_jump _ _ _ (scale_events cfg M (scale (this w)))).
    reflexivity. }
  assert (Hwidth : innerWidth (host done) = W).
  { unfold done, w1.
    rewrite animationend_innerWidth, jump_innerWidth. reflexivity. }
  rewrite Hd. split; [exact Hunit |]. split; [exact Hx1 |].
  assert (Hx : x (this done) == x (this w) - J * inject_Z d0).
  { rewrite Hx2, Hx1. reflexivity. }
  split; [exact Hx |]. split; [exact Hscale |]. split; [exact Hwidth |].
  change (jumpDistance cfg) with J in Hright, Hleft.
  change (width cfg * scale (this w)) with Vw in Hright.
  clearbody Vw J W done. clear Hx2.
  split; [| split].
  - intro E. specialize (Hright E facing). subst d0. rewrite E in Hx. rewrite Hx.
    change (inject_Z (-1)) with (-1 # 1). lra.
  - intros E Hf. specialize (Hleft E Hf facing). subst d0. rewrite E in Hx. rewrite Hx.
    change (inject_Z 1) with 1. lra.
  - intros Hf HJ Hlo Hhi. destruct Hunit as [E | E].
    + specialize (Hleft E Hf facing). subst d0. rewrite E in Hx. rewrite Hx.
      change (inject_Z 1) with 1. split; lra.
    + specialize (Hright E facing). subst d0. rewrite E in Hx. rewrite Hx.
      change (inject_Z (-1)) with (-1 # 1). split; lra.
Qed.

(** ** The end of an animation *)

Section AnimationEnd.

Variable cfg : RabbitConfig.
Variable M : JSMath.

Lemma run_elementListener_deaf (l : ElementListener) (name : string)
  (w : World) :
  responds name l = false -> run_elementListener cfg l name w = w.
Proof.
  unfold responds, run_elementListener.
  destruct (el_kind l) as [| d first p]; intro H.
  - apply onSpawnEnd_other. apply String.eqb_neq. exact H.
  - apply onJumpEnd_other. apply String.eqb_neq. exact H.
Qed.

Lemma run_elementListener_leaves (l : ElementListener) (name : string)
  (w : World) :
  responds name l = true ->
  let w' := run_elementListener cfg l name w in
  spawned w' = spawned w
  /\ listeners_of w'
     = filter (fun l' => negb (Nat.eqb (el_id l') (el_id l)))
              (listeners_of w).
Proof.
  unfold responds, run_elementListener.
  destruct (el_kind l) as [| d first p]; intro H;
    apply String.eqb_eq in H; subst name; cbv zeta.
  - destruct (onSpawnEnd_summary cfg (el_id l) w)
      as ((_ & Hs & _) & _ & _ & _ & _ & _ & Hl).
    auto.
  - destruct (onJumpEnd_summary cfg (el_id l) d first p w)
      as ((_ & Hs & _) & _ & _ & _ & _ & _ & _ & Hl).
    auto.
Qed.

Lemma still_listening_listeners_of (id : nat) (w : World) :
  still_listening id w
  = existsb (fun l => Nat.eqb (el_id l) id) (listeners_of w).
Proof.
  unfold still_listening, listeners_of.
  destruct (element (this w)); reflexivity.
Qed.

(** After the dispatch no listener is left that answered it or would
    have. *)
Lemma dispatch_element_consumes (name : string) (ls : list ElementListener)
  (w : World) :
  let w' := dispatch_element cfg ls name w in
  spawned w' = spawned w
  /\ (forall l', In l' (listeners_of w') -> In l' (listeners_of w))
  /\ (forall l l',
        In l ls -> responds name l = true -> In l' (listeners_of w') ->
        el_id l' <> el_id l).
Proof.
  revert w. induction ls as [| l ls IH]; intro w; cbv zeta.
  - cbn [dispatch_element]. split; [reflexivity |]. split; [auto |].
    intros l l' [].
  - cbn [dispatch_element].
    set (w1 := if still_listening (el_id l) w
               then run_elementListener cfg l name w else w).
    destruct (IH w1) as (Hs & Hsub & Hgone).
    assert (H1 : spawned w1 = spawned w
                 /\ (forall l', In l' (listeners_of w1) ->
                                In l' (listeners_of w))
                 /\ (responds name l = true ->
                     forall l', In l' (listeners_of w1) ->
                                el_id l' <> el_id l)).
    { unfold w1. destruct (still_listening (el_id l) w) eqn:Hstill.
      - destruct (responds name l) eqn:Hr.
        + destruct (run_elementListener_leaves l name w Hr) as (A & B).
          split; [exact A |]. rewrite B. split.
          * intros l' Hl'. apply filter_In in Hl'. tauto.
          * intros _ l' Hl'. apply filter_In in Hl' as [_ Hne].
            apply negb_true_iff, Nat.eqb_neq in Hne. exact Hne.
        + rewrite run_elementListener_deaf by exact Hr.
          split; [reflexivity |]. split; [auto | discriminate].
      - split; [reflexivity |]. split; [auto |].
        intros _ l' Hl' E. rewrite still_listening_listeners_of in Hstill.
        assert (Ht : existsb (fun l0 => Nat.eqb (el_id l0) (el_id l))
                       (listeners_of w) = true).
        { apply existsb_exists. exists l'. split; [exact Hl' |].
          apply Nat.eqb_eq. exact E. }
        congruence. }
    destruct H1 as (Hs1 & Hsub1 & Hgone1).
    split; [congruence |]. split; [auto |].
    intros l0 l' [<- | Hin] Hr Hl'.
    + apply Hgone1; [exact Hr | apply Hsub, Hl'].
    + apply (Hgone l0 l' Hin Hr Hl').
Qed.

Lemma dispatch_element_deaf (name : string) (ls : list ElementListener)
  (w : World) :
  (forall l, In l ls -> responds name l = false) ->
  dispatch_element cfg ls name w = w.
Proof.
  revert w. induction ls as [| l ls IH]; intros w Hall; [reflexivity |].
  cbn [dispatch_element].
  rewrite run_elementListener_deaf by (apply Hall; left; reflexivity).
  destruct (still_listening (el_id l) w); apply IH; intros l' Hl';
    apply Hall; right; exact Hl'.
Qed.

End AnimationEnd.

(** The end of an animation is consumed once.  The listeners that
    answer an [animationend] remove themselves, so delivering the same
    signal a second time changes nothing; and the end of an animation
    that is neither the drop nor the jump sprite changes nothing at
    all. *)
Theorem animationend_consumed_once (cfg : RabbitConfig) (M : JSMath)
  (name : string) (w : World) :
  let once := handle cfg M (AnimationEnd name) w in
  handle cfg M (AnimationEnd name) once = once
  /\ (String.eqb name "rabbit-spawn-drop" = false ->
      String.eqb name "rabbit-jump-sprite" = false ->
      once = w).
Proof.
  cbv zeta. split.
  - cbn [handle]. destruct (element (this w)) as [el |] eqn:Hel;
      [| rewrite Hel; reflexivity].
    assert (Hls : listeners el = listeners_of w)
      by (unfold listeners_of; rewrite Hel; reflexivity).
    rewrite Hls.
    destruct (dispatch_element_consumes cfg name (listeners_of w) w)
      as (Hs & Hsub & Hgone).
    set (w' := dispatch_element cfg (listeners_of w) name w) in *.
    destruct (element (this w')) as [el' |] eqn:Hel'; [| reflexivity].
    apply dispatch_element_deaf. intros l Hl.
    assert (Hl' : In l (listeners_of w'))
      by (unfold listeners_of; rewrite Hel'; exact Hl).
    destruct (responds name l) eqn:Hr; [| reflexivity].
    exfalso. exact (Hgone l l (Hsub l Hl') Hr Hl' eq_refl).
  - intros Hs Hj. cbn [handle].
    destruct (element (this w)) as [el |]; [| reflexivity].
    apply dispatch_element_deaf. intros l _. unfold responds.
    destruct (el_kind l); assumption.
Qed.

(** ** What a pointer move starts *)

Section PointerMove.

Variable cfg : RabbitConfig.
Variable M : JSMath.

(** The mouse handler up to its test of the flags: it records the
    pointer and may write the glow. *)
Lemma mouseHandler_prelude (e : MouseEvent) (d : Dist) (w : World) :
  let w1 := on_this (run_earlyMouseHandler e) w in
  let w2 := match glowAnimationId (this w1) with
            | Some _ => w1
            | None => on_this (updateGlow cfg M d) w1
            end in
  host w2 = host w
  /\ lastMouseX (this w2) = Some (clientX e)
  /\ lastMouseY (this w2) = Some (clientY e)
  /\ x (this w2) = x (this w)
  /\ scale (this w2) = scale (this w)
  /\ timers (this w2) = timers (this w)
  /\ isSpawning (this w2) = isSpawning (this w)
  /\ isJumping (this w2) = isJumping (this w)
  /\ jumpCooldown (this w2) = jumpCooldown (this w)
  /\ isFirstJump (this w2) = isFirstJump (this w)
  /\ lastDirection (this w2) = lastDirection (this w)
  /\ spawned w2 = spawned w
  /\ listeners_of w2 = listeners_of w.
Proof.
  destruct_world w. cbv zeta.
  destruct r_glowAnimationId, r_element; world_red; unfold listeners_of;
    dom_simpl; repeat split; reflexivity.
Qed.

Lemma trapped_chooseDirection (rnd W : Q) (r : Rabbit) :
  trapped cfg W r = true <-> chooseDirection cfg rnd W r = None.
Proof.
  unfold trapped, chooseDirection.
  destruct (isFirstJump r), (canGoLeft cfg r), (canGoRight cfg W r),
    (Qlt_bool rnd (1 # 3)); cbn [negb andb]; split; congruence.
Qed.

(** [jump] called by the handler and followed by its [then]: on an
    actor that is trapped the promise is resolved already and the
    cooldown starts at once. *)
Lemma armed_jump_trapped (rnd : Q) (w : World) :
  spawned w = true ->
  isSpawning (this w) = false ->
  trapped cfg (innerWidth (host w)) (this w) = true ->
  let w0 := on_this (set_isJumping true) w in
  let w' := then_startCooldown cfg (snd (jump cfg rnd w0))
              (fst (jump cfg rnd w0)) in
  isJumping (this w') = false
  /\ jumpCooldown (this w') = true
  /\ isFirstJump (this w') = isFirstJump (this w)
  /\ x (this w') = x (this w)
  /\ lastMouseX (this w') = lastMouseX (this w)
  /\ lastMouseY (this w') = lastMouseY (this w)
  /\ listeners_of w' = listeners_of w
  /\ jumpPromises (host w') = jumpPromises (host w)
  /\ pendingTimeouts (host w')
     = pendingTimeouts (host w)
       ++ [mkTimeout (nextId (host w)) ClearCooldown (jumpCooldownMs cfg)]
  /\ timers (this w') = timers (this w) ++ [nextId (host w)].
Proof.
  intros Hs Hidle Ht w0 w'. subst w'.
  unfold spawned in Hs.
  destruct (element (this w)) as [el |] eqn:Hel; [| discriminate Hs].
  assert (Hdir : chooseDirection cfg rnd (innerWidth (host w0)) (this w0)
                 = None).
  { apply trapped_chooseDirection. destruct_world w. exact Ht. }
  rewrite (jump_aborts cfg rnd w0 el);
    [| destruct_world w; exact Hel | destruct_world w; exact Hidle
     | exact Hdir].
  cbn [fst snd then_startCooldown]. subst w0. clear.
  destruct_world w. world_red. unfold listeners_of. cbn [element this].
  repeat split; reflexivity.
Qed.

(** On an actor that is not trapped a jump starts, and the handler's
    callback waits on its promise. *)
Lemma armed_jump_started (rnd : Q) (w : World) :
  spawned w = true ->
  isSpawning (this w) = false ->
  trapped cfg (innerWidth (host w)) (this w) = false ->
  let w0 := on_this (set_isJumping true) w in
  let w' := then_startCooldown cfg (snd (jump cfg rnd w0))
              (fst (jump cfg rnd w0)) in
  isJumping (this w') = true
  /\ jumpCooldown (this w') = jumpCooldown (this w)
  /\ isFirstJump (this w') = false
  /\ x (this w') = x (this w)
  /\ lastMouseX (this w') = lastMouseX (this w)
  /\ lastMouseY (this w') = lastMouseY (this w)
  /\ pendingTimeouts (host w') = pendingTimeouts (host w)
  /\ timers (this w') = timers (this w)
  /\ exists p lid dir,
       listeners_of w'
       = listeners_of w
         ++ [mkElementListener lid (OnJumpEnd dir (isFirstJump (this w)) p)]
       /\ jumpPromises (host w')
          = map (mark_then p) (jumpPromises (host w))
            ++ [mkJumpPromise p true]
       /\ (nextId (host w) <= p)%nat
       /\ lastDirection (this w') = dir.
Proof.
  destruct_world w. unfold spawned, trapped. cbn [this host element
    isSpawning isFirstJump innerWidth].
  destruct r_element as [el |]; [| discriminate]. intros _ -> Ht.
  cbv zeta. unfold jump.
  match goal with
  | |- context [chooseDirection ?c ?r ?W ?rb] =>
      destruct (chooseDirection c r W rb) as [dir |] eqn:Hdir
  end.
  - clear Hdir Ht.
    destruct r_isFirstJump, (dir =? -1)%Z, r_glowAnimationId; world_red;
      cbn [fst snd then_startCooldown]; world_red.
    all: repeat split; try reflexivity.
    all: do 3 eexists; unfold listeners_of; dom_simpl.
    all: split; [reflexivity |]; split; [| split; [lia | reflexivity]].
    all: rewrite map_app; unfold mark_then; cbn [map p_id];
      rewrite Nat.eqb_refl; reflexivity.
  - apply trapped_chooseDirection in Hdir.
    exact (False_ind _ (eq_true_false_abs _ Hdir Ht)).
Qed.

End PointerMove.

(** The pointer move decides.  On an actor that has an element, the
    mouse handler records the pointer and leaves the stored position
    alone; it starts nothing while the actor is spawning, jumping or
    cooling down, or when the pointer is at the threshold distance or
    beyond; otherwise it starts one jump, whose promise carries the
    cooldown callback, unless the actor is trapped, in which case no
    jump starts and the cooldown begins at once. *)
Theorem mouse_move_decides (cfg : RabbitConfig) (M : JSMath)
  (thr : Q) (e : MouseEvent) (env : Ambient) (w : World) (el : Element)
  (has_element : element (this w) = Some el) :
  let dx := clientX e - (rect_left (rect env) + rect_width (rect env) / 2) in
  let dy := clientY e - rect_bottom (rect env) in
  let d := Math_sqrt M (dx * dx + dy * dy) in
  let w' := run_mouseHandler cfg M thr e env w in
  lastMouseX (this w') = Some (clientX e)
  /\ lastMouseY (this w') = Some (clientY e)
  /\ x (this w') = x (this w)
  /\ (busy (this w) = true \/ thr <= d ->
      isJumping (this w') = isJumping (this w)
      /\ jumpCooldown (this w') = jumpCooldown (this w)
      /\ isFirstJump (this w') = isFirstJump (this w)
      /\ listeners_of w' = listeners_of w
      /\ jumpPromises (host w') = jumpPromises (host w)
      /\ pendingTimeouts (host w') = pendingTimeouts (host w))
  /\ (busy (this w) = false -> d < thr ->
      trapped cfg (innerWidth (host w)) (this w) = false ->
      isJumping (this w') = true
      /\ jumpCooldown (this w') = false
      /\ isFirstJump (this w') = false
      /\ pendingTimeouts (host w') = pendingTimeouts (host w)
      /\ exists p lid dir,
           listeners_of w'
           = listeners_of w
             ++ [mkElementListener lid
                   (OnJumpEnd dir (isFirstJump (this w)) p)]
           /\ jumpPromises (host w')
              = map (mark_then p) (jumpPromises (host w))
                ++ [mkJumpPromise p true]
           /\ lastDirection (this w') = dir)
  /\ (busy (this w) = false -> d < thr ->
      trapped cfg (innerWidth (host w)) (this w) = true ->
      isJumping (this w') = false
      /\ jumpCooldown (this w') = true
      /\ isFirstJump (this w') = isFirstJump (this w)
      /\ listeners_of w' = listeners_of w
      /\ jumpPromises (host w') = jumpPromises (host w)
      /\ exists id,
           pendingTimeouts (host w')
           = pendingTimeouts (host w)
             ++ [mkTimeout id ClearCooldown (jumpCooldownMs cfg)]
           /\ timers (this w') = timers (this w) ++ [id]).
Proof.
  intros dx dy d w'. subst w'. unfold run_mouseHandler. cbv zeta.
  set (w1 := on_this (run_earlyMouseHandler e) w).
  set (d' := distance (getDistanceToBottomCenter M (rect env) (clientX e)
                         (clientY e) (this w1))).
  assert (Hd' : d' = Finite d).
  { unfold d', w1, getDistanceToBottomCenter. destruct_world w.
    cbn in has_element. subst r_element. reflexivity. }
  destruct (mouseHandler_prelude cfg M e d' w)
    as (Hhost & Hmx & Hmy & Hx & Hscale & Htimers & Hsp & Hj & Hc & Hf & Hdir
        & Hspawned & Hls).
  fold w1 in Hhost, Hmx, Hmy, Hx, Hscale, Htimers, Hsp, Hj, Hc, Hf, Hdir,
    Hspawned, Hls.
  set (w2 := match glowAnimationId (this w1) with
             | Some _ => w1
             | None => on_this (updateGlow cfg M d') w1
             end) in *.
  assert (Hbusy : isSpawning (this w2) || isJumping (this w2)
                  || jumpCooldown (this w2) = busy (this w)).
  { unfold busy. rewrite Hsp, Hj, Hc. reflexivity. }
  assert (Htrapped : trapped cfg (innerWidth (host w2)) (this w2)
                     = trapped cfg (innerWidth (host w)) (this w)).
  { unfold trapped, canGoLeft, canGoRight, visualWidth.
    rewrite Hhost, Hf, Hx, Hscale. reflexivity. }
  assert (Hs2 : spawned w2 = true).
  { rewrite Hspawned. unfold spawned. rewrite has_element. reflexivity. }
  rewrite Hbusy, Hd'. cbn [Dist_lt].
  destruct (busy (this w)) eqn:Eb.
  - rewrite Hhost.
    split; [exact Hmx |]. split; [exact Hmy |]. split; [exact Hx |].
    split; [intros _; repeat split; assumption |].
    split; discriminate.
  - destruct (Qlt_bool d thr) eqn:Elt.
    + apply Qlt_bool_iff in Elt.
      assert (Hidle : isSpawning (this w2) = false).
      { rewrite Hsp. unfold busy in Eb.
        destruct (isSpawning (this w)); [discriminate | reflexivity]. }
      assert (Hcool : jumpCooldown (this w2) = false).
      { rewrite Hc. unfold busy in Eb.
        destruct (isSpawning (this w)), (isJumping (this w)),
          (jumpCooldown (this w)); try discriminate; reflexivity. }
      destruct (trapped cfg (innerWidth (host w)) (this w)) eqn:Et.
      * destruct (armed_jump_trapped cfg (random env) w2 Hs2 Hidle Htrapped)
          as (A1 & A2 & A3 & A4 & A5 & A6 & A7 & A8 & A9 & A10).
        destruct (jump cfg (random env) (on_this (set_isJumping true) w2))
          as [w4 res].
        cbn [fst snd] in A1, A2, A3, A4, A5, A6, A7, A8, A9, A10.
        set (w3 := then_startCooldown cfg res w4) in *.
        rewrite Hhost in A8, A9, A10.
        split; [congruence |]. split; [congruence |]. split; [congruence |].
        split; [intros [F | F]; [discriminate F | lra] |].
        split; [discriminate |]. intros _ _ _.
        repeat split; try congruence.
        exists (nextId (host w)). split; congruence.
      * destruct (armed_jump_started cfg (random env) w2 Hs2 Hidle Htrapped)
          as (A1 & A2 & A3 & A4 & A5 & A6 & A7 & A8 & p & lid & dir & A9 & A10
              & _ & A11).
        destruct (jump cfg (random env) (on_this (set_isJumping true) w2))
          as [w4 res].
        cbn [fst snd] in A1, A2, A3, A4, A5, A6, A7, A8, A9, A10, A11.
        set (w3 := then_startCooldown cfg res w4) in *.
        rewrite Hhost in A7, A10.
        split; [congruence |]. split; [congruence |]. split; [congruence |].
        split; [intros [F | F]; [discriminate F | lra] |].
        split; [| discriminate]. intros _ _ _.
        repeat split; try congruence.
        exists p, lid, dir. rewrite A9, A10, Hls, Hf. auto.
    + apply Qlt_bool_false_iff in Elt. rewrite Hhost.
      split; [exact Hmx |]. split; [exact Hmy |]. split; [exact Hx |].
      split; [intros _; repeat split; assumption |].
      split; intros _ F; exfalso; lra.
Qed.

(** ** The mouse reaction, on and off *)

(** Computation of the tests of [document.addEventListener],
    [removeEventListener] and [filter] on listed listeners; [known]
    rewrites with what is known of the identities. *)
Ltac listeners_simpl known :=
  unfold same_listener, Handler_same;
  repeat
    (progress
       (cbn [filter existsb app l_event l_handler tr_handler h_id andb orb
             negb];
        change (String.eqb "mousemove" "mousemove") with true;
        change (String.eqb "click" "mousemove") with false;
        change (String.eqb "mousemove" "click") with false;
        change (String.eqb "click" "click") with true;
        rewrite ?Nat.eqb_refl; known)).

Section Wiring.

Variable cfg : RabbitConfig.
Variable M : JSMath.

(** No listener or callback changes the wiring. *)
Lemma wiring_events (v : Wiring) :
  kept_by_events cfg M (fun w => wiring w = v).
Proof.
  constructor.
  - intros e w H. destruct_world w. exact H.
  - intros d w H. destruct_world w. cases_updateGlow; exact H.
  - intros b w H. destruct_world w. exact H.
  - intros rnd w H. destruct_world w. cases_jump; exact H.
  - intros res w H. destruct_world w. cases_then res; exact H.
  - intros e env w H. destruct_world w. cases_clickHandler; exact H.
  - intros self w H. destruct_world w. cases_onSpawnEnd; exact H.
  - intros self d first p w H. destruct_world w. cases_onJumpEnd first;
      exact H.
  - intros id w H. destruct_world w. cases_timeout; exact H.
  - apply (frame_keeps cfg M (fun w => wiring w = v)).
    + intros l w H. destruct_world w. exact H.
    + intros rc w H. destruct_world w.
      destruct r_lastMouseX, r_lastMouseY, r_element; exact H.
  - intros W H w Hw. destruct_world w. exact Hw.
Qed.

Lemma hooked_wired (w : World) : hooked w -> wired w.
Proof.
  intros (Hs & mid & cid & thr & _ & _ & _ & Hw). split; [exact Hs |].
  exists mid, cid, thr. unfold hooked_with, wiring in Hw.
  inversion Hw. reflexivity.
Qed.

(** An event leaves the wiring of a hooked page as it is. *)
Lemma handle_wiring (ev : Event) (w : World) :
  hooked w -> wiring (handle cfg M ev w) = wiring w.
Proof.
  intro Hw. pose proof (hooked_wired w Hw) as Hwired.
  pose proof (wiring_events (wiring w)) as K.
  destruct ev as [e env | e env | name | id | env | W H].
  - destruct (handle_mousemove_wired cfg M e env w Hwired) as (thr & ->).
    apply (run_mouseHandler_keeps cfg M _ K). reflexivity.
  - rewrite (handle_click_wired cfg M e env w Hwired).
    apply (by_clickHandler _ _ _ K). reflexivity.
  - apply (animationend_keeps cfg M (fun w' => wiring w' = wiring w));
      [apply (by_onSpawnEnd _ _ _ K) | apply (by_onJumpEnd _ _ _ K)
      | reflexivity].
  - apply (by_timeout _ _ _ K). reflexivity.
  - apply (by_frame _ _ _ K). reflexivity.
  - apply (by_resize _ _ _ K). reflexivity.
Qed.

Lemma handle_hooked (ev : Event) (w : World) :
  hooked w -> hooked (handle cfg M ev w).
Proof.
  intro Hw. pose proof (handle_wiring ev w Hw) as E.
  destruct (handle_kept cfg M ev w) as (_ & Hs & Hn).
  destruct Hw as (Hsp & mid & cid & thr & Hne & Hm & Hc & Hw).
  split; [congruence |]. exists mid, cid, thr.
  split; [exact Hne |]. split; [lia |]. split; [lia |].
  unfold hooked_with in *. congruence.
Qed.

Lemma events_hooked (evs : list Event) (w : World) :
  hooked w -> hooked (run cfg M (map On evs) w).
Proof.
  revert w. induction evs as [| ev evs IH]; intros w Hw; [exact Hw |].
  cbn [map run fold_left step]. apply IH, handle_hooked, Hw.
Qed.

(** The page of [main.js] is hooked. *)
Lemma hooked_start (options : Options) (W H x0 y0 : Q)
  (threshold : option Q) :
  hooked (enableMouseReaction cfg threshold
            (spawnAndDrop x0 y0 (initial_world cfg options W H))).
Proof.
  vm_compute. split; [reflexivity |].
  exists 4%nat, 5%nat. eexists.
  split; [discriminate |]. split; [lia |]. split; [lia |]. reflexivity.
Qed.

(** [disableMouseReaction] on a hooked page. *)
Lemma disableMouseReaction_hooked (w : World) :
  hooked w ->
  wiring (disableMouseReaction w) = mkWiring [] None None None []
  /\ glowAnimationId (this (disableMouseReaction w)) = None
  /\ spawned (disableMouseReaction w) = true.
Proof.
  intros (Hs & mid & cid & thr & Hne & _ & _ & Hw).
  destruct (disableMouseReaction_summary w) as ((_ & Hsp & _) & _).
  split; [| split; [apply disableMouseReaction_quiet | congruence]].
  unfold hooked_with, wiring in Hw. destruct_world w.
  cbn [this host documentListeners mouseHandler clickHandler
       earlyMouseHandler eventHandlers] in Hw.
  inversion Hw; subst. clear Hw.
  unfold disableMouseReaction, wiring.
  destruct r_glowAnimationId; world_red.
  all: apply Nat.eqb_neq in Hne;
    listeners_simpl ltac:(rewrite ?Hne, ?(Nat.eqb_sym cid mid), ?Hne);
    reflexivity.
Qed.

(** [enableMouseReaction] on a spawned actor without wiring. *)
Lemma enableMouseReaction_unhooked (threshold : option Q) (w : World) :
  spawned w = true ->
  wiring w = mkWiring [] None None None [] ->
  hooked (enableMouseReaction cfg threshold w).
Proof.
  intros Hs Hw. unfold spawned in Hs. unfold wiring in Hw. destruct_world w.
  cbn [this host element documentListeners mouseHandler clickHandler
       earlyMouseHandler eventHandlers] in Hs, Hw.
  inversion Hw; subst. clear Hw.
  destruct r_element as [el |]; [| discriminate Hs].
  unfold hooked, hooked_with, wiring, spawned, enableMouseReaction,
    Sprite.addEventListener, document_addEventListener, fresh.
  cbv beta iota zeta. world_red.
  unfold same_listener, Handler_same.
  cbn [existsb app l_event l_handler h_id].
  change (String.eqb "mousemove" "click") with false.
  cbn [andb orb]. world_red.
  split; [reflexivity |].
  exists h_nextId, (S h_nextId). eexists.
  split; [lia |]. split; [lia |]. split; [lia |]. reflexivity.
Qed.

End Wiring.

(** [disableMouseReaction] stops the reactions.  On the page of
    [main.js], after any events, [disableMouseReaction] leaves no
    listener on [document], nothing tracked and no glow loop; pointer
    moves and clicks then change nothing; and [enableMouseReaction]
    can hook the page again. *)
Theorem disableMouseReaction_stops_reactions (cfg : RabbitConfig)
  (M : JSMath) (options : Options) (W H x0 y0 : Q) (threshold : option Q)
  (evs : list Event) :
  let w :=
    run cfg M (map On evs)
      (enableMouseReaction cfg threshold
         (spawnAndDrop x0 y0 (initial_world cfg options W H))) in
  let off := disableMouseReaction w in
  documentListeners (host off) = []
  /\ eventHandlers (this off) = []
  /\ mouseHandler (this off) = None
  /\ clickHandler (this off) = None
  /\ glowAnimationId (this off) = None
  /\ animationFrameRequests (host off) = []
  /\ (forall e env,
        handle cfg M (MouseMove e env) off = off
        /\ handle cfg M (Click e env) off = off)
  /\ (forall again, hooked (enableMouseReaction cfg again off)).
Proof.
  intros w off.
  assert (Hw : hooked w)
    by apply events_hooked, hooked_start.
  destruct (disableMouseReaction_hooked w Hw) as (Hoff & Hg & Hs).
  fold off in Hoff, Hg, Hs.
  pose proof (f_equal on_document Hoff) as Hd.
  pose proof (f_equal the_mouseHandler Hoff) as Hm.
  pose proof (f_equal the_clickHandler Hoff) as Hc.
  pose proof (f_equal tracked Hoff) as Ht.
  cbn in Hd, Hm, Hc, Ht.
  split; [exact Hd |]. split; [exact Ht |]. split; [exact Hm |].
  split; [exact Hc |]. split; [exact Hg |]. split; [| split].
  - assert (Hloop : glow_loop_ok off).
    { unfold off, w.
      apply (by_disableMouseReaction _ _ (glow_loop_calls cfg)).
      apply glow_loop_run.
      apply (by_enableMouseReaction _ _ (glow_loop_calls cfg)).
      apply (by_spawnAndDrop _ _ (glow_loop_calls cfg)).
      apply initial_invariants. }
    unfold glow_loop_ok in Hloop. rewrite Hg in Hloop. exact Hloop.
  - intros e env. cbn [handle]. rewrite Hd. split; reflexivity.
  - intro again. apply enableMouseReaction_unhooked; assumption.
Qed.

Section EnableTwice.

Variable cfg : RabbitConfig.
Variable M : JSMath.

(** A second [enableMouseReaction] adds a second pair of handlers. *)
Lemma enableMouseReaction_hooked (threshold : option Q) (mh ch : Handler)
  (w : World) :
  spawned w = true ->
  (h_id mh < nextId (host w))%nat ->
  (h_id ch < nextId (host w))%nat ->
  hooked_with mh ch w ->
  let w' := enableMouseReaction cfg threshold w in
  let mh' := mkHandler (nextId (host w))
               (MouseHandler (nullish threshold (mouseThreshold cfg))) in
  let ch' := mkHandler (S (nextId (host w))) ClickHandler in
  wiring w'
  = mkWiring [mkDocListener "mousemove" mh false;
              mkDocListener "click" ch false;
              mkDocListener "mousemove" mh' false;
              mkDocListener "click" ch' false]
             (Some mh') (Some ch') None
             [mkTracked document "mousemove" mh;
              mkTracked document "click" ch;
              mkTracked document "mousemove" mh';
              mkTracked document "click" ch']
  /\ spawned w' = true
  /\ isDestroyed (this w') = isDestroyed (this w)
  /\ permanentGlowBonus (this w') = permanentGlowBonus (this w)
  /\ pendingTimeouts (host w') = pendingTimeouts (host w)
  /\ timers (this w') = timers (this w).
Proof.
  intros Hs Hm Hc Hw. unfold spawned in Hs. unfold hooked_with, wiring in Hw.
  destruct_world w.
  cbn [this host element documentListeners mouseHandler clickHandler
       earlyMouseHandler eventHandlers nextId] in Hs, Hw, Hm, Hc.
  inversion Hw; subst. clear Hw.
  destruct r_element as [el |]; [| discriminate Hs].
  assert (Em : Nat.eqb (h_id mh) h_nextId = false) by (apply Nat.eqb_neq; lia).
  assert (Ec : Nat.eqb (h_id ch) (S h_nextId) = false)
    by (apply Nat.eqb_neq; lia).
  cbv zeta.
  unfold wiring, spawned, enableMouseReaction,
    Sprite.addEventListener, document_addEventListener, fresh.
  cbv beta iota zeta. world_red.
  unfold same_listener, Handler_same.
  cbn [existsb app l_event l_handler h_id].
  change (String.eqb "mousemove" "mousemove") with true.
  change (String.eqb "click" "mousemove") with false.
  change (String.eqb "mousemove" "click") with false.
  change (String.eqb "click" "click") with true.
  cbn [andb orb]. rewrite Em. cbn [andb orb]. world_red.
  cbn [existsb app l_event l_handler h_id].
  change (String.eqb "mousemove" "click") with false.
  change (String.eqb "click" "click") with true.
  cbn [andb orb]. rewrite Ec. cbn [andb orb]. world_red.
  repeat split; reflexivity.
Qed.

(** On a page with the two pairs, a click runs both click handlers. *)
Lemma handle_click_twice (mh ch mh' ch' : Handler) (e : MouseEvent)
  (env : Ambient) (w : World) :
  h_kind ch = ClickHandler ->
  h_kind ch' = ClickHandler ->
  documentListeners (host w)
  = [mkDocListener "mousemove" mh false; mkDocListener "click" ch false;
     mkDocListener "mousemove" mh' false; mkDocListener "click" ch' false] ->
  handle cfg M (Click e env) w
  = on_this (run_clickHandler cfg M e env)
      (on_this (run_clickHandler cfg M e env) w).
Proof.
  intros Hk Hk' Hdoc. cbn [handle]. rewrite Hdoc.
  cbn [dispatch_document l_event l_handler l_once].
  change (String.eqb "mousemove" "click") with false.
  change (String.eqb "click" "click") with true.
  cbn [andb]. rewrite Hdoc.
  assert (E1 : existsb (same_listener "click" ch)
                 [mkDocListener "mousemove" mh false;
                  mkDocListener "click" ch false;
                  mkDocListener "mousemove" mh' false;
                  mkDocListener "click" ch' false] = true).
  { cbn [existsb]. rewrite (same_listener_refl "click" ch false).
    rewrite orb_true_r. reflexivity. }
  assert (E2 : existsb (same_listener "click" ch')
                 [mkDocListener "mousemove" mh false;
                  mkDocListener "click" ch false;
                  mkDocListener "mousemove" mh' false;
                  mkDocListener "click" ch' false] = true).
  { cbn [existsb]. rewrite (same_listener_refl "click" ch' false).
    rewrite !orb_true_r. reflexivity. }
  rewrite E1.
  assert (R : forall w0, run_handler cfg M ch e env w0
                         = on_this (run_clickHandler cfg M e env) w0)
    by (intro w0; unfold run_handler; rewrite Hk; reflexivity).
  assert (R' : forall w0, run_handler cfg M ch' e env w0
                          = on_this (run_clickHandler cfg M e env) w0)
    by (intro w0; unfold run_handler; rewrite Hk'; reflexivity).
  rewrite !R, R'. cbn [on_this host]. rewrite Hdoc, E2. reflexivity.
Qed.

(** [disableMouseReaction] then removes the second pair only. *)
Lemma disableMouseReaction_doubled (mh ch mh' ch' : Handler) (w : World) :
  h_id mh <> h_id mh' -> h_id ch <> h_id ch' ->
  h_id mh <> h_id ch' -> h_id ch <> h_id mh' -> h_id ch' <> h_id mh' ->
  wiring w
  = mkWiring [mkDocListener "mousemove" mh false;
              mkDocListener "click" ch false;
              mkDocListener "mousemove" mh' false;
              mkDocListener "click" ch' false]
             (Some mh') (Some ch') None
             [mkTracked document "mousemove" mh;
              mkTracked document "click" ch;
              mkTracked document "mousemove" mh';
              mkTracked document "click" ch'] ->
  let w' := disableMouseReaction w in
  wiring w'
  = mkWiring [mkDocListener "mousemove" mh false;
              mkDocListener "click" ch false]
             None None None
             [mkTracked document "mousemove" mh;
              mkTracked document "click" ch]
  /\ isDestroyed (this w') = isDestroyed (this w)
  /\ spawned w' = spawned w
  /\ permanentGlowBonus (this w') = permanentGlowBonus (this w).
Proof.
  intros N1 N2 N3 N4 N5 Hw. unfold wiring in Hw. destruct_world w.
  cbn [this host documentListeners mouseHandler clickHandler
       earlyMouseHandler eventHandlers] in Hw.
  inversion Hw; subst. clear Hw.
  apply Nat.eqb_neq in N1, N2, N3, N4, N5.
  cbv zeta. unfold disableMouseReaction, wiring, spawned.
  destruct r_glowAnimationId; world_red.
  all: listeners_simpl ltac:(rewrite ?N1, ?N2, ?N3, ?N4, ?N5);
    repeat split; reflexivity.
Qed.

(** [Sprite.destroy] takes every tracked listener off [document]. *)
Lemma Sprite_destroy_pair (mh ch : Handler) (w : World) :
  isDestroyed (this w) = false ->
  documentListeners (host w)
  = [mkDocListener "mousemove" mh false; mkDocListener "click" ch false] ->
  eventHandlers (this w)
  = [mkTracked document "mousemove" mh; mkTracked document "click" ch] ->
  documentListeners (host (Sprite.destroy w)) = [].
Proof.
  intros Hd Hdoc Ht. rewrite Sprite_destroy_unfold, Hd. cbn [host].
  rewrite clear_timeouts_documentListeners, Ht.
  cbn [fold_left tr_event tr_handler]. unfold document_removeEventListener.
  cbn [documentListeners set_documentListeners]. rewrite Hdoc.
  listeners_simpl idtac. reflexivity.
Qed.

End EnableTwice.

(** [enableMouseReaction] is not idempotent.  Called a second time on
    the page of [main.js], after any events, it registers a second mouse
    handler and a second click handler beside the first pair, so that
    one click near the actor adds the boost twice; [disableMouseReaction]
    then removes the second pair only, and the first keeps reacting.
    [destroy] removes both pairs. *)
Theorem enableMouseReaction_twice (cfg : RabbitConfig) (M : JSMath)
  (options : Options) (W H x0 y0 : Q) (first second : option Q)
  (evs : list Event) :
  let w :=
    run cfg M (map On evs)
      (enableMouseReaction cfg first
         (spawnAndDrop x0 y0 (initial_world cfg options W H))) in
  let twice := enableMouseReaction cfg second w in
  let boost b :=
    Qmin (b + glowBoostPerClick cfg) (maxPermanentGlow cfg) in
  (exists mh' ch',
     documentListeners (host twice)
     = documentListeners (host w)
       ++ [mkDocListener "mousemove" mh' false;
           mkDocListener "click" ch' false])
  /\ (forall e env,
        qualifying cfg M (Click e env) = true ->
        permanentGlowBonus (this (handle cfg M (Click e env) twice))
        = boost (boost (permanentGlowBonus (this w))))
  /\ documentListeners (host (disableMouseReaction twice))
     = documentListeners (host w)
  /\ (forall e env,
        qualifying cfg M (Click e env) = true ->
        permanentGlowBonus
          (this (handle cfg M (Click e env) (disableMouseReaction twice)))
        = boost (permanentGlowBonus (this w)))
  /\ documentListeners (host (destroy twice)) = [].
Proof.
  intros w twice boost.
  assert (Hw : hooked w) by apply events_hooked, hooked_start.
  assert (Hlive : isDestroyed (this w) = false).
  { unfold w.
    assert (K : forall evs w0,
               isDestroyed (this (run cfg M (map On evs) w0))
               = isDestroyed (this w0)).
    { clear. intro evs. induction evs as [| ev evs IH]; intro w0;
        [reflexivity |].
      change (isDestroyed
                (this (run cfg M (map On evs) (handle cfg M ev w0)))
              = isDestroyed (this w0)).
      rewrite IH. apply handle_kept. }
    rewrite K. reflexivity. }
  destruct Hw as (Hs & mid & cid & thr & Hne & Hm & Hc & Hhook).
  set (mh := mkHandler mid (MouseHandler thr)) in *.
  set (ch := mkHandler cid ClickHandler) in *.
  destruct (enableMouseReaction_hooked cfg second mh ch w Hs Hm Hc Hhook)
    as (Hw2 & Hs2 & Hd2 & Hb2 & _).
  fold twice in Hw2, Hs2, Hd2, Hb2.
  set (mh' := mkHandler (nextId (host w))
                (MouseHandler (nullish second (mouseThreshold cfg)))) in *.
  set (ch' := mkHandler (S (nextId (host w))) ClickHandler) in *.
  pose proof (f_equal on_document Hhook) as Hdoc. cbn in Hdoc.
  pose proof (f_equal on_document Hw2) as Hdoc2. cbn in Hdoc2.
  assert (Hclick : forall e env w0,
             spawned w0 = true ->
             qualifying cfg M (Click e env) = true ->
             permanentGlowBonus (this (on_this (run_clickHandler cfg M e env) w0))
             = boost (permanentGlowBonus (this w0))).
  { intros e env w0 Hs0 Hq.
    destruct (run_clickHandler_summary cfg M e env w0)
      as (_ & _ & _ & _ & Hb).
    rewrite (qualifying_distance cfg M e env w0 Hs0), Hq in Hb. exact Hb. }
  assert (Hkeep : forall e env w0,
             spawned (on_this (run_clickHandler cfg M e env) w0)
             = spawned w0).
  { intros e env w0.
    destruct (run_clickHandler_summary cfg M e env w0) as ((_ & E & _) & _).
    exact E. }
  destruct (disableMouseReaction_doubled mh ch mh' ch' twice)
    as (Hw3 & Hd3 & Hs3 & Hb3);
    [cbn; lia | cbn; lia | cbn; lia | cbn; lia | cbn; lia | exact Hw2 |].
  pose proof (f_equal on_document Hw3) as Hdoc3. cbn in Hdoc3.
  pose proof (f_equal tracked Hw3) as Ht3. cbn in Ht3.
  split; [| split; [| split; [| split]]].
  - exists mh', ch'. rewrite Hdoc2, Hdoc. reflexivity.
  - intros e env Hq.
    rewrite (handle_click_twice cfg M mh ch mh' ch' e env twice
               eq_refl eq_refl Hdoc2).
    rewrite Hclick by (rewrite ?Hkeep; assumption).
    rewrite Hclick by assumption. rewrite Hb2. reflexivity.
  - rewrite Hdoc3, Hdoc. reflexivity.
  - intros e env Hq.
    assert (Hwired : wired (disableMouseReaction twice)).
    { split; [congruence |]. exists mid, cid, thr. exact Hdoc3. }
    rewrite (handle_click_wired cfg M e env _ Hwired).
    rewrite Hclick by (try congruence; assumption).
    rewrite Hb3, Hb2. reflexivity.
  - unfold destroy. apply (Sprite_destroy_pair mh ch);
      [congruence | exact Hdoc3 | exact Ht3].
Qed.

(** ** Bounds of the glow *)

(** The glow stays in its range.  For a distance that is not negative,
    a positive glow range and a [Math.pow] that maps [[0, 1]] into
    itself at the glow exponent, the proximity factor is between [0] and
    [1]; so the intensity that [updateGlow] writes is between
    [1 + permanentGlowBonus] and
    [1 + maxProximityGlow + permanentGlowBonus], and the spread between
    [1] and [1 + maxProximitySpread].  Without element the distance is
    [Infinity] and both are at their minimum. *)
Theorem glow_within_range (cfg : RabbitConfig) (M : JSMath)
  (range_pos : 0 < glowRange cfg)
  (glow_nonneg : 0 <= maxProximityGlow cfg)
  (spread_nonneg : 0 <= maxProximitySpread cfg)
  (pow_unit :
     forall t, 0 <= t -> t <= 1 ->
               0 <= Math_pow M t (glowExponent cfg)
               /\ Math_pow M t (glowExponent cfg) <= 1)
  (d : Q) (d_nonneg : 0 <= d) (r : Rabbit) :
  (0 <= proximityFactor cfg M (Finite d)
   /\ proximityFactor cfg M (Finite d) <= 1)
  /\ (1 + permanentGlowBonus r <= totalGlow cfg M (Finite d) r
      /\ totalGlow cfg M (Finite d) r
         <= 1 + maxProximityGlow cfg + permanentGlowBonus r)
  /\ (1 <= totalSpread cfg M (Finite d)
      /\ totalSpread cfg M (Finite d) <= 1 + maxProximitySpread cfg)
  /\ totalGlow cfg M Infinity r == 1 + permanentGlowBonus r
  /\ totalSpread cfg M Infinity == 1.
Proof.
  assert (Hp : 0 <= proximityFactor cfg M (Finite d)
               /\ proximityFactor cfg M (Finite d) <= 1).
  { unfold proximityFactor. destruct (Qlt_bool d (glowRange cfg)) eqn:E.
    - apply Qlt_bool_iff in E. cbv zeta. apply pow_unit.
      + assert (H : d / glowRange cfg <= 1).
        { apply Qle_shift_div_r; [exact range_pos | lra]. }
        lra.
      + assert (H : 0 <= d / glowRange cfg).
        { apply Qle_shift_div_l; [exact range_pos | lra]. }
        lra.
    - split; lra. }
  split; [exact Hp |]. destruct Hp as (Hlo & Hhi).
  unfold totalGlow, totalSpread.
  set (p := proximityFactor cfg M (Finite d)) in *.
  assert (Hg : 0 <= p * maxProximityGlow cfg
               /\ p * maxProximityGlow cfg <= maxProximityGlow cfg) by nra.
  assert (Hs : 0 <= p * maxProximitySpread cfg
               /\ p * maxProximitySpread cfg <= maxProximitySpread cfg)
    by nra.
  split; [split; lra |]. split; [split; lra |].
  cbn [proximityFactor]. split; ring.
Qed.

(** ** The end of the drop *)

Section Drop.

Variable cfg : RabbitConfig.
Variable M : JSMath.

Lemma onSpawnEnd_lands (self : nat) (w0 w : World) :
  drop_frame w0 w ->
  let w' := onSpawnEnd cfg self "rabbit-spawn-drop" w in
  drop_frame w0 w'
  /\ landed (innerHeight (host w0) - height cfg * scale (this w0)) w'.
Proof.
  intros (Hs & Hh & Hx & Hsp). unfold spawned in Hsp. destruct_world w.
  cbn [this host scale innerHeight x element] in Hs, Hh, Hx, Hsp.
  subst r_scale h_innerHeight r_x.
  destruct r_element as [el |]; [| discriminate Hsp].
  cbv zeta. unfold onSpawnEnd.
  change (negb ("rabbit-spawn-drop" =? "rabbit-spawn-drop")%string)
    with false.
  cbv iota zeta. unfold drop_frame, landed, spawned.
  destruct r_glowAnimationId; world_red.
  all: repeat split; try reflexivity.
  all: eexists; split; [reflexivity |]; dom_simpl; split; reflexivity.
Qed.

Lemma dispatch_element_lands (ls : list ElementListener) (w0 w : World) :
  let Y := innerHeight (host w0) - height cfg * scale (this w0) in
  let w' := dispatch_element cfg ls "rabbit-spawn-drop" w in
  drop_frame w0 w ->
  drop_frame w0 w'
  /\ (landed Y w -> landed Y w')
  /\ ((exists l, In l ls /\ el_kind l = OnSpawnEnd
                 /\ still_listening (el_id l) w = true) ->
      landed Y w').
Proof.
  intro Y. revert w. induction ls as [| l ls IH]; intros w w' Hf.
  - cbn in w'. subst w'. split; [exact Hf |]. split; [auto |].
    intros (l & [] & _).
  - subst w'. cbn [dispatch_element].
    set (w1 := if still_listening (el_id l) w
               then run_elementListener cfg l "rabbit-spawn-drop" w else w).
    assert (H1 : drop_frame w0 w1
                 /\ (landed Y w -> landed Y w1)
                 /\ (el_kind l = OnSpawnEnd ->
                     still_listening (el_id l) w = true -> landed Y w1)).
    { unfold w1. destruct (still_listening (el_id l) w).
      - unfold run_elementListener. destruct (el_kind l) as [| d first p].
        + destruct (onSpawnEnd_lands (el_id l) w0 w Hf) as (A & B).
          split; [exact A |]. split; auto.
        + rewrite onJumpEnd_other by discriminate.
          split; [exact Hf |]. split; [auto | discriminate].
      - split; [exact Hf |]. split; [auto | discriminate]. }
    destruct H1 as (Hf1 & Hkeep1 & Hland1).
    destruct (IH w1 Hf1) as (Hf2 & Hkeep2 & Hland2).
    split; [exact Hf2 |]. split; [auto |].
    intros (l0 & [<- | Hin] & Hk & Hstill).
    + apply Hkeep2, Hland1; assumption.
    + destruct (el_kind l) as [| d first p] eqn:Ek.
      * destruct (still_listening (el_id l) w) eqn:Es.
        -- apply Hkeep2, Hland1; reflexivity.
        -- apply Hland2. exists l0.
           exact (conj Hin (conj Hk Hstill)).
      * apply Hland2. exists l0. split; [exact Hin |]. split; [exact Hk |].
        unfold w1, run_elementListener. rewrite Ek.
        rewrite onJumpEnd_other by discriminate.
        destruct (still_listening (el_id l) w); exact Hstill.
Qed.

End Drop.

(** The drop ends on the bottom edge.  When the element has a listener
    of [spawnAndDrop], the end of the drop animation stops the spawning:
    the actor stands at [innerHeight - height * scale], as the viewport
    is at that moment, with its element moved there, without the class
    [spawning] and with the glow loop stopped; the stored [x] is
    unchanged, and no listener of the drop is left. *)
Theorem drop_ends_at_bottom (cfg : RabbitConfig) (M : JSMath) (w : World)
  (l : ElementListener)
  (registered : In l (listeners_of w))
  (for_drop : el_kind l = OnSpawnEnd) :
  let w' := handle cfg M (AnimationEnd "rabbit-spawn-drop") w in
  landed (innerHeight (host w) - height cfg * scale (this w)) w'
  /\ x (this w') = x (this w)
  /\ scale (this w') = scale (this w)
  /\ forall l', In l' (listeners_of w') -> el_kind l' <> OnSpawnEnd.
Proof.
  intro w'. subst w'. cbn [handle]. unfold listeners_of in registered.
  destruct (element (this w)) as [el |] eqn:Hel; [| destruct registered].
  assert (Hls : listeners el = listeners_of w)
    by (unfold listeners_of; rewrite Hel; reflexivity).
  rewrite Hls in *.
  assert (Hf : drop_frame w w).
  { unfold drop_frame, spawned. rewrite Hel. auto. }
  destruct (dispatch_element_lands cfg (listeners_of w) w w Hf)
    as ((Hs & _ & Hx & _) & _ & Hland).
  split; [| split; [exact Hx | split; [exact Hs |]]].
  - apply Hland. exists l. split; [exact registered |].
    split; [exact for_drop |].
    rewrite still_listening_listeners_of. apply existsb_exists.
    exists l. split; [exact registered | apply Nat.eqb_refl].
  - destruct (dispatch_element_consumes cfg "rabbit-spawn-drop"
                (listeners_of w) w) as (_ & Hsub & Hgone).
    intros l' Hl' Hk.
    apply (Hgone l' l' (Hsub l' Hl')); [| exact Hl' | reflexivity].
    unfold responds. rewrite Hk. reflexivity.
Qed.

(** ** The base class *)

(** [spawn] creates the element once.  A first [spawn] attaches the
    element that [createElement] returns, placed at the stored
    position, and touches nothing of the host; a second [spawn] leaves
    the actor exactly as it is and only logs the warning. *)
Theorem spawn_only_once (create : Element) (w : World) :
  let w1 := Sprite.spawn create w in
  let w2 := Sprite.spawn create w1 in
  spawned w1 = true
  /\ this w2 = this w1
  /\ host w2
     = set_console (console (host w1) ++ ["Sprite already spawned"%string])
         (host w1)
  /\ (element (this w) = None ->
      host w1 = host w
      /\ this w1
         = set_element
             (Some (set_isConnected true
                      (set_style
                         (set_top (Some (y (this w)))
                            (set_left (Some (x (this w))) (style create)))
                         create)))
             (this w)).
Proof.
  destruct_world w. cbv zeta. unfold Sprite.spawn, spawned.
  destruct r_element as [el |]; world_red;
    repeat split; try reflexivity; discriminate.
Qed.

Section Once.

Lemma remove_subscriptions_keeps (ts : list Tracked) (h : Host)
  (l : DocListener) :
  (forall t, In t ts ->
             same_listener (tr_event t) (tr_handler t) l = false) ->
  In l (documentListeners h) ->
  In l (documentListeners
          (fold_left
             (fun h t =>
                document_removeEventListener (tr_event t) (tr_handler t) h)
             ts h)).
Proof.
  revert h. induction ts as [| t ts IH]; intros h Hall Hin; [exact Hin |].
  cbn [fold_left]. apply IH; [intros t' Ht'; apply Hall; right; exact Ht' |].
  unfold document_removeEventListener.
  cbn [documentListeners set_documentListeners].
  apply filter_In. split; [exact Hin |].
  rewrite (Hall t (or_introl eq_refl)). reflexivity.
Qed.

End Once.

(** [destroy] of the base class removes what is tracked, and a
    listener added with [once] is not.  [addEventListener] registers
    the handler on [document] in both cases; without [once] it appends
    the subscription to [eventHandlers], with [once] it leaves
    [eventHandlers] as it is.  So a [once] listener that has not fired,
    and that no tracked subscription names, is still on [document]
    after the first [destroy]. *)
Theorem once_listener_outlives_destroy (event : string) (handler : Handler)
  (w : World)
  (alive : isDestroyed (this w) = false)
  (unnamed :
     forall t, In t (eventHandlers (this w)) ->
               same_listener (tr_event t) (tr_handler t)
                 (mkDocListener event handler true) = false)
  (fresh_handler :
     existsb (same_listener event handler) (documentListeners (host w))
     = false) :
  let tracked := Sprite.addEventListener document event handler false w in
  let once := Sprite.addEventListener document event handler true w in
  eventHandlers (this tracked)
  = eventHandlers (this w) ++ [mkTracked document event handler]
  /\ eventHandlers (this once) = eventHandlers (this w)
  /\ documentListeners (host once)
     = documentListeners (host w) ++ [mkDocListener event handler true]
  /\ subscribed (host (Sprite.destroy tracked))
       (mkTracked document event handler) = false
  /\ In (mkDocListener event handler true)
        (documentListeners (host (Sprite.destroy once))).
Proof.
  cbv zeta.
  assert (Hdoc : forall once,
             documentListeners
               (host (Sprite.addEventListener document event handler once w))
             = documentListeners (host w)
               ++ [mkDocListener event handler once]).
  { intro once. destruct_world w. cbn [host documentListeners] in *.
    unfold Sprite.addEventListener, document_addEventListener, on_host,
      on_this.
    cbv zeta. cbn [host this documentListeners]. rewrite fresh_handler.
    destruct once; reflexivity. }
  split; [destruct_world w; reflexivity |].
  split; [destruct_world w; reflexivity |].
  split; [apply Hdoc |]. split.
  - rewrite Sprite_destroy_unfold.
    assert (E : isDestroyed
                  (this (Sprite.addEventListener document event handler
                           false w)) = false)
      by (destruct_world w; exact alive).
    rewrite E. cbn [host]. unfold subscribed.
    rewrite clear_timeouts_documentListeners.
    apply remove_all_subscriptions. left.
    destruct_world w. cbn. apply in_or_app. right. left. reflexivity.
  - rewrite Sprite_destroy_unfold.
    assert (E : isDestroyed
                  (this (Sprite.addEventListener document event handler
                           true w)) = false)
      by (destruct_world w; exact alive).
    rewrite E. cbn [host]. rewrite clear_timeouts_documentListeners.
    apply remove_subscriptions_keeps.
    + intros t Ht. apply unnamed. destruct_world w. exact Ht.
    + rewrite Hdoc. apply in_or_app. right. left. reflexivity.
Qed.

(** ** The theorems above at the example page *)

(** [cooldown_always_ends] at [exampleCooling]: the cooldown is in
    force and a timeout is pending. *)
Lemma cooldown_always_ends_witness :
  exists id, pending (host exampleCooling) id = true.
Proof.
  refine (proj1 (cooldown_always_ends exampleConfig exampleMath no_options
                   1000 800 exampleLife) _ _);
    by_computation.
Defined.

(** [element_at_stored_position] at [exampleCooling]. *)
Lemma element_at_stored_position_witness :
  exists el,
    element (this exampleCooling) = Some el
    /\ style_left (style el) = Some (x (this exampleCooling))
    /\ style_top (style el) = Some (y (this exampleCooling)).
Proof.
  assert (has : exists el, element (this exampleCooling) = Some el).
  { vm_compute. eexists. reflexivity. }
  destruct has as (el & has). exists el. split; [exact has |].
  exact (element_at_stored_position exampleConfig exampleMath no_options
           1000 800 exampleLife el has).
Defined.

(** [lastDirection_left_or_right] at [exampleCooling], whose element
    carries the direction of the first jump. *)
Lemma lastDirection_left_or_right_witness :
  exists el d,
    element (this exampleCooling) = Some el
    /\ jump_direction (style el) = Some d
    /\ d = lastDirection (this exampleCooling).
Proof.
  assert (has : exists el d,
             element (this exampleCooling) = Some el
             /\ jump_direction (style el) = Some d).
  { vm_compute. do 2 eexists. split; reflexivity. }
  destruct has as (el & d & has & Hd). exists el, d.
  split; [exact has |]. split; [exact Hd |].
  exact (proj2 (lastDirection_left_or_right exampleConfig exampleMath
                  no_options 1000 800 exampleLife) el d has Hd).
Defined.

(** [jump_lands_inside] at [exampleLater]: from [x = 400] in a viewport
    1000 wide the second jump stays inside both margins. *)
Lemma jump_lands_inside_witness :
  let done :=
    handle exampleConfig exampleMath (AnimationEnd "rabbit-jump-sprite")
      (fst (jump exampleConfig (1 # 2) exampleLater)) in
  20 <= x (this done)
  /\ x (this done) + width exampleConfig * scale (this exampleLater)
     <= innerWidth (host exampleLater) - 20.
Proof.
  assert (has : exists el,
             element (this exampleLater) = Some el /\ listeners el = []).
  { vm_compute. eexists. split; reflexivity. }
  destruct has as (el & has & Hls).
  assert (none : forall l, In l (listeners el) -> el_kind l = OnSpawnEnd).
  { intros l F. rewrite Hls in F. destruct F. }
  assert (facing : lastDirection (this exampleLater) = 1%Z
                   \/ lastDirection (this exampleLater) = (-1)%Z)
    by (right; by_computation).
  assert (begun : exists p,
             snd (jump exampleConfig (1 # 2) exampleLater) = Pending p).
  { vm_compute. eexists. reflexivity. }
  destruct begun as (p & begun).
  refine (proj2 (proj2 (proj2 (proj2 (proj2 (proj2 (proj2
            (jump_lands_inside exampleConfig exampleMath (1 # 2)
               exampleLater el p has facing none begun)))))))
            _ _ _ _);
    by_computation.
Defined.

(** [animationend_consumed_once] at [exampleStart]: the end of the
    sprite animation of the drop changes nothing. *)
Lemma animationend_consumed_once_witness :
  handle exampleConfig exampleMath (AnimationEnd "rabbit-spawn-sprite")
    exampleStart
  = exampleStart.
Proof.
  exact (proj2 (animationend_consumed_once exampleConfig exampleMath
                  "rabbit-spawn-sprite" exampleStart) eq_refl eq_refl).
Defined.

(** [mouse_move_decides] at [exampleIdle]: a pointer at the bottom
    centre of the idle actor starts a jump. *)
Lemma mouse_move_decides_witness :
  isJumping
    (this (run_mouseHandler exampleConfig exampleMath 150
             (mkMouseEvent 164 800) (mkAmbient (mkRect 100 128 800) (1 # 2))
             exampleIdle))
  = true.
Proof.
  assert (has : exists el, element (this exampleIdle) = Some el).
  { vm_compute. eexists. reflexivity. }
  destruct has as (el & has).
  refine (proj1 (proj1 (proj2 (proj2 (proj2 (proj2
            (mouse_move_decides exampleConfig exampleMath 150
               (mkMouseEvent 164 800)
               (mkAmbient (mkRect 100 128 800) (1 # 2))
               exampleIdle el has))))) _ _ _));
    by_computation.
Defined.

(** [enableMouseReaction_twice] on the example page: one click at the
    bottom centre adds the boost twice. *)
Lemma enableMouseReaction_twice_witness :
  let click :=
    Click (mkMouseEvent 164 800) (mkAmbient (mkRect 100 128 800) 0) in
  let w :=
    run exampleConfig exampleMath (map On [])
      (enableMouseReaction exampleConfig None
         (spawnAndDrop 100 0
            (initial_world exampleConfig no_options 1000 800))) in
  permanentGlowBonus
    (this (handle exampleConfig exampleMath click
             (enableMouseReaction exampleConfig None w)))
  = Qmin (Qmin (permanentGlowBonus (this w)
                + glowBoostPerClick exampleConfig)
               (maxPermanentGlow exampleConfig)
          + glowBoostPerClick exampleConfig)
         (maxPermanentGlow exampleConfig).
Proof.
  intros click w.
  assert (near : qualifying exampleConfig exampleMath click = true)
    by (vm_compute; reflexivity).
  exact (proj1 (proj2 (enableMouseReaction_twice exampleConfig exampleMath
                         no_options 1000 800 100 0 None None []))
           (mkMouseEvent 164 800) (mkAmbient (mkRect 100 128 800) 0) near).
Defined.

Lemma example_pow_unit (t : Q) :
  0 <= t -> t <= 1 ->
  0 <= Math_pow exampleMath t (glowExponent exampleConfig)
  /\ Math_pow exampleMath t (glowExponent exampleConfig) <= 1.
Proof.
  intros Hlo Hhi.
  change (Math_pow exampleMath t (glowExponent exampleConfig)) with (t * t).
  split; nra.
Qed.

(** [glow_within_range] for the example configuration and a pointer
    at distance 150, half the glow range. *)
Lemma glow_within_range_witness :
  1 + permanentGlowBonus (this exampleIdle)
  <= totalGlow exampleConfig exampleMath (Finite 150) (this exampleIdle)
  /\ totalGlow exampleConfig exampleMath (Finite 150) (this exampleIdle)
     <= 1 + maxProximityGlow exampleConfig
        + permanentGlowBonus (this exampleIdle).
Proof.
  refine (proj1 (proj2 (glow_within_range exampleConfig exampleMath _ _ _
                          example_pow_unit 150 _ (this exampleIdle))));
    by_computation.
Defined.

(** [drop_ends_at_bottom] at [exampleStart]: in a viewport 800 high
    the actor, 64 by scale 4 high, lands at [y = 544]. *)
Lemma drop_ends_at_bottom_witness :
  landed (innerHeight (host exampleStart)
          - height exampleConfig * scale (this exampleStart))
    exampleIdle.
Proof.
  refine (proj1 (drop_ends_at_bottom exampleConfig exampleMath exampleStart
                   (mkElementListener 3 OnSpawnEnd) _ _)).
  - vm_compute. left. reflexivity.
  - reflexivity.
Defined.

(** [spawn_only_once] for a new actor: the first [spawn] leaves the
    host as it is. *)
Lemma spawn_only_once_witness :
  host (Sprite.spawn createElement
          (initial_world exampleConfig no_options 1000 800))
  = host (initial_world exampleConfig no_options 1000 800).
Proof.
  exact (proj1 (proj2 (proj2 (proj2
           (spawn_only_once createElement
              (initial_world exampleConfig no_options 1000 800)))) eq_refl)).
Defined.

(** [once_listener_outlives_destroy] for a new actor and a click
    handler added with [once]. *)
Lemma once_listener_outlives_destroy_witness :
  In (mkDocListener "click" (mkHandler 7 ClickHandler) true)
     (documentListeners
        (host (Sprite.destroy
                 (Sprite.addEventListener document "click"
                    (mkHandler 7 ClickHandler) true
                    (initial_world exampleConfig no_options 1000 800))))).
Proof.
  refine (proj2 (proj2 (proj2 (proj2
            (once_listener_outlives_destroy "click"
               (mkHandler 7 ClickHandler)
               (initial_world exampleConfig no_options 1000 800) _ _ _))))).
  - reflexivity.
  - intros t F. destruct F.
  - reflexivity.
Defined.

(** * The terminal *)

(** ** Typing delays *)

(** The delay lies between the floors of the base scaled by
    [1 - variance] and by [1 + variance]. *)
Lemma getRandomDelay_between (rnd base v : Q) :
  0 <= rnd -> rnd < 1 -> 0 <= base -> 0 <= v ->
  (Qfloor (base * (1 - v)) <= getRandomDelay rnd base v
   <= Qfloor (base * (1 + v)))%Z.
Proof.
  intros draw_lo draw_hi base_nonneg v_lo.
  unfold getRandomDelay. cbv zeta.
  assert (Hbv : 0 <= base * v) by (apply Qmult_le_0_compat; assumption).
  assert (Hr : 0 <= base * v * rnd)
    by (apply Qmult_le_0_compat; assumption).
  assert (Hr' : 0 <= base * v * (1 - rnd))
    by (apply Qmult_le_0_compat; [assumption | lra]).
  assert (E : base * (1 + (rnd - (1 # 2)) * 2 * v)
              == base - base * v + 2 * (base * v * rnd)) by ring.
  split; apply Qfloor_resp_le; rewrite E; lra.
Qed.

(** The delays of [TYPING_CONFIG].  The pause of a line is bounded
    from 334: on rationals it is 335 at least, and the source, which
    multiplies in binary64, rounds the product of the draw [0] to just
    below 335. *)
Lemma typing_delays (rnd : Q) :
  0 <= rnd -> rnd < 1 ->
  let v := variance TYPING_CONFIG in
  (60 <= getRandomDelay rnd (baseSpeed TYPING_CONFIG) v <= 119)%Z
  /\ (87 <= getRandomDelay rnd (spacePause TYPING_CONFIG) v <= 172)%Z
  /\ (43 <= getRandomDelay rnd (spacePause TYPING_CONFIG * (1 # 2)) v
      <= 86)%Z
  /\ (334 <= getRandomDelay rnd (linePause TYPING_CONFIG) v <= 665)%Z.
Proof.
  intros lo hi v.
  split; [| split; [| split]];
    match goal with
    | |- (_ <= getRandomDelay _ ?b _ <= _)%Z =>
        assert (Hb : 0 <= b) by (vm_compute; discriminate);
        assert (Hv : 0 <= v) by (vm_compute; discriminate);
        pose proof (getRandomDelay_between rnd b v lo hi Hb Hv) as H;
        vm_compute Qfloor in H; lia
    end.
Qed.

(** [getRandomDelay] stays within the variance.  For a draw in
    [[0, 1)], a base that is not negative and a variance between [0]
    and [1], the delay is an integer, not negative, that grows with
    the draw.  With the values of [TYPING_CONFIG]: a character takes
    60 to 119 ms, the pause before a space 87 to 172 ms, the pause
    after a word 43 to 86 ms and the pause around a submitted line 334
    to 665 ms.  The bounds are those of the source, which computes in
    binary64: each leaves the rounding of the product its room. *)
Theorem getRandomDelay_within_variance (rnd base v : Q)
  (draw_lo : 0 <= rnd) (draw_hi : rnd < 1)
  (base_nonneg : 0 <= base) (v_lo : 0 <= v) (v_hi : v <= 1) :
  (0 <= getRandomDelay rnd base v)%Z
  /\ (forall rnd', rnd <= rnd' ->
        (getRandomDelay rnd base v <= getRandomDelay rnd' base v)%Z)
  /\ (let v := variance TYPING_CONFIG in
      (60 <= getRandomDelay rnd (baseSpeed TYPING_CONFIG) v <= 119)%Z
      /\ (87 <= getRandomDelay rnd (spacePause TYPING_CONFIG) v <= 172)%Z
      /\ (43 <= getRandomDelay rnd (spacePause TYPING_CONFIG * (1 # 2)) v
          <= 86)%Z
      /\ (334 <= getRandomDelay rnd (linePause TYPING_CONFIG) v <= 665)%Z).
Proof.
  split.
  { pose proof (getRandomDelay_between rnd base v draw_lo draw_hi
                  base_nonneg v_lo) as [H _].
    assert (H0 : (Qfloor 0 <= Qfloor (base * (1 - v)))%Z).
    { apply Qfloor_resp_le. apply Qmult_le_0_compat; [assumption | lra]. }
    change (Qfloor 0) with 0%Z in H0. lia. }
  split; [| apply typing_delays; assumption].
  intros rnd' Hle. unfold getRandomDelay. cbv zeta.
  apply Qfloor_resp_le.
  assert (Hbv : 0 <= base * v) by (apply Qmult_le_0_compat; assumption).
  assert (H : 0 <= base * v * (rnd' - rnd))
    by (apply Qmult_le_0_compat; [assumption | lra]).
  assert (E : forall r, base * (1 + (r - (1 # 2)) * 2 * v)
                        == base - base * v + 2 * (base * v * r))
    by (intro r; ring).
  rewrite !E. lra.
Qed.

(** ** Lines by identity *)

Section TerminalLines.

Import Terminal.

Ltac term_red :=
  cbn [lines history activeContainer currentLine next_line cursor_display
       wrapper_attached].

Lemma line_id_on_line (id : nat) (f : list Node -> list Node)
  (ls : list Line) :
  map line_id (on_line id f ls) = map line_id ls.
Proof.
  unfold on_line. rewrite map_map. apply map_ext.
  intro l. destruct (Nat.eqb (line_id l) id); reflexivity.
Qed.

Lemma line_id_detach_cursor (ls : list Line) :
  map line_id (detach_cursor ls) = map line_id ls.
Proof. unfold detach_cursor. rewrite map_map. reflexivity. Qed.

Lemma find_on_line_same (id : nat) (f : list Node -> list Node)
  (ls : list Line) :
  find (fun l => Nat.eqb (line_id l) id) (on_line id f ls)
  = option_map (fun l => mkLine (line_id l) (f (children l)))
      (find (fun l => Nat.eqb (line_id l) id) ls).
Proof.
  induction ls as [| l ls IH]; [reflexivity |].
  cbn. destruct (Nat.eqb (line_id l) id) eqn:E; cbn; rewrite E;
    [reflexivity | exact IH].
Qed.

Lemma find_on_line_other (id h : nat) (f : list Node -> list Node)
  (ls : list Line) :
  h <> id ->
  find (fun l => Nat.eqb (line_id l) h) (on_line id f ls)
  = find (fun l => Nat.eqb (line_id l) h) ls.
Proof.
  intro Hne. induction ls as [| l ls IH]; [reflexivity |].
  cbn. destruct (Nat.eqb (line_id l) id) eqn:E; cbn.
  - apply Nat.eqb_eq in E.
    assert (E' : Nat.eqb (line_id l) h = false)
      by (apply Nat.eqb_neq; congruence).
    rewrite E'. exact IH.
  - destruct (Nat.eqb (line_id l) h); [reflexivity | exact IH].
Qed.

Lemma find_detach_cursor (h : nat) (ls : list Line) :
  find (fun l => Nat.eqb (line_id l) h) (detach_cursor ls)
  = option_map
      (fun l => mkLine (line_id l)
                  (filter (fun n => negb (is_cursor n)) (children l)))
      (find (fun l => Nat.eqb (line_id l) h) ls).
Proof.
  induction ls as [| l ls IH]; [reflexivity |].
  cbn. destruct (Nat.eqb (line_id l) h); [reflexivity | exact IH].
Qed.

Lemma find_line_below (n : nat) (ls : list Line) :
  (forall l, In l ls -> (line_id l < n)%nat) ->
  find (fun l => Nat.eqb (line_id l) n) ls = None.
Proof.
  intro Hlt. induction ls as [| l ls IH]; [reflexivity |].
  cbn. assert (E : Nat.eqb (line_id l) n = false).
  { apply Nat.eqb_neq. specialize (Hlt l (or_introl eq_refl)). lia. }
  rewrite E. apply IH. intros l' Hin. apply Hlt. right. exact Hin.
Qed.

Lemma find_line_app (h : nat) (ls ls' : list Line) :
  find (fun l => Nat.eqb (line_id l) h) (ls ++ ls')
  = match find (fun l => Nat.eqb (line_id l) h) ls with
    | Some l => Some l
    | None => find (fun l => Nat.eqb (line_id l) h) ls'
    end.
Proof.
  induction ls as [| l ls IH]; [reflexivity |].
  cbn. destruct (Nat.eqb (line_id l) h); [reflexivity | exact IH].
Qed.

Lemma shown_below (h : nat) (t : Terminal) (ns : list Node) :
  (forall l, In l (lines t) -> (line_id l < next_line t)%nat) ->
  shown h t = Some ns -> (h < next_line t)%nat.
Proof.
  intros Hlt. unfold shown, line.
  destruct (find _ (lines t)) as [l |] eqn:E; [| discriminate].
  intros _. apply find_some in E. destruct E as [Hin E].
  apply Nat.eqb_eq in E. subst h. apply Hlt, Hin.
Qed.

Lemma insertBefore_cursor_typed (c : ascii) (typed : list ascii) :
  insertBefore_cursor (Text c) (map Text typed ++ [Cursor])
  = Some (map Text (typed ++ [c]) ++ [Cursor]).
Proof.
  induction typed as [| a typed IH]; [reflexivity |].
  cbn. cbn in IH. rewrite IH. reflexivity.
Qed.

Lemma filter_cursor_text (typed : list ascii) :
  filter (fun n => negb (is_cursor n)) (map Text typed) = map Text typed.
Proof.
  induction typed as [| a typed IH]; [reflexivity |].
  cbn. rewrite IH. reflexivity.
Qed.

Lemma filter_cursor_typed (typed : list ascii) :
  filter (fun n => negb (is_cursor n)) (map Text typed ++ [Cursor])
  = map Text typed.
Proof.
  rewrite filter_app, filter_cursor_text. cbn. apply app_nil_r.
Qed.

Lemma without_absent (id : nat) (ids : list nat) :
  ~ In id ids -> without id ids = ids.
Proof.
  intro Hn. induction ids as [| i ids IH]; [reflexivity |].
  cbn. assert (E : Nat.eqb i id = false).
  { apply Nat.eqb_neq. intro E. apply Hn. left. exact E. }
  rewrite E. cbn. f_equal. apply IH. intro H. apply Hn. right. exact H.
Qed.

(** A new terminal shows an empty line. *)
Lemma new_Terminal_showing : showing [] [] new_Terminal.
Proof.
  exists 1%nat. cbn. repeat split; try reflexivity.
  - intros [].
  - repeat constructor. intros [].
  - constructor.
  - intros l [E | []]. subst l. cbn. lia.
Qed.

(** [addChar] on a terminal as its methods leave it. *)
Lemma addChar_showing (c : ascii) (submitted : list (list ascii))
  (typed : list ascii) (t : Terminal) :
  showing submitted typed t ->
  exists t',
    addChar c t = Some t'
    /\ showing submitted (typed ++ [c]) t'
    /\ cursor_display t' = cursor_display t
    /\ wrapper_attached t' = wrapper_attached t.
Proof.
  intros (id & Hcur & Hact & Hshown & Hnot & Hhist & Hall & Hids & Hnd
          & Hlt).
  unfold addChar. rewrite Hcur.
  unfold shown, line in Hshown.
  unfold line.
  destruct (find _ (lines t)) as [l |] eqn:El; [| discriminate].
  injection Hshown as Hl. rewrite Hl. cbn [insertBefore_cursor].
  rewrite insertBefore_cursor_typed.
  eexists. split; [reflexivity |]. split; [| split; reflexivity].
  exists id. cbn. repeat split; try assumption.
  - unfold shown, line. cbn. rewrite find_on_line_same, El. reflexivity.
  - rewrite <- Hhist. apply map_ext_in. intros h Hin.
    unfold shown, line. cbn. rewrite find_on_line_other; [reflexivity |].
    intro E. subst h. contradiction.
  - rewrite line_id_on_line. exact Hall.
  - rewrite line_id_on_line. exact Hids.
  - intros l' Hin. apply (in_map line_id) in Hin.
    rewrite line_id_on_line in Hin. apply in_map_iff in Hin.
    destruct Hin as (l0 & E & Hin). rewrite <- E. apply Hlt, Hin.
Qed.

(** [submitLine] on a terminal as its methods leave it. *)
Lemma submitLine_showing (submitted : list (list ascii))
  (typed : list ascii) (t : Terminal) :
  showing submitted typed t ->
  exists t',
    submitLine t = Some t'
    /\ showing (submitted ++ [typed]) [] t'
    /\ cursor_display t' = cursor_display t
    /\ wrapper_attached t' = wrapper_attached t.
Proof.
  intros (id & Hcur & Hact & Hshown & Hnot & Hhist & Hall & Hids & Hnd
          & Hlt).
  unfold submitLine. rewrite Hcur.
  eexists. split; [reflexivity |]. split; [| split; reflexivity].
  assert (Hid : (id < next_line t)%nat) by (eapply shown_below; eassumption).
  assert (Hbelow : forall l,
             In l (detach_cursor
                     (detach_cursor (on_line id blank_prompt (lines t)))) ->
             (line_id l < next_line t)%nat).
  { intros l Hin. apply (in_map line_id) in Hin.
    rewrite !line_id_detach_cursor, line_id_on_line in Hin.
    apply in_map_iff in Hin. destruct Hin as (l0 & E & Hin).
    rewrite <- E. apply Hlt, Hin. }
  exists (next_line t). unfold newLine. term_red.
  rewrite (without_absent id (history t) Hnot).
  split; [reflexivity |]. split; [reflexivity |].
  split.
  { unfold shown, line. term_red. rewrite find_line_app.
    rewrite (find_line_below _ _ Hbelow). cbn.
    rewrite Nat.eqb_refl. reflexivity. }
  split.
  { intro Hin. apply in_app_or in Hin. destruct Hin as [Hin | [E | []]].
    - apply (in_map (fun h => shown h t)) in Hin. rewrite Hhist in Hin.
      apply in_map_iff in Hin. destruct Hin as (text & E & _).
      symmetry in E. apply shown_below in E; [lia | exact Hlt].
    - lia. }
  assert (Hold : forall h,
             (h < next_line t)%nat ->
             shown h
               (mkTerminal
                  (detach_cursor
                     (detach_cursor (on_line id blank_prompt (lines t)))
                   ++ [mkLine (next_line t) [createPrompt; Cursor]])
                  (history t ++ [id]) [next_line t] (Some (next_line t))
                  (cursor_display t) (wrapper_attached t)
                  (S (next_line t)))
             = match find (fun l => Nat.eqb (line_id l) h)
                       (on_line id blank_prompt (lines t)) with
               | Some l =>
                   Some (filter (fun n => negb (is_cursor n))
                           (filter (fun n => negb (is_cursor n))
                              (children l)))
               | None => None
               end).
  { intros h Hh. unfold shown, line. term_red. rewrite find_line_app.
    rewrite !find_detach_cursor.
    destruct (find _ (on_line id blank_prompt (lines t))) as [l |];
      cbn; [reflexivity |].
    assert (E : Nat.eqb (next_line t) h = false)
      by (apply Nat.eqb_neq; lia).
    rewrite E. reflexivity. }
  split.
  { rewrite !map_app. cbn. f_equal.
    - rewrite <- Hhist. apply map_ext_in. intros h Hin.
      assert (Hs : exists text,
                 shown h t = Some (Prompt " " :: map Text text)).
      { apply (in_map (fun h => shown h t)) in Hin. rewrite Hhist in Hin.
        apply in_map_iff in Hin. destruct Hin as (text & E & _).
        exists text. symmetry. exact E. }
      destruct Hs as (text & Hs).
      rewrite Hold by (eapply shown_below; eassumption).
      rewrite find_on_line_other by (intro E; subst h; contradiction).
      rewrite Hs. unfold shown, line in Hs.
      destruct (find _ (lines t)) as [l |]; [| discriminate].
      injection Hs as Hs. rewrite Hs. cbn.
      rewrite !filter_cursor_text. reflexivity.
    - f_equal. rewrite Hold by exact Hid.
      rewrite find_on_line_same.
      unfold shown, line in Hshown.
      destruct (find _ (lines t)) as [l |]; [| discriminate].
      injection Hshown as Hl. cbn. rewrite Hl. cbn.
      rewrite filter_cursor_typed, filter_cursor_text. reflexivity. }
  split.
  { rewrite map_app, !line_id_detach_cursor, line_id_on_line, Hall.
    reflexivity. }
  split.
  { rewrite map_app, !line_id_detach_cursor, line_id_on_line. cbn.
    apply NoDup_app; [exact Hids | repeat constructor; intros [] |].
    intros i Hin [E | []]. subst i. apply in_map_iff in Hin.
    destruct Hin as (l & E & Hin). specialize (Hlt l Hin). lia. }
  split.
  { apply NoDup_app; [exact Hnd | repeat constructor; intros [] |].
    intros i Hin [E | []]. subst i. contradiction. }
  intros l Hin. apply in_app_or in Hin. destruct Hin as [Hin | [E | []]].
  - specialize (Hbelow l Hin). lia.
  - subst l. cbn. lia.
Qed.

End TerminalLines.

(** ** Typing *)

Section TerminalTyping.

Import Terminal.

Variable config : TypingConfig.
Variable rand : nat -> Q.

Lemma type_char_showing (c : ascii) (next : option ascii)
  (submitted : list (list ascii)) (typed : list ascii) (s : Typist) :
  showing submitted typed (term s) ->
  exists s',
    type_char config rand c next s = Some s'
    /\ showing submitted (typed ++ [c]) (term s')
    /\ cursor_display (term s') = cursor_display (term s)
    /\ wrapper_attached (term s') = wrapper_attached (term s).
Proof.
  intro H. unfold type_char.
  destruct (addChar_showing c submitted typed (term s) H)
    as (t' & E & Hs & Hc & Hw).
  assert (Et : term (if is_space c then pause config rand (spacePause config) s
                     else s) = term s)
    by (destruct (is_space c); reflexivity).
  cbv zeta. rewrite Et, E.
  eexists. split; [reflexivity |].
  destruct next as [c' |]; [destruct (is_space c') |]; cbn; auto.
Qed.

Lemma type_showing (text : list ascii) :
  forall (submitted : list (list ascii)) (typed : list ascii) (s : Typist),
    showing submitted typed (term s) ->
    exists s',
      type config rand text s = Some s'
      /\ showing submitted (typed ++ text) (term s')
      /\ cursor_display (term s') = cursor_display (term s)
      /\ wrapper_attached (term s') = wrapper_attached (term s).
Proof.
  induction text as [| c rest IH]; intros submitted typed s H.
  - exists s. rewrite app_nil_r. auto.
  - destruct (type_char_showing c (hd_error rest) submitted typed s H)
      as (s1 & E1 & H1 & C1 & W1).
    destruct (IH submitted (typed ++ [c]) s1 H1) as (s' & E & H' & C & W).
    exists s'. cbn [type]. rewrite E1. split; [exact E |].
    rewrite <- app_assoc in H'. cbn [app] in H'.
    split; [exact H' |]. split; congruence.
Qed.

Lemma typeLine_showing (text : list ascii)
  (submitted : list (list ascii)) (typed : list ascii) (s : Typist) :
  showing submitted typed (term s) ->
  exists s',
    typeLine config rand text s = Some s'
    /\ showing (submitted ++ [typed ++ text]) [] (term s')
    /\ cursor_display (term s') = cursor_display (term s)
    /\ wrapper_attached (term s') = wrapper_attached (term s)
    /\ exists s1 before after,
         type config rand text s = Some s1
         /\ slept s' = slept s1 ++ [before; after]
         /\ draws s' = S (S (draws s1))
         /\ before = getRandomDelay (rand (draws s1)) (linePause config)
                       (variance config)
         /\ after = getRandomDelay (rand (S (draws s1))) (linePause config)
                      (variance config).
Proof.
  intro H. unfold typeLine.
  destruct (type_showing text submitted typed s H)
    as (s1 & E1 & H1 & C1 & W1).
  rewrite E1. cbv zeta. cbn [pause term slept draws].
  destruct (submitLine_showing submitted (typed ++ text) (term s1) H1)
    as (t' & E & H' & C & W).
  rewrite E. eexists. split; [reflexivity |].
  unfold pause. cbn [term slept draws].
  split; [exact H' |]. split; [congruence |]. split; [congruence |].
  exists s1. do 2 eexists. split; [reflexivity |].
  rewrite <- app_assoc. cbn [app]. repeat split; reflexivity.
Qed.

Lemma run_showing (commands : list Command) :
  forall (submitted : list (list ascii)) (typed : list ascii) (s : Typist),
    showing submitted typed (term s) ->
    exists s',
      run config rand commands s = Some s'
      /\ showing (submitted ++ fst (screen commands typed))
           (snd (screen commands typed)) (term s')
      /\ cursor_display (term s') = cursor_display (term s)
      /\ wrapper_attached (term s') = wrapper_attached (term s).
Proof.
  induction commands as [| cmd rest IH]; intros submitted typed s H.
  - exists s. cbn. rewrite app_nil_r. auto.
  - cbn [run screen]. destruct (cmd_submit cmd).
    + destruct (typeLine_showing (cmd_text cmd) submitted typed s H)
        as (s1 & E1 & H1 & C1 & W1 & _).
      rewrite E1.
      destruct (IH _ _ s1 H1) as (s' & E & H' & C & W).
      exists s'. split; [exact E |].
      destruct (screen rest []) as [more last]. cbn [fst snd] in *.
      rewrite <- app_assoc in H'. cbn [app] in H'.
      split; [exact H' |]. split; congruence.
    + destruct (type_showing (cmd_text cmd) submitted typed s H)
        as (s1 & E1 & H1 & C1 & W1).
      rewrite E1.
      destruct (IH _ _ s1 H1) as (s' & E & H' & C & W).
      exists s'. split; [exact E |]. split; [exact H' |].
      split; congruence.
Qed.

End TerminalTyping.

(** *** The pauses of [type] *)

Section TypingTime.

Import Terminal.

Variable rand : nat -> Q.
Hypothesis draws_ok : forall n, 0 <= rand n /\ rand n < 1.

Lemma slept_two (l : list Z) (a b : Z) :
  (l ++ [a]) ++ [b] = l ++ [a; b].
Proof. rewrite <- app_assoc. reflexivity. Qed.

Lemma slept_three (l : list Z) (a b c : Z) :
  ((l ++ [a]) ++ [b]) ++ [c] = l ++ [a; b; c].
Proof. rewrite <- !app_assoc. reflexivity. Qed.

Lemma type_char_slept (c : ascii) (next : option ascii) (s s' : Typist) :
  type_char TYPING_CONFIG rand c next s = Some s' ->
  exists pauses,
    slept s' = slept s ++ pauses
    /\ draws s' = (draws s + List.length pauses)%nat
    /\ List.length pauses
       = (1 + space_count (Some c) + space_count next)%nat
    /\ Forall (fun p => (43 <= p <= 172)%Z) pauses
    /\ (60 + 87 * Z.of_nat (space_count (Some c))
        + 43 * Z.of_nat (space_count next)
        <= total pauses
        <= 119 + 172 * Z.of_nat (space_count (Some c))
           + 86 * Z.of_nat (space_count next))%Z.
Proof.
  unfold type_char, space_count. cbv zeta.
  assert (D : forall n,
             let v := variance TYPING_CONFIG in
             (60 <= getRandomDelay (rand n) (baseSpeed TYPING_CONFIG) v
              <= 119)%Z
             /\ (87 <= getRandomDelay (rand n) (spacePause TYPING_CONFIG) v
                 <= 172)%Z
             /\ (43 <= getRandomDelay (rand n)
                         (spacePause TYPING_CONFIG * (1 # 2)) v
                 <= 86)%Z
             /\ (334 <= getRandomDelay (rand n) (linePause TYPING_CONFIG) v
                 <= 665)%Z).
  { intro n. destruct (draws_ok n). apply typing_delays; assumption. }
  cbv zeta in D.
  destruct (is_space c);
    (destruct (addChar c _) as [t |]; [| discriminate]);
    (destruct next as [c' |]; [destruct (is_space c') |]);
    intro E; injection E as E; subst s';
    cbn [pause term slept draws];
    eexists;
    (split; [first [apply slept_three | apply slept_two | reflexivity] |]);
    cbn [List.length total fold_right];
    (split; [lia |]); (split; [reflexivity |]);
    pose proof (D (draws s)); pose proof (D (S (draws s)));
    pose proof (D (S (S (draws s))));
    unfold TYPING_CONFIG in *;
    cbn [baseSpeed variance spacePause linePause] in *;
    (split; [repeat (apply Forall_cons; [lia |]); apply Forall_nil | lia]).
Qed.

Lemma spaces_cons (c : ascii) (text : list ascii) :
  spaces (c :: text) = (space_count (Some c) + spaces text)%nat.
Proof.
  unfold spaces, space_count. cbn [filter].
  destruct (is_space c); reflexivity.
Qed.

Lemma spaces_hd (text : list ascii) :
  spaces text = (space_count (hd_error text) + spaces (tl text))%nat.
Proof. destruct text as [| c text]; [reflexivity | apply spaces_cons]. Qed.

Lemma total_app (ps qs : list Z) :
  total (ps ++ qs) = (total ps + total qs)%Z.
Proof.
  induction ps as [| p ps IH]; [reflexivity |].
  cbn [app total fold_right]. fold (total (ps ++ qs)). fold (total ps).
  lia.
Qed.

Lemma type_slept (text : list ascii) :
  forall s s' : Typist,
    type TYPING_CONFIG rand text s = Some s' ->
    exists pauses,
      slept s' = slept s ++ pauses
      /\ draws s' = (draws s + List.length pauses)%nat
      /\ List.length pauses
         = (List.length text + spaces text + spaces (tl text))%nat
      /\ Forall (fun p => (43 <= p <= 172)%Z) pauses
      /\ (60 * Z.of_nat (List.length text) + 87 * Z.of_nat (spaces text)
          + 43 * Z.of_nat (spaces (tl text))
          <= total pauses
          <= 119 * Z.of_nat (List.length text)
             + 172 * Z.of_nat (spaces text)
             + 86 * Z.of_nat (spaces (tl text)))%Z.
Proof.
  induction text as [| c rest IH]; intros s s' E.
  - injection E as E. subst s'. exists []. rewrite app_nil_r.
    cbn. repeat split; try lia. constructor.
  - cbn [type] in E.
    destruct (type_char TYPING_CONFIG rand c (hd_error rest) s)
      as [s1 |] eqn:E1; [| discriminate].
    destruct (type_char_slept _ _ _ _ E1) as (ps & S1 & D1 & L1 & F1 & T1).
    destruct (IH _ _ E) as (qs & S2 & D2 & L2 & F2 & T2).
    exists (ps ++ qs).
    rewrite S2, S1, D2, D1, length_app, L1, L2, total_app, app_assoc.
    rewrite spaces_cons. cbn [tl List.length].
    rewrite (spaces_hd rest) in *.
    split; [reflexivity |]. split; [lia |]. split; [lia |].
    split; [apply Forall_app; split; assumption |]. lia.
Qed.

End TypingTime.

(** ** The methods of the terminal *)

Section TerminalMethods.

Import Terminal.

Lemma hideCursor_showing (submitted : list (list ascii))
  (typed : list ascii) (t : Terminal) :
  showing submitted typed t -> showing submitted typed (hideCursor t).
Proof. intro H. exact H. Qed.

(** [type] appends the text to the current line.  On a terminal as
    its methods leave it, showing the lines [submitted] and the
    characters [typed] on the current line, [type(text)] does not
    throw: the cursor is in the current line for every [insertBefore].
    It leaves the submitted lines as they are and the current line
    with the prompt, [typed] followed by [text], and the cursor last;
    the display of the cursor and the wrapper are not touched. *)
Theorem type_appends_text (config : TypingConfig) (rand : nat -> Q)
  (text : list ascii) (submitted : list (list ascii))
  (typed : list ascii) (s : Typist)
  (as_left : showing submitted typed (term s)) :
  exists s',
    type config rand text s = Some s'
    /\ showing submitted (typed ++ text) (term s')
    /\ cursor_display (term s') = cursor_display (term s)
    /\ wrapper_attached (term s') = wrapper_attached (term s).
Proof. apply type_showing, as_left. Qed.

(** The time [type] takes.  With [TYPING_CONFIG] and draws of
    [Math.random()] in [[0, 1)], [type(text)] sleeps once for each
    character, once more before each space and once more after each
    character followed by a space, drawing once for each pause.  Each
    pause is between 43 and 172 ms, and together they take at least
    60 ms for each character, 87 ms for each space and 43 ms for each
    character before a space, and at most 119, 172 and 86 ms. *)
Theorem type_duration (rand : nat -> Q) (text : list ascii)
  (submitted : list (list ascii)) (typed : list ascii) (s : Typist)
  (draws_ok : forall n, 0 <= rand n /\ rand n < 1)
  (as_left : showing submitted typed (term s)) :
  exists s' pauses,
    type TYPING_CONFIG rand text s = Some s'
    /\ slept s' = slept s ++ pauses
    /\ draws s' = (draws s + List.length pauses)%nat
    /\ List.length pauses
       = (List.length text + spaces text + spaces (tl text))%nat
    /\ Forall (fun p => (43 <= p <= 172)%Z) pauses
    /\ (60 * Z.of_nat (List.length text) + 87 * Z.of_nat (spaces text)
        + 43 * Z.of_nat (spaces (tl text))
        <= total pauses
        <= 119 * Z.of_nat (List.length text)
           + 172 * Z.of_nat (spaces text)
           + 86 * Z.of_nat (spaces (tl text)))%Z.
Proof.
  destruct (type_showing TYPING_CONFIG rand text submitted typed s as_left)
    as (s' & E & _).
  destruct (type_slept rand draws_ok text s s' E) as (pauses & H).
  exists s', pauses. split; [exact E | exact H].
Qed.

(** [typeLine] submits what is on the line.  On a terminal as its
    methods leave it, [typeLine(text)] does not throw; the line typed,
    [typed] followed by [text], becomes the last line of the history,
    its prompt blanked and the cursor taken out of it, and the current
    line is a new one, alone in the active container, with a prompt
    and the cursor only.  After the typing it sleeps twice, for the
    delays of [linePause] on the next two draws. *)
Theorem typeLine_submits (config : TypingConfig) (rand : nat -> Q)
  (text : list ascii) (submitted : list (list ascii))
  (typed : list ascii) (s : Typist)
  (as_left : showing submitted typed (term s)) :
  exists s',
    typeLine config rand text s = Some s'
    /\ showing (submitted ++ [typed ++ text]) [] (term s')
    /\ cursor_display (term s') = cursor_display (term s)
    /\ wrapper_attached (term s') = wrapper_attached (term s)
    /\ exists s1 before after,
         type config rand text s = Some s1
         /\ slept s' = slept s1 ++ [before; after]
         /\ draws s' = S (S (draws s1))
         /\ before = getRandomDelay (rand (draws s1)) (linePause config)
                       (variance config)
         /\ after = getRandomDelay (rand (S (draws s1))) (linePause config)
                      (variance config).
Proof. apply typeLine_showing, as_left. Qed.

(** [run] on a new terminal.  Whatever the commands, the typing
    configuration and the draws, [run(commands)] on a terminal just
    constructed does not throw and leaves what [screen] tells: in the
    history, in order, one line for each submitted command, holding
    the texts of the commands since the submission before; on the
    current line the texts of the commands after the last submitted
    one.  The cursor is shown and the wrapper in place. *)
Theorem run_shows_screen (config : TypingConfig) (rand : nat -> Q)
  (commands : list Command) :
  exists s',
    run config rand commands (mkTypist new_Terminal [] 0) = Some s'
    /\ showing (fst (screen commands [])) (snd (screen commands []))
         (term s')
    /\ cursor_display (term s') = ""%string
    /\ wrapper_attached (term s') = true.
Proof.
  destruct (run_showing config rand commands [] []
              (mkTypist new_Terminal [] 0) new_Terminal_showing)
    as (s' & E & H & C & W).
  exists s'. split; [exact E |]. split; [exact H |].
  split; [exact C | exact W].
Qed.

Lemma main_rabbit_stands (cfg : RabbitConfig) (x0 y0 W H : Q) :
  let rabbit := enableMouseReaction cfg None
                  (spawnAndDrop x0 y0 (initial_world cfg no_options W H)) in
  x (this rabbit) = x0 /\ y (this rabbit) = y0
  /\ isSpawning (this rabbit) = true.
Proof. vm_compute. repeat split; reflexivity. Qed.

Lemma main_rabbit_reachable (cfg : RabbitConfig) (M : JSMath)
  (x0 y0 W H : Q) :
  reachable cfg M
    (enableMouseReaction cfg None
       (spawnAndDrop x0 y0 (initial_world cfg no_options W H))).
Proof.
  exists no_options, W, H,
    [Do (CallSpawnAndDrop x0 y0); Do (CallEnableMouseReaction None)].
  vm_compute. reflexivity.
Qed.

(** [main] ends in its [catch] only when the spritesheet fails to
    load.  When it loads, the typing does not throw: the history
    holds the one line of [wakeUpText], the current line reads
    [Follow the white rabbit.] with the cursor at its end, hidden
    after a last pause of 1500 ms; the rabbit is constructed without
    options, dropped from the left and the bottom of the cursor's
    rectangle, still spawning, with the mouse and click handlers of
    [enableMouseReaction] as the only listeners on [document]; and it
    is one of the worlds reached from a new actor. *)
Theorem main_outcome (cfg : RabbitConfig) (config : TypingConfig)
  (rand : nat -> Q) (username : option string) (rect : Rect) (W H : Q) :
  main cfg config rand username false rect W H new_Terminal = SystemError
  /\ exists s rabbit,
       main cfg config rand username true rect W H new_Terminal
       = Started s rabbit
       /\ showing [list_ascii_of_string (wakeUpText username)]
            (list_ascii_of_string "Follow the white rabbit.") (term s)
       /\ cursor_display (term s) = "none"%string
       /\ wrapper_attached (term s) = true
       /\ (exists before, slept s = before ++ [1500%Z])
       /\ hooked rabbit
       /\ x (this rabbit) = rect_left rect
       /\ y (this rabbit) = rect_bottom rect
       /\ isSpawning (this rabbit) = true
       /\ forall M, reachable cfg M rabbit.
Proof.
  split; [reflexivity |].
  destruct (run_showing config rand (introSequence username) [] []
              (mkTypist new_Terminal [] 0) new_Terminal_showing)
    as (s' & E & Hs & C & Wr).
  unfold main. rewrite E. cbv zeta. cbn [fst snd].
  pose proof (hooked_start cfg no_options W H (rect_left rect)
                (rect_bottom rect) None) as Hh.
  pose proof (main_rabbit_stands cfg (rect_left rect) (rect_bottom rect)
                W H) as Hr.
  pose proof (fun M => main_rabbit_reachable cfg M (rect_left rect)
                         (rect_bottom rect) W H) as Hm.
  cbv zeta in Hr.
  set (rabbit := enableMouseReaction cfg None _) in *. clearbody rabbit.
  do 2 eexists. split; [reflexivity |].
  cbn [term slept draws sleep].
  split; [exact Hs |]. split; [reflexivity |]. split; [exact Wr |].
  split; [exists (slept s'); reflexivity |].
  split; [exact Hh |]. destruct Hr as (Hx & Hy & Hsp).
  split; [exact Hx |]. split; [exact Hy |]. split; [exact Hsp |].
  exact Hm.
Qed.

Lemma type_appends_text_witness :
  exists s',
    type TYPING_CONFIG (fun _ => 1 # 2) (list_ascii_of_string "Wake up")
      (mkTypist new_Terminal [] 0) = Some s'
    /\ showing [] ([] ++ list_ascii_of_string "Wake up") (term s')
    /\ cursor_display (term s') = ""%string
    /\ wrapper_attached (term s') = true.
Proof.
  exact (type_appends_text TYPING_CONFIG (fun _ => 1 # 2)
           (list_ascii_of_string "Wake up") [] []
           (mkTypist new_Terminal [] 0) new_Terminal_showing).
Defined.

Lemma type_duration_witness :
  exists s' pauses,
    type TYPING_CONFIG (fun _ => 1 # 2) (list_ascii_of_string "Wake up")
      (mkTypist new_Terminal [] 0) = Some s'
    /\ slept s' = [] ++ pauses
    /\ draws s' = (0 + List.length pauses)%nat
    /\ List.length pauses = (7 + 1 + 1)%nat
    /\ Forall (fun p => (43 <= p <= 172)%Z) pauses
    /\ (60 * 7 + 87 * 1 + 43 * 1 <= total pauses
        <= 119 * 7 + 172 * 1 + 86 * 1)%Z.
Proof.
  apply (type_duration (fun _ => 1 # 2) (list_ascii_of_string "Wake up")
           [] [] (mkTypist new_Terminal [] 0)).
  - intro n. split; [discriminate | reflexivity].
  - exact new_Terminal_showing.
Defined.

Lemma typeLine_submits_witness :
  exists s',
    typeLine TYPING_CONFIG (fun _ => 1 # 2)
      (list_ascii_of_string "Wake up") (mkTypist new_Terminal [] 0)
    = Some s'
    /\ showing [list_ascii_of_string "Wake up"] [] (term s').
Proof.
  destruct (typeLine_submits TYPING_CONFIG (fun _ => 1 # 2)
              (list_ascii_of_string "Wake up") [] []
              (mkTypist new_Terminal [] 0) new_Terminal_showing)
    as (s' & E & H & _).
  exists s'. split; [exact E | exact H].
Defined.

End TerminalMethods.

Lemma getRandomDelay_within_variance_witness :
  (0 <= getRandomDelay (1 # 2) 500 (33 # 100))%Z
  /\ (334 <= getRandomDelay (1 # 2) (linePause TYPING_CONFIG)
               (variance TYPING_CONFIG) <= 665)%Z.
Proof.
  assert (H1 : 0 <= 1 # 2) by (unfold Qle; simpl; lia).
  assert (H2 : 1 # 2 < 1) by (unfold Qlt; simpl; lia).
  assert (H3 : 0 <= 500) by (unfold Qle; simpl; lia).
  assert (H4 : 0 <= 33 # 100) by (unfold Qle; simpl; lia).
  assert (H5 : 33 # 100 <= 1) by (unfold Qle; simpl; lia).
  destruct (getRandomDelay_within_variance (1 # 2) 500 (33 # 100)
              H1 H2 H3 H4 H5) as (Hn & _ & _ & _ & _ & Hl).
  split; [exact Hn | exact Hl].
Defined.

(** * The CRT effects *)

Section CrtFlicker.

Import Crt.

Lemma getActiveConfig_flicker (window : Window) :
  Qeq_bool (flickerIntensity (getActiveConfig window)) 0
  = isMobile window.
Proof.
  unfold getActiveConfig. destruct (isMobile window); reflexivity.
Qed.

Lemma getActiveConfig_desktop (window : Window) :
  isMobile window = false -> getActiveConfig window = CRT_CONFIG.
Proof. intro E. unfold getActiveConfig. rewrite E. reflexivity. Qed.

Lemma in_map_kept {A B : Type} (f : A -> B) (g : A -> bool)
  (l : list A) (b : B) :
  In b (map f (filter g l)) -> In b (map f l).
Proof.
  intro H. apply in_map_iff in H. destruct H as (a & E & Ha).
  apply filter_In in Ha. apply in_map_iff. exists a. tauto.
Qed.

Lemma NoDup_map_kept {A B : Type} (f : A -> B) (g : A -> bool)
  (l : list A) :
  NoDup (map f l) -> NoDup (map f (filter g l)).
Proof.
  induction l as [| a l IH]; intro H; [constructor |].
  cbn in *. inversion H as [| ? ? Hn Hd]. subst.
  destruct (g a); [| apply IH, Hd].
  cbn. constructor; [| apply IH, Hd].
  intro Hin. apply Hn. eapply in_map_kept, Hin.
Qed.

Lemma NoDup_app_kept {A B C : Type} (f : A -> C) (f' : B -> C)
  (g : A -> bool) (g' : B -> bool) (l : list A) (l' : list B) :
  NoDup (map f l ++ map f' l') ->
  NoDup (map f (filter g l) ++ map f' (filter g' l')).
Proof.
  intro H.
  apply NoDup_app.
  - apply NoDup_map_kept. eapply NoDup_app_remove_r, H.
  - apply NoDup_map_kept. eapply NoDup_app_remove_l, H.
  - intros c Hc Hc'. apply in_map_kept in Hc. apply in_map_kept in Hc'.
    revert c Hc Hc'. clear - H. induction (map f l) as [| a m IH];
      intros c Hc Hc'; [destruct Hc |].
    cbn in H. inversion H as [| ? ? Hn Hd]. subst.
    destruct Hc as [E | Hc].
    + subst c. apply Hn, in_or_app. right. exact Hc'.
    + exact (IH Hd c Hc Hc').
Qed.

Lemma filter_absent {A : Type} (f : A -> nat) (id : nat) (l : list A) :
  ~ In id (map f l) ->
  filter (fun a => negb (Nat.eqb (f a) id)) l = l.
Proof.
  induction l as [| a l IH]; intro H; [reflexivity |].
  cbn. assert (E : Nat.eqb (f a) id = false).
  { apply Nat.eqb_neq. intro E. apply H. left. exact E. }
  rewrite E. cbn. f_equal. apply IH. intro Hin. apply H. right. exact Hin.
Qed.

Lemma filter_the_one (id : nat) (l : list Interval) :
  map i_id l = [id] ->
  filter (fun i => negb (Nat.eqb (i_id i) id)) l = [].
Proof.
  destruct l as [| i [| j l]]; try discriminate.
  cbn. intro E. injection E as E. rewrite E, Nat.eqb_refl. reflexivity.
Qed.

Lemma apart (ids ids' : list nat) (id : nat) :
  NoDup (ids ++ ids') -> In id ids -> ~ In id ids'.
Proof.
  induction ids as [| a ids IH]; intros H Hin Hin'; [destruct Hin |].
  cbn in H. inversion H as [| ? ? Hn Hd]. subst.
  destruct Hin as [E | Hin].
  - subst a. apply Hn, in_or_app. right. exact Hin'.
  - exact (IH Hd Hin Hin').
Qed.

(** A module variable that names a timer is truthy. *)
Lemma flicker_ok_truthy (p : Page) :
  flicker_ok p ->
  truthy (flickerInterval p)
  = match flickerInterval p with
    | Some _ => true
    | None => false
    end.
Proof.
  intros (Hi & _ & Hb & _). destruct (flickerInterval p) as [[| id] |];
    try reflexivity.
  specialize (Hb 0%nat). rewrite Hi in Hb. cbn in Hb.
  assert (1 <= 0 < nextId p)%nat by (apply Hb; left; reflexivity). lia.
Qed.

Lemma stopFlicker_resets (p : Page) :
  flicker_ok p ->
  resets (stopFlicker p) = resets p /\ opacity (stopFlicker p) = opacity p
  /\ intervals (stopFlicker p) = [] /\ flickerInterval (stopFlicker p) = None.
Proof.
  intro H. pose proof (flicker_ok_truthy p H) as T.
  destruct H as (Hi & Hd & Hb & Hn & Hc).
  unfold stopFlicker. rewrite T.
  destruct (flickerInterval p) as [id |] eqn:E; cbn.
  - split; [| split; [reflexivity | split; [| reflexivity]]].
    + apply filter_absent. eapply apart; [exact Hd |].
      rewrite Hi. left. reflexivity.
    + apply filter_the_one, Hi.
  - rewrite E. repeat split; try reflexivity.
    destruct (intervals p); [reflexivity | discriminate].
Qed.

Lemma initial_ok : flicker_ok initial /\ dimmed_ok initial /\ resets_ok initial.
Proof.
  split; [| split].
  - unfold flicker_ok. cbn. repeat split; try constructor; try lia;
      intros ? [].
  - intros element value H. discriminate.
  - intros r [].
Qed.

Lemma startFlicker_ok (screenElement : option nat) (window : Window)
  (p : Page) :
  flicker_ok p -> flicker_ok (fst (startFlicker screenElement window p)).
Proof.
  intro H. pose proof (flicker_ok_truthy p H) as T.
  unfold startFlicker. destruct screenElement as [element |]; [| exact H].
  rewrite T. destruct (flickerInterval p) as [id |] eqn:E; [exact H |].
  rewrite getActiveConfig_flicker.
  destruct (isMobile window) eqn:Em; [exact H |].
  rewrite (getActiveConfig_desktop window Em).
  destruct H as (Hi & Hd & Hb & Hn & Hc). rewrite E in Hi.
  destruct (intervals p) as [| i l] eqn:El; [| discriminate].
  cbn in *. unfold flicker_ok.
  cbn [fst flickerInterval intervals resets nextId i_id map app].
  split; [reflexivity |].
  split.
  { constructor; [| exact Hd]. intro Hin. specialize (Hb _ Hin). lia. }
  split.
  { intros id [E' | Hin]; [lia | specialize (Hb _ Hin); lia]. }
  split; [lia |].
  intros i [E' | []]. subst i. reflexivity.
Qed.

Lemma step_flicker_ok (ev : Event) (p : Page) :
  flicker_ok p -> flicker_ok (step ev p).
Proof.
  intro H. destruct ev as [screenElement window | | id chance extra | id];
    cbn [step].
  - apply startFlicker_ok, H.
  - destruct (stopFlicker_resets p H) as (Er & _ & Ei & Ef).
    destruct H as (Hi & Hd & Hb & Hn & Hc).
    assert (En : nextId (stopFlicker p) = nextId p).
    { unfold stopFlicker. destruct (truthy (flickerInterval p));
        [destruct (flickerInterval p) |]; reflexivity. }
    unfold flicker_ok. rewrite Er, Ei, Ef, En. cbn.
    split; [reflexivity |].
    split; [eapply NoDup_app_remove_l, Hd |].
    split; [intros i Hin; apply Hb, in_or_app; right; exact Hin |].
    split; [exact Hn | intros i []].
  - destruct (find _ (intervals p)) as [i |]; [| exact H].
    unfold spike. destruct (Qlt_bool chance _); [| exact H].
    destruct H as (Hi & Hd & Hb & Hn & Hc).
    unfold flicker_ok. cbn. split; [exact Hi |].
    rewrite map_app, app_assoc. cbn.
    split.
    { apply NoDup_app; [exact Hd | repeat constructor; intros [] |].
      intros a Hin [E | []]. subst a. specialize (Hb _ Hin). lia. }
    split.
    { intros a Hin. apply in_app_or in Hin.
      destruct Hin as [Hin | [E | []]]; [specialize (Hb _ Hin) |]; lia. }
    split; [lia | exact Hc].
  - destruct (find _ (resets p)) as [r |]; [| exact H].
    destruct H as (Hi & Hd & Hb & Hn & Hc).
    unfold flicker_ok, reset. cbn. split; [exact Hi |].
    split.
    { pose proof (NoDup_app_kept i_id r_id (fun _ => true)
                    (fun r' => negb (Nat.eqb (r_id r') id))
                    (intervals p) (resets p) Hd) as Hf.
      assert (E : filter (fun _ : Interval => true) (intervals p)
                  = intervals p).
      { clear. induction (intervals p) as [| a l IH]; [reflexivity |].
        cbn. f_equal. exact IH. }
      rewrite E in Hf. exact Hf. }
    split.
    { intros a Hin. apply Hb. apply in_app_or in Hin. apply in_or_app.
      destruct Hin as [Hin | Hin]; [left; exact Hin |].
      right. eapply in_map_kept, Hin. }
    split; [exact Hn | exact Hc].
Qed.

Lemma run_flicker_ok (evs : list Event) (p : Page) :
  flicker_ok p -> flicker_ok (run evs p).
Proof.
  revert p. induction evs as [| ev evs IH]; intros p H; [exact H |].
  cbn [run fold_left]. apply IH, step_flicker_ok, H.
Qed.

Lemma startFlicker_look (screenElement : option nat) (window : Window)
  (p : Page) :
  resets (fst (startFlicker screenElement window p)) = resets p
  /\ opacity (fst (startFlicker screenElement window p)) = opacity p.
Proof.
  unfold startFlicker. destruct screenElement; [| auto].
  destruct (truthy _); [auto |]. destruct (Qeq_bool _ _); auto.
Qed.

Lemma step_dimmed_ok (ev : Event) (p : Page) :
  flicker_ok p -> dimmed_ok p -> dimmed_ok (step ev p).
Proof.
  intros H Hdim.
  destruct ev as [screenElement window | | id chance extra | id];
    cbn [step].
  - destruct (startFlicker_look screenElement window p) as (Er & Eo).
    unfold dimmed_ok. rewrite Er, Eo. exact Hdim.
  - destruct (stopFlicker_resets p H) as (Er & Eo & _).
    unfold dimmed_ok. rewrite Er, Eo. exact Hdim.
  - destruct (find _ (intervals p)) as [i |] eqn:Ei; [| exact Hdim].
    unfold spike. destruct (Qlt_bool chance _); [| exact Hdim].
    apply find_some in Ei. destruct Ei as (Hin & _).
    destruct H as (_ & _ & _ & _ & Hc). rewrite (Hc i Hin).
    intros element value. cbn. unfold set_opacity.
    destruct (Nat.eqb element (i_element i)) eqn:Ee.
    + intro E. injection E as E. subst value. split; [reflexivity |].
      apply Nat.eqb_eq in Ee. eexists. split.
      * apply in_or_app. right. left. reflexivity.
      * cbn. symmetry. exact Ee.
    + intro E. destruct (Hdim element value E) as (Hv & r & Hr & He).
      split; [exact Hv |]. exists r. split; [| exact He].
      apply in_or_app. left. exact Hr.
  - destruct (find _ (resets p)) as [r |] eqn:Er; [| exact Hdim].
    apply find_some in Er. destruct Er as (Hin & Eid).
    apply Nat.eqb_eq in Eid.
    intros element value. unfold reset. cbn. unfold set_opacity.
    destruct (Nat.eqb element (r_element r)) eqn:Ee; [discriminate |].
    intro E. destruct (Hdim element value E) as (Hv & r' & Hr' & He).
    split; [exact Hv |]. exists r'. split; [| exact He].
    apply filter_In. split; [exact Hr' |].
    apply Bool.negb_true_iff, Nat.eqb_neq. intro Eid'.
    assert (Err : r' = r).
    { destruct H as (_ & Hd & _). apply NoDup_app_remove_l in Hd.
      clear - Hd Hin Hr' Eid Eid'. rewrite <- Eid in Eid'. clear Eid.
      induction (resets p) as [| a l IH]; [destruct Hin |].
      cbn in Hd. inversion Hd as [| ? ? Hn Hd']. subst.
      destruct Hin as [E | Hin], Hr' as [E' | Hr']; try congruence.
      - subst a. exfalso. apply Hn. rewrite <- Eid'.
        apply in_map, Hr'.
      - subst a. exfalso. apply Hn. rewrite Eid'. apply in_map, Hin.
      - exact (IH Hd' Hin Hr'). }
    subst r'. apply Nat.eqb_neq in Ee. congruence.
Qed.

Lemma step_resets_ok (ev : Event) (p : Page) :
  draws_ok ev -> flicker_ok p -> resets_ok p -> resets_ok (step ev p).
Proof.
  intros Hev H Hres.
  destruct ev as [screenElement window | | id chance extra | id];
    cbn [step].
  - destruct (startFlicker_look screenElement window p) as (Er & _).
    unfold resets_ok. rewrite Er. exact Hres.
  - destruct (stopFlicker_resets p H) as (Er & _).
    unfold resets_ok. rewrite Er. exact Hres.
  - destruct (find _ (intervals p)) as [i |] eqn:Ei; [| exact Hres].
    unfold spike. destruct (Qlt_bool chance _); [| exact Hres].
    apply find_some in Ei. destruct Ei as (Hin & _).
    destruct H as (_ & _ & _ & _ & Hc). rewrite (Hc i Hin).
    intros r Hr. cbn in Hr. apply in_app_or in Hr.
    destruct Hr as [Hr | [E | []]]; [exact (Hres r Hr) |].
    subst r. unfold CRT_CONFIG. cbn [r_delay flickerSpikeDuration].
    cbn in Hev. destruct Hev as (_ & _ & Hlo & Hhi). lra.
  - destruct (find _ (resets p)) as [r |]; [| exact Hres].
    intros r' Hr'. cbn in Hr'. apply filter_In in Hr'.
    apply Hres, Hr'.
Qed.

Lemma run_all_ok (evs : list Event) :
  forall p,
    Forall draws_ok evs ->
    flicker_ok p -> dimmed_ok p -> resets_ok p ->
    dimmed_ok (run evs p) /\ resets_ok (run evs p).
Proof.
  induction evs as [| ev evs IH]; intros p Hev H Hdim Hres; [auto |].
  inversion Hev as [| ? ? Hev1 Hevs]. subst.
  cbn [run fold_left]. apply IH.
  - exact Hevs.
  - apply step_flicker_ok, H.
  - apply step_dimmed_ok; assumption.
  - apply step_resets_ok; assumption.
Qed.

Lemma run_ok (evs : list Event) : flicker_ok (run evs initial).
Proof. apply run_flicker_ok, initial_ok. Qed.

(** The one reset of a handle. *)
Lemma find_reset (p : Page) (r : Reset) :
  flicker_ok p -> In r (resets p) ->
  find (fun r' => Nat.eqb (r_id r') (r_id r)) (resets p) = Some r.
Proof.
  intros (_ & Hd & _) Hin. apply NoDup_app_remove_l in Hd.
  induction (resets p) as [| a l IH]; [destruct Hin |].
  cbn in *. inversion Hd as [| ? ? Hn Hd']. subst.
  destruct Hin as [E | Hin].
  - subst a. rewrite Nat.eqb_refl. reflexivity.
  - destruct (Nat.eqb (r_id a) (r_id r)) eqn:E; [| exact (IH Hd' Hin)].
    apply Nat.eqb_eq in E. exfalso. apply Hn. rewrite E.
    apply in_map, Hin.
Qed.

(** The flicker has one interval at most.  Through any calls of
    [startFlicker] and [stopFlicker], ticks and timeouts, the
    intervals alive are the one that [flickerInterval] names, if any,
    and it runs with [CRT_CONFIG] itself, the flicker being off in
    the mobile configuration.  After [stopFlicker] none is alive and
    [flickerInterval] is [null], so that no tick makes a spike. *)
Theorem flicker_single_interval (evs : list Event) :
  let p := run evs initial in
  map i_id (intervals p)
  = match flickerInterval p with
    | Some id => [id]
    | None => []
    end
  /\ (List.length (intervals p) <= 1)%nat
  /\ (forall i, In i (intervals p) -> i_config i = CRT_CONFIG)
  /\ intervals (stopFlicker p) = []
  /\ flickerInterval (stopFlicker p) = None
  /\ forall id chance extra,
       step (Tick id chance extra) (stopFlicker p) = stopFlicker p.
Proof.
  intro p. pose proof (run_ok evs) as H. fold p in H.
  destruct (stopFlicker_resets p H) as (_ & _ & Ei & Ef).
  destruct H as (Hi & _ & _ & _ & Hc).
  split; [exact Hi |]. split.
  { rewrite <- (length_map i_id), Hi.
    destruct (flickerInterval p); cbn; lia. }
  split; [exact Hc |]. split; [exact Ei |]. split; [exact Ef |].
  intros id chance extra. cbn [step]. rewrite Ei. reflexivity.
Qed.

(** A dimmed screen has its reset pending.  Through any calls, ticks
    and timeouts, with draws in [[0, 1)], an element with an inline
    opacity has the opacity 0 of a spike and a pending timeout that
    resets it, set for 50000 ms at least and 50100 ms at most.
    [stopFlicker] leaves the pending resets and the opacity as they
    are, and a reset that fires removes the opacity of its
    element. *)
Theorem dimmed_screen_has_reset (evs : list Event)
  (draws : Forall draws_ok evs) :
  let p := run evs initial in
  (forall element value,
      opacity p element = Some value ->
      value == 0
      /\ exists r,
           In r (resets p) /\ r_element r = element
           /\ 50000 <= r_delay r /\ r_delay r <= 50100)
  /\ resets (stopFlicker p) = resets p
  /\ opacity (stopFlicker p) = opacity p
  /\ forall r, In r (resets p) ->
       opacity (step (Fire (r_id r)) p) (r_element r) = None.
Proof.
  intro p. pose proof (run_ok evs) as H. fold p in H.
  destruct initial_ok as (H0 & D0 & R0).
  destruct (run_all_ok evs initial draws H0 D0 R0) as (Hdim & Hres).
  fold p in Hdim, Hres.
  destruct (stopFlicker_resets p H) as (Er & Eo & _).
  split.
  { intros element value E. destruct (Hdim element value E) as (Hv & r & Hr & He).
    split; [rewrite Hv; reflexivity |]. exists r.
    destruct (Hres r Hr) as (Hlo & Hhi). cbn in Hlo, Hhi.
    split; [exact Hr |]. split; [exact He |]. split; [exact Hlo |].
    lra. }
  split; [exact Er |]. split; [exact Eo |].
  intros r Hr. cbn [step]. rewrite (find_reset p r H Hr).
  unfold reset, set_opacity. cbn. rewrite Nat.eqb_refl. reflexivity.
Qed.

(** When [startFlicker] starts the flicker.  On a page reached by any
    calls, ticks and timeouts, [startFlicker(screenElement)] returns a
    handle exactly when the element is given, [flickerInterval] is
    [null] and the window is not a mobile one; the handle is then
    recorded and its interval, on that element with [CRT_CONFIG], the
    only one alive.  Otherwise it changes nothing; so on a window of
    768 px or less, and while a flicker runs. *)
Theorem startFlicker_starts_iff (evs : list Event)
  (screenElement : option nat) (window : Window) :
  let p := run evs initial in
  let result := startFlicker screenElement window p in
  (snd result <> None
   <-> screenElement <> None /\ flickerInterval p = None
       /\ isMobile window = false)
  /\ (snd result = None -> fst result = p)
  /\ (forall id,
        snd result = Some id ->
        flickerInterval (fst result) = Some id
        /\ exists element,
             screenElement = Some element
             /\ intervals (fst result)
                = [mkInterval id element CRT_CONFIG])
  /\ (Qle_bool (innerWidth window) 768 = true -> fst result = p)
  /\ (flickerInterval p <> None -> fst result = p).
Proof.
  intros p result. pose proof (run_ok evs) as H. fold p in H.
  pose proof (flicker_ok_truthy p H) as T.
  destruct H as (Hi & _).
  assert (Hm : Qle_bool (innerWidth window) 768 = true ->
               isMobile window = true).
  { intro E. unfold isMobile. rewrite E. reflexivity. }
  subst result. unfold startFlicker.
  destruct screenElement as [element |].
  2: { cbn. repeat split; try tauto; try discriminate. }
  rewrite T, getActiveConfig_flicker.
  destruct (flickerInterval p) as [id0 |] eqn:Ef.
  { cbn. repeat split; try tauto; try discriminate.
    intros (_ & Hn & _). discriminate. }
  destruct (isMobile window) eqn:Em.
  { cbn. repeat split; try tauto; try discriminate.
    intros (_ & _ & Hn). discriminate. }
  rewrite (getActiveConfig_desktop window Em). cbn.
  destruct (intervals p) as [| i l]; [| discriminate].
  split; [split; [intros _; repeat split; discriminate | discriminate] |].
  split; [discriminate |].
  split.
  { intros h E. injection E as E. subst h. split; [reflexivity |].
    exists element. split; reflexivity. }
  split; [| intro C; contradiction].
  intro E. specialize (Hm E). discriminate.
Qed.

Lemma dimmed_screen_has_reset_witness :
  Forall draws_ok exampleFlicker
  /\ opacity (run exampleFlicker initial) 7%nat = Some (1 - 1)
  /\ exists r,
       In r (resets (run exampleFlicker initial))
       /\ r_element r = 7%nat /\ 50000 <= r_delay r.
Proof.
  assert (Hd : Forall draws_ok exampleFlicker).
  { repeat constructor; unfold Qle, Qlt; simpl; lia. }
  split; [exact Hd |]. split; [reflexivity |].
  destruct (dimmed_screen_has_reset exampleFlicker Hd) as (H & _).
  destruct (H 7%nat (1 - 1) eq_refl) as (_ & r & Hin & He & Hlo & _).
  exists r. repeat split; assumption.
Defined.

End CrtFlicker.

(** ** [spawnAndDrop] on an actor already spawned *)

(** A second [spawnAndDrop] loses track of the first early handler.
    On an actor just dropped, [spawnAndDrop] moves the actor, warns
    [Sprite already spawned] and creates no element; it does not
    request a second frame, but it puts a second [animationend]
    listener on the element and a second [mousemove] listener on
    [document], and [earlyMouseHandler] names the second only.  So
    the first stays on [document] after [enableMouseReaction], after
    [disableMouseReaction] and after [destroy], which remove all the
    others. *)
Theorem second_spawnAndDrop_leaves_listener (cfg : RabbitConfig)
  (options : Options) (W H x0 y0 x1 y1 : Q) (threshold : option Q) :
  let w1 := spawnAndDrop x0 y0 (initial_world cfg options W H) in
  let w2 := spawnAndDrop x1 y1 w1 in
  exists first second,
    h_id first <> h_id second
    /\ documentListeners (host w1) = [mkDocListener "mousemove" first false]
    /\ documentListeners (host w2)
       = [mkDocListener "mousemove" first false;
          mkDocListener "mousemove" second false]
    /\ earlyMouseHandler (this w2) = Some second
    /\ console (host w2) = ["Sprite already spawned"%string]
    /\ x (this w2) = x1 /\ y (this w2) = y1
    /\ option_map style_left (option_map style (element (this w2)))
       = Some (Some x1)
    /\ animationFrameRequests (host w2) = animationFrameRequests (host w1)
    /\ List.length (listeners_of w1) = 1%nat
    /\ List.length (listeners_of w2) = 2%nat
    /\ (exists mh ch,
          documentListeners (host (enableMouseReaction cfg threshold w2))
          = [mkDocListener "mousemove" first false;
             mkDocListener "mousemove" mh false;
             mkDocListener "click" ch false])
    /\ documentListeners (host (disableMouseReaction w2))
       = [mkDocListener "mousemove" first false]
    /\ documentListeners (host (destroy w2))
       = [mkDocListener "mousemove" first false]
    /\ documentListeners
         (host (destroy (enableMouseReaction cfg threshold w2)))
       = [mkDocListener "mousemove" first false].
Proof.
  cbv zeta. do 2 eexists. vm_compute.
  split; [| split; [reflexivity |]].
  2: { split; [reflexivity |]. repeat split; try reflexivity.
       do 2 eexists. reflexivity. }
  discriminate.
Qed.

(** ** What [destroy] takes off [document] *)

Section Tracking.

Variable cfg : RabbitConfig.
Variable M : JSMath.

Ltac tracked_start w H :=
  destruct_world w; unfold tracked_ok in H |- *;
  cbn [this host eventHandlers mouseHandler clickHandler nextId] in H.

(** The goal for a world that tracks what the world of [H] tracks. *)
Ltac tracked_same H :=
  let Hb := fresh "Hb" in
  let Hm := fresh "Hm" in
  let Hc := fresh "Hc" in
  world_red; destruct H as (Hb & Hm & Hc);
  (split; [| split]);
  [ let t := fresh "t" in
    let Ht := fresh "Ht" in
    intros t Ht; specialize (Hb t Ht); lia
  | exact Hm
  | exact Hc ].

Lemma tracked_events : kept_by_events cfg M tracked_ok.
Proof.
  constructor.
  - intros e w H. tracked_start w H. tracked_same H.
  - intros d w H. tracked_start w H. cases_updateGlow; tracked_same H.
  - intros b w H. tracked_start w H. tracked_same H.
  - intros rnd w H. tracked_start w H. cases_jump; tracked_same H.
  - intros res w H. tracked_start w H. cases_then res; tracked_same H.
  - intros e env w H. tracked_start w H. cases_clickHandler; tracked_same H.
  - intros self w H. tracked_start w H. cases_onSpawnEnd; tracked_same H.
  - intros self d first p w H. tracked_start w H. cases_onJumpEnd first;
      tracked_same H.
  - intros id w H. tracked_start w H. cases_timeout; tracked_same H.
  - apply frame_keeps.
    + intros l w H. tracked_start w H. tracked_same H.
    + intros rc w H. tracked_start w H.
      destruct r_lastMouseX, r_lastMouseY, r_element; tracked_same H.
  - intros W H w Hw. tracked_start w Hw. cbn [handle]. tracked_same Hw.
Qed.

(** The two subscriptions of [enableMouseReaction] have identities of
    their own. *)
Lemma tracked_enable (evs : list Tracked) (n : nat) (k : HandlerKind) :
  (forall t, In t evs -> (h_id (tr_handler t) < n)%nat) ->
  (forall t,
     In t ((evs ++ [mkTracked document "mousemove" (mkHandler n k)])
           ++ [mkTracked document "click" (mkHandler (S n) ClickHandler)]) ->
     (h_id (tr_handler t) < S (S n))%nat)
  /\ (forall mh t,
        Some (mkHandler n k) = Some mh ->
        In t ((evs ++ [mkTracked document "mousemove" (mkHandler n k)])
              ++ [mkTracked document "click"
                    (mkHandler (S n) ClickHandler)]) ->
        Handler_same (tr_handler t) mh = true ->
        tr_event t = "mousemove"%string)
  /\ (forall ch t,
        Some (mkHandler (S n) ClickHandler) = Some ch ->
        In t ((evs ++ [mkTracked document "mousemove" (mkHandler n k)])
              ++ [mkTracked document "click"
                    (mkHandler (S n) ClickHandler)]) ->
        Handler_same (tr_handler t) ch = true ->
        tr_event t = "click"%string).
Proof.
  intro Hb.
  assert (Hin : forall t,
             In t ((evs ++ [mkTracked document "mousemove" (mkHandler n k)])
                   ++ [mkTracked document "click"
                         (mkHandler (S n) ClickHandler)]) ->
             In t evs
             \/ t = mkTracked document "mousemove" (mkHandler n k)
             \/ t = mkTracked document "click"
                      (mkHandler (S n) ClickHandler)).
  { intros t Ht. apply in_app_or in Ht. destruct Ht as [Ht | [E | []]];
      [| right; right; symmetry; exact E].
    apply in_app_or in Ht. destruct Ht as [Ht | [E | []]];
      [left; exact Ht | right; left; symmetry; exact E]. }
  split; [| split].
  - intros t Ht. destruct (Hin t Ht) as [Ho | [E | E]];
      [specialize (Hb t Ho); lia | subst t; cbn; lia | subst t; cbn; lia].
  - intros mh t E Ht Hs. injection E as E. subst mh.
    unfold Handler_same in Hs. cbn [h_id] in Hs. apply Nat.eqb_eq in Hs.
    destruct (Hin t Ht) as [Ho | [E | E]].
    + specialize (Hb t Ho). lia.
    + subst t. reflexivity.
    + subst t. cbn in Hs. lia.
  - intros ch t E Ht Hs. injection E as E. subst ch.
    unfold Handler_same in Hs. cbn [h_id] in Hs. apply Nat.eqb_eq in Hs.
    destruct (Hin t Ht) as [Ho | [E | E]].
    + specialize (Hb t Ho). lia.
    + subst t. cbn in Hs. lia.
    + subst t. reflexivity.
Qed.

Lemma tracked_calls : kept_by_calls cfg tracked_ok.
Proof.
  constructor.
  - intros w H. tracked_start w H. cases_spawn; tracked_same H.
  - intros x' y' w H. tracked_start w H. cases_updateGlow; tracked_same H.
  - intros x' y' w H. tracked_start w H. cases_spawnAndDrop; tracked_same H.
  - intros w H. tracked_start w H. destruct r_glowAnimationId;
      tracked_same H.
  - intros w H. tracked_start w H. destruct r_glowAnimationId;
      tracked_same H.
  - intros thr w H. tracked_start w H. cases_enableMouseReaction;
      first [ tracked_same H
            | apply tracked_enable; exact (proj1 H) ].
  - intros w H. tracked_start w H. destruct H as (Hb & _).
    cases_disableMouseReaction;
      (split; [| split; intros ? ? E; discriminate E]);
      intros t Ht; repeat (apply filter_In in Ht; destruct Ht as [Ht _]);
      exact (Hb t Ht).
  - intros w H. rewrite Sprite_destroy_unfold.
    destruct (isDestroyed (this w)); [exact H |].
    unfold tracked_ok. destruct_world w. cbn.
    split; [| split]; try (intros ? ? _ []). intros t [].
Qed.

Lemma tracked_run (tr : list Action) (w : World) :
  tracked_ok w -> tracked_ok (run cfg M tr w).
Proof.
  apply (run_keeps cfg M tracked_ok tracked_events); [| apply tracked_calls].
  intros event h w' H. tracked_start w' H. tracked_same H.
Qed.

Lemma tracked_reachable (w : World) : reachable cfg M w -> tracked_ok w.
Proof.
  intros (options & W & H & tr & ->). apply tracked_run.
  unfold tracked_ok. cbn. split; [| split]; try (intros ? ? E; discriminate E).
  intros t [].
Qed.

(** A listener taken off [document] is off for the subscription that
    names it. *)
Lemma removed_off (event : string) (h : Handler) (t : Tracked)
  (ls : list DocListener) :
  tr_event t = event ->
  Handler_same (tr_handler t) h = true ->
  existsb (same_listener (tr_event t) (tr_handler t))
    (filter (fun l => negb (same_listener event h l)) ls) = false.
Proof.
  intros Ee Eh.
  assert (E : forall l,
             same_listener (tr_event t) (tr_handler t) l
             = same_listener event h l).
  { intro l. unfold same_listener, Handler_same in *. rewrite Ee.
    apply Nat.eqb_eq in Eh. rewrite Eh. reflexivity. }
  induction ls as [| l ls IH]; [reflexivity |].
  cbn [filter]. destruct (same_listener event h l) eqn:El; cbn [negb];
    [exact IH |].
  cbn [existsb]. rewrite E, El, IH. reflexivity.
Qed.

(** [disableMouseReaction] takes off [document] what it takes off the
    tracked list. *)
Lemma disableMouseReaction_tracked (w : World) (t : Tracked) :
  tracked_ok w ->
  In t (eventHandlers (this w)) ->
  In t (eventHandlers (this (disableMouseReaction w)))
  \/ subscribed (host (disableMouseReaction w)) t = false.
Proof.
  intros H Ht. tracked_start w H. cbn [this eventHandlers] in Ht.
  destruct H as (_ & Hm & Hc). unfold subscribed.
  cases_disableMouseReaction.
  all: try (left; exact Ht).
  all: repeat match goal with
         | hh : Handler |- _ =>
             lazymatch goal with
             | _ : Handler_same _ hh = _ |- _ => fail
             | _ => destruct (Handler_same (tr_handler t) hh) eqn:?
             end
         end.
  all: first
         [ left;
           repeat (apply filter_In; split); [exact Ht | ..];
           cbn beta;
           match goal with
           | E : Handler_same _ _ = false |- negb _ = true =>
               rewrite E; reflexivity
           end
         | right;
           repeat first
             [ apply removed_off;
               [ first [ apply (Hm _ t eq_refl Ht); assumption
                       | apply (Hc _ t eq_refl Ht); assumption ]
               | assumption ]
             | apply existsb_filter_false ] ].
Qed.

(** The handlers that [this] names are off [document] after
    [disableMouseReaction]. *)
Lemma disableMouseReaction_off (w : World) :
  (forall h, mouseHandler (this w) = Some h ->
     subscribed (host (disableMouseReaction w))
       (mkTracked document "mousemove" h) = false)
  /\ (forall h, clickHandler (this w) = Some h ->
        subscribed (host (disableMouseReaction w))
          (mkTracked document "click" h) = false)
  /\ (forall h, earlyMouseHandler (this w) = Some h ->
        subscribed (host (disableMouseReaction w))
          (mkTracked document "mousemove" h) = false).
Proof.
  destruct_world w. unfold subscribed. cbn [tr_event tr_handler].
  cases_disableMouseReaction.
  all: split; [| split]; intros k E; try discriminate E;
    injection E as E; subst k;
    repeat first [ apply existsb_filter_negb | apply existsb_filter_false ].
Qed.

(** Claim C7.  [destroy] is idempotent: from every state, a second call
    changes nothing, and [destroy] can throw nowhere.  After the first
    call on an actor (one not yet destroyed) no subscription and no
    timer is tracked, the handlers and the glow loop are cleared, and
    the element is gone: [this] has forgotten it, the page held it
    through [this.element] alone, and the end of an animation reaches
    nothing.  The handlers that [this] named are off [document], none
    of the tracked timeouts is pending, and, in every state that calls
    and events lead to from a new actor, each subscription that was
    tracked before the call is off [document]. *)
Theorem destroy_idempotent (w : World) :
  destroy (destroy w) = destroy w
  /\ isDestroyed (this (destroy w)) = true
  /\ (isDestroyed (this w) = false ->
      eventHandlers (this (destroy w)) = []
      /\ timers (this (destroy w)) = []
      /\ element (this (destroy w)) = None
      /\ quiet (this (destroy w))
      /\ (forall t,
            In t (eventHandlers (this (disableMouseReaction w))) ->
            subscribed (host (destroy w)) t = false)
      /\ (forall id,
            In id (timers (this w)) -> pending (host (destroy w)) id = false)
      /\ (forall h, mouseHandler (this w) = Some h ->
            subscribed (host (destroy w))
              (mkTracked document "mousemove" h) = false)
      /\ (forall h, clickHandler (this w) = Some h ->
            subscribed (host (destroy w))
              (mkTracked document "click" h) = false)
      /\ (forall h, earlyMouseHandler (this w) = Some h ->
            subscribed (host (destroy w))
              (mkTracked document "mousemove" h) = false)
      /\ spawned (destroy w) = false
      /\ (forall name,
            handle cfg M (AnimationEnd name) (destroy w) = destroy w)
      /\ (reachable cfg M w ->
          forall t,
            In t (eventHandlers (this w)) ->
            subscribed (host (destroy w)) t = false)).
Proof.
  unfold destroy.
  pose proof (disableMouseReaction_quiet w) as Hq.
  pose proof (Sprite_destroy_quiet _ Hq) as Hq'.
  split; [| split].
  - rewrite (disableMouseReaction_when_quiet _ Hq').
    apply Sprite_destroy_destroyed, Sprite_destroy_isDestroyed.
  - apply Sprite_destroy_isDestroyed.
  - intro Hlive. rewrite <- disableMouseReaction_isDestroyed in Hlive.
    assert (Htimers : timers (this (disableMouseReaction w))
                      = timers (this w)).
    { destruct_world w. unfold disableMouseReaction, stopGlowAnimation.
      destruct r_glowAnimationId, r_earlyMouseHandler, r_mouseHandler,
        r_clickHandler; reflexivity. }
    assert (Hoff : forall t,
               In t (eventHandlers (this (disableMouseReaction w)))
               \/ subscribed (host (disableMouseReaction w)) t = false ->
               subscribed (host (Sprite.destroy (disableMouseReaction w))) t
               = false).
    { intros t Ht. rewrite Sprite_destroy_unfold, Hlive. cbn [host].
      unfold subscribed. rewrite clear_timeouts_documentListeners.
      apply remove_all_subscriptions. exact Ht. }
    assert (Hel : element (this (Sprite.destroy (disableMouseReaction w)))
                  = None)
      by (rewrite Sprite_destroy_unfold, Hlive; reflexivity).
    destruct (disableMouseReaction_off w) as (Om & Oc & Oe).
    split; [rewrite Sprite_destroy_unfold, Hlive; reflexivity |].
    split; [rewrite Sprite_destroy_unfold, Hlive; reflexivity |].
    split; [exact Hel |]. split; [exact Hq' |].
    split; [intros t Ht; apply Hoff; left; exact Ht |].
    split.
    { intros id Hid. rewrite Sprite_destroy_unfold, Hlive. cbn [host].
      apply clear_all_timeouts. left. rewrite Htimers. exact Hid. }
    split; [intros h E; apply Hoff; right; apply Om, E |].
    split; [intros h E; apply Hoff; right; apply Oc, E |].
    split; [intros h E; apply Hoff; right; apply Oe, E |].
    split; [unfold spawned; rewrite Hel; reflexivity |].
    split; [intro name; cbn [handle]; rewrite Hel; reflexivity |].
    intros Hr t Ht. apply Hoff.
    apply disableMouseReaction_tracked; [apply tracked_reachable, Hr |].
    exact Ht.
Qed.

End Tracking.

(** [destroy_idempotent] at [exampleCooling], an actor with two tracked
    subscriptions, both on [document], and the timeout of its cooldown
    pending: after [destroy] nothing is tracked, the element is gone
    and the end of an animation reaches nothing, the timeout is no
    longer pending and neither subscription is on [document]. *)
Lemma destroy_idempotent_witness :
  let w := exampleCooling in
  (timers (this w) = [9%nat]
   /\ pending (host w) 9 = true
   /\ List.length (eventHandlers (this w)) = 2%nat
   /\ forallb (subscribed (host w)) (eventHandlers (this w)) = true)
  /\ destroy (destroy w) = destroy w
  /\ eventHandlers (this (destroy w)) = []
  /\ timers (this (destroy w)) = []
  /\ element (this (destroy w)) = None
  /\ spawned (destroy w) = false
  /\ handle exampleConfig exampleMath (AnimationEnd "rabbit-jump-sprite")
       (destroy w)
     = destroy w
  /\ pending (host (destroy w)) 9 = false
  /\ (forall t,
        In t (eventHandlers (this w)) ->
        subscribed (host (destroy w)) t = false).
Proof.
  cbv zeta.
  assert (before : timers (this exampleCooling) = [9%nat]
                   /\ pending (host exampleCooling) 9 = true
                   /\ List.length (eventHandlers (this exampleCooling))
                      = 2%nat
                   /\ forallb (subscribed (host exampleCooling))
                        (eventHandlers (this exampleCooling)) = true).
  { vm_compute. repeat split. }
  assert (live : isDestroyed (this exampleCooling) = false)
    by (vm_compute; reflexivity).
  assert (reached : reachable exampleConfig exampleMath exampleCooling).
  { exists no_options, 1000, 800, exampleLife. reflexivity. }
  destruct (destroy_idempotent exampleConfig exampleMath exampleCooling)
    as (Hidem & _ & Hfirst).
  destruct (Hfirst live)
    as (He & Ht & Hel & _ & _ & Hp & _ & _ & _ & Hs & Ha & Hsub).
  split; [exact before |]. split; [exact Hidem |]. split; [exact He |].
  split; [exact Ht |]. split; [exact Hel |]. split; [exact Hs |].
  split; [apply Ha |].
  split; [apply Hp; rewrite (proj1 before); left; reflexivity |].
  exact (Hsub reached).
Defined.

(** ** A jump called by the page *)

(** Claim C6, as stated, fails: [jump] itself neither tests nor sets
    the jumping flag.  After the page has called it on the idle actor,
    a pointer move next to the actor starts a second jump while the
    first is in flight: two promises are pending and two [onJumpEnd]
    listeners registered. *)
Lemma direct_jump_two_in_flight :
  let w :=
    run exampleConfig exampleMath
      [Do (CallSpawnAndDrop 100 0); Do (CallEnableMouseReaction None);
       On (AnimationEnd "rabbit-spawn-drop");
       Do (CallJump 0);
       On (MouseMove (mkMouseEvent 164 800)
             (mkAmbient (mkRect 100 128 800) 0))]
      (initial_world exampleConfig no_options 1000 800) in
  List.length (jumpPromises (host w)) = 2%nat
  /\ ~ (List.length (jumpPromises (host w)) <= 1)%nat
  /\ List.length (filter is_jump (listeners_of w)) = 2%nat.
Proof.
  vm_compute. split; [reflexivity |]. split; [| reflexivity].
  intro H. apply Nat.leb_le in H. discriminate H.
Qed.
